(** * The profiling engine of foundation_lib (foundation/profile.c)

    A shallow embedding of the block pool, the per-thread open tree, the
    root hand-off list and the I/O thread of [profile.c], followed by the
    properties of the engine that are proved about it.

    Conventions of the embedding.
    - Machine integers are [Z] with the wrap-around written out ([u16],
      [u32], [i32], [i64]).
    - The pool [_profile_blocks] is a [list profile_block]; a slot is its
      index.  Reading or writing outside the buffer is undefined in C and is
      [None] here, as is a loop that never ends.
    - Every public operation is one atomic step: the compare-and-swap loops
      see the value they have just loaded, so each retry loop runs its body
      once.
    - The external sources (thread id, CPU index, clock) are the fields of
      an [env] value handed to each call. *)

From Stdlib Require Import ZArith Lia Bool.
From Stdlib Require Import Strings.Byte.
From stdpp Require Import base option list gmap.

Local Open Scope Z_scope.

#[local] Set Warnings "-clear-no-such-hyp".

(** ** Machine integers *)

Definition u16 (z : Z) : Z := z mod 65536.
Definition u32 (z : Z) : Z := z mod 4294967296.
Definition u64 (z : Z) : Z := z mod 18446744073709551616.
Definition i32 (z : Z) : Z := (z + 2147483648) mod 4294967296 - 2147483648.
Definition i64 (z : Z) : Z :=
  (z + 9223372036854775808) mod 18446744073709551616 - 9223372036854775808.

(** ** Records (struct _profile_block_data, struct _profile_block) *)

Definition MAX_MESSAGE_LENGTH : Z := 25.

(** sizeof(block->data.name) = MAX_MESSAGE_LENGTH + 1 *)
Definition NAME_SIZE : nat := 26.

Record profile_block_data := {
  id : Z;
  parentid : Z;
  processor : Z;
  thread : Z;
  start : Z;
  end_ : Z;
  name : list byte
}.

Record profile_block := {
  data : profile_block_data;
  previous : Z;
  sibling : Z;
  child : Z
}.

(** memset(block, 0, sizeof(profile_block_t)) *)
Definition zero_data : profile_block_data :=
  {| id := 0; parentid := 0; processor := 0; thread := 0; start := 0;
     end_ := 0; name := replicate NAME_SIZE x00 |}.

Definition zero_block : profile_block :=
  {| data := zero_data; previous := 0; sibling := 0; child := 0 |}.

Definition with_data (d : profile_block_data) (b : profile_block) : profile_block :=
  {| data := d; previous := previous b; sibling := sibling b; child := child b |}.
Definition with_previous (v : Z) (b : profile_block) : profile_block :=
  {| data := data b; previous := v; sibling := sibling b; child := child b |}.
Definition with_sibling (v : Z) (b : profile_block) : profile_block :=
  {| data := data b; previous := previous b; sibling := v; child := child b |}.
Definition with_child (v : Z) (b : profile_block) : profile_block :=
  {| data := data b; previous := previous b; sibling := sibling b; child := v |}.

Definition with_id (v : Z) (d : profile_block_data) : profile_block_data :=
  {| id := v; parentid := parentid d; processor := processor d;
     thread := thread d; start := start d; end_ := end_ d; name := name d |}.
Definition with_end (v : Z) (d : profile_block_data) : profile_block_data :=
  {| id := id d; parentid := parentid d; processor := processor d;
     thread := thread d; start := start d; end_ := v; name := name d |}.

(** ** Strings *)

(** Modelled from the spec: [string_copy] and [string_length] belong to the
    string utilities that the specification leaves outside the engine
    (section 1) and are not part of profile.c.  The call sites fix their
    contract: the name field has MAX_MESSAGE_LENGTH + 1 bytes, a long
    message advances by MAX_MESSAGE_LENGTH bytes per segment, and
    [profile_update_block] takes [string_length] of a name field, so a copy
    stores at most [capacity - 1] bytes of the source followed by a NUL and
    leaves the rest of the destination as it was. *)
Definition string_copy (dst : list byte) (capacity : nat) (src : list byte)
    (length : Z) : list byte :=
  match capacity with
  | O => dst
  | S c =>
      let n := if Z.of_nat capacity <=? length then c else Z.to_nat length in
      take n src ++ x00 :: drop (S n) dst
  end.

Fixpoint string_length (s : list byte) : Z :=
  match s with
  | [] => 0
  | c :: s' => if Byte.eqb c x00 then 0 else 1 + string_length s'
  end.

(** ** The external sources read during one call *)

Record env := {
  thread_id : Z;          (* thread_id() *)
  thread_hardware : Z;    (* thread_hardware() *)
  time_current : Z        (* time_current() *)
}.

(** ** Diagnostics written through log_error / log_warnf *)

Inductive log_entry :=
| LogExhaustedIncreaseSize
| LogExhaustedDecreaseWait
| LogRootStillActive
| LogBlockHasSibling (free_block : Z)
| LogLostBlocks (found total : Z)
| LogThreadCleanup (block_index : Z)
| LogSelfReference (block_index : Z).

(** ** The statics of profile.c *)

(** What [_profile_write] received: the pointer it was given (the slot for
    a pool record, [None] for a record on the I/O thread's stack) and the
    64 bytes behind it. *)
Definition written : Type := option Z * profile_block.

(** The locals of a running [_profile_io]. *)
Record io_locals := {
  system_info_counter : Z;
  system_info : profile_block
}.

Record profile_state := {
  _profile_identifier : list byte;
  _profile_counter : Z;
  _profile_loopid : Z;
  _profile_free : Z;
  _profile_root : Z;
  _profile_blocks : list profile_block;
  _profile_ground_time : Z;
  _profile_enable : Z;
  _profile_write : bool;                 (* is the writer set *)
  _profile_num_blocks : Z;
  _profile_wait : Z;
  has_warned : Z;                        (* static of _profile_allocate_block *)
  profile_block_tls : gmap Z Z;          (* thread-local profile_block, by thread *)
  io_thread : option io_locals;          (* the I/O thread, while it runs *)
  sink : list written;                   (* calls of _profile_write, oldest first *)
  messages : list log_entry              (* diagnostics, oldest first *)
}.

Definition set_counter (v : Z) (st : profile_state) : profile_state :=
  {| _profile_identifier := _profile_identifier st; _profile_counter := v;
     _profile_loopid := _profile_loopid st; _profile_free := _profile_free st;
     _profile_root := _profile_root st; _profile_blocks := _profile_blocks st;
     _profile_ground_time := _profile_ground_time st;
     _profile_enable := _profile_enable st; _profile_write := _profile_write st;
     _profile_num_blocks := _profile_num_blocks st; _profile_wait := _profile_wait st;
     has_warned := has_warned st; profile_block_tls := profile_block_tls st;
     io_thread := io_thread st; sink := sink st; messages := messages st |}.

Definition set_loopid (v : Z) (st : profile_state) : profile_state :=
  {| _profile_identifier := _profile_identifier st; _profile_counter := _profile_counter st;
     _profile_loopid := v; _profile_free := _profile_free st;
     _profile_root := _profile_root st; _profile_blocks := _profile_blocks st;
     _profile_ground_time := _profile_ground_time st;
     _profile_enable := _profile_enable st; _profile_write := _profile_write st;
     _profile_num_blocks := _profile_num_blocks st; _profile_wait := _profile_wait st;
     has_warned := has_warned st; profile_block_tls := profile_block_tls st;
     io_thread := io_thread st; sink := sink st; messages := messages st |}.

Definition set_free (v : Z) (st : profile_state) : profile_state :=
  {| _profile_identifier := _profile_identifier st; _profile_counter := _profile_counter st;
     _profile_loopid := _profile_loopid st; _profile_free := v;
     _profile_root := _profile_root st; _profile_blocks := _profile_blocks st;
     _profile_ground_time := _profile_ground_time st;
     _profile_enable := _profile_enable st; _profile_write := _profile_write st;
     _profile_num_blocks := _profile_num_blocks st; _profile_wait := _profile_wait st;
     has_warned := has_warned st; profile_block_tls := profile_block_tls st;
     io_thread := io_thread st; sink := sink st; messages := messages st |}.

Definition set_root (v : Z) (st : profile_state) : profile_state :=
  {| _profile_identifier := _profile_identifier st; _profile_counter := _profile_counter st;
     _profile_loopid := _profile_loopid st; _profile_free := _profile_free st;
     _profile_root := v; _profile_blocks := _profile_blocks st;
     _profile_ground_time := _profile_ground_time st;
     _profile_enable := _profile_enable st; _profile_write := _profile_write st;
     _profile_num_blocks := _profile_num_blocks st; _profile_wait := _profile_wait st;
     has_warned := has_warned st; profile_block_tls := profile_block_tls st;
     io_thread := io_thread st; sink := sink st; messages := messages st |}.

Definition set_blocks (v : list profile_block) (st : profile_state) : profile_state :=
  {| _profile_identifier := _profile_identifier st; _profile_counter := _profile_counter st;
     _profile_loopid := _profile_loopid st; _profile_free := _profile_free st;
     _profile_root := _profile_root st; _profile_blocks := v;
     _profile_ground_time := _profile_ground_time st;
     _profile_enable := _profile_enable st; _profile_write := _profile_write st;
     _profile_num_blocks := _profile_num_blocks st; _profile_wait := _profile_wait st;
     has_warned := has_warned st; profile_block_tls := profile_block_tls st;
     io_thread := io_thread st; sink := sink st; messages := messages st |}.

Definition set_enable (v : Z) (st : profile_state) : profile_state :=
  {| _profile_identifier := _profile_identifier st; _profile_counter := _profile_counter st;
     _profile_loopid := _profile_loopid st; _profile_free := _profile_free st;
     _profile_root := _profile_root st; _profile_blocks := _profile_blocks st;
     _profile_ground_time := _profile_ground_time st;
     _profile_enable := v; _profile_write := _profile_write st;
     _profile_num_blocks := _profile_num_blocks st; _profile_wait := _profile_wait st;
     has_warned := has_warned st; profile_block_tls := profile_block_tls st;
     io_thread := io_thread st; sink := sink st; messages := messages st |}.

Definition set_write (v : bool) (st : profile_state) : profile_state :=
  {| _profile_identifier := _profile_identifier st; _profile_counter := _profile_counter st;
     _profile_loopid := _profile_loopid st; _profile_free := _profile_free st;
     _profile_root := _profile_root st; _profile_blocks := _profile_blocks st;
     _profile_ground_time := _profile_ground_time st;
     _profile_enable := _profile_enable st; _profile_write := v;
     _profile_num_blocks := _profile_num_blocks st; _profile_wait := _profile_wait st;
     has_warned := has_warned st; profile_block_tls := profile_block_tls st;
     io_thread := io_thread st; sink := sink st; messages := messages st |}.

Definition set_wait (v : Z) (st : profile_state) : profile_state :=
  {| _profile_identifier := _profile_identifier st; _profile_counter := _profile_counter st;
     _profile_loopid := _profile_loopid st; _profile_free := _profile_free st;
     _profile_root := _profile_root st; _profile_blocks := _profile_blocks st;
     _profile_ground_time := _profile_ground_time st;
     _profile_enable := _profile_enable st; _profile_write := _profile_write st;
     _profile_num_blocks := _profile_num_blocks st; _profile_wait := v;
     has_warned := has_warned st; profile_block_tls := profile_block_tls st;
     io_thread := io_thread st; sink := sink st; messages := messages st |}.

Definition set_has_warned (v : Z) (st : profile_state) : profile_state :=
  {| _profile_identifier := _profile_identifier st; _profile_counter := _profile_counter st;
     _profile_loopid := _profile_loopid st; _profile_free := _profile_free st;
     _profile_root := _profile_root st; _profile_blocks := _profile_blocks st;
     _profile_ground_time := _profile_ground_time st;
     _profile_enable := _profile_enable st; _profile_write := _profile_write st;
     _profile_num_blocks := _profile_num_blocks st; _profile_wait := _profile_wait st;
     has_warned := v; profile_block_tls := profile_block_tls st;
     io_thread := io_thread st; sink := sink st; messages := messages st |}.

Definition set_tls (v : gmap Z Z) (st : profile_state) : profile_state :=
  {| _profile_identifier := _profile_identifier st; _profile_counter := _profile_counter st;
     _profile_loopid := _profile_loopid st; _profile_free := _profile_free st;
     _profile_root := _profile_root st; _profile_blocks := _profile_blocks st;
     _profile_ground_time := _profile_ground_time st;
     _profile_enable := _profile_enable st; _profile_write := _profile_write st;
     _profile_num_blocks := _profile_num_blocks st; _profile_wait := _profile_wait st;
     has_warned := has_warned st; profile_block_tls := v;
     io_thread := io_thread st; sink := sink st; messages := messages st |}.

Definition set_io_thread (v : option io_locals) (st : profile_state) : profile_state :=
  {| _profile_identifier := _profile_identifier st; _profile_counter := _profile_counter st;
     _profile_loopid := _profile_loopid st; _profile_free := _profile_free st;
     _profile_root := _profile_root st; _profile_blocks := _profile_blocks st;
     _profile_ground_time := _profile_ground_time st;
     _profile_enable := _profile_enable st; _profile_write := _profile_write st;
     _profile_num_blocks := _profile_num_blocks st; _profile_wait := _profile_wait st;
     has_warned := has_warned st; profile_block_tls := profile_block_tls st;
     io_thread := v; sink := sink st; messages := messages st |}.

Definition set_sink (v : list written) (st : profile_state) : profile_state :=
  {| _profile_identifier := _profile_identifier st; _profile_counter := _profile_counter st;
     _profile_loopid := _profile_loopid st; _profile_free := _profile_free st;
     _profile_root := _profile_root st; _profile_blocks := _profile_blocks st;
     _profile_ground_time := _profile_ground_time st;
     _profile_enable := _profile_enable st; _profile_write := _profile_write st;
     _profile_num_blocks := _profile_num_blocks st; _profile_wait := _profile_wait st;
     has_warned := has_warned st; profile_block_tls := profile_block_tls st;
     io_thread := io_thread st; sink := v; messages := messages st |}.

Definition set_messages (v : list log_entry) (st : profile_state) : profile_state :=
  {| _profile_identifier := _profile_identifier st; _profile_counter := _profile_counter st;
     _profile_loopid := _profile_loopid st; _profile_free := _profile_free st;
     _profile_root := _profile_root st; _profile_blocks := _profile_blocks st;
     _profile_ground_time := _profile_ground_time st;
     _profile_enable := _profile_enable st; _profile_write := _profile_write st;
     _profile_num_blocks := _profile_num_blocks st; _profile_wait := _profile_wait st;
     has_warned := has_warned st; profile_block_tls := profile_block_tls st;
     io_thread := io_thread st; sink := sink st; messages := v |}.

(** The statics as the program starts: zero, but for [_profile_wait = 100]. *)
Definition initial_state : profile_state :=
  {| _profile_identifier := []; _profile_counter := 0; _profile_loopid := 0;
     _profile_free := 0; _profile_root := 0; _profile_blocks := [];
     _profile_ground_time := 0; _profile_enable := 0; _profile_write := false;
     _profile_num_blocks := 0; _profile_wait := 100; has_warned := 0;
     profile_block_tls := ∅; io_thread := None; sink := []; messages := [] |}.

(** get_thread_profile_block / set_thread_profile_block *)
Definition get_thread_profile_block (st : profile_state) (tid : Z) : Z :=
  default 0 (profile_block_tls st !! tid).

Definition set_thread_profile_block (tid : Z) (v : Z) (st : profile_state) : profile_state :=
  set_tls (<[tid := v]> (profile_block_tls st)) st.

Definition log_message (m : log_entry) (st : profile_state) : profile_state :=
  set_messages (messages st ++ [m]) st.

(** ** Pool access: GET_BLOCK(index) and stores through it *)

Definition GET_BLOCK (blocks : list profile_block) (index : Z) : option profile_block :=
  if 0 <=? index then blocks !! Z.to_nat index else None.

Definition put_block (blocks : list profile_block) (index : Z) (b : profile_block)
    : option (list profile_block) :=
  if (0 <=? index) && (index <? Z.of_nat (length blocks))
  then Some (<[Z.to_nat index := b]> blocks) else None.

(** GET_BLOCK(index)->field = ...: one load and one store of the record. *)
Definition upd_block (f : profile_block -> profile_block)
    (blocks : list profile_block) (index : Z) : option (list profile_block) :=
  b ← GET_BLOCK blocks index; put_block blocks index (f b).

Definition upd_data (f : profile_block_data -> profile_block_data)
    (blocks : list profile_block) (index : Z) : option (list profile_block) :=
  upd_block (fun b => with_data (f (data b)) b) blocks index.

(** The same on the statics. *)
Definition st_upd (f : profile_block -> profile_block) (index : Z)
    (st : profile_state) : option profile_state :=
  blocks ← upd_block f (_profile_blocks st) index; Some (set_blocks blocks st).

(** The loop-id tag: (atomic_incr32(&_profile_loopid) & 0xffff) << 16 *)
Definition loop_tag (loopid : Z) : Z := i32 (Z.shiftl (Z.land loopid 65535) 16).

(** atomic_add32(&_profile_counter, 1): the counter after the addition *)
Definition next_counter (st : profile_state) : Z := i32 (_profile_counter st + 1).

(** ** _profile_allocate_block *)

Definition _profile_allocate_block (st : profile_state)
    : option (profile_state * option Z) :=
  let free_block_tag := _profile_free st in
  let free_block := Z.land free_block_tag 65535 in
  head ← GET_BLOCK (_profile_blocks st) free_block;
  let loopid := i32 (_profile_loopid st + 1) in
  let next_block_tag := Z.lor (child head) (loop_tag loopid) in
  let st := set_loopid loopid st in
  if free_block =? 0 then
    if has_warned st =? 0 then
      let st := set_has_warned 1 st in
      Some (log_message (if _profile_num_blocks st <? 65535
                         then LogExhaustedIncreaseSize
                         else LogExhaustedDecreaseWait) st, None)
    else Some (st, None)
  else
    blocks ← put_block (_profile_blocks st) free_block zero_block;
    Some (set_blocks blocks (set_free next_block_tag st), Some free_block).

(** ** _profile_free_block *)

Definition _profile_free_block (block leaf : Z) (st : profile_state)
    : option profile_state :=
  let loopid := i32 (_profile_loopid st + 1) in
  let block_tag := Z.lor block (loop_tag loopid) in
  let last_tag := _profile_free st in
  blocks ← upd_block (with_child (Z.land last_tag 65535)) (_profile_blocks st) leaf;
  Some (set_free block_tag (set_blocks blocks (set_loopid loopid st))).

(** ** _profile_put_root_block *)

(** while (GET_BLOCK(leaf)->sibling) leaf = GET_BLOCK(leaf)->sibling;
    A walk longer than the pool has met a slot twice and never ends. *)
Fixpoint sibling_leaf (fuel : nat) (blocks : list profile_block) (leaf : Z) : option Z :=
  match fuel with
  | O => None
  | S fuel' =>
      b ← GET_BLOCK blocks leaf;
      if sibling b =? 0 then Some leaf else sibling_leaf fuel' blocks (sibling b)
  end.

Definition _profile_put_root_block (block : Z) (st : profile_state)
    : option profile_state :=
  if _profile_root st =? 0 then Some (set_root block st)
  else
    let sibling_ := u16 (_profile_root st) in
    (* the inner loop swaps the list out only when the head is the 16-bit
       value it loaded; otherwise neither loop can leave *)
    if (sibling_ =? 0) || negb (_profile_root st =? sibling_) then None
    else
      let st := set_root 0 st in
      self ← GET_BLOCK (_profile_blocks st) block;
      st ← (if sibling self =? 0 then st_upd (with_sibling sibling_) block st
            else
              leaf ← sibling_leaf (S (length (_profile_blocks st)))
                       (_profile_blocks st) (sibling self);
              st ← st_upd (with_previous leaf) sibling_ st;
              st_upd (with_sibling sibling_) leaf st);
      Some (set_root block st).

(** ** _profile_put_simple_block *)

Definition _profile_put_simple_block (e : env) (block : Z)
    (st : profile_state) : option profile_state :=
  let parent_block := get_thread_profile_block st (thread_id e) in
  if parent_block =? 0 then _profile_put_root_block block st
  else
    parent ← GET_BLOCK (_profile_blocks st) parent_block;
    let next_block := child parent in
    st ← st_upd (with_previous (u16 parent_block)) block st;
    st ← st_upd (with_sibling (u16 next_block)) block st;
    st ← (if next_block =? 0 then Some st
          else st_upd (with_previous (u16 block)) next_block st);
    st_upd (with_child (u16 block)) parent_block st.

(** ** _profile_put_message_block *)

(** length = (length > MAX_MESSAGE_LENGTH ? length - MAX_MESSAGE_LENGTH : 0) *)
Definition message_rest (length : Z) : Z :=
  if length >? MAX_MESSAGE_LENGTH then length - MAX_MESSAGE_LENGTH else 0.

(** message += MAX_MESSAGE_LENGTH *)
Definition message_next (message : list byte) : list byte :=
  drop (Z.to_nat MAX_MESSAGE_LENGTH) message.

(** The stores into the master record of a message. *)
Definition message_data (id : Z) (e : env) (ground counter : Z)
    (message : list byte) (length : Z) (d : profile_block_data) : profile_block_data :=
  {| id := id; parentid := parentid d;
     processor := u32 (thread_hardware e);
     thread := u32 (thread_id e);
     start := i64 (time_current e - ground);
     end_ := counter;
     name := string_copy (name d) NAME_SIZE message length |}.

(** The stores into a continuation record; [master] and [sub] are the
    master and the previous segment as they are read after the allocation. *)
Definition continuation_data (id : Z) (master sub : profile_block_data) (counter : Z)
    (message : list byte) (length : Z) (d : profile_block_data) : profile_block_data :=
  {| id := i32 (id + 1);
     parentid := i32 (end_ sub);
     processor := processor master;
     thread := thread master;
     start := start master;
     end_ := counter;
     name := string_copy (name d) NAME_SIZE message length |}.

(** The while loop; the result says whether the loop ran to its end
    ([true]) or the function returned from inside it ([false]). *)
Fixpoint _profile_put_message_loop (fuel : nat) (id block subblock : Z)
    (message : list byte) (length : Z) (st : profile_state)
    : option (profile_state * bool) :=
  if length >? 0 then
    match fuel with
    | O => None
    | S fuel' =>
        '(st, cblock) ← _profile_allocate_block st;
        match cblock with
        | None => Some (st, false)
        | Some cblock_index =>
            master ← GET_BLOCK (_profile_blocks st) block;
            sub ← GET_BLOCK (_profile_blocks st) subblock;
            let counter := next_counter st in
            let st := set_counter counter st in
            blocks ← upd_data (continuation_data id (data master) (data sub) counter
                                 message length) (_profile_blocks st) cblock_index;
            sub ← GET_BLOCK blocks subblock;
            blocks ← upd_block (with_sibling (child sub)) blocks cblock_index;
            cb ← GET_BLOCK blocks cblock_index;
            blocks ← (if sibling cb =? 0 then Some blocks
                      else upd_block (with_previous cblock_index) blocks (sibling cb));
            blocks ← upd_block (with_child cblock_index) blocks subblock;
            blocks ← upd_block (with_previous (u16 subblock)) blocks cblock_index;
            _profile_put_message_loop fuel' id block cblock_index
              (message_next message) (message_rest length) (set_blocks blocks st)
        end
    end
  else Some (st, true).

Definition _profile_put_message_block (e : env) (id : Z) (message : list byte)
    (length : Z) (st : profile_state) : option profile_state :=
  '(st, block) ← _profile_allocate_block st;
  match block with
  | None => Some st
  | Some block_index =>
      let counter := next_counter st in
      let st := set_counter counter st in
      blocks ← upd_data (message_data id e (_profile_ground_time st) counter message length)
                 (_profile_blocks st) block_index;
      '(st, completed) ← _profile_put_message_loop (Z.to_nat length) id block_index
                            block_index (message_next message) (message_rest length)
                            (set_blocks blocks st);
      if completed : bool then _profile_put_simple_block e (u16 block_index) st
      else Some st
  end.

(** ** _profile_process_block *)

(** The recursion is as deep as the longest path of child and sibling
    links; a path longer than the pool has met a slot twice. *)
Fixpoint _profile_process_block_rec (fuel : nat) (write : bool)
    (blocks : list profile_block) (block : Z)
    : option (list profile_block * list written * Z) :=
  match fuel with
  | O => None
  | S fuel' =>
      b ← GET_BLOCK blocks block;
      let out := if write then [(Some block, b)] else [] in
      if negb (child b =? 0) then
        '(blocks, out1, leaf) ← _profile_process_block_rec fuel' write blocks (child b);
        b ← GET_BLOCK blocks block;
        if negb (sibling b =? 0) then
          '(blocks, out2, subleaf) ← _profile_process_block_rec fuel' write blocks (sibling b);
          b ← GET_BLOCK blocks block;
          blocks ← upd_block (with_child (child b)) blocks subleaf;
          b ← GET_BLOCK blocks block;
          blocks ← upd_block (with_child (sibling b)) blocks block;
          blocks ← upd_block (with_sibling 0) blocks block;
          Some (blocks, out ++ out1 ++ out2, leaf)
        else Some (blocks, out ++ out1, leaf)
      else if negb (sibling b =? 0) then
        '(blocks, out1, leaf) ← _profile_process_block_rec fuel' write blocks (sibling b);
        b ← GET_BLOCK blocks block;
        blocks ← upd_block (with_child (sibling b)) blocks block;
        blocks ← upd_block (with_sibling 0) blocks block;
        Some (blocks, out ++ out1, leaf)
      else Some (blocks, out, block)
  end.

Definition _profile_process_block (block : Z) (st : profile_state)
    : option (profile_state * Z) :=
  '(blocks, out, leaf) ← _profile_process_block_rec (S (length (_profile_blocks st)))
                           (_profile_write st) (_profile_blocks st) block;
  Some (set_sink (sink st ++ out) (set_blocks blocks st), leaf).

(** ** _profile_process_root_block *)

(** while (block) { ... block = next; } *)
Fixpoint _profile_process_root_loop (fuel : nat) (block : Z) (st : profile_state)
    : option profile_state :=
  if block =? 0 then Some st
  else
    match fuel with
    | O => None
    | S fuel' =>
        current ← GET_BLOCK (_profile_blocks st) block;
        let next := sibling current in
        st ← st_upd (with_sibling 0) block st;
        '(st, leaf) ← _profile_process_block block st;
        st ← _profile_free_block block (u16 leaf) st;
        _profile_process_root_loop fuel' next st
    end.

Definition _profile_process_root_block (st : profile_state) : option profile_state :=
  let block := _profile_root st in
  _profile_process_root_loop (S (length (_profile_blocks st))) block (set_root 0 st).

(** ** _profile_io *)

Definition PROFILE_ID_ENDOFSTREAM : Z := 0.
Definition PROFILE_ID_SYSTEMINFO : Z := 1.
Definition PROFILE_ID_LOGMESSAGE : Z := 2.
Definition PROFILE_ID_ENDFRAME : Z := 4.
Definition PROFILE_ID_TRYLOCK : Z := 5.
Definition PROFILE_ID_LOCK : Z := 7.
Definition PROFILE_ID_UNLOCK : Z := 9.
Definition PROFILE_ID_WAIT : Z := 11.
Definition PROFILE_ID_SIGNAL : Z := 12.

Definition bytes_sysinfo : list byte := [x73; x79; x73; x69; x6e; x66; x6f].
Definition bytes_profile_io : list byte :=
  [x70; x72; x6f; x66; x69; x6c; x65; x5f; x69; x6f].
Definition bytes_process : list byte := [x70; x72; x6f; x63; x65; x73; x73].

(** The record built at the head of [_profile_io]; [ticks] is
    time_ticks_per_second(). *)
Definition system_info_block (ticks : Z) : profile_block :=
  with_data {| id := PROFILE_ID_SYSTEMINFO; parentid := 0; processor := 0;
               thread := 0; start := ticks; end_ := 0;
               name := string_copy (name zero_data) NAME_SIZE bytes_sysinfo 7 |}
            zero_block.

(** The record written when [_profile_io] leaves. *)
Definition terminate_block : profile_block :=
  with_data (with_id PROFILE_ID_ENDOFSTREAM (data zero_block)) zero_block.

(** _profile_write(&record, sizeof(profile_block_t)), when the writer is set *)
Definition write_record (w : written) (st : profile_state) : profile_state :=
  if _profile_write st then set_sink (sink st ++ [w]) st else st.

(** ** profile_begin_block *)

Definition begin_data (counter : Z) (parent_id : Z) (e : env) (ground : Z)
    (message : list byte) (length : Z) (d : profile_block_data) : profile_block_data :=
  {| id := counter; parentid := parent_id;
     processor := u32 (thread_hardware e);
     thread := u32 (thread_id e);
     start := i64 (time_current e - ground);
     end_ := end_ d;
     name := string_copy (name d) NAME_SIZE message length |}.

Definition profile_begin_block (e : env) (message : list byte) (length : Z)
    (st : profile_state) : option profile_state :=
  if _profile_enable st =? 0 then Some st
  else
    let parent := get_thread_profile_block st (thread_id e) in
    if parent =? 0 then
      '(st, block) ← _profile_allocate_block st;
      match block with
      | None => Some st
      | Some blockindex =>
          let counter := next_counter st in
          let st := set_counter counter st in
          st ← st_upd (fun b => with_data (begin_data counter (parentid (data b)) e
                         (_profile_ground_time st) message length (data b)) b)
                 blockindex st;
          Some (set_thread_profile_block (thread_id e) (u16 blockindex) st)
      end
    else
      '(st, subblock) ← _profile_allocate_block st;
      match subblock with
      | None => Some st
      | Some subindex =>
          let counter := next_counter st in
          let st := set_counter counter st in
          parentblock ← GET_BLOCK (_profile_blocks st) parent;
          st ← st_upd (fun b => with_data (begin_data counter (id (data parentblock)) e
                         (_profile_ground_time st) message length (data b)) b)
                 subindex st;
          st ← st_upd (with_previous (u16 parent)) subindex st;
          parentblock ← GET_BLOCK (_profile_blocks st) parent;
          st ← st_upd (with_sibling (child parentblock)) subindex st;
          parentblock ← GET_BLOCK (_profile_blocks st) parent;
          st ← (if child parentblock =? 0 then Some st
                else st_upd (with_previous (u16 subindex)) (child parentblock) st);
          st ← st_upd (with_child (u16 subindex)) parent st;
          Some (set_thread_profile_block (thread_id e) (u16 subindex) st)
      end.

(** ** profile_end_block *)

(** The walk of profile_end_block from [current_index] back over the
    previous links; the result is parent_index.  One unit of fuel is one
    evaluation of the loop condition. *)
Fixpoint _profile_find_parent (fuel : nat) (blocks : list profile_block)
    (current_index : Z) : option Z :=
  match fuel with
  | O => None
  | S fuel' =>
      current ← GET_BLOCK blocks current_index;
      previous_ ← GET_BLOCK blocks (previous current);
      if child previous_ =? current_index then Some (previous current)
      else _profile_find_parent fuel' blocks (previous current)
  end.

(** The walk from the block that ends and set_thread_profile_block(parent_index);
    a walk longer than the pool has met a slot twice and never ends. *)
Definition profile_end_block_walk (e : env) (block_index : Z) (st : profile_state)
    : option (profile_state * Z) :=
  parent_index ← _profile_find_parent (S (length (_profile_blocks st)))
                    (_profile_blocks st) block_index;
  Some (set_thread_profile_block (thread_id e) parent_index st, parent_index).

(** The calls of profile_end_block on itself go up the open tree; more of
    them than the pool has slots never end. *)
Fixpoint profile_end_block_rec (fuel : nat) (e : env) (st : profile_state)
    : option profile_state :=
  match fuel with
  | O => None
  | S fuel' =>
      let block_index := get_thread_profile_block st (thread_id e) in
      if (_profile_enable st =? 0) || (block_index =? 0) then Some st
      else
        st ← st_upd (fun b => with_data (with_end (i64 (time_current e - _profile_ground_time st))
                                            (data b)) b) block_index st;
        block ← GET_BLOCK (_profile_blocks st) block_index;
        if negb (previous block =? 0) then
          '(st, parent_index) ← profile_end_block_walk e block_index st;
          parent ← GET_BLOCK (_profile_blocks st) parent_index;
          if negb (processor (data parent) =? u32 (thread_hardware e)) then
            st ← profile_end_block_rec fuel' e st;
            (* message points at parent->data.name; it is read by the call below *)
            parent ← GET_BLOCK (_profile_blocks st) parent_index;
            profile_begin_block e (name (data parent)) (string_length (name (data parent))) st
          else Some st
        else
          st ← _profile_put_root_block block_index st;
          Some (set_thread_profile_block (thread_id e) 0 st)
  end.

Definition profile_end_block (e : env) (st : profile_state) : option profile_state :=
  profile_end_block_rec (S (length (_profile_blocks st))) e st.

(** ** profile_update_block *)

Definition profile_update_block (e : env) (st : profile_state) : option profile_state :=
  let block_index := get_thread_profile_block st (thread_id e) in
  if (_profile_enable st =? 0) || (block_index =? 0) then Some st
  else
    block ← GET_BLOCK (_profile_blocks st) block_index;
    if processor (data block) =? u32 (thread_hardware e) then Some st
    else
      st ← profile_end_block e st;
      block ← GET_BLOCK (_profile_blocks st) block_index;
      profile_begin_block e (name (data block)) (string_length (name (data block))) st.

(** ** profile_end_frame and the message operations *)

Definition end_frame_data (e : env) (ground counter : Z) (d : profile_block_data)
    : profile_block_data :=
  {| id := PROFILE_ID_ENDFRAME; parentid := parentid d;
     processor := u32 (thread_hardware e);
     thread := u32 (thread_id e);
     start := i64 (time_current e - ground);
     end_ := i64 counter;
     name := name d |}.

Definition profile_end_frame (e : env) (counter : Z) (st : profile_state)
    : option profile_state :=
  if _profile_enable st =? 0 then Some st
  else
    '(st, block) ← _profile_allocate_block st;
    match block with
    | None => Some st
    | Some block_index =>
        st ← st_upd (fun b => with_data (end_frame_data e (_profile_ground_time st)
                                           counter (data b)) b) block_index st;
        _profile_put_simple_block e (u16 block_index) st
    end.

Definition profile_message (id : Z) (e : env) (message : list byte) (length : Z)
    (st : profile_state) : option profile_state :=
  if _profile_enable st =? 0 then Some st
  else _profile_put_message_block e id message length st.

Definition profile_log := profile_message PROFILE_ID_LOGMESSAGE.
Definition profile_trylock := profile_message PROFILE_ID_TRYLOCK.
Definition profile_lock := profile_message PROFILE_ID_LOCK.
Definition profile_unlock := profile_message PROFILE_ID_UNLOCK.
Definition profile_wait := profile_message PROFILE_ID_WAIT.
Definition profile_signal := profile_message PROFILE_ID_SIGNAL.

(** ** The I/O thread *)

(** if (system_info_counter++ > 10) { write; system_info_counter = 0; } *)
Definition system_info_step (io : io_locals) (st : profile_state) : profile_state :=
  if system_info_counter io >? 10 then
    set_io_thread (Some {| system_info_counter := 0; system_info := system_info io |})
      (write_record (None, system_info io) st)
  else
    set_io_thread (Some {| system_info_counter := u32 (system_info_counter io + 1);
                           system_info := system_info io |}) st.

(** One pass of the while loop of [_profile_io], after the wait on the exit
    semaphore has timed out; [e] is read by the I/O thread. *)
Definition _profile_io_iteration (e : env) (st : profile_state) : option profile_state :=
  match io_thread st with
  | None => Some st
  | Some io =>
      if _profile_root st =? 0 then Some st
      else
        st ← profile_begin_block e bytes_profile_io 10 st;
        st ← (if _profile_root st =? 0 then Some st
              else
                st ← profile_begin_block e bytes_process 7 st;
                st ← _profile_process_root_block st;
                profile_end_block e st);
        let st := system_info_step io st in
        profile_end_block e st
  end.

(** What [_profile_io] does once the exit semaphore is posted and the loop
    is left. *)
Definition _profile_io_exit (st : profile_state) : option profile_state :=
  st ← (if _profile_root st =? 0 then Some st else _profile_process_root_block st);
  Some (set_io_thread None (write_record (None, terminate_block) st)).

(** ** Lifecycle *)

(** for (i = 0; i < (num_blocks - 1); ++i, ++block) { child = i + 1; sibling = 0 }
    [last] is the 32-bit value of num_blocks - 1. *)
Fixpoint initialize_loop (fuel : nat) (blocks : list profile_block) (i last : Z)
    : option (list profile_block) :=
  if i <? last then
    match fuel with
    | O => None
    | S fuel' =>
        blocks ← upd_block (with_child (u16 (i + 1))) blocks i;
        blocks ← upd_block (with_sibling 0) blocks i;
        initialize_loop fuel' blocks (i + 1) last
    end
  else Some blocks.

(** profile_initialize over the statics [st]; [buffer] holds the whole
    records of the [size] bytes handed in, and [e] is read by the caller's
    thread.  A loop that passes the end of the buffer stops at the first
    store outside it. *)
Definition profile_initialize (e : env) (identifier : list byte)
    (buffer : list profile_block) (size : Z) (st : profile_state)
    : option profile_state :=
  let num_blocks := u32 (size / 64) in
  let num_blocks := if num_blocks >? 65535 then 65535 else num_blocks in
  let last := u32 (num_blocks - 1) in
  blocks ← initialize_loop (S (length buffer)) buffer 0 last;
  (* block has been advanced once per pass: it points at record [last] *)
  blocks ← upd_block (with_child 0) blocks last;
  blocks ← upd_block (with_sibling 0) blocks last;
  blocks ← upd_block (with_child 0) blocks 0;
  Some {| _profile_identifier := identifier;
          _profile_counter := 128;
          _profile_loopid := _profile_loopid st;
          _profile_free := 1;
          _profile_root := 0;
          _profile_blocks := blocks;
          _profile_ground_time := time_current e;
          _profile_enable := _profile_enable st;
          _profile_write := _profile_write st;
          _profile_num_blocks := num_blocks;
          _profile_wait := _profile_wait st;
          has_warned := has_warned st;
          profile_block_tls := <[thread_id e := 0]> (profile_block_tls st);
          io_thread := None;
          sink := sink st;
          messages := messages st |}.

Definition profile_set_output (writer : bool) (st : profile_state) : profile_state :=
  set_write writer st.

Definition profile_set_output_wait (ms : Z) (st : profile_state) : profile_state :=
  set_wait (if ms =? 0 then 1 else ms) st.

(** profile_enable; [ticks] is what time_ticks_per_second() gives the
    thread that is started. *)
Definition profile_enable (enable : bool) (ticks : Z) (st : profile_state)
    : option profile_state :=
  let was_enabled := _profile_enable st >? 0 in
  if enable && negb was_enabled then
    Some (set_io_thread (Some {| system_info_counter := 0;
                                 system_info := system_info_block ticks |})
            (set_enable 1 st))
  else if negb enable && was_enabled then
    st ← _profile_io_exit st;
    Some (set_enable 0 st)
  else Some st.

(** _profile_thread_finalize *)
Fixpoint _profile_thread_finalize_loop (fuel : nat) (e : env) (last_block : Z)
    (st : profile_state) : option profile_state :=
  let block_index := get_thread_profile_block st (thread_id e) in
  if block_index =? 0 then Some st
  else
    match fuel with
    | O => None
    | S fuel' =>
        let st := log_message (LogThreadCleanup block_index) st in
        if last_block =? block_index then Some (log_message (LogSelfReference block_index) st)
        else
          st ← profile_end_block e st;
          _profile_thread_finalize_loop fuel' e block_index st
    end.

Definition _profile_thread_finalize (e : env) (st : profile_state) : option profile_state :=
  _profile_thread_finalize_loop (S (S (length (_profile_blocks st)))) e 0 st.

(** The count of the sanity check of profile_finalize: the free list is
    followed through child, and each slot on it whose sibling is set is
    reported. *)
Fixpoint finalize_count (fuel : nat) (blocks : list profile_block) (free_block : Z)
    (num_blocks : Z) (st : profile_state) : option (Z * profile_state) :=
  if free_block =? 0 then Some (num_blocks, st)
  else
    match fuel with
    | O => None
    | S fuel' =>
        block ← GET_BLOCK blocks free_block;
        let st := if sibling block =? 0 then st
                  else log_message (LogBlockHasSibling free_block) st in
        finalize_count fuel' blocks (child block) (u64 (num_blocks + 1)) st
    end.

Definition profile_finalize (e : env) (st : profile_state) : option profile_state :=
  st ← profile_enable false 0 st;
  (* semaphore_post, thread_finalize: a thread that still runs is stopped *)
  st ← (if io_thread st is Some _ then _profile_io_exit st else Some st);
  st ← _profile_thread_finalize e st;
  st ← (if _profile_root st =? 0 then Some st else _profile_process_root_block st);
  let free_block := Z.land (_profile_free st) 65535 in
  let st := if _profile_root st =? 0 then st else log_message LogRootStillActive st in
  '(num_blocks, st) ← finalize_count (S (length (_profile_blocks st)))
                        (_profile_blocks st) free_block 0 st;
  let num_blocks := if _profile_num_blocks st =? 0 then num_blocks
                    else u64 (num_blocks + 1) in
  let st := if num_blocks =? _profile_num_blocks st then st
            else log_message (LogLostBlocks num_blocks (_profile_num_blocks st)) st in
  Some {| _profile_identifier := [];
          _profile_counter := _profile_counter st;
          _profile_loopid := _profile_loopid st;
          _profile_free := 0;
          _profile_root := 0;
          _profile_blocks := _profile_blocks st;
          _profile_ground_time := _profile_ground_time st;
          _profile_enable := _profile_enable st;
          _profile_write := _profile_write st;
          _profile_num_blocks := 0;
          _profile_wait := _profile_wait st;
          has_warned := has_warned st;
          profile_block_tls := profile_block_tls st;
          io_thread := io_thread st;
          sink := sink st;
          messages := messages st |}.

(** ** Vocabulary of the properties *)

(** The slots met from [slot] on through the child links, up to the first 0. *)
Fixpoint child_chain (fuel : nat) (blocks : list profile_block) (slot : Z)
    : option (list Z) :=
  if slot =? 0 then Some []
  else
    match fuel with
    | O => None
    | S fuel' =>
        b ← GET_BLOCK blocks slot;
        rest ← child_chain fuel' blocks (child b);
        Some (slot :: rest)
    end.

(** The free list: the chain from the slot in the low 16 bits of
    [_profile_free]. *)
Definition free_list (st : profile_state) : option (list Z) :=
  child_chain (S (length (_profile_blocks st))) (_profile_blocks st)
    (Z.land (_profile_free st) 65535).

(** Every slot of [l] has its sibling field 0. *)
Definition siblings_clear (blocks : list profile_block) (l : list Z) : Prop :=
  ∀ s, s ∈ l → ∃ b, GET_BLOCK blocks s = Some b ∧ sibling b = 0.

(** The pool as the specification describes it after initialization with
    [size] bytes. *)
Definition pool_of_size (size : Z) (st : profile_state) : Prop :=
  let N := Z.min (size / 64) 65535 in
  _profile_num_blocks st = N ∧
  Z.land (_profile_free st) 65535 = 1 ∧
  ∃ l, free_list st = Some l ∧ l = seqZ 1 (N - 1) ∧
       siblings_clear (_profile_blocks st) l.

Definition env0 : env := {| thread_id := 1; thread_hardware := 0; time_current := 0 |}.

(** A tree of records as the child and sibling links lay it out: a record,
    the tree under its child link and the tree under its sibling link. *)
Inductive tree :=
| Leaf
| Node (slot : Z) (children : tree) (siblings : tree).

(** The records of a tree in the order of a walk that takes a record, then
    what hangs under its child link, then what hangs under its sibling link. *)
Fixpoint slots (t : tree) : list Z :=
  match t with
  | Leaf => []
  | Node s c sb => s :: slots c ++ slots sb
  end.

(** The records of a tree in the order of the chain the walk leaves: a
    record, then the chain of its sibling link, then that of its child link. *)
Fixpoint chain (t : tree) : list Z :=
  match t with
  | Leaf => []
  | Node s c sb => s :: chain sb ++ chain c
  end.

Fixpoint depth (t : tree) : nat :=
  match t with
  | Leaf => O
  | Node _ c sb => S (Nat.max (depth c) (depth sb))
  end.

(** The links of [blocks] from slot [i] on spell out the tree [t]. *)
Fixpoint shaped (blocks : list profile_block) (i : Z) (t : tree) : Prop :=
  match t with
  | Leaf => i = 0
  | Node s c sb =>
      i = s ∧ s ≠ 0 ∧
      ∃ b, GET_BLOCK blocks s = Some b ∧
           shaped blocks (child b) c ∧ shaped blocks (sibling b) sb
  end.

(** A well-formed subtree: the links spell out a tree and no record occurs
    in it twice (so the links are acyclic). *)
Definition well_formed (blocks : list profile_block) (i : Z) (t : tree) : Prop :=
  shaped blocks i t ∧ NoDup (slots t).

(** The child links lead from [from] through exactly the slots [l], and the
    last of them has child [to]. *)
Fixpoint lseg (blocks : list profile_block) (from : Z) (l : list Z) (to : Z) : Prop :=
  match l with
  | [] => from = to
  | s :: l' =>
      from = s ∧ s ≠ 0 ∧
      ∃ b, GET_BLOCK blocks s = Some b ∧ lseg blocks (child b) l' to
  end.

(** [out] is what the writer receives when the records at the slots [l] of
    [blocks] are handed to it in this order. *)
Definition emitted_from (blocks : list profile_block) (l : list Z)
    (out : list written) : Prop :=
  Forall2 (λ s w, w.1 = Some s ∧ GET_BLOCK blocks s = Some w.2) l out.

(** The same when the writer may be unset: then nothing is received. *)
Definition emitted (write : bool) (blocks : list profile_block) (l : list Z)
    (out : list written) : Prop :=
  if write then emitted_from blocks l out else out = [].

(** No record of the tree has both a child and a sibling. *)
Fixpoint linear (t : tree) : Prop :=
  match t with
  | Leaf => True
  | Node _ c sb => (c = Leaf ∨ sb = Leaf) ∧ linear c ∧ linear sb
  end.

(** The slots handed to the writer, in the order of the calls. *)
Definition written_slots (out : list written) : list (option Z) := out.*1.

(** The last sentence of the specification's account of the walk: the
    records reach the writer in the order of the chain the walk leaves. *)
Definition emission_follows_chain (block : Z) (st : profile_state) : Prop :=
  ∀ st' leaf l,
    _profile_process_block block st = Some (st', leaf) →
    child_chain (S (length (_profile_blocks st'))) (_profile_blocks st') block = Some l →
    written_slots (drop (length (sink st)) (sink st')) = Some <$> l.

(** A pool of five records: record 1 has the child 2, record 2 has the
    child 3 and the sibling 4; the previous links are those of an open tree
    (the child list of 1 is 2, 4 and that of 2 is 3). *)
Definition pool_1234 : list profile_block :=
  [ zero_block;
    with_child 2 zero_block;
    with_sibling 4 (with_child 3 (with_previous 1 zero_block));
    with_previous 2 zero_block;
    with_previous 2 zero_block ].

Definition state_1234 : profile_state :=
  set_write true (set_enable 1 (set_blocks pool_1234 initial_state)).

Definition tree_1234 : tree :=
  Node 1 (Node 2 (Node 3 Leaf Leaf) (Node 4 Leaf Leaf)) Leaf.

(** The records met from the root of [t] on along the sibling links: a
    child list, from the child its parent points at to the eldest entry. *)
Fixpoint spine (t : tree) : list Z :=
  match t with
  | Leaf => []
  | Node s _ sb => s :: spine sb
  end.

(** The previous links along a child list: the first child's previous is
    [prev] (its parent), every other sibling's previous is the sibling
    before it. *)
Fixpoint spine_previous (blocks : list profile_block) (prev : Z) (t : tree) : Prop :=
  match t with
  | Leaf => True
  | Node s _ sb =>
      (∃ b, GET_BLOCK blocks s = Some b ∧ previous b = prev) ∧
      spine_previous blocks s sb
  end.

Definition env1 : env := {| thread_id := 7; thread_hardware := 0; time_current := 50 |}.

(** The pool of five records with record 4 the current block of thread 7. *)
Definition state_1234_open : profile_state :=
  set_thread_profile_block 7 4 state_1234.

(** ** Runs of the engine *)

Inductive message_kind :=
| KLog | KTryLock | KLock | KUnlock | KWait | KSignal.

Definition message_id (k : message_kind) : Z :=
  match k with
  | KLog => PROFILE_ID_LOGMESSAGE
  | KTryLock => PROFILE_ID_TRYLOCK
  | KLock => PROFILE_ID_LOCK
  | KUnlock => PROFILE_ID_UNLOCK
  | KWait => PROFILE_ID_WAIT
  | KSignal => PROFILE_ID_SIGNAL
  end.

(** The operations a run is made of: the producer operations of the
    threads, one pass of the I/O thread's loop, and the calls that start and
    stop the engine.  A message is handed over with its length.  The writer
    is set before a run and stays. *)
Inductive op :=
| Enable (enable : bool) (ticks : Z)
| BeginBlock (e : env) (message : list byte)
| UpdateBlock (e : env)
| EndBlock (e : env)
| EndFrame (e : env) (counter : Z)
| Message (k : message_kind) (e : env) (message : list byte)
| IoPass (e : env)
| Finalize (e : env).

Definition step (o : op) (st : profile_state) : option profile_state :=
  match o with
  | Enable enable ticks => profile_enable enable ticks st
  | BeginBlock e message => profile_begin_block e message (Z.of_nat (length message)) st
  | UpdateBlock e => profile_update_block e st
  | EndBlock e => profile_end_block e st
  | EndFrame e counter => profile_end_frame e counter st
  | Message k e message =>
      profile_message (message_id k) e message (Z.of_nat (length message)) st
  | IoPass e => _profile_io_iteration e st
  | Finalize e => profile_finalize e st
  end.

Fixpoint run (ops : list op) (st : profile_state) : option profile_state :=
  match ops with
  | [] => Some st
  | o :: ops' => st ← step o st; run ops' st
  end.

(** Quiescence: the root list is empty and no thread holds an open block. *)
Definition quiescent (st : profile_state) : Prop :=
  _profile_root st = 0 ∧
  Forall (λ entry : Z * Z, entry.2 = 0) (map_to_list (profile_block_tls st)).

(** An initialized pool of [n] records, with the writer set and profiling
    enabled. *)
Definition started (n : nat) : option profile_state :=
  st ← profile_initialize env0 [] (replicate n zero_block) (64 * Z.of_nat n) initial_state;
  run [Enable true 1000] (profile_set_output true st).

(** The payloads the writer received, oldest first. *)
Definition written_data (st : profile_state) : list profile_block_data :=
  (λ w : written, data w.2) <$> sink st.

(** ceil(L / 26), the number of records the specification expects for a
    message of [L] bytes. *)
Definition segments_of_26 (L : Z) : Z := (L + 25) / 26.


Definition env_at (tid cpu now : Z) : env :=
  {| thread_id := tid; thread_hardware := cpu; time_current := now |}.

(** The runs the counterexamples are read from. *)
Definition bytes_A (n : nat) : list byte := replicate n x41.

Definition io_env : env := env_at 99 0 60.

(** A 60-byte message on a pool of three records. *)
Definition run_exhausted : option profile_state :=
  st ← started 3; run [Message KLog env1 (bytes_A 60)] st.

(** A 51-byte message on a pool of eight records, and one pass of the I/O
    thread. *)
Definition run_message_51 : option profile_state :=
  st ← started 8; run [Message KLog env1 (bytes_A 51); IoPass io_env] st.

(** A span with a 26-byte name, begun at tick 50 and ended at tick 70 by
    thread 7, and one pass of the I/O thread. *)
Definition run_span_26 : option profile_state :=
  st ← started 8;
  run [BeginBlock env1 (bytes_A 26); EndBlock (env_at 7 0 70); IoPass io_env] st.

(** An end-of-frame event and then [n] passes of the I/O thread; each pass
    leaves its own span on the root list for the next one. *)
Definition run_passes (n : nat) : option profile_state :=
  st ← started 8; run (EndFrame env1 42 :: replicate n (IoPass io_env)) st.

Definition is_system_info (d : profile_block_data) : bool :=
  id d =? PROFILE_ID_SYSTEMINFO.

(** ** The shape of the pool *)

(** The open tree of a thread, seen from its current block: the current
    block, the tree of its (closed) children, the tree of its elder
    siblings, and its ancestors, nearest first, each with the tree of its
    own elder siblings. *)
Record otree := {
  o_cur : Z;
  o_children : tree;
  o_siblings : tree;
  o_path : list (Z * tree)
}.

Fixpoint path_slots (path : list (Z * tree)) : list Z :=
  match path with
  | [] => []
  | (p, Sp) :: rest => p :: slots Sp ++ path_slots rest
  end.

Definition otree_slots (o : otree) : list Z :=
  o_cur o :: slots (o_children o) ++ slots (o_siblings o) ++ path_slots (o_path o).

Definition open_slots (o : option otree) : list Z :=
  match o with Some o => otree_slots o | None => [] end.

(** The records of an open tree that are still open: the current block and
    its ancestors. *)
Definition otree_open (o : otree) : list Z := o_cur o :: (o_path o).*1.

(** The open block [a] with elder siblings [S] under the ancestors [path]:
    the previous link of an open block is its parent, whose child link
    points back at it; the outermost open block has previous 0 and no
    sibling. *)
Fixpoint open_up (blocks : list profile_block) (a : Z) (S : tree)
    (path : list (Z * tree)) : Prop :=
  a ≠ 0 ∧
  ∃ b, GET_BLOCK blocks a = Some b ∧ shaped blocks (sibling b) S ∧
       match path with
       | [] => previous b = 0 ∧ S = Leaf
       | (p, Sp) :: rest =>
           previous b = p ∧
           (∃ bp, GET_BLOCK blocks p = Some bp ∧ child bp = a) ∧
           open_up blocks p Sp rest
       end.

Definition open_tree (blocks : list profile_block) (o : otree) : Prop :=
  open_up blocks (o_cur o) (o_siblings o) (o_path o) ∧
  ∃ b, GET_BLOCK blocks (o_cur o) = Some b ∧ shaped blocks (child b) (o_children o).

(** Where the records of the pool are: the free list, the forest on the
    root list, and the open tree of each thread that has one. *)
Record ghost := {
  g_free : list Z;
  g_root : tree;
  g_open : Z → option otree
}.

Definition local_slots (G : ghost) (tid : Z) : list Z :=
  g_free G ++ slots (g_root G) ++ open_slots (g_open G tid).

(** The shape invariant of the engine. *)
Record Inv (st : profile_state) (G : ghost) : Prop := {
  inv_zero : is_Some (GET_BLOCK (_profile_blocks st) 0);
  inv_free : lseg (_profile_blocks st) (Z.land (_profile_free st) 65535) (g_free G) 0;
  inv_root : shaped (_profile_blocks st) (_profile_root st) (g_root G);
  inv_open : ∀ tid,
    match g_open G tid with
    | Some o => get_thread_profile_block st tid = o_cur o ∧
                open_tree (_profile_blocks st) o
    | None => get_thread_profile_block st tid = 0
    end;
  inv_nodup : ∀ tid, NoDup (local_slots G tid);
  inv_disjoint : ∀ t1 t2, t1 ≠ t2 →
    open_slots (g_open G t1) ## open_slots (g_open G t2);
  inv_bound : ∀ tid s, s ∈ local_slots G tid → s < 65536
}.

Definition set_open (tid : Z) (o : option otree) (G : ghost) : ghost :=
  {| g_free := g_free G; g_root := g_root G;
     g_open := λ t, if decide (t = tid) then o else g_open G t |}.

(** A record is live when it is on the root list or in an open tree; it is
    open when it is the current block of a thread or an ancestor of it, and
    closed otherwise. *)
Definition is_open (G : ghost) (s : Z) : Prop :=
  ∃ tid o, g_open G tid = Some o ∧ s ∈ otree_open o.

Definition is_live (G : ghost) (s : Z) : Prop :=
  s ∈ slots (g_root G) ∨ ∃ tid o, g_open G tid = Some o ∧ s ∈ otree_slots o.

Definition is_closed (G : ghost) (s : Z) : Prop := is_live G s ∧ ¬ is_open G s.

(** The tree of a chain of records linked through child alone. *)
Fixpoint chain_tree (l : list Z) : tree :=
  match l with
  | [] => Leaf
  | s :: l' => Node s (chain_tree l') Leaf
  end.

(** The payload of the record at slot [s]. *)
Definition payload (st : profile_state) (s : Z) : option profile_block_data :=
  data <$> GET_BLOCK (_profile_blocks st) s.

(** Agreement of two pools at a slot: on all three links, on the links a
    tree is read through, and on the child link alone. *)
Definition links_eq (blocks blocks' : list profile_block) (j : Z) : Prop :=
  ∀ b, GET_BLOCK blocks j = Some b →
       ∃ b', GET_BLOCK blocks' j = Some b' ∧
             previous b' = previous b ∧ sibling b' = sibling b ∧ child b' = child b.

Definition down_eq (blocks blocks' : list profile_block) (j : Z) : Prop :=
  ∀ b, GET_BLOCK blocks j = Some b →
       ∃ b', GET_BLOCK blocks' j = Some b' ∧
             sibling b' = sibling b ∧ child b' = child b.

Definition child_eq (blocks blocks' : list profile_block) (j : Z) : Prop :=
  ∀ b, GET_BLOCK blocks j = Some b →
       ∃ b', GET_BLOCK blocks' j = Some b' ∧ child b' = child b.

(** ** What becomes of a record *)

(** The first record that [out] holds from slot [s] has the payload [d]. *)
Definition first_written (s : Z) (d : profile_block_data) (out : list written) : Prop :=
  ∃ out1 b out2, out = out1 ++ (Some s, b) :: out2 ∧ data b = d ∧
                 Some s ∉ written_slots out1.

(** From [(st, G)] to [(st', G')], with the writer set: a closed record
    stays closed with its payload, or has been handed to the writer once,
    unchanged; an open record stays open with its payload, or has been
    closed with one of the end values [T], and then possibly written. *)
Record fate (T : Z → Prop) (st : profile_state) (G : ghost)
    (st' : profile_state) (G' : ghost) : Prop := {
  fate_write : _profile_write st' = _profile_write st;
  fate_ground : _profile_ground_time st' = _profile_ground_time st;
  fate_records : ∃ out, sink st' = sink st ++ out ∧
    (∀ s d, is_closed G s → payload st s = Some d →
       (is_closed G' s ∧ payload st' s = Some d ∧ Some s ∉ written_slots out) ∨
       first_written s d out) ∧
    (∀ s d, is_open G s → payload st s = Some d →
       (is_open G' s ∧ payload st' s = Some d ∧ Some s ∉ written_slots out) ∨
       ∃ v, T v ∧
         ((is_closed G' s ∧ payload st' s = Some (with_end v d) ∧
           Some s ∉ written_slots out) ∨
          first_written s (with_end v d) out))
}.

Definition open_blocks (o : option otree) : list Z :=
  match o with Some o => otree_open o | None => [] end.

(** The id that profile_begin_block stores as parentid: that of the
    thread's current block, 0 when it has none. *)
Definition parent_id_of (st : profile_state) (tid : Z) : Z :=
  let current := get_thread_profile_block st tid in
  if current =? 0 then 0 else default 0 (id <$> payload st current).

(** The open tree of a thread once it has begun the block [s]. *)
Definition otree_begin (s : Z) (o : option otree) : otree :=
  match o with
  | None => {| o_cur := s; o_children := Leaf; o_siblings := Leaf; o_path := [] |}
  | Some o => {| o_cur := s; o_children := Leaf; o_siblings := o_children o;
                 o_path := (o_cur o, o_siblings o) :: o_path o |}
  end.

(** What profile_begin_block leaves when profiling is enabled and the free
    list is not empty: the head of the free list is the thread's new
    current block, with the payload of the call. *)
Definition begin_result (e : env) (message : list byte) (length : Z)
    (st : profile_state) (G : ghost) (st' : profile_state) (G' : ghost) : Prop :=
  match g_free G with
  | s :: F =>
      _profile_enable st ≠ 0 →
      g_free G' = F ∧
      g_open G' (thread_id e) = Some (otree_begin s (g_open G (thread_id e))) ∧
      _profile_counter st' = next_counter st ∧
      payload st' s = Some (begin_data (next_counter st) (parent_id_of st (thread_id e)) e
                              (_profile_ground_time st) message length zero_data)
  | [] => G' = G
  end.

(** ** Small pools *)

(** A pool of four records whose free list is 1, 2, 3. *)
Definition pool_free3 : list profile_block :=
  [ zero_block; with_child 2 zero_block; with_child 3 zero_block; zero_block ].

Definition state_free3 : profile_state :=
  set_free 1 (set_blocks pool_free3 initial_state).

(** The same pool with an empty free list. *)
Definition state_free0 : profile_state :=
  set_blocks pool_free3 initial_state.

(** [n] calls of [_profile_allocate_block], with the blocks they return. *)
Fixpoint allocate_blocks (n : nat) (st : profile_state)
    : option (profile_state * list (option Z)) :=
  match n with
  | O => Some (st, [])
  | S n' =>
      '(st, block) ← _profile_allocate_block st;
      '(st, rest) ← allocate_blocks n' st;
      Some (st, block :: rest)
  end.

(** The diagnostic of an exhausted pool. *)
Definition exhausted_entry (st : profile_state) : log_entry :=
  if _profile_num_blocks st <? 65535 then LogExhaustedIncreaseSize
  else LogExhaustedDecreaseWait.
(** The forest [t] followed, along the sibling links of its top records,
    by the forest [r]. *)
Fixpoint sib_app (t r : tree) : tree :=
  match t with
  | Leaf => r
  | Node s c sb => Node s c (sib_app sb r)
  end.

(** A pool of six records with the record 1 (child 2) on the root list and
    the records 3 (child 5) and 4 linked as siblings. *)
Definition pool_root1 : list profile_block :=
  [ zero_block;
    with_child 2 zero_block;
    with_previous 1 zero_block;
    with_sibling 4 (with_child 5 zero_block);
    with_previous 3 zero_block;
    with_previous 3 zero_block ].

Definition state_root1 : profile_state :=
  set_root 1 (set_blocks pool_root1 initial_state).

(** The chain that draining the root list [t] puts in front of the free
    list: the tree of the last top record first, each tree as the chain its
    walk leaves. *)
Fixpoint drain_chain (t : tree) : list Z :=
  match t with
  | Leaf => []
  | Node s c sb => drain_chain sb ++ s :: chain c
  end.

(** [out] holds, in this order, one record from each slot of [l], with the
    payload the slot has in [blocks]; nothing when the writer is unset. *)
Definition emitted_payloads (write : bool) (blocks : list profile_block)
    (l : list Z) (out : list written) : Prop :=
  if write
  then Forall2 (λ s (w : written), w.1 = Some s ∧
                  data <$> GET_BLOCK blocks s = Some (data w.2)) l out
  else out = [].

(** The pool of five records with record 1 on the root list, and the free
    list empty. *)
Definition state_1234_root : profile_state := set_root 1 state_1234.
(** A pool of four records after one end-of-frame event of thread 7: the
    event (record 1) is on the root list, the free list is 2, 3. *)
Definition state_frame4 : profile_state :=
  default initial_state (st ← started 4; run [EndFrame env1 42] st).

(** The open tree of a thread once its current block, a nested one, has
    ended: the parent is current, and the block is the first of its closed
    children. *)
Definition otree_end (o : otree) (p : Z) (Sp : tree) (rest : list (Z * tree)) : otree :=
  {| o_cur := p; o_children := Node (o_cur o) (o_children o) (o_siblings o);
     o_siblings := Sp; o_path := rest |}.

(** What every producer operation of thread [tid] leaves alone: the enable
    flag, the I/O thread, the sink, the size of the pool and the open trees
    of the other threads. *)
Definition quiet (tid : Z) (st : profile_state) (G : ghost)
    (st' : profile_state) (G' : ghost) : Prop :=
  _profile_enable st' = _profile_enable st ∧ io_thread st' = io_thread st ∧
  sink st' = sink st ∧
  length (_profile_blocks st') = length (_profile_blocks st) ∧
  (∀ t, t ≠ tid → g_open G' t = g_open G t).

(** The number of open blocks of a thread. *)
Definition open_depth (G : ghost) (tid : Z) : nat := length (open_blocks (g_open G tid)).

(** From [G] to [G'] thread [tid] has taken records from the free list
    only: the free list has not grown, and an open block of the thread was
    open before or was free. *)
Definition taken (tid : Z) (G G' : ghost) : Prop :=
  (∀ s, s ∈ g_free G' → s ∈ g_free G) ∧
  (∀ s, s ∈ open_blocks (g_open G' tid) →
        s ∈ open_blocks (g_open G tid) ∨ s ∈ g_free G).

(** Records taken from the free list and not yet published: from [st] to
    [st1] the slots [L], the front of the free list, have been allocated
    and linked into a chain through their child links, the rest [F1] of the
    free list is the free list of [st1], and nothing else has changed. *)
Record held (st : profile_state) (L F1 : list Z) (st1 : profile_state) : Prop := {
  held_free : lseg (_profile_blocks st1) (Z.land (_profile_free st1) 65535) F1 0;
  held_chain : lseg (_profile_blocks st1) (default 0 (head L)) L 0;
  held_sibling : ∀ j, j ∈ L →
    ∃ b, GET_BLOCK (_profile_blocks st1) j = Some b ∧ sibling b = 0;
  held_frame : ∀ j, j ∉ L →
    GET_BLOCK (_profile_blocks st1) j = GET_BLOCK (_profile_blocks st) j;
  held_length : length (_profile_blocks st1) = length (_profile_blocks st);
  held_tls : profile_block_tls st1 = profile_block_tls st;
  held_root : _profile_root st1 = _profile_root st;
  held_enable : _profile_enable st1 = _profile_enable st;
  held_io : io_thread st1 = io_thread st;
  held_sink : sink st1 = sink st;
  held_write : _profile_write st1 = _profile_write st;
  held_ground : _profile_ground_time st1 = _profile_ground_time st
}.

(** The open tree of a thread once the closed tree of [m], whose children
    are [c], has been put under its current block. *)
Definition otree_put (m : Z) (c : tree) (o : otree) : otree :=
  {| o_cur := o_cur o; o_children := Node m c (o_children o);
     o_siblings := o_siblings o; o_path := o_path o |}.

(** Where the records are once thread [tid] has published the chain
    [m :: L'] taken from the free list, of which [F1] is left: under the
    thread's current block, or on the root list when it has none. *)
Definition ghost_put (tid : Z) (m : Z) (L' F1 : list Z) (G : ghost) : ghost :=
  {| g_free := F1;
     g_root := match g_open G tid with
               | None => Node m (chain_tree L') (g_root G)
               | Some _ => g_root G
               end;
     g_open := λ t, if decide (t = tid)
                    then otree_put m (chain_tree L') <$> g_open G tid
                    else g_open G t |}.

(** The payloads of the continuation records of a message, in the order of
    their allocation: [master] and [sub] are the payloads of the master and
    of the previous segment, [counter] is the value of [_profile_counter]. *)
Fixpoint continuation_records (fuel : nat) (id : Z) (master sub : profile_block_data)
    (counter : Z) (message : list byte) (length : Z) : list profile_block_data :=
  if length >? 0 then
    match fuel with
    | O => []
    | S fuel' =>
        let c := i32 (counter + 1) in
        let d := continuation_data id master sub c message length zero_data in
        d :: continuation_records fuel' id master d c (message_next message)
               (message_rest length)
    end
  else [].

(** The payloads of all records of a message: the master, then its
    continuation records. *)
Definition message_records (id : Z) (e : env) (ground counter : Z)
    (message : list byte) (length : Z) : list profile_block_data :=
  let c := i32 (counter + 1) in
  let d := message_data id e ground c message length zero_data in
  d :: continuation_records (Z.to_nat length) id d d c (message_next message)
         (message_rest length).

(** Where the records are once an exhausted pool has made thread [tid]
    drop the records it had taken: the free list is empty, and the dropped
    records are nowhere. *)
Definition ghost_leak (tid : Z) (G : ghost) : ghost :=
  {| g_free := []; g_root := g_root G;
     g_open := λ t, if decide (t = tid) then g_open G tid else g_open G t |}.

(** Where the records are once the root list has been drained: its records
    are on the free list. *)
Definition ghost_drain (G : ghost) : ghost :=
  {| g_free := drain_chain (g_root G) ++ g_free G; g_root := Leaf; g_open := g_open G |}.

(** What a step of the engine keeps: the invariant, the writer and the
    ground time, and, with the writer set, the fate of every record. *)
Definition step_ok (T : Z → Prop) (st : profile_state) (G : ghost)
    (st' : profile_state) (G' : ghost) : Prop :=
  Inv st' G' ∧
  _profile_write st' = _profile_write st ∧
  _profile_ground_time st' = _profile_ground_time st ∧
  (_profile_write st = true → fate T st G st' G').

(** Where the records are once profile_finalize has reset the heads: the
    free list and the root list are empty. *)
Definition ghost_reset (G : ghost) : ghost :=
  {| g_free := []; g_root := Leaf; g_open := g_open G |}.

(** The clock reading of an operation that may end a block. *)
Definition op_time (o : op) : option Z :=
  match o with
  | UpdateBlock e | EndBlock e | IoPass e | Finalize e => Some (time_current e)
  | _ => None
  end.

(** Every end value that the operations [ops] can store, the ground time
    being [ground], is in [T]. *)
Definition end_values (T : Z → Prop) (ground : Z) (ops : list op) : Prop :=
  Forall (λ o, ∀ t, op_time o = Some t → T (i64 (t - ground))) ops.

(** The pool of four records with profiling enabled. *)
Definition state_free3e : profile_state := set_enable 1 state_free3.

Definition ghost_free3 : ghost :=
  {| g_free := [1; 2; 3]; g_root := Leaf; g_open := λ _, None |}.

(** The same once thread 7 has begun a block named AAA at tick 50. *)
Definition state_open1 : profile_state :=
  default initial_state (profile_begin_block env1 (bytes_A 3) 3 state_free3e).

Definition ghost_open1 : ghost :=
  {| g_free := [2; 3]; g_root := Leaf;
     g_open := λ t, if decide (t = 7) then Some (otree_begin 1 None) else None |}.

(** The pool of six records with the record 1 (child 2) on the root list,
    the writer set, and the I/O thread at a pass counter of 11. *)
Definition state_io_pass : profile_state :=
  set_io_thread (Some {| system_info_counter := 11;
                         system_info := system_info_block 1000 |})
    (profile_set_output true state_root1).

(** The operations of the producer interface. *)
Definition producer (o : op) : bool :=
  match o with
  | BeginBlock _ _ | UpdateBlock _ | EndBlock _ | EndFrame _ _ | Message _ _ _ => true
  | Enable _ _ | IoPass _ | Finalize _ => false
  end.


(** * Properties *)

(** ** Machine integers *)

Lemma u16_small z : 0 ≤ z < 65536 → u16 z = z.
Proof. intros. unfold u16. by apply Z.mod_small. Qed.

Lemma u32_small z : 0 ≤ z < 4294967296 → u32 z = z.
Proof. intros. unfold u32. by apply Z.mod_small. Qed.

Lemma u64_small z : 0 ≤ z < 18446744073709551616 → u64 z = z.
Proof. intros. unfold u64. by apply Z.mod_small. Qed.

Lemma i32_small z : -2147483648 ≤ z < 2147483648 → i32 z = z.
Proof. intros. unfold i32. rewrite Z.mod_small; lia. Qed.

Lemma i64_small z : -9223372036854775808 ≤ z < 9223372036854775808 → i64 z = z.
Proof. intros. unfold i64. rewrite Z.mod_small; lia. Qed.

Lemma land_65535_range z : 0 ≤ Z.land z 65535 < 65536.
Proof.
  change 65535 with (Z.ones 16). rewrite Z.land_ones by lia.
  apply Z.mod_pos_bound. lia.
Qed.

(** ** Pool access *)

Lemma GET_BLOCK_range blocks i b :
  GET_BLOCK blocks i = Some b → 0 ≤ i < Z.of_nat (length blocks).
Proof.
  unfold GET_BLOCK. destruct (Z.leb_spec 0 i); [|done].
  intros Hl%lookup_lt_Some. lia.
Qed.

Lemma GET_BLOCK_in_range blocks i :
  0 ≤ i < Z.of_nat (length blocks) → ∃ b, GET_BLOCK blocks i = Some b.
Proof.
  intros Hi. unfold GET_BLOCK. destruct (Z.leb_spec 0 i); [|lia].
  apply lookup_lt_is_Some_2. lia.
Qed.

Lemma put_block_length blocks i b blocks' :
  put_block blocks i b = Some blocks' → length blocks' = length blocks.
Proof.
  unfold put_block. destruct (_ && _); [|done].
  intros [= <-]. apply length_insert.
Qed.

Lemma put_block_in_range blocks i b :
  0 ≤ i < Z.of_nat (length blocks) →
  put_block blocks i b = Some (<[Z.to_nat i := b]> blocks).
Proof.
  intros Hi. unfold put_block.
  destruct (Z.leb_spec 0 i); [|lia]. destruct (Z.ltb_spec i (Z.of_nat (length blocks))); [|lia].
  done.
Qed.

Lemma GET_put_block blocks i b blocks' j :
  put_block blocks i b = Some blocks' →
  GET_BLOCK blocks' j = if j =? i then Some b else GET_BLOCK blocks j.
Proof.
  unfold put_block.
  destruct (Z.leb_spec 0 i); [|done]. destruct (Z.ltb_spec i (Z.of_nat (length blocks))); [|done].
  simpl. intros [= <-]. unfold GET_BLOCK.
  destruct (Z.eqb_spec j i) as [->|Hne].
  - destruct (Z.leb_spec 0 i); [|lia]. apply list_lookup_insert_eq. lia.
  - destruct (Z.leb_spec 0 j); [|done]. apply list_lookup_insert_ne. lia.
Qed.

Lemma upd_block_Some f blocks i b :
  GET_BLOCK blocks i = Some b →
  upd_block f blocks i = Some (<[Z.to_nat i := f b]> blocks).
Proof.
  intros Hb. unfold upd_block. rewrite Hb. simpl.
  apply put_block_in_range. by eapply GET_BLOCK_range.
Qed.

Lemma upd_block_inv f blocks i blocks' :
  upd_block f blocks i = Some blocks' →
  ∃ b, GET_BLOCK blocks i = Some b ∧ put_block blocks i (f b) = Some blocks'.
Proof.
  unfold upd_block. destruct (GET_BLOCK blocks i) as [b|]; [|done]. simpl. eauto.
Qed.

Lemma upd_block_length f blocks i blocks' :
  upd_block f blocks i = Some blocks' → length blocks' = length blocks.
Proof. intros (b & _ & H)%upd_block_inv. by eapply put_block_length. Qed.

Lemma GET_upd_block f blocks i blocks' j :
  upd_block f blocks i = Some blocks' →
  GET_BLOCK blocks' j = if j =? i then f <$> GET_BLOCK blocks i else GET_BLOCK blocks j.
Proof.
  intros (b & Hb & H)%upd_block_inv. rewrite (GET_put_block _ _ _ _ j H), Hb. done.
Qed.

Lemma GET_upd_block_eq f blocks i blocks' b :
  upd_block f blocks i = Some blocks' → GET_BLOCK blocks i = Some b →
  GET_BLOCK blocks' i = Some (f b).
Proof. intros H Hb. rewrite (GET_upd_block _ _ _ _ i H), Z.eqb_refl, Hb. done. Qed.

Lemma GET_upd_block_ne f blocks i blocks' j :
  upd_block f blocks i = Some blocks' → j ≠ i → GET_BLOCK blocks' j = GET_BLOCK blocks j.
Proof.
  intros H Hne. rewrite (GET_upd_block _ _ _ _ j H).
  destruct (Z.eqb_spec j i); [done|done].
Qed.

(** ** profile_initialize *)

Lemma initialize_loop_spec fuel : ∀ blocks i last,
  0 ≤ i ≤ last → last ≤ Z.of_nat (length blocks) → last - i ≤ Z.of_nat fuel →
  ∃ blocks', initialize_loop fuel blocks i last = Some blocks' ∧
    length blocks' = length blocks ∧
    ∀ j, GET_BLOCK blocks' j =
         if (i <=? j) && (j <? last)
         then (λ b, with_sibling 0 (with_child (u16 (j + 1)) b)) <$> GET_BLOCK blocks j
         else GET_BLOCK blocks j.
Proof.
  induction fuel as [|fuel IH]; intros blocks i last Hi Hlast Hfuel.
  - assert (i = last) as -> by lia. exists blocks. simpl.
    rewrite Z.ltb_irrefl. split; [done|]. split; [done|].
    intros j. destruct (Z.leb_spec last j), (Z.ltb_spec j last); try done; lia.
  - simpl. destruct (Z.ltb_spec i last) as [Hlt|Hge].
    + destruct (GET_BLOCK_in_range blocks i) as [b Hb]; [lia|].
      pose proof (upd_block_Some (with_child (u16 (i + 1))) _ _ _ Hb) as H1.
      rewrite H1. simpl.
      set (blocks1 := <[Z.to_nat i := with_child (u16 (i + 1)) b]> blocks) in *.
      assert (GET_BLOCK blocks1 i = Some (with_child (u16 (i + 1)) b)) as Hb1
        by (by eapply GET_upd_block_eq).
      pose proof (upd_block_Some (with_sibling 0) _ _ _ Hb1) as H2.
      rewrite H2. simpl.
      set (blocks2 := <[Z.to_nat i := _]> blocks1) in *.
      assert (length blocks2 = length blocks) as Hlen
        by (unfold blocks2, blocks1; by rewrite !length_insert).
      destruct (IH blocks2 (i + 1) last) as (blocks' & -> & Hlen' & Hget); [lia..|].
      exists blocks'. split; [done|]. split; [congruence|].
      intros j. rewrite Hget.
      rewrite (GET_upd_block _ _ _ _ j H2), (GET_upd_block _ _ _ _ j H1).
      rewrite (GET_upd_block _ _ _ _ i H1), Z.eqb_refl.
      destruct (Z.eqb_spec j i) as [->|Hne].
      * destruct (Z.leb_spec (i + 1) i); [lia|]. simpl.
        destruct (Z.leb_spec i i); [|lia]. destruct (Z.ltb_spec i last); [|lia].
        simpl. rewrite Hb. done.
      * destruct (Z.leb_spec (i + 1) j), (Z.leb_spec i j); try lia; done.
    + assert (i = last) as -> by lia. exists blocks. split; [done|]. split; [done|].
      intros j. destruct (Z.leb_spec last j), (Z.ltb_spec j last); try done; lia.
Qed.

(** The link fields of the pool that [profile_initialize] leaves. *)
Lemma profile_initialize_blocks e identifier buffer size st :
  let N := Z.min (u32 (size / 64)) 65535 in
  1 ≤ N → N ≤ Z.of_nat (length buffer) →
  ∃ st', profile_initialize e identifier buffer size st = Some st' ∧
    _profile_num_blocks st' = N ∧ _profile_free st' = 1 ∧ _profile_root st' = 0 ∧
    _profile_counter st' = 128 ∧
    length (_profile_blocks st') = length buffer ∧
    ∀ j, 0 ≤ j < N → ∃ b, GET_BLOCK (_profile_blocks st') j = Some b ∧
           sibling b = 0 ∧ child b = if (j =? 0) || (j =? N - 1) then 0 else j + 1.
Proof.
  intros N HN Hlen. unfold profile_initialize.
  assert ((if u32 (size / 64) >? 65535 then 65535 else u32 (size / 64)) = N) as ->.
  { unfold N. destruct (Z.gtb_spec (u32 (size / 64)) 65535); lia. }
  assert (N ≤ 65535) as HN' by (unfold N; lia).
  rewrite (u32_small (N - 1)) by lia.
  destruct (initialize_loop_spec (S (length buffer)) buffer 0 (N - 1))
    as (blocks1 & -> & Hlen1 & Hget1); [lia..|]. simpl.
  destruct (GET_BLOCK_in_range blocks1 (N - 1)) as [b1 Hb1]; [lia|].
  pose proof (upd_block_Some (with_child 0) _ _ _ Hb1) as H2. rewrite H2. simpl.
  set (blocks2 := <[_ := _]> blocks1) in *.
  pose proof (GET_upd_block_eq _ _ _ _ _ H2 Hb1) as Hb2.
  pose proof (upd_block_Some (with_sibling 0) _ _ _ Hb2) as H3. rewrite H3. simpl.
  set (blocks3 := <[_ := _]> blocks2) in *.
  assert (length blocks3 = length buffer) as Hlen3
    by (unfold blocks3, blocks2; rewrite !length_insert; done).
  destruct (GET_BLOCK_in_range blocks3 0) as [b0 Hb0]; [lia|].
  pose proof (upd_block_Some (with_child 0) _ _ _ Hb0) as H4. rewrite H4. simpl.
  set (blocks4 := <[_ := _]> blocks3) in *.
  eexists. split; [done|]. simpl.
  repeat split; try done.
  { unfold blocks4. by rewrite length_insert. }
  intros j Hj.
  rewrite (GET_upd_block _ _ _ _ j H4), (GET_upd_block _ _ _ _ j H3),
    (GET_upd_block _ _ _ _ j H2), Hb0, Hb2, Hb1.
  rewrite (GET_upd_block _ _ _ _ 0 H3), (GET_upd_block _ _ _ _ 0 H2), Hb2, Hb1 in Hb0.
  destruct (GET_BLOCK_in_range buffer j) as [bj Hbj]; [lia|].
  destruct (Z.eqb_spec j 0) as [->|Hj0]; simpl.
  - destruct (Z.eqb_spec 0 (N - 1)) as [HN1|HN1]; simpl in Hb0.
    + injection Hb0 as <-. eexists. split; [done|]. done.
    + rewrite Hget1 in Hb0. destruct (Z.ltb_spec 0 (N - 1)); [|lia].
      simpl in Hb0. destruct (GET_BLOCK buffer 0) as [b'|]; [|done].
      injection Hb0 as <-. eexists. split; [done|]. done.
  - destruct (Z.eqb_spec j (N - 1)) as [->|HjN]; simpl.
    + eexists. split; [done|]. done.
    + rewrite Hget1, Hbj. destruct (Z.leb_spec 0 j); [|lia].
      destruct (Z.ltb_spec j (N - 1)); [|lia]. simpl.
      eexists. split; [done|]. simpl. split; [done|]. apply u16_small. lia.
Qed.

Lemma child_chain_seq blocks N :
  (∀ j, 1 ≤ j < N → ∃ b, GET_BLOCK blocks j = Some b ∧
                        child b = if j =? N - 1 then 0 else j + 1) →
  ∀ (n : nat) j fuel, 1 ≤ j → j + Z.of_nat n = N - 1 → (n < fuel)%nat →
    child_chain fuel blocks j = Some (seqZ j (Z.of_nat n + 1)).
Proof.
  intros Hblocks n. induction n as [|n IH]; intros j fuel Hj HjN Hfuel.
  - destruct fuel as [|fuel]; [lia|]. simpl.
    destruct (Z.eqb_spec j 0); [lia|].
    destruct (Hblocks j) as (b & -> & Hc); [lia|]. simpl.
    rewrite Hc. destruct (Z.eqb_spec j (N - 1)); [|lia].
    destruct fuel; done.
  - destruct fuel as [|fuel]; [lia|]. simpl.
    destruct (Z.eqb_spec j 0); [lia|].
    destruct (Hblocks j) as (b & -> & Hc); [lia|]. simpl.
    rewrite Hc. destruct (Z.eqb_spec j (N - 1)); [lia|].
    rewrite (IH (j + 1) fuel) by lia. simpl.
    rewrite (seqZ_cons j) by lia. do 3 f_equal; lia.
Qed.

(** No allocation hands out slot 0. *)
Lemma allocate_block_nonzero st st' slot :
  _profile_allocate_block st = Some (st', Some slot) → slot ≠ 0.
Proof.
  unfold _profile_allocate_block.
  destruct (GET_BLOCK _ _) as [head|]; [|done]. simpl.
  destruct (Z.eqb_spec (Z.land (_profile_free st) 65535) 0) as [|Hne].
  - destruct (_ =? 0); intros [= <-]; done.
  - destruct (put_block _ _ _); [|done]. simpl. intros [= _ <-]. done.
Qed.

(** C9, as amended.  For a buffer that holds at least two whole records
    ([(size / 64) mod 2^32 >= 2]), [profile_initialize] creates a pool of
    [N = min ((size / 64) mod 2^32, 65535)] slots: the free-list head is
    slot 1, the child links from slot 1 visit exactly the slots 1 .. N-1 in
    order, the last of them has child 0, every slot of the free list has
    sibling 0, and no allocation ever returns slot 0.  When [size / 64] fits
    32 bits this is the pool the specification describes. *)
Theorem C9_initialize_pool e identifier buffer size st :
  Z.of_nat (length buffer) = size / 64 →
  2 ≤ u32 (size / 64) →
  let N := Z.min (u32 (size / 64)) 65535 in
  ∃ st', profile_initialize e identifier buffer size st = Some st' ∧
    _profile_num_blocks st' = N ∧
    _profile_free st' = 1 ∧
    free_list st' = Some (seqZ 1 (N - 1)) ∧
    siblings_clear (_profile_blocks st') (seqZ 1 (N - 1)) ∧
    (∃ b, GET_BLOCK (_profile_blocks st') (N - 1) = Some b ∧ child b = 0) ∧
    (0 ∉ seqZ 1 (N - 1)) ∧
    (∀ s s' slot, _profile_allocate_block s = Some (s', Some slot) → slot ≠ 0) ∧
    (size / 64 < 4294967296 → pool_of_size size st').
Proof.
  intros Hlen Hsize N.
  assert (0 ≤ size / 64) as Hnn by lia.
  assert (u32 (size / 64) ≤ size / 64) as Hle
    by (unfold u32; apply Z.mod_le; lia).
  assert (2 ≤ N ≤ 65535) as HN by (unfold N; lia).
  destruct (profile_initialize_blocks e identifier buffer size st)
    as (st' & Hinit & Hnum & Hfree & _ & _ & Hlen' & Hget); [fold N; lia..|].
  fold N in Hnum, Hget.
  assert (free_list st' = Some (seqZ 1 (N - 1))) as Hfl.
  { unfold free_list. rewrite Hfree. change (Z.land 1 65535) with 1.
    replace (N - 1) with (Z.of_nat (Z.to_nat (N - 2)) + 1) by lia.
    apply (child_chain_seq _ N); [|lia..].
    intros j Hj. destruct (Hget j) as (b & Hb & _ & Hc); [lia|].
    exists b. split; [done|]. rewrite Hc.
    destruct (Z.eqb_spec j 0); [lia|]. done. }
  assert (siblings_clear (_profile_blocks st') (seqZ 1 (N - 1))) as Hsib.
  { intros s Hs%elem_of_seqZ. destruct (Hget s) as (b & Hb & Hsb & _); [lia|]. eauto. }
  exists st'. repeat split; try done.
  - destruct (Hget (N - 1)) as (b & Hb & _ & Hc); [lia|]. exists b. split; [done|].
    rewrite Hc, Z.eqb_refl, orb_true_r. done.
  - intros H0%elem_of_seqZ. lia.
  - apply allocate_block_nonzero.
  - rewrite Hnum. unfold N. rewrite u32_small by lia. done.
  - by rewrite Hfree.
  - unfold N in Hfl, Hsib. rewrite u32_small in Hfl, Hsib by lia. eauto.
Qed.

(** C9 at the size the specification names: 64 * 1024 bytes give 1024
    slots and a free list of 1023 slots. *)
Lemma C9_initialize_pool_witness :
  ∃ st', profile_initialize env0 [] (replicate 1024 zero_block) 65536 initial_state
           = Some st' ∧
    _profile_num_blocks st' = 1024 ∧
    length <$> free_list st' = Some 1023%nat.
Proof.
  destruct (C9_initialize_pool env0 [] (replicate 1024 zero_block) 65536 initial_state)
    as (st' & Hinit & Hnum & _ & Hfl & _).
  - rewrite length_replicate. reflexivity.
  - vm_compute. discriminate.
  - exists st'. split; [exact Hinit|]. split; [exact Hnum|].
    rewrite Hfl. vm_compute. reflexivity.
Defined.

(** C9 as stated fails for a buffer of one record: 64 bytes give N = 1, the
    free-list head is set to 1 all the same, and slot 1 lies outside the
    pool, so the free list is not the (empty) list of slots 1 .. N-1. *)
Lemma C9_counterexample :
  ∃ st', profile_initialize env0 [] [zero_block] 64 initial_state = Some st' ∧
         _profile_free st' = 1 ∧
         GET_BLOCK (_profile_blocks st') 1 = None ∧
         ¬ pool_of_size 64 st'.
Proof.
  eexists. split; [vm_compute; reflexivity|].
  split; [reflexivity|]. split; [reflexivity|].
  intros (_ & _ & l & Hfl & _). vm_compute in Hfl. discriminate.
Qed.

(** ** Trees in the pool *)

Lemma chain_slots t : chain t ≡ₚ slots t.
Proof.
  induction t as [|s c IHc sb IHsb]; simpl; [done|].
  rewrite IHc, IHsb. f_equiv. apply Permutation_app_comm.
Qed.

Lemma elem_of_chain t j : j ∈ chain t ↔ j ∈ slots t.
Proof. by rewrite chain_slots. Qed.

Lemma depth_le_slots t : (depth t ≤ length (slots t))%nat.
Proof.
  induction t as [|s c IHc sb IHsb]; simpl; [done|].
  rewrite length_app. lia.
Qed.

Lemma shaped_frame blocks blocks' t : ∀ i,
  (∀ j, j ∈ slots t → GET_BLOCK blocks' j = GET_BLOCK blocks j) →
  shaped blocks i t → shaped blocks' i t.
Proof.
  induction t as [|s c IHc sb IHsb]; simpl; intros i Hf Hs; [done|].
  destruct Hs as (-> & Hs0 & b & Hb & Hc & Hsb).
  split; [done|]. split; [done|]. exists b.
  split; [rewrite Hf; [done|set_solver]|].
  split; [apply IHc|apply IHsb]; try done; intros j Hj; apply Hf; set_solver.
Qed.

Lemma shaped_range blocks t : ∀ i,
  shaped blocks i t → ∀ j, j ∈ slots t → 0 < j < Z.of_nat (length blocks).
Proof.
  induction t as [|s c IHc sb IHsb]; simpl; intros i Hs j Hj; [set_solver|].
  destruct Hs as (-> & Hs0 & b & Hb & Hc & Hsb).
  apply elem_of_cons in Hj as [->|Hj].
  - apply GET_BLOCK_range in Hb. lia.
  - apply elem_of_app in Hj as [Hj|Hj]; eauto.
Qed.

(** Distinct slots of a pool are no more than the pool has records. *)
Lemma NoDup_slots_length (l : list Z) (n : nat) :
  NoDup l → (∀ j, j ∈ l → 0 ≤ j < Z.of_nat n) → (length l ≤ n)%nat.
Proof.
  intros Hnd Hr.
  assert (Z.to_nat <$> l ⊆+ seq 0 n) as Hsub.
  { apply NoDup_submseteq.
    - apply NoDup_fmap_2_strong; [|done].
      intros x y Hx Hy Hxy. apply Hr in Hx, Hy. lia.
    - intros x (y & -> & Hy)%list_elem_of_fmap. apply Hr in Hy.
      apply elem_of_seq. lia. }
  apply submseteq_length in Hsub. rewrite length_fmap, length_seq in Hsub. done.
Qed.

Lemma well_formed_depth blocks i t :
  well_formed blocks i t → (depth t ≤ length blocks)%nat.
Proof.
  intros [Hs Hnd]. etrans; [apply depth_le_slots|].
  apply NoDup_slots_length; [done|].
  intros j Hj. pose proof (shaped_range _ _ _ Hs j Hj). lia.
Qed.

Lemma lseg_frame blocks blocks' l : ∀ from to,
  (∀ j, j ∈ l → GET_BLOCK blocks' j = GET_BLOCK blocks j) →
  lseg blocks from l to → lseg blocks' from l to.
Proof.
  induction l as [|s l IH]; simpl; intros from to Hf Hl; [done|].
  destruct Hl as (-> & Hs0 & b & Hb & Hl).
  split; [done|]. split; [done|]. exists b.
  split; [rewrite Hf; [done|set_solver]|].
  apply IH; [|done]. intros j Hj. apply Hf. set_solver.
Qed.

Lemma lseg_app blocks l1 l2 : ∀ from mid to,
  lseg blocks from l1 mid → lseg blocks mid l2 to → lseg blocks from (l1 ++ l2) to.
Proof.
  induction l1 as [|s l1 IH]; simpl; intros from mid to H1 H2; [by subst|].
  destruct H1 as (-> & Hs0 & b & Hb & H1).
  split; [done|]. split; [done|]. exists b. split; [done|]. eauto.
Qed.

(** Storing [v] in the child field of the last record of a chain makes the
    chain lead to [v]. *)
Lemma lseg_set_last blocks l : ∀ from to x v blocks',
  lseg blocks from l to → last l = Some x → NoDup l →
  upd_block (with_child v) blocks x = Some blocks' →
  lseg blocks' from l v.
Proof.
  induction l as [|s l IH]; simpl; intros from to x v blocks' Hl Hlast Hnd Hupd; [done|].
  destruct Hl as (-> & Hs0 & b & Hb & Hl).
  apply NoDup_cons in Hnd as [Hsl Hnd].
  split; [done|]. split; [done|].
  destruct l as [|s' l].
  - injection Hlast as <-. simpl in *.
    exists (with_child v b). split; [by eapply GET_upd_block_eq|]. done.
  - assert (x ∈ s' :: l) as Hx.
    { apply list_elem_of_lookup. exists (length l). rewrite <- Hlast.
      rewrite last_lookup. done. }
    exists b. split.
    + rewrite (GET_upd_block_ne _ _ _ _ _ Hupd); [done|]. intros ->. done.
    + eapply IH; eauto.
Qed.

Lemma lseg_elem_range blocks l : ∀ from to,
  lseg blocks from l to → ∀ j, j ∈ l → j ≠ 0 ∧ is_Some (GET_BLOCK blocks j).
Proof.
  induction l as [|s l IH]; simpl; intros from to Hl j Hj; [set_solver|].
  destruct Hl as (-> & Hs0 & b & Hb & Hl).
  apply elem_of_cons in Hj as [->|Hj]; [eauto|]. eauto.
Qed.

(** ** _profile_process_block *)

Lemma emitted_frame write blocks blocks' l out :
  (∀ j, j ∈ l → GET_BLOCK blocks' j = GET_BLOCK blocks j) →
  emitted write blocks' l out → emitted write blocks l out.
Proof.
  destruct write; simpl; [|done]. intros Hf H. unfold emitted_from in *.
  induction H as [|s w l out [Hw Hb] H IH]; constructor.
  - split; [done|]. rewrite <- Hf; [done|set_solver].
  - apply IH. intros j Hj. apply Hf. set_solver.
Qed.

Lemma emitted_nil write blocks : emitted write blocks [] [].
Proof. destruct write; [constructor|done]. Qed.

Lemma emitted_node write blocks s b l1 l2 out1 out2 :
  GET_BLOCK blocks s = Some b →
  emitted write blocks l1 out1 → emitted write blocks l2 out2 →
  emitted write blocks (s :: l1 ++ l2)
    ((if write then [(Some s, b)] else []) ++ out1 ++ out2).
Proof.
  destruct write; simpl; [|by intros _ -> ->]. intros Hb H1 H2.
  constructor; [done|]. by apply Forall2_app.
Qed.

Lemma emitted_length blocks l out : emitted true blocks l out → length out = length l.
Proof. intros H. symmetry. by eapply Forall2_length. Qed.

Lemma process_block_rec_S fuel write blocks block :
  _profile_process_block_rec (S fuel) write blocks block =
    (b ← GET_BLOCK blocks block;
     let out := if write then [(Some block, b)] else [] in
     if negb (child b =? 0) then
       '(blocks, out1, leaf) ← _profile_process_block_rec fuel write blocks (child b);
       b ← GET_BLOCK blocks block;
       if negb (sibling b =? 0) then
         '(blocks, out2, subleaf) ← _profile_process_block_rec fuel write blocks (sibling b);
         b ← GET_BLOCK blocks block;
         blocks ← upd_block (with_child (child b)) blocks subleaf;
         b ← GET_BLOCK blocks block;
         blocks ← upd_block (with_child (sibling b)) blocks block;
         blocks ← upd_block (with_sibling 0) blocks block;
         Some (blocks, out ++ out1 ++ out2, leaf)
       else Some (blocks, out ++ out1, leaf)
     else if negb (sibling b =? 0) then
       '(blocks, out1, leaf) ← _profile_process_block_rec fuel write blocks (sibling b);
       b ← GET_BLOCK blocks block;
       blocks ← upd_block (with_child (sibling b)) blocks block;
       blocks ← upd_block (with_sibling 0) blocks block;
       Some (blocks, out ++ out1, leaf)
     else Some (blocks, out, block)).
Proof. reflexivity. Qed.

Lemma shaped_root_zero blocks t : shaped blocks 0 t → t = Leaf.
Proof. destruct t; [done|]. simpl. intros (<- & ? & _). done. Qed.

Lemma shaped_root_nonzero blocks i t : shaped blocks i t → i ≠ 0 → t ≠ Leaf.
Proof. destruct t; simpl; [done|done]. Qed.

Lemma last_chain_elem t leaf : last (chain t) = Some leaf → leaf ∈ slots t.
Proof.
  intros H. apply elem_of_chain. rewrite last_lookup in H.
  by eapply list_elem_of_lookup_2.
Qed.

(** What the walk does on a well-formed subtree [t] rooted at [i]. *)
Definition process_post (write : bool) (blocks : list profile_block) (i : Z)
    (t : tree) (blocks' : list profile_block) (out : list written) (leaf : Z) : Prop :=
  emitted write blocks (slots t) out ∧
  lseg blocks' i (chain t) 0 ∧
  last (chain t) = Some leaf ∧
  (∀ j, j ∉ slots t → GET_BLOCK blocks' j = GET_BLOCK blocks j) ∧
  (∀ j, j ∈ slots t → ∃ b b', GET_BLOCK blocks j = Some b ∧
      GET_BLOCK blocks' j = Some b' ∧
      data b' = data b ∧ previous b' = previous b ∧ sibling b' = 0) ∧
  length blocks' = length blocks.

Lemma process_block_rec_spec write t : ∀ fuel blocks i,
  shaped blocks i t → NoDup (slots t) → t ≠ Leaf → (depth t ≤ fuel)%nat →
  ∃ blocks' out leaf,
    _profile_process_block_rec fuel write blocks i = Some (blocks', out, leaf) ∧
    process_post write blocks i t blocks' out leaf.
Proof.
  induction t as [|s c IHc sb IHsb]; intros fuel blocks i Hs Hnd Hne Hfuel; [done|].
  clear Hne. destruct fuel as [|fuel]; [simpl in Hfuel; lia|]. simpl in Hfuel.
  destruct Hs as (-> & Hs0 & b & Hb & Hc & Hsb).
  simpl in Hnd. apply NoDup_cons in Hnd as [Hsn Hnd].
  apply NoDup_app in Hnd as (Hndc & Hdisj & Hndsb).
  assert (s ∉ slots c) as Hsc by set_solver.
  assert (s ∉ slots sb) as Hssb by set_solver.
  rewrite process_block_rec_S, Hb. simpl.
  destruct (Z.eqb_spec (child b) 0) as [Hc0|Hc0]; simpl.
  - (* no child *)
    rewrite Hc0 in Hc. apply shaped_root_zero in Hc as ->.
    destruct (Z.eqb_spec (sibling b) 0) as [Hsb0|Hsb0]; simpl.
    + rewrite Hsb0 in Hsb. apply shaped_root_zero in Hsb as ->.
      exists blocks, (if write then [(Some s, b)] else []), s.
      split; [done|]. unfold process_post. split_and!; try done.
      * pose proof (emitted_node write blocks s b [] [] [] [] Hb) as He.
        rewrite !app_nil_r in He. apply He; apply emitted_nil.
      * simpl. split; [done|]. split; [done|]. exists b. done.
      * intros j Hj. simpl in Hj. apply list_elem_of_singleton in Hj as ->. exists b, b. done.
    + destruct (IHsb fuel blocks (sibling b)) as (blocks1 & out1 & leaf & -> & Hpost);
        [done|done|by eapply shaped_root_nonzero|lia|].
      destruct Hpost as (Hem & Hlseg & Hlast & Hframe & Hin & Hlen). simpl.
      rewrite (Hframe s Hssb), Hb. simpl.
      assert (GET_BLOCK blocks1 s = Some b) as Hb1 by (by rewrite Hframe).
      pose proof (upd_block_Some (with_child (sibling b)) _ _ _ Hb1) as H2.
      rewrite H2. simpl. set (blocks2 := <[_ := _]> blocks1) in *.
      pose proof (GET_upd_block_eq _ _ _ _ _ H2 Hb1) as Hb2.
      pose proof (upd_block_Some (with_sibling 0) _ _ _ Hb2) as H3.
      rewrite H3. simpl. set (blocks3 := <[_ := _]> blocks2) in *.
      pose proof (GET_upd_block_eq _ _ _ _ _ H3 Hb2) as Hb3.
      assert (∀ j, j ≠ s → GET_BLOCK blocks3 j = GET_BLOCK blocks1 j) as Hother.
      { intros j Hj. rewrite (GET_upd_block_ne _ _ _ _ _ H3), (GET_upd_block_ne _ _ _ _ _ H2); done. }
      eexists _, _, leaf. split; [done|]. unfold process_post. split_and!.
      * pose proof (emitted_node write blocks s b [] (slots sb) [] out1 Hb) as He.
        simpl in He. apply He; [apply emitted_nil|done].
      * simpl. split; [done|]. split; [done|].
        eexists. split; [exact Hb3|]. simpl. rewrite app_nil_r.
        eapply lseg_frame; [|exact Hlseg].
        intros j Hj%elem_of_chain. apply Hother. intros ->. done.
      * simpl. rewrite app_nil_r. destruct (chain sb); [done|]. done.
      * intros j Hj. simpl in Hj. rewrite Hother by set_solver. apply Hframe. set_solver.
      * intros j Hj. simpl in Hj. apply elem_of_cons in Hj as [->|Hj].
        -- exists b, (with_sibling 0 (with_child (sibling b) b)). done.
        -- rewrite Hother by (intros ->; done). by apply Hin.
      * unfold blocks3, blocks2. rewrite !length_insert. done.
  - (* a child *)
    destruct (IHc fuel blocks (child b)) as (blocks1 & out1 & leaf & -> & Hpost);
      [done|done|by eapply shaped_root_nonzero|lia|].
    destruct Hpost as (Hem & Hlseg & Hlast & Hframe & Hin & Hlen). simpl.
    rewrite (Hframe s Hsc), Hb. simpl.
    assert (GET_BLOCK blocks1 s = Some b) as Hb1 by (by rewrite Hframe).
    destruct (Z.eqb_spec (sibling b) 0) as [Hsb0|Hsb0]; simpl.
    + rewrite Hsb0 in Hsb. apply shaped_root_zero in Hsb as ->.
      eexists _, _, leaf. split; [done|]. unfold process_post. split_and!.
      * pose proof (emitted_node write blocks s b (slots c) [] out1 [] Hb) as He.
        rewrite !app_nil_r in He. simpl. rewrite app_nil_r.
        apply He; [done|apply emitted_nil].
      * simpl. split; [done|]. split; [done|]. exists b. done.
      * simpl. destruct (chain c); [done|]. done.
      * intros j Hj. simpl in Hj. apply Hframe. set_solver.
      * intros j Hj. simpl in Hj. rewrite app_nil_r in Hj.
        apply elem_of_cons in Hj as [->|Hj]; [|by apply Hin].
        exists b, b. done.
      * done.
    + assert (shaped blocks1 (sibling b) sb) as Hsb1.
      { eapply shaped_frame; [|exact Hsb]. intros j Hj. apply Hframe. set_solver. }
      destruct (IHsb fuel blocks1 (sibling b)) as (blocks2 & out2 & subleaf & -> & Hpost);
        [done|done|by eapply shaped_root_nonzero|lia|].
      destruct Hpost as (Hem2 & Hlseg2 & Hlast2 & Hframe2 & Hin2 & Hlen2). simpl.
      assert (GET_BLOCK blocks2 s = Some b) as Hb2 by (by rewrite Hframe2).
      rewrite Hb2. simpl.
      pose proof (last_chain_elem _ _ Hlast2) as Hsubleaf.
      destruct (Hin2 subleaf Hsubleaf) as (bl & bl2 & Hbl & Hbl2 & _).
      pose proof (upd_block_Some (with_child (child b)) _ _ _ Hbl2) as H3.
      rewrite H3. simpl. set (blocks3 := <[_ := _]> blocks2) in *.
      assert (subleaf ≠ s) as Hsl by (intros ->; done).
      assert (GET_BLOCK blocks3 s = Some b) as Hb3
        by (by rewrite (GET_upd_block_ne _ _ _ _ _ H3)).
      rewrite Hb3. simpl.
      pose proof (upd_block_Some (with_child (sibling b)) _ _ _ Hb3) as H4.
      rewrite H4. simpl. set (blocks4 := <[_ := _]> blocks3) in *.
      pose proof (GET_upd_block_eq _ _ _ _ _ H4 Hb3) as Hb4.
      pose proof (upd_block_Some (with_sibling 0) _ _ _ Hb4) as H5.
      rewrite H5. simpl. set (blocks5 := <[_ := _]> blocks4) in *.
      pose proof (GET_upd_block_eq _ _ _ _ _ H5 Hb4) as Hb5.
      assert (∀ j, j ≠ s → GET_BLOCK blocks5 j = GET_BLOCK blocks3 j) as Hother.
      { intros j Hj. rewrite (GET_upd_block_ne _ _ _ _ _ H5), (GET_upd_block_ne _ _ _ _ _ H4); done. }
      assert (lseg blocks3 (sibling b) (chain sb) (child b)) as Hl3sb.
      { eapply lseg_set_last; [exact Hlseg2|exact Hlast2| |exact H3].
        rewrite chain_slots. done. }
      assert (lseg blocks3 (child b) (chain c) 0) as Hl3c.
      { eapply lseg_frame; [|exact Hlseg].
        intros j Hj%elem_of_chain.
        rewrite (GET_upd_block_ne _ _ _ _ _ H3) by (intros ->; set_solver).
        apply Hframe2. set_solver. }
      eexists _, _, leaf. split; [done|]. unfold process_post. split_and!.
      * apply emitted_node; [done|done|].
        eapply emitted_frame; [|exact Hem2]. intros j Hj. apply Hframe. set_solver.
      * simpl. split; [done|]. split; [done|].
        eexists. split; [exact Hb5|]. simpl.
        eapply lseg_frame; [|eapply lseg_app; [exact Hl3sb|exact Hl3c]].
        intros j Hj. apply Hother. intros ->.
        apply elem_of_app in Hj as [Hj%elem_of_chain|Hj%elem_of_chain]; done.
      * simpl. rewrite last_cons, last_app, Hlast. done.
      * intros j Hj. simpl in Hj. rewrite Hother by set_solver.
        rewrite (GET_upd_block_ne _ _ _ _ _ H3) by (intros ->; set_solver).
        rewrite Hframe2 by set_solver. apply Hframe. set_solver.
      * intros j Hj. simpl in Hj. apply elem_of_cons in Hj as [->|Hj].
        { exists b, (with_sibling 0 (with_child (sibling b) b)). done. }
        rewrite Hother by (intros ->; set_solver).
        rewrite (GET_upd_block _ _ _ _ j H3), Hbl2.
        apply elem_of_app in Hj as [Hj|Hj].
        -- destruct (Z.eqb_spec j subleaf) as [->|Hjs]; [by apply Hdisj in Hj|].
           rewrite Hframe2 by set_solver. by apply Hin.
        -- destruct (Hin2 j Hj) as (bj & bj2 & Hbj & Hbj2 & Hd & Hp & Hsz).
           rewrite Hframe in Hbj by set_solver.
           destruct (Z.eqb_spec j subleaf) as [->|Hjs].
           ++ rewrite Hbl2 in Hbj2. injection Hbj2 as <-.
              exists bj, (with_child (child b) bl2). done.
           ++ exists bj, bj2. done.
      * unfold blocks5, blocks4, blocks3. rewrite !length_insert. congruence.
Qed.

Lemma lseg_child_chain blocks l : ∀ from fuel,
  lseg blocks from l 0 → (length l ≤ fuel)%nat → child_chain fuel blocks from = Some l.
Proof.
  induction l as [|s l IH]; simpl; intros from fuel Hl Hfuel.
  - subst. by destruct fuel.
  - destruct Hl as (-> & Hs0 & b & Hb & Hl).
    destruct fuel as [|fuel]; [lia|]. simpl.
    destruct (Z.eqb_spec s 0); [done|]. rewrite Hb. simpl.
    rewrite (IH _ fuel Hl) by lia. done.
Qed.

Lemma linear_chain_slots t : linear t → chain t = slots t.
Proof.
  induction t as [|s c IHc sb IHsb]; simpl; [done|].
  intros ([-> | ->] & Hc & Hsb).
  - simpl. rewrite app_nil_r, IHsb; done.
  - simpl. rewrite app_nil_r, IHc; done.
Qed.

(** C3, as amended.  On a well-formed subtree, [_profile_process_block]
    returns; it hands each record of the subtree to the writer exactly once,
    as it was before the walk, in the order record, records under its child
    link, records under its sibling link ([slots]); afterwards the child
    links from the root lead through every record of the subtree and end in
    0, every sibling field of the subtree is 0, the payload of each record
    is unchanged, and the returned record is the last one of the chain.  The
    chain runs record, chain of the sibling link, chain of the child link
    ([chain]): it holds the same records as the emission order, and is that
    order when no record has both a child and a sibling. *)
Theorem C3_process_block st i t :
  well_formed (_profile_blocks st) i t → i ≠ 0 →
  ∃ st' leaf out,
    _profile_process_block i st = Some (st', leaf) ∧
    sink st' = sink st ++ out ∧
    emitted (_profile_write st) (_profile_blocks st) (slots t) out ∧
    NoDup (slots t) ∧
    child_chain (S (length (_profile_blocks st'))) (_profile_blocks st') i
      = Some (chain t) ∧
    chain t ≡ₚ slots t ∧
    siblings_clear (_profile_blocks st') (slots t) ∧
    last (chain t) = Some leaf ∧
    (linear t → chain t = slots t) ∧
    (∀ j, j ∉ slots t →
       GET_BLOCK (_profile_blocks st') j = GET_BLOCK (_profile_blocks st) j).
Proof.
  intros Hwf Hi. pose proof Hwf as [Hs Hnd].
  destruct (process_block_rec_spec (_profile_write st) t
              (S (length (_profile_blocks st))) (_profile_blocks st) i)
    as (blocks' & out & leaf & Hrun & Hem & Hlseg & Hlast & Hframe & Hin & Hlen);
    [done|done|by eapply shaped_root_nonzero| |].
  { pose proof (well_formed_depth _ _ _ Hwf). lia. }
  unfold _profile_process_block. rewrite Hrun. simpl.
  assert (child_chain (S (length blocks')) blocks' i = Some (chain t)) as Hcc.
  { apply lseg_child_chain; [exact Hlseg|].
    rewrite Hlen, chain_slots. etrans; [|apply Nat.le_succ_diag_r].
    apply NoDup_slots_length; [done|].
    intros j Hj. pose proof (shaped_range _ _ _ Hs j Hj). lia. }
  eexists _, leaf, out. split; [done|]. split_and!; try done.
  - apply chain_slots.
  - intros j Hj. destruct (Hin j Hj) as (b & b' & _ & Hb' & _ & _ & Hz). eauto.
  - apply linear_chain_slots.
Qed.

(** C3 on the pool of five records. *)
Lemma C3_process_block_witness :
  ∃ st',
    _profile_process_block 1 state_1234 = Some (st', 3) ∧
    written_slots (sink st') = [Some 1; Some 2; Some 3; Some 4] ∧
    child_chain 6 (_profile_blocks st') 1 = Some [1; 2; 4; 3].
Proof.
  destruct (C3_process_block state_1234 1 tree_1234)
    as (st' & leaf & out & Hrun & _ & _ & _ & _ & _ & _ & Hlast & _).
  - split; [|compute_done].
    repeat (simpl; first [done | split | eexists]).
  - done.
  - vm_compute in Hlast. injection Hlast as <-. exists st'. split; [exact Hrun|].
    vm_compute in Hrun. injection Hrun as <-. split; reflexivity.
Defined.

(** C3 as stated fails where a record has both a child and a sibling: in
    the pool of five records the writer receives 1, 2, 3, 4 and the chain
    left behind is 1, 2, 4, 3. *)
Lemma C3_counterexample :
  well_formed (_profile_blocks state_1234) 1 tree_1234 ∧
  ¬ emission_follows_chain 1 state_1234.
Proof.
  split.
  - split; [|compute_done].
    repeat (simpl; first [done | split | eexists]).
  - intros H. specialize (H _ _ [1; 2; 4; 3] eq_refl eq_refl). vm_compute in H. done.
Qed.

(** ** profile_end_block: the walk to the parent *)

Lemma find_parent_S fuel blocks current_index :
  _profile_find_parent (S fuel) blocks current_index =
    (current ← GET_BLOCK blocks current_index;
     previous_ ← GET_BLOCK blocks (previous current);
     if child previous_ =? current_index then Some (previous current)
     else _profile_find_parent fuel blocks (previous current)).
Proof. reflexivity. Qed.

(** From the entry at position [j] of a child list the walk takes [j]
    passes to reach the head of the list. *)
Lemma find_parent_spine blocks t : ∀ i prev (j : nat) x,
  shaped blocks i t → NoDup (slots t) → spine_previous blocks prev t →
  spine t !! j = Some x →
  ∀ k, _profile_find_parent (j + k) blocks x = _profile_find_parent k blocks i.
Proof.
  induction t as [|s c _ sb IHsb]; intros i prev j x Hs Hnd Hp Hj k; [done|].
  destruct Hs as (-> & Hs0 & b & Hb & Hc & Hsb).
  simpl in Hnd. apply NoDup_cons in Hnd as [Hsn Hnd].
  apply NoDup_app in Hnd as (Hndc & Hdisj & Hndsb).
  destruct Hp as [_ Hp].
  destruct j as [|j]; simpl in Hj; [by injection Hj as <-|].
  destruct sb as [|s' c' sb']; [done|].
  replace (S j + k)%nat with (j + S k)%nat by lia.
  rewrite (IHsb (sibling b) s j x Hsb Hndsb Hp Hj (S k)).
  destruct Hsb as (Hs' & Hs'0 & b' & Hb' & _). rewrite Hs'.
  destruct Hp as [(b'' & Hb'' & Hprev) _].
  rewrite Hb' in Hb''. injection Hb'' as <-.
  rewrite find_parent_S, Hb'. simpl. rewrite Hprev, Hb. simpl.
  destruct (Z.eqb_spec (child b) s') as [Heq|Hne]; [|done].
  exfalso. destruct c as [|sc cc csb]; simpl in Hc; [lia|].
  destruct Hc as (Hsc & _). apply (Hdisj s'); simpl; set_solver.
Qed.

Lemma find_parent_child blocks p c sb (j : nat) x :
  well_formed blocks p (Node p c sb) → spine_previous blocks p c →
  spine c !! j = Some x →
  ∀ fuel, (j < fuel)%nat → _profile_find_parent fuel blocks x = Some p.
Proof.
  intros [Hs Hnd] Hp Hj fuel Hfuel.
  destruct Hs as (_ & Hp0 & bp & Hbp & Hc & _).
  simpl in Hnd. apply NoDup_cons in Hnd as [_ Hnd].
  apply NoDup_app in Hnd as (Hndc & _ & _).
  replace fuel with (j + S (fuel - j - 1))%nat by lia.
  rewrite (find_parent_spine blocks c (child bp) p j x Hc Hndc Hp Hj).
  destruct c as [|s cc csb]; [done|].
  destruct Hc as (Hs & Hs0 & b & Hb & _). destruct Hp as [(b' & Hb' & Hprev) _].
  rewrite Hb in Hb'. injection Hb' as <-.
  rewrite find_parent_S, Hs, Hb. simpl. rewrite Hprev, Hbp. simpl.
  rewrite Hs, Z.eqb_refl. done.
Qed.

Lemma spine_slots t x : x ∈ spine t → x ∈ slots t.
Proof.
  induction t as [|s c _ sb IHsb]; simpl; [done|].
  intros [->|Hx]%elem_of_cons; set_solver.
Qed.

Lemma spine_length t : (length (spine t) ≤ length (slots t))%nat.
Proof.
  induction t as [|s c _ sb IHsb]; simpl; [done|]. rewrite length_app. lia.
Qed.

(** The walk reads link fields only. *)
Lemma find_parent_links blocks blocks' fuel :
  (∀ j, GET_BLOCK blocks' j = None ↔ GET_BLOCK blocks j = None) →
  (∀ j b b', GET_BLOCK blocks j = Some b → GET_BLOCK blocks' j = Some b' →
     previous b' = previous b ∧ child b' = child b) →
  ∀ x, _profile_find_parent fuel blocks' x = _profile_find_parent fuel blocks x.
Proof.
  intros Hnone Hsome. induction fuel as [|fuel IH]; intros x; [done|].
  rewrite !find_parent_S.
  destruct (GET_BLOCK blocks x) as [b|] eqn:Hb.
  - destruct (GET_BLOCK blocks' x) as [b'|] eqn:Hb'.
    2: { apply Hnone in Hb'. congruence. }
    destruct (Hsome _ _ _ Hb Hb') as [Hp Hc]. simpl. rewrite Hp.
    destruct (GET_BLOCK blocks (previous b)) as [q|] eqn:Hq.
    + destruct (GET_BLOCK blocks' (previous b)) as [q'|] eqn:Hq'.
      2: { apply Hnone in Hq'. congruence. }
      destruct (Hsome _ _ _ Hq Hq') as [_ Hqc]. simpl. rewrite Hqc, IH. done.
    + apply Hnone in Hq. rewrite Hq. done.
  - apply Hnone in Hb. rewrite Hb. done.
Qed.

Lemma profile_end_block_rec_S fuel e st :
  profile_end_block_rec (S fuel) e st =
    let block_index := get_thread_profile_block st (thread_id e) in
    if (_profile_enable st =? 0) || (block_index =? 0) then Some st
    else
      st ← st_upd (fun b => with_data (with_end (i64 (time_current e - _profile_ground_time st))
                                          (data b)) b) block_index st;
      block ← GET_BLOCK (_profile_blocks st) block_index;
      if negb (previous block =? 0) then
        '(st, parent_index) ← profile_end_block_walk e block_index st;
        parent ← GET_BLOCK (_profile_blocks st) parent_index;
        if negb (processor (data parent) =? u32 (thread_hardware e)) then
          st ← profile_end_block_rec fuel e st;
          parent ← GET_BLOCK (_profile_blocks st) parent_index;
          profile_begin_block e (name (data parent)) (string_length (name (data parent))) st
        else Some st
      else
        st ← _profile_put_root_block block_index st;
        Some (set_thread_profile_block (thread_id e) 0 st).
Proof. reflexivity. Qed.

Arguments profile_end_block_walk : simpl never.

Lemma spine_previous_nonzero blocks t : ∀ i prev (j : nat) x,
  shaped blocks i t → spine_previous blocks prev t → prev ≠ 0 →
  spine t !! j = Some x →
  ∃ b, GET_BLOCK blocks x = Some b ∧ previous b ≠ 0.
Proof.
  induction t as [|s c _ sb IHsb]; intros i prev j x Hs Hp Hprev Hj; [done|].
  destruct Hs as (-> & Hs0 & b & Hb & _ & Hsb). destruct Hp as [(b' & Hb' & Hpb) Hp].
  destruct j as [|j]; simpl in Hj.
  - injection Hj as <-. exists b'. split; [done|]. congruence.
  - eapply IHsb; eauto.
Qed.

(** C6.  Let [x] be the entry at position [j] of the child list of [p] in a
    well-formed tree whose previous links follow the shape invariants (the
    first child's previous is the parent, every other sibling's previous is
    the sibling before it); the [j] entries before [x] are the siblings the
    walk goes back over.  Then the walk of profile_end_block from [x] ends:
    it leaves the loop within [j] passes ([S j] evaluations of its
    condition) with parent_index = [p], and the thread's current block is
    set to [p]; when the thread has not migrated this is the state in which
    profile_end_block returns. *)
Theorem C6_end_block_walk e st p c sb (j : nat) x :
  well_formed (_profile_blocks st) p (Node p c sb) →
  spine_previous (_profile_blocks st) p c →
  spine c !! j = Some x →
  _profile_find_parent (S j) (_profile_blocks st) x = Some p ∧
  (∃ st', profile_end_block_walk e x st = Some (st', p) ∧
          get_thread_profile_block st' (thread_id e) = p) ∧
  (get_thread_profile_block st (thread_id e) = x →
   _profile_enable st ≠ 0 →
   (∀ bp, GET_BLOCK (_profile_blocks st) p = Some bp →
          processor (data bp) = u32 (thread_hardware e)) →
   ∃ st', profile_end_block e st = Some st' ∧
          get_thread_profile_block st' (thread_id e) = p).
Proof.
  intros Hwf Hp Hj.
  pose proof (find_parent_child _ _ _ _ _ _ Hwf Hp Hj) as Hwalk.
  pose proof Hwf as [Hs Hnd].
  assert (x ∈ slots c) as Hxc.
  { apply spine_slots. by eapply list_elem_of_lookup_2. }
  assert (j < S (length (_profile_blocks st)))%nat as Hjlen.
  { apply lookup_lt_Some in Hj. pose proof (spine_length c).
    pose proof (well_formed_depth _ _ _ Hwf).
    assert (length (slots (Node p c sb)) ≤ length (_profile_blocks st))%nat.
    { apply NoDup_slots_length; [done|].
      intros i Hi. pose proof (shaped_range _ _ _ Hs i Hi). lia. }
    simpl in *. rewrite length_app in *. lia. }
  split; [apply Hwalk; lia|]. split.
  { unfold profile_end_block_walk. rewrite Hwalk by done. simpl.
    eexists. split; [done|].
    unfold get_thread_profile_block, set_thread_profile_block. simpl.
    by rewrite lookup_insert_eq. }
  intros Htls Hen Hcpu.
  destruct Hs as (_ & Hp0 & bp & Hbp & Hc & _).
  destruct (spine_previous_nonzero _ _ _ _ _ _ Hc Hp Hp0 Hj) as (bx & Hbx & Hprev).
  simpl in Hnd. apply NoDup_cons in Hnd as [Hpn _].
  assert (x ≠ p) as Hxp by (intros ->; set_solver).
  assert (x ≠ 0) as Hx0.
  { intros ->. apply GET_BLOCK_range in Hbx as Hr.
    pose proof (shaped_range _ _ _ Hc 0 Hxc). lia. }
  unfold profile_end_block. rewrite profile_end_block_rec_S.
  set (fuel := length (_profile_blocks st)).
  cbv zeta. rewrite Htls.
  destruct (Z.eqb_spec (_profile_enable st) 0); [done|].
  destruct (Z.eqb_spec x 0); [done|]. simpl.
  unfold st_upd.
  set (f := λ b, with_data (with_end (i64 (time_current e - _profile_ground_time st)) (data b)) b).
  pose proof (upd_block_Some f _ _ _ Hbx) as Hupd. rewrite Hupd. simpl.
  set (blocks1 := <[_ := _]> (_profile_blocks st)) in *.
  rewrite (GET_upd_block_eq _ _ _ _ _ Hupd Hbx). simpl.
  destruct (Z.eqb_spec (previous bx) 0); [done|]. simpl.
  assert (profile_end_block_walk e x (set_blocks blocks1 st)
          = Some (set_thread_profile_block (thread_id e) p (set_blocks blocks1 st), p))
    as ->; [|simpl].
  { unfold profile_end_block_walk. cbn [_profile_blocks set_blocks].
    assert (length blocks1 = fuel) as -> by (unfold blocks1; by rewrite length_insert).
    rewrite (find_parent_links (_profile_blocks st) blocks1).
    - rewrite Hwalk by done. done.
    - intros i. rewrite (GET_upd_block _ _ _ _ i Hupd), Hbx.
      destruct (Z.eqb_spec i x) as [->|]; [|done]. simpl. by rewrite Hbx.
    - intros i b b' Hb. rewrite (GET_upd_block _ _ _ _ i Hupd), Hbx.
      destruct (Z.eqb_spec i x) as [->|]; simpl.
      + intros [= <-]. rewrite Hbx in Hb. injection Hb as <-. done.
      + rewrite Hb. intros [= <-]. done. }
  rewrite (GET_upd_block_ne _ _ _ _ _ Hupd) by done. rewrite Hbp. simpl.
  rewrite (Hcpu _ Hbp), Z.eqb_refl. simpl.
  eexists. split; [done|].
  unfold get_thread_profile_block, set_thread_profile_block. simpl.
  by rewrite lookup_insert_eq.
Qed.


(** C6 on the pool of five records: record 4 is the second entry of the
    child list 2, 4 of record 1, and the walk from it takes one pass. *)
Lemma C6_end_block_walk_witness :
  _profile_find_parent 2 (_profile_blocks state_1234_open) 4 = Some 1 ∧
  ∃ st', profile_end_block env1 state_1234_open = Some st' ∧
         get_thread_profile_block st' 7 = 1.
Proof.
  destruct (C6_end_block_walk env1 state_1234_open 1
              (Node 2 (Node 3 Leaf Leaf) (Node 4 Leaf Leaf)) Leaf 1 4)
    as (Hwalk & _ & Hend).
  - split; [|compute_done].
    repeat (simpl; first [done | split | eexists]).
  - repeat (simpl; first [done | split | eexists]).
  - reflexivity.
  - split; [exact Hwalk|]. apply Hend.
    + reflexivity.
    + vm_compute. discriminate.
    + intros bp Hbp. vm_compute in Hbp. injection Hbp as <-. reflexivity.
Defined.

(** ** The engine on small pools *)

Lemma quiescent_no_open_block st tid :
  quiescent st → get_thread_profile_block st tid = 0.
Proof.
  intros [_ Hq]. unfold get_thread_profile_block.
  destruct (profile_block_tls st !! tid) as [v|] eqn:Hv; [|done].
  simpl. apply elem_of_map_to_list in Hv.
  rewrite Forall_forall in Hq. apply (Hq _ Hv).
Qed.

(** C1 fails on the code.  A 60-byte message needs three records; on a pool
    of three slots (two of them free) the third allocation fails and
    [_profile_put_message_block] returns from inside its loop.  The state is
    quiescent, the pool has N = 3 slots, and the free list is empty instead
    of holding N - 1 = 2 slots; profile_finalize reports the lost blocks. *)
Lemma C1_slots_lost :
  ∃ st st',
    run_exhausted = Some st ∧
    quiescent st ∧
    _profile_num_blocks st = 3 ∧
    free_list st = Some [] ∧
    step (Finalize env1) st = Some st' ∧
    LogLostBlocks 1 3 ∈ messages st'.
Proof.
  eexists _, _. split; [vm_compute; reflexivity|].
  split; [split; [reflexivity|vm_compute; repeat constructor]|].
  split; [reflexivity|]. split; [vm_compute; reflexivity|].
  split; [vm_compute; reflexivity|].
  apply list_elem_of_lookup. exists 1%nat. reflexivity.
Qed.

(** C2 fails on the code, by the same return.  When the allocation of a
    continuation segment fails, nothing is published (the root list stays
    empty and the thread has no open block), but the master and the first
    continuation stay allocated outside the free list: slots 1 and 2 hold
    the records with ids 2 and 3 and the free list is empty.  One warning
    was written. *)
Lemma C2_exhaustion_leaks :
  ∃ st b1 b2,
    run_exhausted = Some st ∧
    _profile_root st = 0 ∧
    get_thread_profile_block st (thread_id env1) = 0 ∧
    free_list st = Some [] ∧
    GET_BLOCK (_profile_blocks st) 1 = Some b1 ∧ id (data b1) = 2 ∧
    GET_BLOCK (_profile_blocks st) 2 = Some b2 ∧ id (data b2) = 3 ∧
    messages st = [LogExhaustedIncreaseSize].
Proof.
  eexists _, _, _. split; [vm_compute; reflexivity|].
  repeat (split; [vm_compute; reflexivity|]). reflexivity.
Qed.

(** C4 as stated fails for a message of 51 bytes: ceil(51 / 26) is 2, and
    the engine builds and emits three records, the second of which starts
    at byte 25 of the message. *)
Lemma C4_counterexample :
  ∃ st, run_message_51 = Some st ∧
        segments_of_26 51 = 2 ∧
        length (sink st) = 3%nat ∧
        id <$> written_data st = [2; 3; 3].
Proof.
  eexists. split; [vm_compute; reflexivity|].
  repeat (split; [vm_compute; reflexivity|]). reflexivity.
Qed.

(** C5 as stated fails for a name of 26 bytes: the record that is emitted
    carries the first 25 bytes and a NUL, so its first 26 bytes are not the
    first 26 bytes of the name. *)
Lemma C5_counterexample :
  ∃ st d, run_span_26 = Some st ∧
          written_data st = [d] ∧
          name d = bytes_A 25 ++ [x00] ∧
          take 26 (name d) ≠ take 26 (bytes_A 26).
Proof.
  eexists _, _. split; [vm_compute; reflexivity|].
  split; [vm_compute; reflexivity|]. split; [vm_compute; reflexivity|].
  vm_compute. discriminate.
Qed.

(** C8 as stated fails: the eleven first passes of the loop body write no
    system-info record and leave the counter at 11; the record is written
    by the twelfth pass. *)
Lemma C8_counterexample :
  ∃ st11 st12 io,
    run_passes 11 = Some st11 ∧
    filter is_system_info (written_data st11) = [] ∧
    io_thread st11 = Some io ∧ system_info_counter io = 11 ∧
    run_passes 12 = Some st12 ∧
    last (sink st12) = Some (None, system_info_block 1000).
Proof.
  eexists _, _, _. split; [vm_compute; reflexivity|].
  repeat (split; [vm_compute; reflexivity|]). vm_compute. reflexivity.
Qed.

(** ** Frames *)

Lemma links_eq_down blocks blocks' j : links_eq blocks blocks' j → down_eq blocks blocks' j.
Proof. intros H b Hb. destruct (H b Hb) as (b' & ? & ? & ? & ?). eauto. Qed.

Lemma down_eq_child blocks blocks' j : down_eq blocks blocks' j → child_eq blocks blocks' j.
Proof. intros H b Hb. destruct (H b Hb) as (b' & ? & ? & ?). eauto. Qed.

Lemma links_eq_same blocks blocks' j :
  GET_BLOCK blocks' j = GET_BLOCK blocks j → links_eq blocks blocks' j.
Proof. intros H b Hb. exists b. by rewrite H. Qed.

Lemma shaped_agree blocks blocks' t : ∀ i,
  (∀ j, j ∈ slots t → down_eq blocks blocks' j) →
  shaped blocks i t → shaped blocks' i t.
Proof.
  induction t as [|s c IHc sb IHsb]; simpl; intros i Hf Hs; [done|].
  destruct Hs as (-> & Hs0 & b & Hb & Hc & Hsb).
  destruct (Hf s) with (b := b) as (b' & Hb' & Hsib & Hch); [set_solver|done|].
  split; [done|]. split; [done|]. exists b'. split; [done|].
  rewrite Hsib, Hch.
  split; [apply IHc|apply IHsb]; try done; intros j Hj; apply Hf; set_solver.
Qed.

Lemma lseg_agree blocks blocks' l : ∀ from to,
  (∀ j, j ∈ l → child_eq blocks blocks' j) →
  lseg blocks from l to → lseg blocks' from l to.
Proof.
  induction l as [|s l IH]; simpl; intros from to Hf Hl; [done|].
  destruct Hl as (-> & Hs0 & b & Hb & Hl).
  destruct (Hf s) with (b := b) as (b' & Hb' & Hch); [set_solver|done|].
  split; [done|]. split; [done|]. exists b'. split; [done|].
  rewrite Hch. apply IH; [|done]. intros j Hj. apply Hf. set_solver.
Qed.

Lemma open_up_agree blocks blocks' path : ∀ a S,
  (∀ b, GET_BLOCK blocks a = Some b →
        ∃ b', GET_BLOCK blocks' a = Some b' ∧
              previous b' = previous b ∧ sibling b' = sibling b) →
  (∀ j, j ∈ slots S ++ path_slots path → links_eq blocks blocks' j) →
  open_up blocks a S path → open_up blocks' a S path.
Proof.
  induction path as [|[p Sp] rest IH]; intros a S Ha Hf (Ha0 & b & Hb & HS & Hp).
  - destruct (Ha b Hb) as (b' & Hb' & Hprev & Hsib).
    split; [done|]. exists b'. split; [done|]. rewrite Hsib, Hprev.
    split; [|done]. eapply shaped_agree; [|done].
    intros j Hj. apply links_eq_down, Hf. set_solver.
  - destruct Hp as (Hprev & (bp & Hbp & Hch) & Hup).
    destruct (Ha b Hb) as (b' & Hb' & Hprev' & Hsib).
    split; [done|]. exists b'. split; [done|]. rewrite Hsib, Hprev'.
    split; [eapply shaped_agree; [|done]; intros j Hj; apply links_eq_down, Hf; set_solver|].
    split; [done|]. split.
    + destruct (Hf p) with (b := bp) as (bp' & Hbp' & _ & _ & Hch'); [simpl; set_solver|done|].
      exists bp'. split; [done|]. congruence.
    + apply IH; [|intros j Hj; apply Hf; simpl; set_solver|done].
      intros bp0 Hbp0.
      destruct (Hf p) with (b := bp0) as (bp' & Hbp' & ? & ? & _); [simpl; set_solver|done|].
      eauto.
Qed.

Lemma open_tree_frame blocks blocks' o :
  (∀ j, j ∈ otree_slots o → GET_BLOCK blocks' j = GET_BLOCK blocks j) →
  open_tree blocks o → open_tree blocks' o.
Proof.
  intros Hf [Hup (b & Hb & Hc)]. unfold otree_slots in Hf. split.
  - eapply open_up_agree; [| |exact Hup].
    + intros b0 Hb0. exists b0. rewrite Hf by set_solver. done.
    + intros j Hj. apply links_eq_same, Hf. set_solver.
  - exists b. rewrite Hf by set_solver. split; [done|].
    eapply shaped_frame; [|done]. intros j Hj. apply Hf. set_solver.
Qed.

Lemma open_up_slots blocks path : ∀ a S,
  open_up blocks a S path →
  ∀ j, j ∈ a :: slots S ++ path_slots path → j ≠ 0 ∧ is_Some (GET_BLOCK blocks j).
Proof.
  induction path as [|[p Sp] rest IH]; intros a S (Ha0 & b & Hb & HS & Hp) j Hj.
  - simpl in Hj. rewrite app_nil_r in Hj. apply elem_of_cons in Hj as [->|Hj]; [eauto|].
    pose proof (shaped_range _ _ _ HS j Hj) as Hr. split; [lia|].
    apply GET_BLOCK_in_range. lia.
  - destruct Hp as (_ & _ & Hup). simpl in Hj.
    apply elem_of_cons in Hj as [->|Hj]; [eauto|].
    apply elem_of_app in Hj as [Hj|Hj].
    + pose proof (shaped_range _ _ _ HS j Hj) as Hr. split; [lia|].
      apply GET_BLOCK_in_range. lia.
    + eapply IH; [exact Hup|done].
Qed.

(** ** The tagged head of the free list *)

Lemma i32_mod_65536 x : i32 x mod 65536 = x mod 65536.
Proof.
  unfold i32. rewrite (Z.mod_eq (x + 2147483648) 4294967296) by lia.
  set (k := (x + 2147483648) / 4294967296).
  replace (x + 2147483648 - 4294967296 * k - 2147483648)
    with (x + (- 65536 * k) * 65536) by lia.
  apply Z_mod_plus_full.
Qed.

Lemma loop_tag_low loopid : Z.land (loop_tag loopid) 65535 = 0.
Proof.
  unfold loop_tag. change 65535 with (Z.ones 16).
  rewrite Z.land_ones by lia. change (2 ^ 16) with 65536.
  rewrite i32_mod_65536, Z.shiftl_mul_pow2 by lia.
  change (2 ^ 16) with 65536. apply Z_mod_mult.
Qed.

Lemma tagged_head c loopid :
  0 ≤ c < 65536 → Z.land (Z.lor c (loop_tag loopid)) 65535 = c.
Proof.
  intros Hc. rewrite Z.land_lor_distr_l, loop_tag_low, Z.lor_0_r.
  change 65535 with (Z.ones 16). rewrite Z.land_ones by lia.
  apply Z.mod_small. lia.
Qed.

(** ** _profile_allocate_block *)

Lemma lseg_child_bound blocks s F b :
  lseg blocks s (s :: F) 0 → GET_BLOCK blocks s = Some b →
  (∀ j, j ∈ F → j < 65536) → 0 ≤ child b < 65536.
Proof.
  intros (_ & _ & b' & Hb' & Hl) Hb HF. rewrite Hb in Hb'. injection Hb' as <-.
  destruct F as [|s' F]; simpl in Hl; [lia|].
  destruct Hl as (-> & _ & b'' & Hb'' & _).
  apply GET_BLOCK_range in Hb''. assert (s' < 65536) by (apply HF; set_solver). lia.
Qed.

Lemma allocate_block_some st s F :
  lseg (_profile_blocks st) (Z.land (_profile_free st) 65535) (s :: F) 0 →
  NoDup (s :: F) → (∀ j, j ∈ F → j < 65536) →
  ∃ free1 loopid1,
    _profile_allocate_block st =
      Some (set_blocks (<[Z.to_nat s := zero_block]> (_profile_blocks st))
              (set_free free1 (set_loopid loopid1 st)), Some s) ∧
    lseg (<[Z.to_nat s := zero_block]> (_profile_blocks st)) (Z.land free1 65535) F 0 ∧
    GET_BLOCK (<[Z.to_nat s := zero_block]> (_profile_blocks st)) s = Some zero_block ∧
    (∀ j, j ≠ s → GET_BLOCK (<[Z.to_nat s := zero_block]> (_profile_blocks st)) j
                  = GET_BLOCK (_profile_blocks st) j).
Proof.
  intros Hl Hnd HF. pose proof Hl as (Hhead & Hs0 & b & Hb & Hrest).
  rewrite Hhead in Hl.
  pose proof (lseg_child_bound _ _ _ _ Hl Hb HF) as Hc.
  apply NoDup_cons in Hnd as [HsF _].
  unfold _profile_allocate_block. rewrite Hhead, Hb. simpl.
  destruct (Z.eqb_spec s 0); [done|].
  pose proof (GET_BLOCK_range _ _ _ Hb) as Hr.
  rewrite (put_block_in_range _ s zero_block Hr). simpl.
  pose proof (put_block_in_range _ s zero_block Hr) as Hput.
  eexists _, _. split; [done|].
  split; [|split].
  - rewrite tagged_head by done.
    eapply lseg_frame; [|exact Hrest].
    intros j Hj. rewrite (GET_put_block _ _ _ _ j Hput).
    destruct (Z.eqb_spec j s) as [->|]; done.
  - rewrite (GET_put_block _ _ _ _ s Hput), Z.eqb_refl. done.
  - intros j Hj. rewrite (GET_put_block _ _ _ _ j Hput).
    destruct (Z.eqb_spec j s); done.
Qed.

(** The statics an exhausted allocation leaves: only the loop id, the
    warning flag and the diagnostics may differ. *)
Lemma allocate_block_none st :
  is_Some (GET_BLOCK (_profile_blocks st) 0) →
  Z.land (_profile_free st) 65535 = 0 →
  ∃ loopid1 warned1 messages1,
    _profile_allocate_block st =
      Some (set_messages messages1 (set_has_warned warned1 (set_loopid loopid1 st)), None).
Proof.
  intros [b Hb] Hfree. unfold _profile_allocate_block. rewrite Hfree, Hb. simpl.
  destruct (has_warned st =? 0).
  - eexists _, 1, _. unfold log_message. simpl. done.
  - exists (i32 (_profile_loopid st + 1)), (has_warned st), (messages st).
    destruct st; reflexivity.
Qed.

(** ** Re-establishing the invariant *)

(** An operation of thread [tid] that touches only the free list, the root
    list and the thread's own tree, and leaves well-formed pieces made of
    the slots it started from, keeps the invariant. *)
Lemma Inv_update st G tid st' F' R' o' :
  Inv st G →
  (∀ j, j ∉ local_slots G tid →
        GET_BLOCK (_profile_blocks st') j = GET_BLOCK (_profile_blocks st) j) →
  (∀ t, t ≠ tid → get_thread_profile_block st' t = get_thread_profile_block st t) →
  is_Some (GET_BLOCK (_profile_blocks st') 0) →
  lseg (_profile_blocks st') (Z.land (_profile_free st') 65535) F' 0 →
  shaped (_profile_blocks st') (_profile_root st') R' →
  match o' with
  | Some o => get_thread_profile_block st' tid = o_cur o ∧
              open_tree (_profile_blocks st') o
  | None => get_thread_profile_block st' tid = 0
  end →
  NoDup (F' ++ slots R' ++ open_slots o') →
  (∀ j, j ∈ F' ++ slots R' ++ open_slots o' → j ∈ local_slots G tid) →
  Inv st' {| g_free := F'; g_root := R';
             g_open := λ t, if decide (t = tid) then o' else g_open G t |}.
Proof.
  intros HI Hframe Htls Hzero Hfree Hroot Hopen Hnd Hsub.
  assert (∀ t, t ≠ tid → ∀ j, j ∈ open_slots (g_open G t) → j ∉ local_slots G tid) as Hother.
  { intros t Ht j Hj Hin. unfold local_slots in Hin.
    pose proof (inv_nodup _ _ HI t) as Hndt. unfold local_slots in Hndt.
    apply NoDup_app in Hndt as (_ & Hd1 & Hndt).
    apply NoDup_app in Hndt as (_ & Hd2 & _).
    apply elem_of_app in Hin as [Hin|Hin]; [apply (Hd1 j Hin); set_solver|].
    apply elem_of_app in Hin as [Hin|Hin]; [by apply (Hd2 j Hin)|].
    by apply (inv_disjoint _ _ HI t tid Ht j). }
  constructor; simpl; try done.
  - intros t. destruct (decide (t = tid)) as [->|Ht]; [done|].
    pose proof (inv_open _ _ HI t) as Ho.
    destruct (g_open G t) as [o|] eqn:Hgo; rewrite (Htls t Ht); [|done].
    destruct Ho as [Hcur Hot]. split; [done|].
    eapply open_tree_frame; [|exact Hot].
    intros j Hj. apply Hframe, (Hother t Ht). by rewrite Hgo.
  - intros t. unfold local_slots. simpl.
    destruct (decide (t = tid)) as [->|Ht]; [done|].
    rewrite app_assoc. apply NoDup_app. split; [|split].
    + rewrite app_assoc in Hnd. by apply NoDup_app in Hnd as (? & _).
    + intros j Hj Hjt. apply (Hother t Ht j Hjt). apply Hsub.
      rewrite app_assoc. set_solver.
    + pose proof (inv_nodup _ _ HI t) as Hndt. unfold local_slots in Hndt.
      apply NoDup_app in Hndt as (_ & _ & Hndt). by apply NoDup_app in Hndt as (_ & _ & ?).
  - intros t1 t2 Ht j H1 H2.
    destruct (decide (t1 = tid)) as [->|Ht1], (decide (t2 = tid)) as [->|Ht2]; try done.
    + apply (Hother t2 Ht2 j H2). apply Hsub. set_solver.
    + apply (Hother t1 Ht1 j H1). apply Hsub. set_solver.
    + by apply (inv_disjoint _ _ HI t1 t2 Ht j).
  - intros t s. unfold local_slots. simpl.
    destruct (decide (t = tid)) as [->|Ht].
    + intros Hs. apply (inv_bound _ _ HI tid), Hsub, Hs.
    + intros Hs. rewrite app_assoc in Hs. apply elem_of_app in Hs as [Hs|Hs].
      * apply (inv_bound _ _ HI tid), Hsub. rewrite app_assoc. set_solver.
      * apply (inv_bound _ _ HI t). unfold local_slots. set_solver.
Qed.

(** ** What becomes of a record: composition *)

Lemma first_written_app s d out out' :
  first_written s d out → first_written s d (out ++ out').
Proof.
  intros (out1 & b & out2 & -> & Hd & Hn).
  exists out1, b, (out2 ++ out'). rewrite <- app_assoc. done.
Qed.

Lemma first_written_later s d out out' :
  Some s ∉ written_slots out → first_written s d out' → first_written s d (out ++ out').
Proof.
  intros Hn (out1 & b & out2 & -> & Hd & Hn').
  exists (out ++ out1), b, out2. rewrite <- app_assoc. split; [done|]. split; [done|].
  unfold written_slots in *. rewrite fmap_app. set_solver.
Qed.

Lemma written_slots_app out out' :
  written_slots (out ++ out') = written_slots out ++ written_slots out'.
Proof. unfold written_slots. apply fmap_app. Qed.

Lemma fate_refl T st G : fate T st G st G.
Proof.
  constructor; [done|done|]. exists []. rewrite app_nil_r. split; [done|].
  split; intros s d Hs Hd; left; (split; [done|]); (split; [done|]); set_solver.
Qed.

Lemma fate_mono (T T' : Z → Prop) st G st' G' :
  (∀ v, T v → T' v) → fate T st G st' G' → fate T' st G st' G'.
Proof.
  intros HT [Hw Hg (out & Hsink & Hc & Ho)]. constructor; [done|done|].
  exists out. split; [done|]. split; [done|].
  intros s d Hs Hd. destruct (Ho s d Hs Hd) as [?|(v & Hv & ?)]; [by left|].
  right. exists v. eauto.
Qed.

Lemma fate_trans T st G st1 G1 st2 G2 :
  fate T st G st1 G1 → fate T st1 G1 st2 G2 → fate T st G st2 G2.
Proof.
  intros [Hw1 Hg1 (out1 & Hsink1 & Hc1 & Ho1)] [Hw2 Hg2 (out2 & Hsink2 & Hc2 & Ho2)].
  constructor; [congruence|congruence|].
  exists (out1 ++ out2). split; [rewrite Hsink2, Hsink1, app_assoc; done|].
  assert (∀ s d, is_closed G1 s → payload st1 s = Some d →
            Some s ∉ written_slots out1 →
            (is_closed G2 s ∧ payload st2 s = Some d ∧
             Some s ∉ written_slots (out1 ++ out2)) ∨
            first_written s d (out1 ++ out2)) as Hclosed.
  { intros s d Hs Hd Hn. destruct (Hc2 s d Hs Hd) as [(? & ? & ?)|Hf].
    - left. rewrite written_slots_app. set_solver.
    - right. by apply first_written_later. }
  split.
  - intros s d Hs Hd. destruct (Hc1 s d Hs Hd) as [(Hs1 & Hd1 & Hn1)|Hf].
    + by apply Hclosed.
    + right. by apply first_written_app.
  - intros s d Hs Hd.
    destruct (Ho1 s d Hs Hd) as [(Hs1 & Hd1 & Hn1)|(v & Hv & [(Hs1 & Hd1 & Hn1)|Hf])].
    + destruct (Ho2 s d Hs1 Hd1) as [(? & ? & ?)|(v & Hv & [(? & ? & ?)|Hf])].
      * left. rewrite written_slots_app. set_solver.
      * right. exists v. split; [done|]. left. rewrite written_slots_app. set_solver.
      * right. exists v. split; [done|]. right. by apply first_written_later.
    + right. exists v. split; [done|].
      destruct (Hclosed s _ Hs1 Hd1 Hn1) as [?|?]; [by left|by right].
    + right. exists v. split; [done|]. right. by apply first_written_app.
Qed.

(** ** Operations that write nothing *)

Lemma path_open_slots path s : s ∈ path.*1 → s ∈ path_slots path.
Proof.
  induction path as [|[p Sp] rest IH]; simpl; [done|].
  intros [->|Hs]%elem_of_cons; set_solver.
Qed.

Lemma otree_open_slots o s : s ∈ otree_open o → s ∈ otree_slots o.
Proof.
  unfold otree_open, otree_slots. intros [->|Hs]%elem_of_cons; [set_solver|].
  apply path_open_slots in Hs. set_solver.
Qed.

Lemma open_blocks_slots o s : s ∈ open_blocks o → s ∈ open_slots o.
Proof. destruct o; simpl; [apply otree_open_slots|done]. Qed.

Lemma live_not_free st G s : Inv st G → is_live G s → s ∉ g_free G.
Proof.
  intros HI [Hs|(t & o & Ho & Hs)] HF.
  - pose proof (inv_nodup _ _ HI 0) as Hnd. unfold local_slots in Hnd.
    apply NoDup_app in Hnd as (_ & Hd & _). apply (Hd s HF). set_solver.
  - pose proof (inv_nodup _ _ HI t) as Hnd. unfold local_slots in Hnd.
    apply NoDup_app in Hnd as (_ & Hd & _). apply (Hd s HF). rewrite Ho. simpl. set_solver.
Qed.

Lemma open_in_one_tree st G t1 t2 s :
  Inv st G → s ∈ open_slots (g_open G t1) → s ∈ open_slots (g_open G t2) → t1 = t2.
Proof.
  intros HI H1 H2. destruct (decide (t1 = t2)) as [|Hne]; [done|].
  by destruct (inv_disjoint _ _ HI t1 t2 Hne s).
Qed.

Lemma root_not_open st G t s :
  Inv st G → s ∈ slots (g_root G) → s ∉ open_slots (g_open G t).
Proof.
  intros HI Hs Ho. pose proof (inv_nodup _ _ HI t) as Hnd. unfold local_slots in Hnd.
  apply NoDup_app in Hnd as (_ & _ & Hnd). apply NoDup_app in Hnd as (_ & Hd & _).
  by apply (Hd s).
Qed.

(** An operation of thread [tid] that writes nothing to the sink, keeps
    every live record live, opens none but fresh ones, and changes no
    payload but the end of the blocks it closes. *)
Lemma fate_quiet T st G tid st' F' R' o' :
  let G' := {| g_free := F'; g_root := R';
               g_open := λ t, if decide (t = tid) then o' else g_open G t |} in
  Inv st G → Inv st' G' →
  _profile_write st' = _profile_write st →
  _profile_ground_time st' = _profile_ground_time st →
  sink st' = sink st →
  (∀ s, s ∈ slots (g_root G) → s ∈ slots R') →
  (∀ s, s ∈ open_slots (g_open G tid) → s ∈ slots R' ∨ s ∈ open_slots o') →
  (∀ s, s ∈ open_blocks o' → s ∈ open_blocks (g_open G tid) ∨ s ∈ g_free G) →
  (∀ s, is_live G s → s ∉ open_blocks (g_open G tid) ∨ s ∈ open_blocks o' →
        payload st' s = payload st s) →
  (∀ s d, s ∈ open_blocks (g_open G tid) → s ∉ open_blocks o' →
          payload st s = Some d → ∃ v, T v ∧ payload st' s = Some (with_end v d)) →
  fate T st G st' G'.
Proof.
  intros G' HI HI' Hw Hg Hsink HR Hlive Hopen Hsame Hclose.
  assert (∀ s, is_live G s → is_live G' s) as Hl.
  { intros s [Hs|(t & o & Ho & Hs)]; [left; by apply HR|].
    destruct (decide (t = tid)) as [->|Ht].
    - destruct (Hlive s) as [?|Hs']; [rewrite Ho; exact Hs|by left|].
      right. destruct o' as [o'|]; [|by apply not_elem_of_nil in Hs'].
      exists tid, o'. simpl. destruct (decide (tid = tid)); done.
    - right. exists t, o. simpl. destruct (decide (t = tid)); done. }
  assert (∀ s, is_open G' s → ¬ is_open G s → is_live G s → False) as Hno.
  { intros s (t & o & Ho & Hs) Hn Hlv. simpl in Ho.
    destruct (decide (t = tid)) as [->|Ht].
    - subst o'. destruct (Hopen s Hs) as [Hs'|Hs'].
      + apply Hn. destruct (g_open G tid) as [o0|] eqn:Ho0;
          [|by apply not_elem_of_nil in Hs']. by exists tid, o0.
      + by apply (live_not_free st G s HI Hlv).
    - apply Hn. by exists t, o. }
  constructor; [done|done|]. exists []. rewrite app_nil_r. split; [done|]. split.
  - intros s d [Hlv Hn] Hd. left. split; [|split; [|set_solver]].
    + split; [by apply Hl|]. intros Ho. by eapply Hno.
    + rewrite Hsame; [done|done|]. left. intros Hs. apply Hn.
      destruct (g_open G tid) as [o0|] eqn:Ho0;
        [|by apply not_elem_of_nil in Hs]. by exists tid, o0.
  - intros s d (t & o & Ho & Hs) Hd.
    assert (is_live G s) as Hlv by (right; exists t, o; eauto using otree_open_slots).
    destruct (decide (t = tid)) as [->|Ht].
    + destruct (decide (s ∈ open_blocks o')) as [Hin|Hout].
      * left. split; [|split; [|set_solver]].
        -- destruct o' as [o'|]; [|by apply not_elem_of_nil in Hin].
           exists tid, o'. simpl. destruct (decide (tid = tid)); done.
        -- rewrite Hsame; auto.
      * right. destruct (Hclose s d) as (v & Hv & Hp); [by rewrite Ho|done|done|].
        exists v. split; [done|]. left. split; [|split; [done|set_solver]].
        split; [by apply Hl|]. intros (t' & o'' & Ho'' & Hs''). simpl in Ho''.
        destruct (decide (t' = tid)) as [->|Ht']; [subst o'; done|].
        assert (t' = tid); [|done].
        eapply (open_in_one_tree st G t' tid s HI).
        -- rewrite Ho''. by apply otree_open_slots.
        -- rewrite Ho. by apply otree_open_slots.
    + left. split; [|split; [|set_solver]].
      * exists t, o. simpl. destruct (decide (t = tid)); done.
      * rewrite Hsame; [done|done|]. left. intros Hs'.
        apply Ht. eapply (open_in_one_tree st G t tid s HI).
        -- rewrite Ho. by apply otree_open_slots.
        -- by apply open_blocks_slots.
Qed.

(** ** Stores into the pool of a state *)

Lemma st_upd_Some f i st b :
  GET_BLOCK (_profile_blocks st) i = Some b →
  st_upd f i st = Some (set_blocks (<[Z.to_nat i := f b]> (_profile_blocks st)) st).
Proof. intros Hb. unfold st_upd. rewrite (upd_block_Some _ _ _ _ Hb). done. Qed.

Lemma GET_insert blocks i b x j :
  GET_BLOCK blocks i = Some b →
  GET_BLOCK (<[Z.to_nat i := x]> blocks) j = if j =? i then Some x else GET_BLOCK blocks j.
Proof.
  intros Hb. pose proof (GET_BLOCK_range _ _ _ Hb) as Hr.
  apply (GET_put_block blocks i x). by apply put_block_in_range.
Qed.

Lemma get_set_thread_profile_block tid v st t :
  get_thread_profile_block (set_thread_profile_block tid v st) t =
    if decide (t = tid) then v else get_thread_profile_block st t.
Proof.
  unfold get_thread_profile_block, set_thread_profile_block. simpl.
  destruct (decide (t = tid)) as [->|Ht].
  - by rewrite lookup_insert_eq.
  - by rewrite lookup_insert_ne.
Qed.

(** The invariant reads the pool, the two heads and the thread-locals. *)
Lemma Inv_ext st st' G :
  _profile_blocks st' = _profile_blocks st →
  _profile_free st' = _profile_free st →
  _profile_root st' = _profile_root st →
  profile_block_tls st' = profile_block_tls st →
  Inv st G → Inv st' G.
Proof.
  intros Hb Hf Hr Ht [H1 H2 H3 H4 H5 H6 H7].
  constructor; rewrite ?Hb, ?Hf, ?Hr; try done.
  intros tid. specialize (H4 tid). unfold get_thread_profile_block in *.
  rewrite Ht. done.
Qed.

Lemma fate_ext T st st' G :
  _profile_blocks st' = _profile_blocks st →
  _profile_write st' = _profile_write st →
  _profile_ground_time st' = _profile_ground_time st →
  sink st' = sink st →
  fate T st G st' G.
Proof.
  intros Hb Hw Hg Hs. constructor; [done|done|].
  exists []. rewrite app_nil_r. split; [done|].
  unfold payload. rewrite Hb.
  split; intros s d H Hd; left; (split; [done|]); (split; [done|]); set_solver.
Qed.

(** ** Allocation and release *)

Lemma lseg_last_elem blocks l : ∀ from to x,
  lseg blocks from l to → last l = Some x →
  ∃ b, GET_BLOCK blocks x = Some b ∧ child b = to.
Proof.
  induction l as [|s l IH]; intros from to x Hl Hlast; [done|].
  destruct Hl as (-> & Hs0 & b & Hb & Hl).
  destruct l as [|s' l].
  - injection Hlast as <-. simpl in Hl. eauto.
  - eapply IH; [exact Hl|]. done.
Qed.

Lemma lseg_head blocks s l to : lseg blocks s l to → l ≠ [] → head l = Some s.
Proof. destruct l; [done|]. by intros (-> & _). Qed.

Lemma free_block_spec st block leaf l F to :
  lseg (_profile_blocks st) block l to → last l = Some leaf →
  lseg (_profile_blocks st) (Z.land (_profile_free st) 65535) F 0 →
  NoDup (l ++ F) → block < 65536 →
  ∃ st', _profile_free_block block leaf st = Some st' ∧
    lseg (_profile_blocks st') (Z.land (_profile_free st') 65535) (l ++ F) 0 ∧
    length (_profile_blocks st') = length (_profile_blocks st) ∧
    (∀ j, j ≠ leaf →
       GET_BLOCK (_profile_blocks st') j = GET_BLOCK (_profile_blocks st) j) ∧
    (∀ b, GET_BLOCK (_profile_blocks st) leaf = Some b →
       GET_BLOCK (_profile_blocks st') leaf
         = Some (with_child (Z.land (_profile_free st) 65535) b)) ∧
    st' = set_free (_profile_free st')
            (set_blocks (_profile_blocks st') (set_loopid (_profile_loopid st') st)).
Proof.
  intros Hl Hlast HF Hnd Hb16.
  destruct (lseg_last_elem _ _ _ _ _ Hl Hlast) as (bl & Hbl & _).
  assert (l ≠ []) as Hne by (by intros ->).
  assert (block ≠ 0 ∧ 0 ≤ block) as [Hb0 Hbpos].
  { destruct l as [|s l']; [done|]. destruct Hl as (-> & ? & b & Hb & _).
    apply GET_BLOCK_range in Hb. lia. }
  unfold _profile_free_block.
  pose proof (upd_block_Some (with_child (Z.land (_profile_free st) 65535)) _ _ _ Hbl) as Hupd.
  rewrite Hupd. simpl.
  eexists. split; [done|]. simpl.
  apply NoDup_app in Hnd as (Hndl & Hdisj & HndF).
  assert (leaf ∈ l) as Hleaf.
  { apply list_elem_of_lookup. exists (pred (length l)). by rewrite <- last_lookup. }
  split_and!.
  - rewrite tagged_head by lia.
    eapply lseg_app.
    + eapply lseg_set_last; [exact Hl|exact Hlast|exact Hndl|].
      unfold upd_block. rewrite Hbl. simpl. apply put_block_in_range.
      by eapply GET_BLOCK_range.
    + eapply lseg_frame; [|exact HF]. intros j Hj.
      rewrite (GET_insert _ _ _ _ j Hbl).
      destruct (Z.eqb_spec j leaf) as [->|]; [|done]. by destruct (Hdisj leaf).
  - by rewrite length_insert.
  - intros j Hj. rewrite (GET_insert _ _ _ _ j Hbl). by destruct (Z.eqb_spec j leaf).
  - intros b Hb. rewrite (GET_insert _ _ _ _ leaf Hbl), Z.eqb_refl. congruence.
  - done.
Qed.

(** X1.  [_profile_allocate_block] on a free list [s :: F] (the child links
    from the slot in the low 16 bits of [_profile_free], without
    repetition, all slots 16-bit) returns the head [s], which is not slot
    0; the record at [s] is zeroed, the free list is [F] afterwards, no
    other record changes, and neither the root list, the counter, the
    thread-locals, the sink, the warning flag nor the diagnostics are
    touched. *)
Theorem X1_allocate_block_head st s F :
  lseg (_profile_blocks st) (Z.land (_profile_free st) 65535) (s :: F) 0 →
  NoDup (s :: F) → (∀ j, j ∈ F → j < 65536) →
  ∃ st', _profile_allocate_block st = Some (st', Some s) ∧ s ≠ 0 ∧
    GET_BLOCK (_profile_blocks st') s = Some zero_block ∧
    lseg (_profile_blocks st') (Z.land (_profile_free st') 65535) F 0 ∧
    (∀ j, j ≠ s →
       GET_BLOCK (_profile_blocks st') j = GET_BLOCK (_profile_blocks st) j) ∧
    length (_profile_blocks st') = length (_profile_blocks st) ∧
    _profile_root st' = _profile_root st ∧
    _profile_counter st' = _profile_counter st ∧
    profile_block_tls st' = profile_block_tls st ∧
    sink st' = sink st ∧
    has_warned st' = has_warned st ∧
    messages st' = messages st.
Proof.
  intros Hl Hnd HF.
  destruct (allocate_block_some st s F Hl Hnd HF) as (f1 & l1 & Hrun & Hl' & Hs & Hframe).
  eexists. split; [exact Hrun|]. simpl.
  split; [by destruct Hl as (_ & ? & _)|].
  split_and!; try done. by rewrite length_insert.
Qed.

Lemma X1_allocate_block_head_witness :
  ∃ st', _profile_allocate_block state_free3 = Some (st', Some 1) ∧
    lseg (_profile_blocks st') (Z.land (_profile_free st') 65535) [2; 3] 0.
Proof.
  destruct (X1_allocate_block_head state_free3 1 [2; 3])
    as (st' & Hrun & _ & _ & Hl & _).
  - repeat (simpl; first [done | split | eexists]).
  - compute_done.
  - intros j Hj. set_unfold. lia.
  - exists st'. split; [exact Hrun|exact Hl].
Defined.

(** X2.  With the free list empty (the low 16 bits of [_profile_free] are
    0), [_profile_allocate_block] returns null and changes neither the
    pool, the free head, the root list, the counter, the thread-locals nor
    the sink.  The exhaustion diagnostic is logged once: by the call that
    finds the warning flag clear, which sets it; a call that finds it set
    logs nothing, and so does every allocation after an exhausted one. *)
Theorem X2_allocate_block_exhausted st :
  is_Some (GET_BLOCK (_profile_blocks st) 0) →
  Z.land (_profile_free st) 65535 = 0 →
  ∃ st', _profile_allocate_block st = Some (st', None) ∧
    _profile_blocks st' = _profile_blocks st ∧
    _profile_free st' = _profile_free st ∧
    _profile_root st' = _profile_root st ∧
    _profile_counter st' = _profile_counter st ∧
    profile_block_tls st' = profile_block_tls st ∧
    sink st' = sink st ∧
    has_warned st' ≠ 0 ∧
    messages st' = (if has_warned st =? 0 then messages st ++ [exhausted_entry st]
                    else messages st) ∧
    ∃ st'', _profile_allocate_block st' = Some (st'', None) ∧
            messages st'' = messages st'.
Proof.
  intros [b Hb] Hfree. unfold _profile_allocate_block at 1. rewrite Hfree, Hb. simpl.
  destruct (Z.eqb_spec (has_warned st) 0) as [Hw|Hw].
  - eexists. split; [done|]. simpl. split_and!; try done.
    unfold _profile_allocate_block. simpl. rewrite Hfree, Hb. simpl. eauto.
  - eexists. split; [done|]. simpl. split_and!; try done.
    unfold _profile_allocate_block. simpl. rewrite Hfree, Hb. simpl.
    destruct (Z.eqb_spec (has_warned st) 0); [done|]. eauto.
Qed.

Lemma X2_allocate_block_exhausted_witness :
  ∃ st', _profile_allocate_block state_free0 = Some (st', None) ∧
    messages st' = [LogExhaustedIncreaseSize] ∧
    ∃ st'', _profile_allocate_block st' = Some (st'', None) ∧
            messages st'' = [LogExhaustedIncreaseSize].
Proof.
  destruct (X2_allocate_block_exhausted state_free0)
    as (st' & Hrun & _ & _ & _ & _ & _ & _ & _ & Hm & st'' & Hrun' & Hm').
  - by eexists.
  - reflexivity.
  - exists st'. split; [exact Hrun|]. split; [exact Hm|].
    exists st''. split; [exact Hrun'|]. by rewrite Hm'.
Defined.

(** X3.  [_profile_free_block block leaf] releases a chain: when the child
    links lead from [block] through the records [l] to [leaf], the last of
    them, and [l] shares no record with the free list [F], the free list
    afterwards is [l ++ F]; only the child link of [leaf] is stored to. *)
Theorem X3_free_block_chain st block leaf l F to :
  lseg (_profile_blocks st) block l to → last l = Some leaf →
  lseg (_profile_blocks st) (Z.land (_profile_free st) 65535) F 0 →
  NoDup (l ++ F) → block < 65536 →
  ∃ st', _profile_free_block block leaf st = Some st' ∧
    lseg (_profile_blocks st') (Z.land (_profile_free st') 65535) (l ++ F) 0 ∧
    (∀ j, j ≠ leaf →
       GET_BLOCK (_profile_blocks st') j = GET_BLOCK (_profile_blocks st) j) ∧
    (∀ b, GET_BLOCK (_profile_blocks st) leaf = Some b →
       GET_BLOCK (_profile_blocks st') leaf
         = Some (with_child (Z.land (_profile_free st) 65535) b)) ∧
    _profile_root st' = _profile_root st ∧
    profile_block_tls st' = profile_block_tls st ∧
    sink st' = sink st ∧
    messages st' = messages st.
Proof.
  intros Hl Hlast HF Hnd Hb.
  destruct (free_block_spec st block leaf l F to Hl Hlast HF Hnd Hb)
    as (st' & Hrun & Hl' & _ & Hframe & Hleaf & Hst).
  exists st'. split; [exact Hrun|]. split_and!; try done; by rewrite Hst.
Qed.

Lemma X3_free_block_chain_witness :
  ∃ st', _profile_free_block 2 3 (set_free 1 (set_blocks
             [zero_block; zero_block; with_child 3 zero_block; with_child 9 zero_block]
             initial_state)) = Some st' ∧
    lseg (_profile_blocks st') (Z.land (_profile_free st') 65535) [2; 3; 1] 0.
Proof.
  destruct (X3_free_block_chain (set_free 1 (set_blocks
             [zero_block; zero_block; with_child 3 zero_block; with_child 9 zero_block]
             initial_state)) 2 3 [2; 3] [1] 9)
    as (st' & Hrun & Hl & _).
  - repeat (simpl; first [done | split | eexists]).
  - reflexivity.
  - repeat (simpl; first [done | split | eexists]).
  - compute_done.
  - lia.
  - exists st'. split; [exact Hrun|exact Hl].
Defined.

(** X4.  Allocation and release are inverse on the free list: after
    [_profile_allocate_block] has returned the head [s] of the free list
    [s :: F], [_profile_free_block s s] gives back the free list
    [s :: F]. *)
Theorem X4_allocate_free_round_trip st s F :
  lseg (_profile_blocks st) (Z.land (_profile_free st) 65535) (s :: F) 0 →
  NoDup (s :: F) → (∀ j, j ∈ s :: F → j < 65536) →
  ∃ st1 st2, _profile_allocate_block st = Some (st1, Some s) ∧
    _profile_free_block s s st1 = Some st2 ∧
    lseg (_profile_blocks st2) (Z.land (_profile_free st2) 65535) (s :: F) 0 ∧
    (∀ j, j ≠ s →
       GET_BLOCK (_profile_blocks st2) j = GET_BLOCK (_profile_blocks st) j).
Proof.
  intros Hl Hnd HF.
  destruct (allocate_block_some st s F Hl Hnd) as (f1 & l1 & Hrun & Hl' & Hs & Hframe).
  { intros j Hj. apply HF. set_solver. }
  destruct Hl as (_ & Hs0 & _).
  destruct (free_block_spec
              (set_blocks (<[Z.to_nat s := zero_block]> (_profile_blocks st))
                 (set_free f1 (set_loopid l1 st))) s s [s] F 0)
    as (st2 & Hrun2 & Hl2 & _ & Hframe2 & _).
  - simpl. split; [reflexivity|]. split; [done|].
    eexists. split; [exact Hs|reflexivity].
  - reflexivity.
  - exact Hl'.
  - exact Hnd.
  - apply HF. set_solver.
  - eexists _, st2. split; [exact Hrun|]. split; [exact Hrun2|].
    split; [exact Hl2|]. intros j Hj. rewrite Hframe2 by done. simpl. by apply Hframe.
Qed.

Lemma X4_allocate_free_round_trip_witness :
  ∃ st1 st2, _profile_allocate_block state_free3 = Some (st1, Some 1) ∧
    _profile_free_block 1 1 st1 = Some st2 ∧
    lseg (_profile_blocks st2) (Z.land (_profile_free st2) 65535) [1; 2; 3] 0.
Proof.
  destruct (X4_allocate_free_round_trip state_free3 1 [2; 3])
    as (st1 & st2 & H1 & H2 & Hl & _).
  - repeat (simpl; first [done | split | eexists]).
  - compute_done.
  - intros j Hj. set_unfold. lia.
  - exists st1, st2. split; [exact H1|]. split; [exact H2|exact Hl].
Defined.

Lemma allocate_blocks_all F : ∀ st,
  is_Some (GET_BLOCK (_profile_blocks st) 0) →
  lseg (_profile_blocks st) (Z.land (_profile_free st) 65535) F 0 →
  NoDup F → (∀ j, j ∈ F → j < 65536) →
  ∃ st', allocate_blocks (S (length F)) st = Some (st', (Some <$> F) ++ [None]) ∧
         Z.land (_profile_free st') 65535 = 0.
Proof.
  induction F as [|s F IH]; intros st H0 Hl Hnd HF.
  - simpl in Hl. destruct (allocate_block_none st H0 Hl) as (l1 & w1 & m1 & Hrun).
    simpl. rewrite Hrun. simpl. eauto.
  - destruct (allocate_block_some st s F Hl Hnd) as (f1 & l1 & Hrun & Hl' & Hs & Hframe).
    { intros j Hj. apply HF. set_solver. }
    change (allocate_blocks (S (length (s :: F))) st)
      with ('(st, block) ← _profile_allocate_block st;
            '(st, rest) ← allocate_blocks (S (length F)) st;
            Some (st, block :: rest)).
    rewrite Hrun. simpl.
    destruct (IH (set_blocks (<[Z.to_nat s := zero_block]> (_profile_blocks st))
                    (set_free f1 (set_loopid l1 st)))) as (st' & Hrun' & Hfree').
    + simpl. rewrite Hframe; [done|]. destruct Hl as (_ & ? & _). done.
    + exact Hl'.
    + by apply NoDup_cons in Hnd as [_ ?].
    + intros j Hj. apply HF. set_solver.
    + simpl in Hrun'. rewrite Hrun'. simpl. eauto.
Qed.

Lemma lseg_seqZ blocks N :
  (∀ j, 1 ≤ j < N → ∃ b, GET_BLOCK blocks j = Some b ∧
                        child b = if j =? N - 1 then 0 else j + 1) →
  ∀ (n : nat) j, 1 ≤ j → j + Z.of_nat n = N →
    lseg blocks (if j =? N then 0 else j) (seqZ j (Z.of_nat n)) 0.
Proof.
  intros Hblocks n. induction n as [|n IH]; intros j Hj HjN.
  - simpl. destruct (Z.eqb_spec j N); [done|lia].
  - rewrite seqZ_cons by lia. simpl.
    destruct (Z.eqb_spec j N); [lia|].
    split; [done|]. split; [lia|].
    destruct (Hblocks j) as (b & Hb & Hc); [lia|].
    exists b. split; [done|]. rewrite Hc.
    replace (Z.pred (Z.of_nat (S n))) with (Z.of_nat n) by lia.
    specialize (IH (Z.succ j)).
    replace (Z.succ j) with (j + 1) in * by lia.
    destruct (Z.eqb_spec j (N - 1)) as [HjN'|HjN'].
    + destruct (Z.eqb_spec (j + 1) N); [|lia]. apply IH; lia.
    + destruct (Z.eqb_spec (j + 1) N); [lia|]. apply IH; lia.
Qed.

(** X5.  The capacity of the pool: after [profile_initialize] with a buffer
    of at least two whole records, [N - 1] successive calls of
    [_profile_allocate_block] return the slots 1, 2, ..., N-1 in this order
    and the next call returns null ([N = min ((size / 64) mod 2^32,
    65535)]); slot 0 is never handed out. *)
Theorem X5_pool_capacity e identifier buffer size st :
  Z.of_nat (length buffer) = size / 64 →
  2 ≤ u32 (size / 64) →
  let N := Z.min (u32 (size / 64)) 65535 in
  ∃ st0 st', profile_initialize e identifier buffer size st = Some st0 ∧
    allocate_blocks (Z.to_nat N) st0 = Some (st', (Some <$> seqZ 1 (N - 1)) ++ [None]).
Proof.
  intros Hlen Hsize N.
  assert (0 ≤ size / 64) as Hnn by lia.
  assert (u32 (size / 64) ≤ size / 64) as Hle
    by (unfold u32; apply Z.mod_le; lia).
  assert (2 ≤ N ≤ 65535) as HN by (unfold N; lia).
  destruct (profile_initialize_blocks e identifier buffer size st)
    as (st0 & Hinit & Hnum & Hfree & _ & _ & Hlen' & Hget); [fold N; lia..|].
  fold N in Hnum, Hget.
  destruct (allocate_blocks_all (seqZ 1 (N - 1)) st0) as (st' & Hrun & _).
  - destruct (Hget 0) as (b & Hb & _); [lia|]. eauto.
  - rewrite Hfree. change (Z.land 1 65535) with 1.
    pose proof (lseg_seqZ (_profile_blocks st0) N) as Hseq.
    specialize (Hseq (λ j Hj, ltac:(destruct (Hget j) as (b & Hb & _ & Hc); [lia|];
      exists b; split; [done|]; rewrite Hc; destruct (Z.eqb_spec j 0); [lia|]; done))).
    specialize (Hseq (Z.to_nat (N - 1)) 1).
    destruct (Z.eqb_spec 1 N); [lia|].
    rewrite Z2Nat.id in Hseq by lia. apply Hseq; lia.
  - apply NoDup_seqZ.
  - intros j Hj%elem_of_seqZ. lia.
  - exists st0, st'. split; [exact Hinit|].
    rewrite length_seqZ in Hrun.
    replace (Z.to_nat N) with (S (Z.to_nat (N - 1))) by lia. exact Hrun.
Qed.

Lemma X5_pool_capacity_witness :
  ∃ st0 st', profile_initialize env0 [] (replicate 4 zero_block) 256 initial_state
               = Some st0 ∧
    allocate_blocks 4 st0 = Some (st', [Some 1; Some 2; Some 3; None]).
Proof.
  destruct (X5_pool_capacity env0 [] (replicate 4 zero_block) 256 initial_state)
    as (st0 & st' & Hinit & Hrun).
  - reflexivity.
  - vm_compute. discriminate.
  - exists st0, st'. split; [exact Hinit|exact Hrun].
Defined.

(** ** _profile_put_root_block *)

Lemma set_blocks_id st : set_blocks (_profile_blocks st) st = st.
Proof. by destruct st. Qed.

Lemma sib_app_Leaf t : sib_app t Leaf = t.
Proof. induction t as [|s c _ sb IH]; simpl; [done|]. by rewrite IH. Qed.

Lemma slots_sib_app t r : slots (sib_app t r) ≡ₚ slots t ++ slots r.
Proof.
  induction t as [|s c _ sb IH]; simpl; [done|].
  rewrite IH. by rewrite !app_assoc.
Qed.

Lemma spine_last_slots t x : last (spine t) = Some x → x ∈ slots t.
Proof.
  intros H. apply spine_slots. rewrite last_lookup in H.
  by eapply list_elem_of_lookup_2.
Qed.

Lemma sibling_leaf_spine blocks t : ∀ i fuel,
  shaped blocks i t → t ≠ Leaf → (length (spine t) ≤ fuel)%nat →
  ∃ leaf b, sibling_leaf fuel blocks i = Some leaf ∧ last (spine t) = Some leaf ∧
            GET_BLOCK blocks leaf = Some b ∧ sibling b = 0.
Proof.
  induction t as [|s c _ sb IH]; intros i fuel Hs Hne Hfuel; [done|].
  destruct fuel as [|fuel]; [simpl in Hfuel; lia|]. simpl in Hfuel.
  destruct Hs as (-> & Hs0 & b & Hb & Hc & Hsb). simpl. rewrite Hb. simpl.
  destruct sb as [|s' c' sb'].
  - simpl in Hsb. rewrite Hsb. simpl. exists s, b. done.
  - pose proof Hsb as (Hsib & Hs'0 & _).
    destruct (Z.eqb_spec (sibling b) 0); [congruence|].
    destruct (IH (sibling b) fuel Hsb) as (leaf & bl & Hrun & Hlast & Hbl & Hz);
      [done|lia|].
    exists leaf, bl. split; [done|]. split; [|done].
    simpl in Hlast. simpl. done.
Qed.

Lemma shaped_sib_app blocks blocks' r R t : ∀ i leaf,
  shaped blocks i t → t ≠ Leaf → last (spine t) = Some leaf → NoDup (slots t) →
  (∀ j, j ∈ slots t → j ≠ leaf → down_eq blocks blocks' j) →
  (∀ b, GET_BLOCK blocks leaf = Some b →
     ∃ b', GET_BLOCK blocks' leaf = Some b' ∧ sibling b' = r ∧ child b' = child b) →
  shaped blocks' r R →
  shaped blocks' i (sib_app t R).
Proof.
  induction t as [|s c _ sb IH]; intros i leaf Hs Hne Hlast Hnd Hf Hleaf HR; [done|].
  destruct Hs as (-> & Hs0 & b & Hb & Hc & Hsb).
  simpl in Hnd. apply NoDup_cons in Hnd as [Hsn Hnd].
  apply NoDup_app in Hnd as (Hndc & Hdisj & Hndsb).
  rewrite not_elem_of_app in Hsn. destruct Hsn as [Hsc Hssb].
  simpl. split; [done|]. split; [done|].
  destruct sb as [|s' c' sb'].
  - simpl in Hlast. injection Hlast as <-.
    destruct (Hleaf b Hb) as (b' & Hb' & Hsib' & Hch').
    exists b'. split; [done|]. rewrite Hsib', Hch'. split; [|done].
    eapply shaped_agree; [|exact Hc]. intros j Hj. apply Hf; [set_solver|].
    by intros ->.
  - assert (leaf ∈ slots (Node s' c' sb')) as Hin by (by apply spine_last_slots).
    assert (s ≠ leaf) as Hsl by (by intros ->).
    destruct (Hf s) with (b := b) as (b' & Hb' & Hsib' & Hch'); [set_solver|done|done|].
    exists b'. split; [done|]. rewrite Hsib', Hch'. split.
    + eapply shaped_agree; [|exact Hc]. intros j Hj. apply Hf; [set_solver|].
      intros ->. by apply (Hdisj leaf).
    + apply (IH _ leaf); try done.
      intros j Hj Hjl. apply Hf; [|done]. set_solver.
Qed.

Lemma put_root_block_spec st block T R :
  shaped (_profile_blocks st) block T → block ≠ 0 →
  shaped (_profile_blocks st) (_profile_root st) R →
  NoDup (slots T ++ slots R) → _profile_root st < 65536 →
  ∃ blocks', _profile_put_root_block block st
               = Some (set_root block (set_blocks blocks' st)) ∧
    shaped blocks' block (sib_app T R) ∧
    length blocks' = length (_profile_blocks st) ∧
    (∀ j, data <$> GET_BLOCK blocks' j = data <$> GET_BLOCK (_profile_blocks st) j) ∧
    (∀ j, j ∉ slots T ++ slots R →
          GET_BLOCK blocks' j = GET_BLOCK (_profile_blocks st) j) ∧
    (∀ j, child_eq (_profile_blocks st) blocks' j) ∧
    (R = Leaf → blocks' = _profile_blocks st).
Proof.
  intros HT Hb0 HR Hnd Hr16. unfold _profile_put_root_block.
  destruct (Z.eqb_spec (_profile_root st) 0) as [H0|H0].
  { rewrite H0 in HR. apply shaped_root_zero in HR as ->.
    exists (_profile_blocks st). rewrite set_blocks_id, sib_app_Leaf.
    split_and!; try done. intros j b Hb. eauto. }
  destruct T as [|s C S]; [done|]. pose proof HT as (<- & _ & b & Hb & HC & HS).
  destruct R as [|r CR SR]; [done|]. pose proof HR as (Hr & _ & br & Hbr & _). rewrite <- Hr in Hbr.
  assert (_profile_root st ∈ slots (Node r CR SR)) as HrR by (rewrite Hr; simpl; set_solver).
  assert (Node r CR SR ≠ Leaf) as HRne by done.
  remember (Node r CR SR) as R eqn:HeqR. clear HeqR Hr.
  assert (0 ≤ _profile_root st) as Hr0 by (apply GET_BLOCK_range in Hbr; lia).
  rewrite (u16_small (_profile_root st)) by lia.
  destruct (Z.eqb_spec (_profile_root st) 0); [done|]. rewrite Z.eqb_refl.
  cbn [orb negb]. change (_profile_blocks (set_root 0 st)) with (_profile_blocks st).
  rewrite Hb. cbn [mbind option_bind].
  pose proof Hnd as Hnd'. apply NoDup_app in Hnd' as (HndT & Hdisj & HndR).
  destruct (Z.eqb_spec (sibling b) 0) as [Hsib|Hsib].
  - (* self->sibling = sibling *)
    rewrite Hsib in HS. apply shaped_root_zero in HS as ->.
    rewrite (st_upd_Some _ _ (set_root 0 st) _ Hb).
    exists (<[Z.to_nat block := with_sibling (_profile_root st) b]> (_profile_blocks st)).
    split; [reflexivity|].
    assert (block ∉ slots R) as HbR by (apply Hdisj; simpl; set_solver).
    simpl in HndT. apply NoDup_cons in HndT as [HbC _].
    rewrite app_nil_r in HbC.
    split; [|split; [|split; [|split; [|split]]]].
    + change (sib_app (Node block C Leaf) R) with (Node block C R).
      split; [done|]. split; [done|]. exists (with_sibling (_profile_root st) b).
      split; [rewrite (GET_insert _ _ _ _ _ Hb), Z.eqb_refl; done|].
      change (child (with_sibling (_profile_root st) b)) with (child b).
      change (sibling (with_sibling (_profile_root st) b)) with (_profile_root st).
      split.
      * eapply shaped_frame; [|exact HC]. intros j Hj.
        rewrite (GET_insert _ _ _ _ _ Hb). destruct (Z.eqb_spec j block) as [->|]; done.
      * eapply shaped_frame; [|exact HR]. intros j Hj.
        rewrite (GET_insert _ _ _ _ _ Hb). destruct (Z.eqb_spec j block) as [->|]; done.
    + by rewrite length_insert.
    + intros j. rewrite (GET_insert _ _ _ _ _ Hb).
      destruct (Z.eqb_spec j block) as [->|]; [by rewrite Hb|done].
    + intros j Hj. rewrite (GET_insert _ _ _ _ _ Hb).
      destruct (Z.eqb_spec j block) as [->|]; [|done]. simpl in Hj. set_solver.
    + intros j bj Hbj. rewrite (GET_insert _ _ _ _ _ Hb).
      destruct (Z.eqb_spec j block) as [->|]; [|eauto].
      eexists. split; [done|]. simpl. congruence.
    + done.
  - (* the old list goes behind the last sibling of self *)
    assert (S ≠ Leaf) as HSne by (intros ->; done).
    destruct (sibling_leaf_spine _ _ _ (Datatypes.S (length (_profile_blocks st))) HS HSne)
      as (leaf & bl & Hleaf & Hlast & Hbl & Hblz).
    { etrans; [apply spine_length|]. etrans; [|apply Nat.le_succ_diag_r].
      apply NoDup_slots_length.
      - simpl in HndT. apply NoDup_cons in HndT as [_ HndT].
        by apply NoDup_app in HndT as (_ & _ & ?).
      - intros j Hj. pose proof (shaped_range _ _ _ HS j Hj). lia. }
    rewrite Hleaf. cbn [mbind option_bind].
    rewrite (st_upd_Some _ _ (set_root 0 st) _ Hbr). cbn [mbind option_bind].
    set (blocks1 := <[Z.to_nat (_profile_root st) := with_previous leaf br]> (_profile_blocks st)).
    assert (leaf ∈ slots S) as HleafS by (by apply spine_last_slots).
    assert (leaf ∉ slots R) as HleafR by (apply Hdisj; simpl; set_solver).
    assert (leaf ≠ _profile_root st) as Hlr by (by intros ->).
    assert (GET_BLOCK blocks1 leaf = Some bl) as Hbl1.
    { unfold blocks1. rewrite (GET_insert _ _ _ _ _ Hbr).
      destruct (Z.eqb_spec leaf (_profile_root st)); done. }
    rewrite (st_upd_Some _ _ _ bl) by done. cbn [mbind option_bind].
    set (blocks2 := <[Z.to_nat leaf := with_sibling (_profile_root st) bl]> blocks1).
    assert (∀ j, GET_BLOCK blocks2 j =
                 if j =? leaf then Some (with_sibling (_profile_root st) bl)
                 else if j =? _profile_root st then Some (with_previous leaf br)
                 else GET_BLOCK (_profile_blocks st) j) as Hget.
    { intros j. unfold blocks2. rewrite (GET_insert _ _ _ _ _ Hbl1).
      destruct (Z.eqb_spec j leaf); [done|].
      unfold blocks1. by rewrite (GET_insert _ _ _ _ _ Hbr). }
    exists blocks2. split; [reflexivity|].
    assert (∀ j, j ≠ leaf → down_eq (_profile_blocks st) blocks2 j) as Hdown.
    { intros j Hj bj Hbj. rewrite Hget.
      destruct (Z.eqb_spec j leaf); [done|].
      destruct (Z.eqb_spec j (_profile_root st)) as [->|]; [|eauto].
      rewrite Hbr in Hbj. injection Hbj as <-. eexists. split; [done|]. done. }
    split; [|split; [|split; [|split; [|split]]]].
    + apply (shaped_sib_app (_profile_blocks st) blocks2 (_profile_root st)
               R (Node block C S) block leaf); try done.
      * destruct S; [done|]. simpl in Hlast. simpl. done.
      * intros j _ Hj. by apply Hdown.
      * intros b0 Hb0'. rewrite Hget, Z.eqb_refl. eexists. split; [done|].
        rewrite Hbl in Hb0'. injection Hb0' as <-. done.
      * eapply shaped_agree; [|exact HR]. intros j Hj. apply Hdown.
        intros ->. done.
    + unfold blocks2, blocks1. by rewrite !length_insert.
    + intros j. rewrite Hget.
      destruct (Z.eqb_spec j leaf) as [->|]; [by rewrite Hbl|].
      destruct (Z.eqb_spec j (_profile_root st)) as [->|]; [by rewrite Hbr|done].
    + intros j Hj. rewrite Hget.
      destruct (Z.eqb_spec j leaf) as [->|]; [simpl in Hj; set_solver|].
      destruct (Z.eqb_spec j (_profile_root st)) as [->|]; [|done].
      set_solver.
    + intros j bj Hbj. rewrite Hget.
      destruct (Z.eqb_spec j leaf) as [->|].
      { eexists. split; [done|]. simpl. congruence. }
      destruct (Z.eqb_spec j (_profile_root st)) as [->|]; [|eauto].
      eexists. split; [done|]. simpl. congruence.
    + done.
Qed.

(** X6.  [_profile_put_root_block block] puts a forest in front of the root
    list: when [block] heads the forest [T] (its sibling links lead to
    further top records) and the root list is the forest [R], with no
    record in common, the root list afterwards starts at [block] and is [T]
    followed by [R], the old list hanging behind the last sibling of
    [block].  No payload changes, no record outside the two forests is
    stored to, and with an empty root list the pool is not stored to at
    all. *)
Theorem X6_put_root_block st block T R :
  shaped (_profile_blocks st) block T → block ≠ 0 →
  shaped (_profile_blocks st) (_profile_root st) R →
  NoDup (slots T ++ slots R) → _profile_root st < 65536 →
  ∃ st', _profile_put_root_block block st = Some st' ∧
    _profile_root st' = block ∧
    shaped (_profile_blocks st') block (sib_app T R) ∧
    (∀ j, payload st' j = payload st j) ∧
    (∀ j, j ∉ slots T ++ slots R →
          GET_BLOCK (_profile_blocks st') j = GET_BLOCK (_profile_blocks st) j) ∧
    (R = Leaf → _profile_blocks st' = _profile_blocks st) ∧
    _profile_free st' = _profile_free st ∧
    profile_block_tls st' = profile_block_tls st ∧
    sink st' = sink st.
Proof.
  intros HT Hb0 HR Hnd Hr16.
  destruct (put_root_block_spec st block T R HT Hb0 HR Hnd Hr16)
    as (blocks' & Hrun & Hshape & _ & Hdata & Hframe & _ & Hleaf).
  eexists. split; [exact Hrun|]. split; [done|]. split; [done|].
  split; [exact Hdata|]. split; [exact Hframe|]. split; [exact Hleaf|]. done.
Qed.

Lemma X6_put_root_block_witness :
  ∃ st', _profile_put_root_block 3 state_root1 = Some st' ∧
    shaped (_profile_blocks st') 3
      (Node 3 (Node 5 Leaf Leaf) (Node 4 Leaf (Node 1 (Node 2 Leaf Leaf) Leaf))).
Proof.
  destruct (X6_put_root_block state_root1 3
              (Node 3 (Node 5 Leaf Leaf) (Node 4 Leaf Leaf))
              (Node 1 (Node 2 Leaf Leaf) Leaf))
    as (st' & Hrun & _ & Hs & _).
  - repeat (simpl; first [done | split | eexists]).
  - done.
  - repeat (simpl; first [done | split | eexists]).
  - compute_done.
  - vm_compute. reflexivity.
  - exists st'. split; [exact Hrun|exact Hs].
Defined.

(** ** _profile_process_root_block *)

Lemma drain_chain_slots t : drain_chain t ≡ₚ slots t.
Proof.
  induction t as [|s c _ sb IH]; simpl; [done|].
  rewrite IH, chain_slots. rewrite Permutation_app_comm. simpl. done.
Qed.

Lemma emitted_payloads_nil write blocks : emitted_payloads write blocks [] [].
Proof. destruct write; [constructor|done]. Qed.

Lemma emitted_payloads_app write blocks l1 l2 out1 out2 :
  emitted_payloads write blocks l1 out1 → emitted_payloads write blocks l2 out2 →
  emitted_payloads write blocks (l1 ++ l2) (out1 ++ out2).
Proof.
  destruct write; simpl.
  - apply Forall2_app.
  - by intros -> ->.
Qed.

Lemma emitted_payloads_of write blocks blocks' l out :
  emitted write blocks' l out →
  (∀ j, j ∈ l → data <$> GET_BLOCK blocks' j = data <$> GET_BLOCK blocks j) →
  emitted_payloads write blocks l out.
Proof.
  destruct write; simpl; [|done]. unfold emitted_from.
  intros H Hd. induction H as [|s w l out [Hw Hb] _ IH]; [constructor|].
  constructor.
  - split; [done|]. rewrite <- Hd by set_solver. by rewrite Hb.
  - apply IH. intros j Hj. apply Hd. set_solver.
Qed.

Lemma emitted_payloads_ext write blocks blocks' l out :
  emitted_payloads write blocks' l out →
  (∀ j, j ∈ l → data <$> GET_BLOCK blocks' j = data <$> GET_BLOCK blocks j) →
  emitted_payloads write blocks l out.
Proof.
  destruct write; simpl; [|done].
  intros H Hd. induction H as [|s w l out [Hw Hb] _ IH]; [constructor|].
  constructor.
  - split; [done|]. rewrite <- Hd by set_solver. done.
  - apply IH. intros j Hj. apply Hd. set_solver.
Qed.

Lemma process_block_spec st i t :
  shaped (_profile_blocks st) i t → NoDup (slots t) → t ≠ Leaf →
  ∃ blocks' out leaf,
    _profile_process_block i st
      = Some (set_sink (sink st ++ out) (set_blocks blocks' st), leaf) ∧
    process_post (_profile_write st) (_profile_blocks st) i t blocks' out leaf.
Proof.
  intros Hs Hnd Hne.
  destruct (process_block_rec_spec (_profile_write st) t
              (S (length (_profile_blocks st))) (_profile_blocks st) i)
    as (blocks' & out & leaf & Hrun & Hpost); [done|done|done| |].
  { pose proof (well_formed_depth _ _ _ (conj Hs Hnd)). lia. }
  exists blocks', out, leaf. split; [|done].
  unfold _profile_process_block. rewrite Hrun. done.
Qed.

Lemma process_root_loop_S fuel block st :
  block ≠ 0 →
  _profile_process_root_loop (S fuel) block st =
    (current ← GET_BLOCK (_profile_blocks st) block;
     let next := sibling current in
     st ← st_upd (with_sibling 0) block st;
     '(st, leaf) ← _profile_process_block block st;
     st ← _profile_free_block block (u16 leaf) st;
     _profile_process_root_loop fuel next st).
Proof. intros Hb. simpl. by destruct (Z.eqb_spec block 0). Qed.

Lemma process_root_loop_0 fuel st : _profile_process_root_loop fuel 0 st = Some st.
Proof. by destruct fuel. Qed.

Lemma process_root_loop_spec R : ∀ fuel st F i,
  shaped (_profile_blocks st) i R →
  lseg (_profile_blocks st) (Z.land (_profile_free st) 65535) F 0 →
  NoDup (slots R ++ F) → (∀ j, j ∈ slots R → j < 65536) →
  (length (spine R) ≤ fuel)%nat →
  ∃ st' out, _profile_process_root_loop fuel i st = Some st' ∧
    sink st' = sink st ++ out ∧
    emitted_payloads (_profile_write st) (_profile_blocks st) (slots R) out ∧
    lseg (_profile_blocks st') (Z.land (_profile_free st') 65535) (drain_chain R ++ F) 0 ∧
    (∀ j, j ∉ slots R →
       GET_BLOCK (_profile_blocks st') j = GET_BLOCK (_profile_blocks st) j) ∧
    (∀ j, data <$> GET_BLOCK (_profile_blocks st') j
          = data <$> GET_BLOCK (_profile_blocks st) j) ∧
    (∀ j, j ∈ slots R → ∃ b', GET_BLOCK (_profile_blocks st') j = Some b' ∧ sibling b' = 0) ∧
    length (_profile_blocks st') = length (_profile_blocks st) ∧
    st' = set_sink (sink st') (set_free (_profile_free st')
            (set_blocks (_profile_blocks st') (set_loopid (_profile_loopid st') st))).
Proof.
  induction R as [|s c _ sb IH]; intros fuel st F i HR HF Hnd Hb16 Hfuel.
  { simpl in HR. subst i. rewrite process_root_loop_0.
    exists st, []. rewrite app_nil_r. split; [done|]. split; [done|].
    split; [apply emitted_payloads_nil|]. split; [done|].
    split; [done|]. split; [done|]. split; [set_solver|]. split; [done|].
    by destruct st. }
  destruct fuel as [|fuel]; [simpl in Hfuel; lia|]. simpl in Hfuel.
  destruct HR as (-> & Hs0 & b & Hb & Hc & Hsb).
  rewrite process_root_loop_S by done. rewrite Hb. cbn [mbind option_bind].
  rewrite (st_upd_Some _ _ _ _ Hb). cbn [mbind option_bind].
  set (blocks1 := <[Z.to_nat s := with_sibling 0 b]> (_profile_blocks st)).
  assert (∀ j, GET_BLOCK blocks1 j =
               if j =? s then Some (with_sibling 0 b) else GET_BLOCK (_profile_blocks st) j)
    as Hget1 by (intros j; apply (GET_insert _ _ _ _ _ Hb)).
  (* the pieces of the list *)
  simpl in Hnd. apply NoDup_cons in Hnd as [Hs_fresh Hnd].
  rewrite <- app_assoc in Hnd, Hs_fresh.
  apply NoDup_app in Hnd as (Hndc & Hdc & Hnd).
  apply NoDup_app in Hnd as (Hndsb & Hdsb & HndF).
  rewrite !not_elem_of_app in Hs_fresh. destruct Hs_fresh as (Hsc & Hssb & HsF).
  assert (∀ j, j ∈ slots c → j ≠ s ∧ (j ∉ slots sb) ∧ (j ∉ F)) as Hc_far.
  { intros j Hj. split; [by intros ->|]. specialize (Hdc j Hj).
    rewrite not_elem_of_app in Hdc. done. }
  assert (∀ j, j ∈ slots sb → j ≠ s ∧ (j ∉ slots c) ∧ (j ∉ F)) as Hsb_far.
  { intros j Hj. split; [by intros ->|]. split; [|by apply Hdsb].
    intros Hjc. by destruct (Hc_far j Hjc) as (_ & ? & _). }
  assert (∀ j, j ∈ F → j ≠ s ∧ (j ∉ slots c) ∧ (j ∉ slots sb)) as HF_far.
  { intros j Hj. split; [by intros ->|]. split.
    - intros Hjc. by destruct (Hc_far j Hjc) as (_ & _ & ?).
    - intros Hjs. by destruct (Hsb_far j Hjs) as (_ & _ & ?). }
  (* the walk over the first tree *)
  destruct (process_block_spec (set_blocks blocks1 st) s (Node s c Leaf))
    as (blocks2 & out1 & leaf & Hrun & Hem & Hlseg & Hlast & Hframe & Hin & Hlen);
    [| |done|].
  { split; [done|]. split; [done|]. exists (with_sibling 0 b).
    split; [cbn [_profile_blocks set_blocks]; by rewrite Hget1, Z.eqb_refl|].
    split; [|done]. eapply shaped_frame; [|exact Hc].
    intros j Hj. cbn [_profile_blocks set_blocks]. rewrite Hget1.
    destruct (Z.eqb_spec j s) as [->|]; done. }
  { simpl. rewrite app_nil_r. by apply NoDup_cons. }
  rewrite Hrun. cbn [mbind option_bind].
  cbn [_profile_blocks set_blocks _profile_write sink] in Hem, Hlseg, Hframe, Hin, Hlen, Hrun.
  change (chain (Node s c Leaf)) with (s :: chain c) in Hlseg, Hlast.
  assert (slots (Node s c Leaf) = s :: slots c) as Hsl by (simpl; by rewrite app_nil_r).
  rewrite Hsl in Hem, Hframe, Hin.
  assert (leaf ∈ s :: slots c) as Hleaf_in.
  { rewrite <- Hsl. by apply last_chain_elem. }
  assert (0 ≤ leaf < 65536) as Hleaf16.
  { destruct (Hin leaf Hleaf_in) as (bx & _ & Hbx & _). apply GET_BLOCK_range in Hbx.
    assert (leaf < 65536); [|lia]. apply Hb16. simpl. set_solver. }
  rewrite (u16_small leaf) by done.
  (* the release of its chain *)
  set (st2 := set_sink (sink (set_blocks blocks1 st) ++ out1)
                (set_blocks blocks2 (set_blocks blocks1 st))).
  destruct (free_block_spec st2 s leaf (s :: chain c) F 0)
    as (st3 & Hrun3 & Hl3 & Hlen3 & Hframe3 & Hleaf3 & Hst3).
  { exact Hlseg. }
  { exact Hlast. }
  { cbn [st2 _profile_blocks set_sink set_blocks _profile_free].
    eapply lseg_frame; [|exact HF]. intros j Hj.
    destruct (HF_far j Hj) as (Hjs & Hjc & _).
    rewrite Hframe by set_solver. rewrite Hget1.
    destruct (Z.eqb_spec j s); done. }
  { apply NoDup_app. split; [|split; [|done]].
    - apply NoDup_cons. split; [by rewrite elem_of_chain|].
      by rewrite chain_slots.
    - intros j Hj HjF. destruct (HF_far j HjF) as (Hjs & Hjc & _).
      apply elem_of_cons in Hj as [->|Hj]; [done|]. by apply elem_of_chain in Hj. }
  { apply Hb16. simpl. set_solver. }
  rewrite Hrun3. cbn [mbind option_bind].
  cbn [st2 _profile_blocks set_sink set_blocks _profile_free] in Hl3, Hlen3, Hframe3, Hleaf3.
  (* what the first pass has done to the pool *)
  assert (∀ j, j ≠ s → j ∉ slots c →
            GET_BLOCK (_profile_blocks st3) j = GET_BLOCK (_profile_blocks st) j) as Hout3.
  { intros j Hjs Hjc. rewrite Hframe3.
    - rewrite Hframe by set_solver. rewrite Hget1. by destruct (Z.eqb_spec j s).
    - intros ->. apply elem_of_cons in Hleaf_in as [?|?]; done. }
  assert (∀ j, data <$> GET_BLOCK (_profile_blocks st3) j
               = data <$> GET_BLOCK (_profile_blocks st) j) as Hdata3.
  { intros j.
    assert (data <$> GET_BLOCK blocks1 j = data <$> GET_BLOCK (_profile_blocks st) j) as H1.
    { rewrite Hget1. destruct (Z.eqb_spec j s) as [->|]; [by rewrite Hb|done]. }
    assert (data <$> GET_BLOCK blocks2 j = data <$> GET_BLOCK blocks1 j) as H2.
    { destruct (decide (j ∈ s :: slots c)) as [Hj|Hj].
      - destruct (Hin j Hj) as (bx & bx' & Hbx & Hbx' & Hd & _).
        rewrite Hbx, Hbx'. simpl. by rewrite Hd.
      - by rewrite Hframe. }
    rewrite <- H1, <- H2.
    destruct (decide (j = leaf)) as [->|Hj]; [|by rewrite Hframe3].
    destruct (Hin leaf Hleaf_in) as (bx & bx' & Hbx & Hbx' & _).
    rewrite (Hleaf3 bx' Hbx'), Hbx'. done. }
  assert (∀ j, j ∈ s :: slots c →
            ∃ b', GET_BLOCK (_profile_blocks st3) j = Some b' ∧ sibling b' = 0) as Hsib3.
  { intros j Hj. destruct (Hin j Hj) as (bx & bx' & Hbx & Hbx' & _ & _ & Hz).
    destruct (decide (j = leaf)) as [->|Hjl].
    - rewrite (Hleaf3 bx' Hbx'). eexists. split; [done|]. done.
    - rewrite Hframe3 by done. eauto. }
  (* the rest of the list *)
  destruct (IH fuel st3 (s :: chain c ++ F) (sibling b))
    as (st' & out2 & Hrun' & Hsink' & Hem' & Hl' & Hframe' & Hdata' & Hsib' & Hlen' & Hst').
  { eapply shaped_frame; [|exact Hsb]. intros j Hj.
    destruct (Hsb_far j Hj) as (? & ? & _). by apply Hout3. }
  { exact Hl3. }
  { apply NoDup_app. split; [done|]. split.
    - intros j Hj HjF. destruct (Hsb_far j Hj) as (Hjs & Hjc & HjF').
      apply elem_of_cons in HjF as [->|HjF]; [done|].
      apply elem_of_app in HjF as [HjF|HjF]; [by apply elem_of_chain in HjF|done].
    - apply NoDup_cons. split.
      + rewrite not_elem_of_app, elem_of_chain. done.
      + apply NoDup_app. split; [by rewrite chain_slots|]. split; [|done].
        intros j Hj HjF. apply elem_of_chain in Hj.
        by destruct (Hc_far j Hj) as (_ & _ & ?). }
  { intros j Hj. apply Hb16. simpl. set_solver. }
  { lia. }
  rewrite Hrun'.
  assert (sink st3 = sink st ++ out1) as Hsink3 by (by rewrite Hst3).
  assert (_profile_write st3 = _profile_write st) as Hw3 by (by rewrite Hst3).
  exists st', (out1 ++ out2). split; [done|].
  split; [by rewrite Hsink', Hsink3, app_assoc|].
  split.
  { change (slots (Node s c sb)) with ((s :: slots c) ++ slots sb).
    apply emitted_payloads_app.
    - eapply emitted_payloads_of; [exact Hem|].
      intros j _. rewrite Hget1. destruct (Z.eqb_spec j s) as [->|]; [by rewrite Hb|done].
    - rewrite Hw3 in Hem'. eapply emitted_payloads_ext; [exact Hem'|].
      intros j _. apply Hdata3. }
  split.
  { change (drain_chain (Node s c sb)) with (drain_chain sb ++ s :: chain c).
    rewrite <- app_assoc. exact Hl'. }
  split.
  { intros j Hj. simpl in Hj. rewrite not_elem_of_cons, not_elem_of_app in Hj.
    destruct Hj as (? & ? & ?). rewrite Hframe' by done. by apply Hout3. }
  split; [intros j; by rewrite Hdata', Hdata3|].
  split.
  { intros j Hj. simpl in Hj. apply elem_of_cons in Hj.
    rewrite elem_of_app in Hj.
    destruct (decide (j ∈ slots sb)) as [Hjsb|Hjsb]; [by apply Hsib'|].
    rewrite Hframe' by done. apply Hsib3. set_solver. }
  split.
  { rewrite Hlen', Hlen3, Hlen. unfold blocks1. by rewrite length_insert. }
  rewrite Hst' at 1. rewrite Hst3. reflexivity.
Qed.

(** X7.  [_profile_process_root_block] drains the root list: for a root
    list that is a forest [R] sharing no record with the free list [F], it
    returns with the root list empty; the writer, when set, has received
    every record of [R] exactly once, a record before the records under its
    child link and those before the records under its sibling link, each
    with its payload; every record of [R] is on the free list afterwards, in
    front of [F], with its sibling field 0; no payload changes and no record
    outside [R] is stored to. *)
Theorem X7_process_root_block_drains st R F :
  shaped (_profile_blocks st) (_profile_root st) R →
  lseg (_profile_blocks st) (Z.land (_profile_free st) 65535) F 0 →
  NoDup (slots R ++ F) → (∀ j, j ∈ slots R → j < 65536) →
  ∃ st' out, _profile_process_root_block st = Some st' ∧
    _profile_root st' = 0 ∧
    sink st' = sink st ++ out ∧
    emitted_payloads (_profile_write st) (_profile_blocks st) (slots R) out ∧
    lseg (_profile_blocks st') (Z.land (_profile_free st') 65535) (drain_chain R ++ F) 0 ∧
    drain_chain R ≡ₚ slots R ∧
    siblings_clear (_profile_blocks st') (slots R) ∧
    (∀ j, payload st' j = payload st j) ∧
    (∀ j, j ∉ slots R →
       GET_BLOCK (_profile_blocks st') j = GET_BLOCK (_profile_blocks st) j) ∧
    profile_block_tls st' = profile_block_tls st ∧
    _profile_counter st' = _profile_counter st ∧
    messages st' = messages st.
Proof.
  intros HR HF Hnd Hb16. unfold _profile_process_root_block.
  destruct (process_root_loop_spec R (S (length (_profile_blocks st)))
              (set_root 0 st) F (_profile_root st))
    as (st' & out & Hrun & Hsink & Hem & Hl & Hframe & Hdata & Hsib & _ & Hst');
    try done.
  { etrans; [apply spine_length|]. etrans; [|apply Nat.le_succ_diag_r].
    apply NoDup_slots_length.
    - by apply NoDup_app in Hnd as (? & _).
    - intros j Hj. pose proof (shaped_range _ _ _ HR j Hj). lia. }
  exists st', out. split; [exact Hrun|].
  split; [by rewrite Hst'|]. split; [exact Hsink|]. split; [exact Hem|].
  split; [exact Hl|]. split; [apply drain_chain_slots|].
  split; [exact Hsib|]. split; [exact Hdata|]. split; [exact Hframe|].
  by rewrite Hst'.
Qed.

Lemma X7_process_root_block_drains_witness :
  ∃ st', _profile_process_root_block state_1234_root = Some st' ∧
    _profile_root st' = 0 ∧
    written_slots (sink st') = [Some 1; Some 2; Some 3; Some 4] ∧
    free_list st' = Some [1; 2; 4; 3].
Proof.
  destruct (X7_process_root_block_drains state_1234_root tree_1234 [])
    as (st' & out & Hrun & Hroot & _).
  - repeat (simpl; first [done | split | eexists]).
  - reflexivity.
  - compute_done.
  - intros j Hj. simpl in Hj. set_unfold. lia.
  - exists st'. split; [exact Hrun|]. split; [exact Hroot|].
    vm_compute in Hrun. injection Hrun as <-. split; reflexivity.
Defined.

(** ** Stopping the I/O thread *)

Lemma drain_spec st R F :
  shaped (_profile_blocks st) (_profile_root st) R →
  lseg (_profile_blocks st) (Z.land (_profile_free st) 65535) F 0 →
  NoDup (slots R ++ F) → (∀ j, j ∈ slots R → j < 65536) →
  ∃ st1 out, (if _profile_root st =? 0 then Some st
              else _profile_process_root_block st) = Some st1 ∧
    _profile_root st1 = 0 ∧ sink st1 = sink st ++ out ∧
    emitted_payloads (_profile_write st) (_profile_blocks st) (slots R) out ∧
    lseg (_profile_blocks st1) (Z.land (_profile_free st1) 65535)
      (drain_chain R ++ F) 0 ∧
    siblings_clear (_profile_blocks st1) (slots R) ∧
    (∀ j, j ∉ slots R →
       GET_BLOCK (_profile_blocks st1) j = GET_BLOCK (_profile_blocks st) j) ∧
    length (_profile_blocks st1) = length (_profile_blocks st) ∧
    st1 = set_sink (sink st1) (set_root 0 (set_free (_profile_free st1)
            (set_blocks (_profile_blocks st1)
               (set_loopid (_profile_loopid st1) st)))).
Proof.
  intros HR HF Hnd Hb16.
  destruct (Z.eqb_spec (_profile_root st) 0) as [H0|H0].
  - rewrite H0 in HR. apply shaped_root_zero in HR as ->.
    exists st, []. rewrite app_nil_r. split; [done|]. split; [done|]. split; [done|].
    split; [apply emitted_payloads_nil|]. split; [done|].
    split; [intros j Hj; set_solver|]. split; [done|]. split; [done|].
    destruct st; simpl in *; by subst.
  - unfold _profile_process_root_block.
    destruct (process_root_loop_spec R (S (length (_profile_blocks st)))
                (set_root 0 st) F (_profile_root st))
      as (st' & out & Hrun & Hsink & Hem & Hl & Hframe & Hdata & Hsib & Hlen & Hst');
      try done.
    { etrans; [apply spine_length|]. etrans; [|apply Nat.le_succ_diag_r].
      apply NoDup_slots_length.
      - by apply NoDup_app in Hnd as (? & _).
      - intros j Hj. pose proof (shaped_range _ _ _ HR j Hj). lia. }
    exists st', out. split; [exact Hrun|]. split; [by rewrite Hst'|].
    split; [exact Hsink|]. split; [exact Hem|]. split; [exact Hl|].
    split; [exact Hsib|]. split; [exact Hframe|]. split; [exact Hlen|].
    rewrite Hst' at 1. reflexivity.
Qed.

Lemma io_exit_spec st R F :
  shaped (_profile_blocks st) (_profile_root st) R →
  lseg (_profile_blocks st) (Z.land (_profile_free st) 65535) F 0 →
  NoDup (slots R ++ F) → (∀ j, j ∈ slots R → j < 65536) →
  ∃ st' out, _profile_io_exit st = Some st' ∧
    io_thread st' = None ∧ _profile_root st' = 0 ∧
    emitted_payloads (_profile_write st) (_profile_blocks st) (slots R) out ∧
    sink st' = sink st ++ out ++
                 (if _profile_write st then [(None, terminate_block)] else []) ∧
    lseg (_profile_blocks st') (Z.land (_profile_free st') 65535) (drain_chain R ++ F) 0 ∧
    siblings_clear (_profile_blocks st') (slots R) ∧
    (∀ j, j ∉ slots R →
       GET_BLOCK (_profile_blocks st') j = GET_BLOCK (_profile_blocks st) j) ∧
    length (_profile_blocks st') = length (_profile_blocks st) ∧
    st' = set_io_thread None (set_sink (sink st') (set_root 0 (set_free (_profile_free st')
            (set_blocks (_profile_blocks st') (set_loopid (_profile_loopid st') st))))).
Proof.
  intros HR HF Hnd Hb16. unfold _profile_io_exit.
  destruct (drain_spec st R F HR HF Hnd Hb16)
    as (st1 & out & -> & Hroot1 & Hsink1 & Hem & Hl & Hsib & Hframe & Hlen & Hst1).
  cbn [mbind option_bind].
  assert (_profile_write st1 = _profile_write st) as Hw by (by rewrite Hst1).
  eexists _, out. split; [done|]. unfold write_record. rewrite Hw.
  destruct (_profile_write st).
  - cbn [io_thread set_io_thread _profile_root set_sink sink _profile_blocks _profile_free].
    split; [done|]. split; [done|]. split; [done|].
    split; [by rewrite Hsink1, app_assoc|]. split; [done|]. split; [done|].
    split; [done|]. split; [done|]. clear -Hst1. rewrite Hst1. reflexivity.
  - cbn [io_thread set_io_thread _profile_root set_sink sink _profile_blocks _profile_free].
    split; [done|]. split; [done|]. split; [done|].
    split; [by rewrite Hsink1, app_nil_r|]. split; [done|]. split; [done|].
    split; [done|]. split; [done|]. clear -Hst1. rewrite Hst1. reflexivity.
Qed.

(** X8.  [profile_enable (false)] on an enabled engine stops the I/O thread
    after a last drain: the root list is empty afterwards, the writer, when
    set, has received every record that was on the root list, each once and
    with its payload, and then the end-of-stream record (id 0) as the last
    record of the stream; with no writer nothing is written.  The flag is 0
    afterwards, so that a second [profile_enable (false)] changes
    nothing. *)
Theorem X8_disable_drains_and_terminates st R F ticks :
  _profile_enable st > 0 →
  shaped (_profile_blocks st) (_profile_root st) R →
  lseg (_profile_blocks st) (Z.land (_profile_free st) 65535) F 0 →
  NoDup (slots R ++ F) → (∀ j, j ∈ slots R → j < 65536) →
  ∃ st' out, profile_enable false ticks st = Some st' ∧
    _profile_enable st' = 0 ∧ io_thread st' = None ∧ _profile_root st' = 0 ∧
    emitted_payloads (_profile_write st) (_profile_blocks st) (slots R) out ∧
    sink st' = sink st ++ out ++
                 (if _profile_write st then [(None, terminate_block)] else []) ∧
    lseg (_profile_blocks st') (Z.land (_profile_free st') 65535) (drain_chain R ++ F) 0 ∧
    profile_enable false ticks st' = Some st'.
Proof.
  intros Hen HR HF Hnd Hb16. unfold profile_enable at 1.
  destruct (Z.gtb_spec (_profile_enable st) 0); [|lia]. cbn [andb negb].
  destruct (io_exit_spec st R F HR HF Hnd Hb16)
    as (st' & out & -> & Hio & Hroot & Hem & Hsink & Hl & _).
  cbn [mbind option_bind].
  eexists _, out. split; [done|].
  cbn [_profile_enable set_enable io_thread _profile_root sink _profile_blocks _profile_free].
  split; [done|]. split; [done|]. split; [done|]. split; [done|]. split; [done|].
  split; [done|]. unfold profile_enable. simpl. done.
Qed.

Lemma X8_disable_drains_and_terminates_witness :
  ∃ st', profile_enable false 0 state_1234_root = Some st' ∧
    _profile_root st' = 0 ∧
    written_slots (sink st') = [Some 1; Some 2; Some 3; Some 4; None] ∧
    data <$> (snd <$> last (sink st')) = Some (data terminate_block).
Proof.
  destruct (X8_disable_drains_and_terminates state_1234_root tree_1234 [] 0)
    as (st' & out & Hrun & _ & _ & Hroot & _).
  - reflexivity.
  - repeat (simpl; first [done | split | eexists]).
  - reflexivity.
  - compute_done.
  - intros j Hj. simpl in Hj. set_unfold. lia.
  - exists st'. split; [exact Hrun|]. split; [exact Hroot|].
    vm_compute in Hrun. injection Hrun as <-. split; reflexivity.
Defined.

(** ** _profile_thread_finalize and profile_finalize *)

(** X9.  [_profile_thread_finalize] closes nothing while profiling is
    disabled: with [_profile_enable = 0] and an open block [b] of the
    calling thread, [profile_end_block] returns at once, the loop meets the
    same block again and leaves through its self-reference check.  The
    block stays the thread's current block, and the only effect is three
    diagnostics: "free block b" twice and "self reference in block b". *)
Theorem X9_thread_finalize_disabled e st :
  _profile_enable st = 0 →
  get_thread_profile_block st (thread_id e) ≠ 0 →
  let b := get_thread_profile_block st (thread_id e) in
  _profile_thread_finalize e st =
    Some (set_messages (messages st ++
            [LogThreadCleanup b; LogThreadCleanup b; LogSelfReference b]) st).
Proof.
  intros Hen Hb b. unfold _profile_thread_finalize.
  cbn [_profile_thread_finalize_loop]. fold b.
  destruct (Z.eqb_spec b 0) as [|_]; [done|].
  destruct (Z.eqb_spec 0 b) as [|_]; [done|].
  unfold profile_end_block. rewrite profile_end_block_rec_S.
  cbn [_profile_enable log_message set_messages]. rewrite Hen.
  cbn [orb Z.eqb mbind option_bind].
  destruct (length (_profile_blocks (log_message (LogThreadCleanup b) st))) as [|n];
    cbn [_profile_thread_finalize_loop].
  all: change (get_thread_profile_block (log_message (LogThreadCleanup b) st) (thread_id e))
         with b.
  all: destruct (Z.eqb_spec b 0) as [|_]; [done|].
  all: rewrite Z.eqb_refl.
  all: unfold log_message; cbn [messages set_messages].
  all: rewrite <- !app_assoc; reflexivity.
Qed.

Lemma X9_thread_finalize_disabled_witness :
  _profile_thread_finalize env1 (set_enable 0 state_1234_open) =
    Some (set_messages [LogThreadCleanup 4; LogThreadCleanup 4; LogSelfReference 4]
            (set_enable 0 state_1234_open)).
Proof.
  apply (X9_thread_finalize_disabled env1 (set_enable 0 state_1234_open)).
  - reflexivity.
  - vm_compute. discriminate.
Defined.

Lemma finalize_count_spec F : ∀ fuel blocks i n st,
  lseg blocks i F 0 → siblings_clear blocks F → (length F ≤ fuel)%nat →
  0 ≤ n → n + Z.of_nat (length F) < 18446744073709551616 →
  finalize_count fuel blocks i n st = Some (n + Z.of_nat (length F), st).
Proof.
  induction F as [|s F IH]; intros fuel blocks i n st Hl Hsib Hfuel Hn0 Hn.
  - simpl in Hl. subst i. destruct fuel; simpl; do 2 f_equal; lia.
  - destruct Hl as (-> & Hs0 & b & Hb & Hl).
    destruct fuel as [|fuel]; [simpl in Hfuel; lia|]. simpl in Hfuel, Hn.
    cbn [finalize_count]. destruct (Z.eqb_spec s 0); [done|].
    rewrite Hb. cbn [mbind option_bind].
    destruct (Hsib s) as (b' & Hb' & Hz); [set_solver|].
    rewrite Hb in Hb'. injection Hb' as <-. rewrite Hz. cbn [Z.eqb].
    rewrite (u64_small (n + 1)) by lia.
    rewrite IH; [|done| |lia..].
    + do 2 f_equal. simpl. lia.
    + intros j Hj. apply Hsib. set_solver.
Qed.

Lemma thread_finalize_idle e st :
  get_thread_profile_block st (thread_id e) = 0 → _profile_thread_finalize e st = Some st.
Proof.
  intros H. unfold _profile_thread_finalize. cbn [_profile_thread_finalize_loop].
  by rewrite H.
Qed.

(** X10.  [profile_finalize], called by a thread that holds no open block,
    shuts the engine down: a running I/O thread is stopped after a last
    drain and end-of-stream record, whatever is on the root list is handed
    to the writer and released, and the statics are reset (root list, free
    head and block count 0, identifier empty, profiling disabled).  Its
    sanity check counts the free list it is left with plus slot 0: the
    records that were on the free list or on the root list.  The
    "lost blocks" diagnostic is logged exactly when this count differs from
    the number of records of the pool, and nothing else is logged. *)
Theorem X10_finalize_conservation e st R F :
  get_thread_profile_block st (thread_id e) = 0 →
  _profile_enable st = 1 ∨ (_profile_enable st = 0 ∧ io_thread st = None) →
  shaped (_profile_blocks st) (_profile_root st) R →
  lseg (_profile_blocks st) (Z.land (_profile_free st) 65535) F 0 →
  NoDup (slots R ++ F) → (∀ j, j ∈ slots R ++ F → j < 65536) →
  siblings_clear (_profile_blocks st) F →
  _profile_num_blocks st ≠ 0 →
  let found := 1 + Z.of_nat (length (slots R) + length F) in
  ∃ st' out, profile_finalize e st = Some st' ∧
    _profile_root st' = 0 ∧ _profile_free st' = 0 ∧ _profile_num_blocks st' = 0 ∧
    _profile_identifier st' = [] ∧ _profile_enable st' = 0 ∧ io_thread st' = None ∧
    emitted_payloads (_profile_write st) (_profile_blocks st) (slots R) out ∧
    sink st' = sink st ++ out ++
                 (if (_profile_enable st =? 1) && _profile_write st
                  then [(None, terminate_block)] else []) ∧
    messages st' = messages st ++
                     (if found =? _profile_num_blocks st then []
                      else [LogLostBlocks found (_profile_num_blocks st)]).
Proof.
  intros Htls Hen HR HF Hnd Hb16' HsibF Hnum found.
  assert (∀ j, j ∈ slots R → j < 65536) as Hb16 by (intros j Hj; apply Hb16'; set_solver).
  (* what the steps before the sanity check leave *)
  assert (∃ st2 out,
            (st ← profile_enable false 0 st;
             st ← (if io_thread st is Some _ then _profile_io_exit st else Some st);
             st ← _profile_thread_finalize e st;
             if _profile_root st =? 0 then Some st else _profile_process_root_block st)
              = Some st2 ∧
            _profile_root st2 = 0 ∧ _profile_enable st2 = 0 ∧ io_thread st2 = None ∧
            emitted_payloads (_profile_write st) (_profile_blocks st) (slots R) out ∧
            sink st2 = sink st ++ out ++
                         (if (_profile_enable st =? 1) && _profile_write st
                          then [(None, terminate_block)] else []) ∧
            lseg (_profile_blocks st2) (Z.land (_profile_free st2) 65535)
              (drain_chain R ++ F) 0 ∧
            siblings_clear (_profile_blocks st2) (slots R) ∧
            (∀ j, j ∉ slots R →
               GET_BLOCK (_profile_blocks st2) j = GET_BLOCK (_profile_blocks st) j) ∧
            length (_profile_blocks st2) = length (_profile_blocks st) ∧
            messages st2 = messages st ∧
            _profile_num_blocks st2 = _profile_num_blocks st)
    as (st2 & out & Hrun & Hroot2 & Hen2 & Hio2 & Hem & Hsink2 & Hl2 & Hsib2 & Hframe2
        & Hlen2 & Hmsg2 & Hnum2).
  { destruct Hen as [Hen|[Hen Hio]].
    - unfold profile_enable. rewrite Hen. cbn [Z.gtb Z.compare andb negb].
      destruct (io_exit_spec st R F HR HF Hnd Hb16)
        as (st1 & out & -> & Hio1 & Hroot1 & Hem & Hsink1 & Hl1 & Hsib1 & Hframe1
            & Hlen1 & Hst1).
      cbn [mbind option_bind io_thread set_enable]. rewrite Hio1. cbn [mbind option_bind].
      rewrite thread_finalize_idle.
      2:{ unfold get_thread_profile_block in *. cbn [profile_block_tls set_enable].
          rewrite Hst1. exact Htls. }
      cbn [mbind option_bind _profile_root set_enable]. rewrite Hroot1. cbn [Z.eqb].
      exists (set_enable 0 st1), out. split; [done|].
      cbn [_profile_root _profile_enable io_thread sink _profile_blocks _profile_free
           messages _profile_num_blocks set_enable].
      split; [done|]. split; [done|]. split; [done|]. split; [done|].
      split; [by rewrite Hsink1|]. split; [done|]. split; [done|]. split; [done|].
      split; [done|]. rewrite Hst1. done.
    - unfold profile_enable. rewrite Hen. cbn [Z.gtb Z.compare andb negb].
      cbn [mbind option_bind]. rewrite Hio. cbn [mbind option_bind].
      rewrite thread_finalize_idle by done. cbn [mbind option_bind].
      destruct (drain_spec st R F HR HF Hnd Hb16)
        as (st1 & out & -> & Hroot1 & Hsink1 & Hem & Hl1 & Hsib1 & Hframe1 & Hlen1 & Hst1).
      exists st1, out. split; [done|]. split; [done|].
      split; [by rewrite Hst1|]. split; [by rewrite Hst1|]. split; [done|].
      split; [by rewrite Hsink1, app_nil_r|]. split; [done|]. split; [done|].
      split; [done|]. split; [done|]. rewrite Hst1. done. }
  (* the sanity check *)
  assert (NoDup (drain_chain R ++ F)) as HndL by (by rewrite drain_chain_slots).
  assert (length (drain_chain R ++ F) = (length (slots R) + length F)%nat) as HlenL.
  { rewrite length_app. f_equal. apply Permutation_length, drain_chain_slots. }
  assert (length (drain_chain R ++ F) ≤ length (_profile_blocks st2))%nat as HlenL'.
  { apply NoDup_slots_length; [done|]. intros j Hj.
    destruct (lseg_elem_range _ _ _ _ Hl2 j Hj) as [Hj0 [bj Hbj]].
    apply GET_BLOCK_range in Hbj. lia. }
  assert (Z.of_nat (length (drain_chain R ++ F)) ≤ 65536) as Hsmall.
  { assert (length (drain_chain R ++ F) ≤ Z.to_nat 65536)%nat; [|lia].
    apply NoDup_slots_length; [done|]. intros j Hj.
    destruct (lseg_elem_range _ _ _ _ Hl2 j Hj) as [Hj0 [bj Hbj]].
    apply GET_BLOCK_range in Hbj. rewrite drain_chain_slots in Hj.
    specialize (Hb16' j Hj). lia. }
  assert (profile_finalize e st =
            (st ← (st ← profile_enable false 0 st;
                   st ← (if io_thread st is Some _ then _profile_io_exit st else Some st);
                   st ← _profile_thread_finalize e st;
                   if _profile_root st =? 0 then Some st
                   else _profile_process_root_block st);
             let free_block := Z.land (_profile_free st) 65535 in
             let st := if _profile_root st =? 0 then st
                       else log_message LogRootStillActive st in
             '(num_blocks, st) ← finalize_count (S (length (_profile_blocks st)))
                                   (_profile_blocks st) free_block 0 st;
             let num_blocks := if _profile_num_blocks st =? 0 then num_blocks
                               else u64 (num_blocks + 1) in
             let st := if num_blocks =? _profile_num_blocks st then st
                       else log_message (LogLostBlocks num_blocks (_profile_num_blocks st)) st in
             Some {| _profile_identifier := [];
                     _profile_counter := _profile_counter st;
                     _profile_loopid := _profile_loopid st;
                     _profile_free := 0;
                     _profile_root := 0;
                     _profile_blocks := _profile_blocks st;
                     _profile_ground_time := _profile_ground_time st;
                     _profile_enable := _profile_enable st;
                     _profile_write := _profile_write st;
                     _profile_num_blocks := 0;
                     _profile_wait := _profile_wait st;
                     has_warned := has_warned st;
                     profile_block_tls := profile_block_tls st;
                     io_thread := io_thread st;
                     sink := sink st;
                     messages := messages st |})) as ->.
  { unfold profile_finalize.
    destruct (profile_enable false 0 st) as [s1|]; [|done]. cbn [mbind option_bind].
    destruct (if io_thread s1 is Some _ then _profile_io_exit s1 else Some s1) as [s2|];
      [|done]. cbn [mbind option_bind].
    destruct (_profile_thread_finalize e s2) as [s3|]; [|done]. cbn [mbind option_bind].
    destruct (if _profile_root s3 =? 0 then Some s3 else _profile_process_root_block s3);
      done. }
  rewrite Hrun. cbn [mbind option_bind].
  rewrite Hroot2. cbn [Z.eqb].
  rewrite (finalize_count_spec (drain_chain R ++ F)); [|done| |lia|lia|lia].
  2:{ intros j Hj. apply elem_of_app in Hj as [Hj|Hj].
      - apply Hsib2. by rewrite <- drain_chain_slots.
      - assert (j ∉ slots R) as HjR.
        { intros HjR. apply NoDup_app in Hnd as (_ & Hd & _). by apply (Hd j). }
        rewrite Hframe2 by done. by apply HsibF. }
  cbn [mbind option_bind]. rewrite Hnum2.
  destruct (Z.eqb_spec (_profile_num_blocks st) 0); [done|].
  rewrite HlenL. rewrite u64_small by lia.
  replace (0 + Z.of_nat (length (slots R) + length F) + 1) with found by (unfold found; lia).
  eexists _, out. split; [reflexivity|].
  cbn [_profile_root _profile_free _profile_num_blocks _profile_identifier
       _profile_enable io_thread sink messages].
  split; [done|]. split; [done|]. split; [done|]. split; [done|].
  destruct (found =? _profile_num_blocks st).
  - split; [done|]. split; [done|]. split; [done|]. split; [done|].
    by rewrite Hmsg2, app_nil_r.
  - cbn [_profile_enable io_thread sink messages log_message set_messages].
    split; [done|]. split; [done|]. split; [done|]. split; [done|].
    by rewrite Hmsg2.
Qed.

Lemma X10_finalize_conservation_witness :
  ∃ st', profile_finalize env1 state_frame4 = Some st' ∧
    messages st' = [] ∧
    (λ w : written, id (data w.2)) <$> sink st' = [PROFILE_ID_ENDFRAME; PROFILE_ID_ENDOFSTREAM].
Proof.
  destruct (X10_finalize_conservation env1 state_frame4 (Node 1 Leaf Leaf) [2; 3])
    as (st' & out & Hrun & _ & _ & _ & _ & _ & _ & _ & _ & Hm).
  - reflexivity.
  - left. reflexivity.
  - vm_compute. repeat first [done | split | eexists].
  - vm_compute. repeat first [done | split | eexists].
  - compute_done.
  - intros j Hj. simpl in Hj. set_unfold. lia.
  - intros j Hj. rewrite !elem_of_cons in Hj.
    destruct Hj as [->|[->|Hj]]; [..|by apply not_elem_of_nil in Hj];
      eexists; split; reflexivity.
  - vm_compute. discriminate.
  - exists st'. split; [exact Hrun|]. split; [exact Hm|].
    vm_compute in Hrun. injection Hrun as <-. reflexivity.
Defined.


(** ** profile_begin_block *)

Lemma open_up_cur_nonzero blocks a S path : open_up blocks a S path → a ≠ 0.
Proof. destruct path as [|[p Sp] rest]; by intros (? & _). Qed.

Lemma Inv_no_open st G tid :
  Inv st G → get_thread_profile_block st tid = 0 → g_open G tid = None.
Proof.
  intros HI Hcur. pose proof (inv_open _ _ HI tid) as Ho.
  destruct (g_open G tid) as [o|]; [|done].
  destruct Ho as [Hc [Hup _]]. apply open_up_cur_nonzero in Hup. congruence.
Qed.

Lemma Inv_open st G tid :
  Inv st G → get_thread_profile_block st tid ≠ 0 →
  ∃ o, g_open G tid = Some o ∧ o_cur o = get_thread_profile_block st tid ∧
       open_tree (_profile_blocks st) o.
Proof.
  intros HI Hcur. pose proof (inv_open _ _ HI tid) as Ho.
  destruct (g_open G tid) as [o|]; [|done].
  destruct Ho as [Hc Hot]. eauto.
Qed.

Lemma Inv_free_bound st G s : Inv st G → s ∈ g_free G → s < 65536.
Proof. intros HI Hs. apply (inv_bound _ _ HI 0). unfold local_slots. set_solver. Qed.

Lemma Inv_free_nodup st G : Inv st G → NoDup (g_free G).
Proof.
  intros HI. pose proof (inv_nodup _ _ HI 0) as Hnd. unfold local_slots in Hnd.
  by apply NoDup_app in Hnd as (? & _).
Qed.

Lemma begin_block_disabled T e message len st G :
  Inv st G → (_profile_enable st = 0 ∨ g_free G = []) →
  ∃ st', profile_begin_block e message len st = Some st' ∧
         Inv st' G ∧ fate T st G st' G ∧
         _profile_enable st' = _profile_enable st ∧ io_thread st' = io_thread st ∧
         _profile_root st' = _profile_root st ∧
         _profile_counter st' = _profile_counter st ∧
         profile_block_tls st' = profile_block_tls st ∧
         _profile_blocks st' = _profile_blocks st ∧
         sink st' = sink st.
Proof.
  intros HI Hcase. unfold profile_begin_block.
  destruct (Z.eqb_spec (_profile_enable st) 0) as [Hen|Hen].
  { exists st. split; [done|]. split; [done|]. split; [apply fate_refl|]. done. }
  destruct Hcase as [?|HF]; [done|].
  assert (Z.land (_profile_free st) 65535 = 0) as Hfree.
  { pose proof (inv_free _ _ HI) as Hl. rewrite HF in Hl. done. }
  destruct (allocate_block_none st (inv_zero _ _ HI) Hfree) as (l1 & w1 & m1 & Halloc).
  rewrite Halloc. simpl.
  eexists. split; [by destruct (_ =? 0)|].
  split; [by apply (Inv_ext st)|]. split; [by apply fate_ext|]. done.
Qed.

Lemma begin_block_root T e message len st G s F :
  Inv st G → _profile_enable st ≠ 0 →
  get_thread_profile_block st (thread_id e) = 0 → g_free G = s :: F →
  let G' := {| g_free := F; g_root := g_root G;
               g_open := λ t, if decide (t = thread_id e)
                              then Some (otree_begin s None) else g_open G t |} in
  ∃ st', profile_begin_block e message len st = Some st' ∧
         Inv st' G' ∧ fate T st G st' G' ∧
         _profile_enable st' = _profile_enable st ∧ io_thread st' = io_thread st ∧
         _profile_root st' = _profile_root st ∧
         _profile_counter st' = next_counter st ∧
         sink st' = sink st ∧
         length (_profile_blocks st') = length (_profile_blocks st) ∧
         payload st' s = Some (begin_data (next_counter st) 0 e
                                 (_profile_ground_time st) message len zero_data).
Proof.
  intros HI Hen Hcur HF G'.
  pose proof (inv_free _ _ HI) as Hfree. rewrite HF in Hfree.
  pose proof (Inv_free_nodup _ _ HI) as Hnd. rewrite HF in Hnd.
  assert (s < 65536) as Hs by (apply (Inv_free_bound st G); [done|rewrite HF; set_solver]).
  assert (s ≠ 0 ∧ 0 ≤ s) as [Hs0 Hs1].
  { destruct Hfree as (_ & ? & b & Hb%GET_BLOCK_range & _). lia. }
  destruct (allocate_block_some st s F Hfree Hnd) as (free1 & loopid1 & Halloc & Hl1 & Hg1 & Hf1).
  { intros j Hj. apply (Inv_free_bound st G); [done|rewrite HF; set_solver]. }
  set (B1 := <[Z.to_nat s := zero_block]> (_profile_blocks st)) in *.
  unfold profile_begin_block.
  destruct (Z.eqb_spec (_profile_enable st) 0); [done|].
  rewrite Hcur. simpl. rewrite Halloc. simpl.
  rewrite (st_upd_Some _ _ _ zero_block) by done. simpl.
  set (rec := with_data _ zero_block). fold B1.
  set (B2 := <[Z.to_nat s := rec]> B1).
  assert (∀ j, GET_BLOCK B2 j = if j =? s then Some rec else GET_BLOCK (_profile_blocks st) j) as HB2.
  { intros j. unfold B2. rewrite (GET_insert _ _ _ _ _ Hg1).
    destruct (Z.eqb_spec j s); [done|]. by apply Hf1. }
  assert (g_open G (thread_id e) = None) as Hnone by (by eapply Inv_no_open).
  assert (∀ j, j ∈ F ++ slots (g_root G) → j ≠ s) as Hfresh.
  { intros j Hj ->. pose proof (inv_nodup _ _ HI (thread_id e)) as Hn.
    unfold local_slots in Hn. rewrite HF, Hnone in Hn. simpl in Hn. rewrite app_nil_r in Hn.
    apply NoDup_cons in Hn as [Hn _]. done. }
  eexists. split; [done|].
  assert (Inv (set_thread_profile_block (thread_id e) (u16 s)
                 (set_blocks B2 (set_counter (next_counter
                    (set_blocks B1 (set_free free1 (set_loopid loopid1 st))))
                    (set_blocks B1 (set_free free1 (set_loopid loopid1 st)))))) G') as HI'.
  { apply (Inv_update st G (thread_id e)); simpl; try done.
    - intros j Hj. rewrite HB2. destruct (Z.eqb_spec j s) as [->|]; [|done].
      exfalso. apply Hj. unfold local_slots. rewrite HF. set_solver.
    - intros t Ht. rewrite get_set_thread_profile_block.
      destruct (decide (t = thread_id e)); done.
    - rewrite HB2. destruct (Z.eqb_spec 0 s); [done|]. apply (inv_zero _ _ HI).
    - eapply lseg_frame; [|exact Hl1]. intros j Hj. unfold B2.
      rewrite (GET_insert _ _ _ _ _ Hg1). destruct (Z.eqb_spec j s) as [->|]; [|done].
      exfalso. apply (Hfresh s); [set_solver|done].
    - eapply shaped_frame; [|apply (inv_root _ _ HI)]. intros j Hj. rewrite HB2.
      destruct (Z.eqb_spec j s) as [->|]; [|done].
      exfalso. apply (Hfresh s); [set_solver|done].
    - rewrite get_set_thread_profile_block. destruct (decide _); [|done].
      split; [apply u16_small; lia|]. split; simpl.
      + split; [done|]. exists rec. rewrite HB2, Z.eqb_refl. done.
      + exists rec. rewrite HB2, Z.eqb_refl. done.
    - pose proof (inv_nodup _ _ HI (thread_id e)) as Hn. unfold local_slots in Hn.
      rewrite HF, Hnone in Hn. simpl in Hn. rewrite app_nil_r in Hn.
      eapply NoDup_Permutation_proper; [|exact Hn]. solve_Permutation.
    - unfold local_slots. rewrite HF. set_solver. }
  split; [exact HI'|]. split.
  { apply (fate_quiet T st G (thread_id e)); try done.
    - intros s' Hs'. rewrite Hnone in Hs'. by apply not_elem_of_nil in Hs'.
    - simpl. intros s' Hs'. right. rewrite HF. set_solver.
    - intros s' Hlive _. unfold payload. simpl. rewrite HB2.
      destruct (Z.eqb_spec s' s) as [->|]; [|done].
      exfalso. apply (live_not_free st G s HI Hlive). rewrite HF. set_solver.
    - intros s' d Hs'. rewrite Hnone in Hs'. by apply not_elem_of_nil in Hs'. }
  simpl. split; [done|]. split; [done|]. split; [done|]. split; [done|].
  split; [done|]. split; [unfold B2, B1; by rewrite !length_insert|].
  unfold payload. simpl. rewrite HB2, Z.eqb_refl. done.
Qed.

(** What [NoDup] says about the layout of the slots of one thread. *)
Lemma local_nodup (F R C S P : list Z) (c : Z) :
  NoDup (F ++ R ++ c :: C ++ S ++ P) →
  (∀ j, j ∈ F → (j ∉ R) ∧ j ≠ c ∧ (j ∉ C) ∧ (j ∉ S) ∧ (j ∉ P)) ∧
  (∀ j, j ∈ R → j ≠ c ∧ (j ∉ C) ∧ (j ∉ S) ∧ (j ∉ P)) ∧
  ((c ∉ C) ∧ (c ∉ S) ∧ (c ∉ P)) ∧
  (∀ j, j ∈ C → (j ∉ S) ∧ (j ∉ P)) ∧
  (∀ j, j ∈ S → j ∉ P).
Proof.
  intros H.
  apply NoDup_app in H as (_ & H1 & H). apply NoDup_app in H as (_ & H2 & H).
  apply NoDup_cons in H as [H3 H]. apply NoDup_app in H as (_ & H4 & H).
  apply NoDup_app in H as (_ & H5 & _).
  split_and!.
  - intros j Hj. specialize (H1 j Hj).
    rewrite !not_elem_of_app, not_elem_of_cons, !not_elem_of_app in H1. tauto.
  - intros j Hj. specialize (H2 j Hj).
    rewrite not_elem_of_cons, !not_elem_of_app in H2. tauto.
  - rewrite !not_elem_of_app in H3. tauto.
  - rewrite !not_elem_of_app in H3. tauto.
  - rewrite !not_elem_of_app in H3. tauto.
  - intros j Hj. specialize (H4 j Hj). rewrite not_elem_of_app in H4. tauto.
  - done.
Qed.

Lemma st_upd_at f i st blocks b :
  _profile_blocks st = blocks → GET_BLOCK blocks i = Some b →
  st_upd f i st = Some (set_blocks (<[Z.to_nat i := f b]> blocks) st).
Proof. intros <-. apply st_upd_Some. Qed.

Lemma set_blocks_twice B B' st : set_blocks B (set_blocks B' st) = set_blocks B st.
Proof. reflexivity. Qed.

Ltac st_upd_step H :=
  match goal with
  | |- context [st_upd ?f ?i ?st] =>
      rewrite (st_upd_at f i st _ _ eq_refl H); rewrite ?set_blocks_twice
  end.

Lemma shaped_head blocks i t : shaped blocks i t → i ≠ 0 → i ∈ slots t.
Proof. destruct t; simpl; [done|]. intros (-> & _) _. set_solver. Qed.

Lemma begin_block_child T e message len st G s F o :
  Inv st G → _profile_enable st ≠ 0 →
  g_open G (thread_id e) = Some o → g_free G = s :: F →
  let G' := {| g_free := F; g_root := g_root G;
               g_open := λ t, if decide (t = thread_id e)
                              then Some (otree_begin s (Some o)) else g_open G t |} in
  ∃ st', profile_begin_block e message len st = Some st' ∧
         Inv st' G' ∧ fate T st G st' G' ∧
         _profile_enable st' = _profile_enable st ∧ io_thread st' = io_thread st ∧
         _profile_root st' = _profile_root st ∧
         _profile_counter st' = next_counter st ∧
         sink st' = sink st ∧
         length (_profile_blocks st') = length (_profile_blocks st) ∧
         payload st' s = Some (begin_data (next_counter st) (parent_id_of st (thread_id e)) e
                                 (_profile_ground_time st) message len zero_data).
Proof.
  intros HI Hen Ho HF G'.
  pose proof (inv_open _ _ HI (thread_id e)) as Hopen. rewrite Ho in Hopen.
  destruct Hopen as [Hcur [Hup (bc & Hbc & HC)]].
  set (cur := o_cur o) in *.
  pose proof (open_up_cur_nonzero _ _ _ _ Hup) as Hcur0.
  pose proof (inv_free _ _ HI) as Hfree. rewrite HF in Hfree.
  pose proof (Inv_free_nodup _ _ HI) as Hnd. rewrite HF in Hnd.
  pose proof (inv_nodup _ _ HI (thread_id e)) as Hn. unfold local_slots in Hn.
  rewrite HF, Ho in Hn. simpl in Hn. unfold otree_slots in Hn. fold cur in Hn.
  assert (∀ j, j ∈ s :: F ++ slots (g_root G) ++ cur :: slots (o_children o)
                 ++ slots (o_siblings o) ++ path_slots (o_path o) → 0 ≤ j < 65536) as Hbound.
  { intros j Hj. split.
    - assert (j ∈ local_slots G (thread_id e)) as Hj'.
      { unfold local_slots. rewrite HF, Ho. simpl. unfold otree_slots. fold cur. set_solver. }
      clear Hj. unfold local_slots in Hj'.
      apply elem_of_app in Hj' as [Hj|Hj].
      { pose proof (inv_free _ _ HI) as Hl.
        destruct (lseg_elem_range _ _ _ _ Hl j Hj) as [_ [b Hb%GET_BLOCK_range]]. lia. }
      apply elem_of_app in Hj as [Hj|Hj].
      { pose proof (shaped_range _ _ _ (inv_root _ _ HI) j Hj). lia. }
      rewrite Ho in Hj. simpl in Hj. unfold otree_slots in Hj.
      apply elem_of_cons in Hj as [->|Hj]; [apply GET_BLOCK_range in Hbc; lia|].
      apply elem_of_app in Hj as [Hj|Hj].
      { pose proof (shaped_range _ _ _ HC j Hj). lia. }
      destruct (open_up_slots _ _ _ _ Hup j) as [_ [b Hb%GET_BLOCK_range]]; [set_solver|lia].
    - apply (inv_bound _ _ HI (thread_id e)). unfold local_slots.
      rewrite HF, Ho. simpl. unfold otree_slots. fold cur. set_solver. }
  assert (s ≠ 0) as Hs0 by (by destruct Hfree as (_ & ? & _)).
  assert (0 ≤ s < 65536) as Hs by (apply Hbound; set_solver).
  assert (0 ≤ cur < 65536) as Hcurb by (apply Hbound; set_solver).
  destruct (allocate_block_some st s F Hfree Hnd) as (free1 & loopid1 & Halloc & Hl1 & Hg1 & Hf1).
  { intros j Hj. apply Hbound. set_solver. }
  set (B1 := <[Z.to_nat s := zero_block]> (_profile_blocks st)) in *.
  apply NoDup_cons in Hn as [Hs_fresh Hn].
  destruct (local_nodup _ _ _ _ _ _ Hn) as (HdF & HdR & (HcC & HcS & HcP) & HdC & HdS).
  rewrite !not_elem_of_app, not_elem_of_cons, !not_elem_of_app in Hs_fresh.
  destruct Hs_fresh as (HsF & HsR & Hsc & HsC & HsS & HsP).
  assert (cur ≠ s) as Hcs by done.
  assert (∀ j, j ∈ F ∨ j ∈ slots (g_root G) ∨ j ∈ slots (o_siblings o)
               ∨ j ∈ path_slots (o_path o) →
               j ≠ cur ∧ j ≠ s ∧ j ∉ slots (o_children o)) as Hfar.
  { intros j [Hj|[Hj|[Hj|Hj]]].
    - destruct (HdF j Hj) as (? & ? & ? & ? & ?). split; [done|]. split; [|done]. by intros ->.
    - destruct (HdR j Hj) as (? & ? & ? & ?). split; [done|]. split; [|done]. by intros ->.
    - split; [by intros ->|]. split; [by intros ->|]. intros HC'. by destruct (HdC j HC').
    - split; [by intros ->|]. split; [by intros ->|]. intros HC'. by destruct (HdC j HC'). }
  unfold profile_begin_block.
  destruct (Z.eqb_spec (_profile_enable st) 0); [done|].
  rewrite Hcur. destruct (Z.eqb_spec cur 0); [done|].
  rewrite Halloc. simpl. fold B1.
  assert (GET_BLOCK B1 cur = Some bc) as Hc1 by (by rewrite Hf1).
  rewrite Hc1. simpl.
  st_upd_step Hg1. simpl.
  set (rec := with_data _ zero_block).
  set (B2 := <[Z.to_nat s := rec]> B1).
  assert (GET_BLOCK B2 s = Some rec) as Hs2
    by (unfold B2; rewrite (GET_insert _ _ _ _ _ Hg1), Z.eqb_refl; done).
  st_upd_step Hs2. simpl.
  set (B3 := <[Z.to_nat s := with_previous (u16 cur) rec]> B2).
  assert (GET_BLOCK B3 s = Some (with_previous (u16 cur) rec)) as Hs3
    by (unfold B3; rewrite (GET_insert _ _ _ _ _ Hs2), Z.eqb_refl; done).
  assert (GET_BLOCK B3 cur = Some bc) as Hc3.
  { unfold B3. rewrite (GET_insert _ _ _ _ _ Hs2).
    destruct (Z.eqb_spec cur s); [done|]. unfold B2.
    rewrite (GET_insert _ _ _ _ _ Hg1). destruct (Z.eqb_spec cur s); done. }
  rewrite Hc3. simpl.
  st_upd_step Hs3. simpl.
  set (rec4 := with_sibling (child bc) (with_previous (u16 cur) rec)).
  set (B4 := <[Z.to_nat s := rec4]> B3).
  assert (∀ j, GET_BLOCK B4 j = if j =? s then Some rec4 else GET_BLOCK (_profile_blocks st) j) as HB4.
  { intros j. unfold B4. rewrite (GET_insert _ _ _ _ _ Hs3).
    destruct (Z.eqb_spec j s); [done|]. unfold B3. rewrite (GET_insert _ _ _ _ _ Hs2).
    destruct (Z.eqb_spec j s); [done|]. unfold B2. rewrite (GET_insert _ _ _ _ _ Hg1).
    destruct (Z.eqb_spec j s); [done|]. by apply Hf1. }
  assert (GET_BLOCK B4 cur = Some bc) as Hc4.
  { rewrite HB4. destruct (Z.eqb_spec cur s); done. }
  rewrite Hc4. simpl.
  (* the link of the former first child *)
  assert (∃ B5, (if child bc =? 0
                 then Some (set_blocks B4 (set_counter (next_counter
                        (set_blocks B1 (set_free free1 (set_loopid loopid1 st))))
                        (set_blocks B1 (set_free free1 (set_loopid loopid1 st)))))
                 else st_upd (with_previous (u16 s)) (child bc)
                        (set_blocks B4 (set_counter (next_counter
                           (set_blocks B1 (set_free free1 (set_loopid loopid1 st))))
                           (set_blocks B1 (set_free free1 (set_loopid loopid1 st))))))
               = Some (set_blocks B5 (set_counter (next_counter
                        (set_blocks B1 (set_free free1 (set_loopid loopid1 st))))
                        (set_blocks B1 (set_free free1 (set_loopid loopid1 st))))) ∧
          length B5 = length (_profile_blocks st) ∧
          ∀ j, GET_BLOCK B5 j =
                 if j =? s then Some rec4
                 else if (j =? child bc) && negb (child bc =? 0)
                      then with_previous (u16 s) <$> GET_BLOCK (_profile_blocks st) j
                      else GET_BLOCK (_profile_blocks st) j) as (B5 & -> & Hlen5 & HB5).
  { destruct (Z.eqb_spec (child bc) 0) as [Hc0|Hc0].
    - exists B4. split; [done|].
      split; [unfold B4, B3, B2, B1; by rewrite !length_insert|].
      intros j. rewrite HB4, andb_false_r. done.
    - assert (child bc ∈ slots (o_children o)) as Hin by (by eapply shaped_head).
      assert (child bc ≠ s) as Hcs' by (intros Heq; rewrite Heq in Hin; done).
      destruct (GET_BLOCK_in_range (_profile_blocks st) (child bc)) as [b0 Hb0].
      { pose proof (shaped_range _ _ _ HC _ Hin). lia. }
      assert (GET_BLOCK B4 (child bc) = Some b0) as Hb4.
      { rewrite HB4. destruct (Z.eqb_spec (child bc) s); done. }
      st_upd_step Hb4. simpl.
      eexists. split; [done|].
      split; [unfold B4, B3, B2, B1; by rewrite !length_insert|]. intros j.
      rewrite (GET_insert _ _ _ _ _ Hb4), HB4.
      destruct (Z.eqb_spec j (child bc)) as [->|]; simpl.
      + destruct (Z.eqb_spec (child bc) s); [done|]. by rewrite Hb0.
      + done. }
  simpl.
  assert (child bc ≠ cur) as Hcc.
  { intros Heq. destruct (decide (child bc = 0)) as [|Hc0]; [congruence|].
    pose proof (shaped_head _ _ _ HC Hc0) as Hin. rewrite Heq in Hin. done. }
  assert (GET_BLOCK B5 cur = Some bc) as Hc5.
  { rewrite HB5. destruct (Z.eqb_spec cur s); [done|].
    destruct (Z.eqb_spec cur (child bc)); [congruence|]. done. }
  st_upd_step Hc5. simpl.
  set (B6 := <[Z.to_nat cur := with_child (u16 s) bc]> B5).
  assert (∀ j, GET_BLOCK B6 j =
               if j =? cur then Some (with_child s bc)
               else if j =? s then Some rec4
               else if (j =? child bc) && negb (child bc =? 0)
                    then with_previous s <$> GET_BLOCK (_profile_blocks st) j
                    else GET_BLOCK (_profile_blocks st) j) as HB6.
  { intros j. unfold B6. rewrite (GET_insert _ _ _ _ _ Hc5), HB5.
    rewrite (u16_small s) by lia. done. }
  assert (length B6 = length (_profile_blocks st)) as Hlen6
    by (unfold B6; by rewrite length_insert).
  clearbody B6. clear HB5 Hc5 Hlen5 B5 HB4 Hc4 Hc3 Hs3 Hs2.
  eexists. split; [done|].
  assert (∀ j, j ≠ cur → j ≠ s → j ∉ slots (o_children o) →
               GET_BLOCK B6 j = GET_BLOCK (_profile_blocks st) j) as Hrest.
  { intros j H1 H2 H3. rewrite HB6.
    destruct (Z.eqb_spec j cur); [done|]. destruct (Z.eqb_spec j s); [done|].
    destruct (Z.eqb_spec j (child bc)) as [->|]; [|done].
    destruct (Z.eqb_spec (child bc) 0); [done|]. simpl.
    exfalso. apply H3. by eapply shaped_head. }
  assert (∀ j b, GET_BLOCK (_profile_blocks st) j = Some b → j ≠ s →
            ∃ b', GET_BLOCK B6 j = Some b' ∧ data b' = data b ∧
                  sibling b' = sibling b ∧
                  (j ≠ cur → child b' = child b) ∧
                  (j ∉ slots (o_children o) → previous b' = previous b)) as Hkeep.
  { intros j b Hb Hjs. rewrite HB6.
    destruct (Z.eqb_spec j cur) as [->|].
    { rewrite Hbc in Hb. injection Hb as <-. eexists. split; [done|]. done. }
    destruct (Z.eqb_spec j s); [done|].
    destruct (Z.eqb_spec j (child bc)) as [->|]; simpl.
    - destruct (Z.eqb_spec (child bc) 0) as [|Hc0]; simpl.
      + exists b. done.
      + rewrite Hb. eexists. split; [done|]. repeat split; try done.
        intros Hnot. exfalso. apply Hnot. by eapply shaped_head.
    - exists b. done. }
  assert (Inv (set_thread_profile_block (thread_id e) (u16 s)
                 (set_blocks B6 (set_counter (next_counter
                    (set_blocks B1 (set_free free1 (set_loopid loopid1 st))))
                    (set_blocks B1 (set_free free1 (set_loopid loopid1 st)))))) G') as HI'.
  { apply (Inv_update st G (thread_id e)); simpl; try done.
    - intros j Hj. apply Hrest; intros Hx; apply Hj; unfold local_slots;
        rewrite HF, Ho; simpl; unfold otree_slots; fold cur; set_solver.
    - intros t Ht. rewrite get_set_thread_profile_block.
      destruct (decide (t = thread_id e)); done.
    - destruct (inv_zero _ _ HI) as [b0 Hb0].
      destruct (Hkeep 0 b0 Hb0) as (b' & -> & _); [lia|done].
    - eapply lseg_frame; [|exact Hl1]. intros j Hj.
      destruct (Hfar j) as (? & ? & ?); [by left|].
      rewrite Hf1 by done. by apply Hrest.
    - eapply shaped_frame; [|apply (inv_root _ _ HI)]. intros j Hj.
      destruct (Hfar j) as (? & ? & ?); [by right; left|]. by apply Hrest.
    - rewrite get_set_thread_profile_block. destruct (decide _); [|done].
      split; [apply u16_small; lia|]. split; simpl.
      + split; [done|]. exists rec4. rewrite HB6.
        destruct (Z.eqb_spec s cur); [congruence|]. rewrite Z.eqb_refl.
        split; [done|]. split.
        { simpl. eapply shaped_agree; [|exact HC]. intros j Hj b Hb.
          destruct (Hkeep j b Hb) as (b' & Hb' & _ & Hsib & Hch & _).
          - by intros ->.
          - exists b'. split; [done|]. split; [done|]. apply Hch. by intros ->. }
        split; [simpl; apply u16_small; lia|]. split.
        { exists (with_child s bc). rewrite HB6, Z.eqb_refl. done. }
        eapply open_up_agree; [| |exact Hup].
        * fold cur. intros b Hb. rewrite Hbc in Hb. injection Hb as <-.
          exists (with_child s bc). rewrite HB6, Z.eqb_refl. done.
        * intros j Hj. apply links_eq_same.
          destruct (Hfar j) as (? & ? & ?); [|by apply Hrest].
          apply elem_of_app in Hj as [Hj|Hj]; auto.
      + exists rec4. rewrite HB6. destruct (Z.eqb_spec s cur); [congruence|].
        rewrite Z.eqb_refl. done.
    - unfold otree_slots. simpl. fold cur.
      eapply NoDup_Permutation_proper;
        [|apply NoDup_cons; split; [|exact Hn]].
      + solve_Permutation.
      + rewrite !not_elem_of_app, not_elem_of_cons, !not_elem_of_app. done.
    - unfold local_slots. rewrite HF, Ho. simpl. unfold otree_slots. simpl. fold cur.
      set_solver. }
  split; [exact HI'|]. split.
  { apply (fate_quiet T st G (thread_id e)); try done.
    - intros s' Hs'. right. rewrite Ho in Hs'. simpl in *. unfold otree_slots in *.
      simpl. fold cur. fold cur in Hs'. set_solver.
    - intros s' Hs'. rewrite Ho, HF. simpl in *. unfold otree_open in *. simpl in Hs'.
      fold cur in Hs'. fold cur. set_solver.
    - intros s' Hlive _. unfold payload. simpl.
      assert (s' ≠ s) as Hne.
      { intros ->. apply (live_not_free st G s HI Hlive). rewrite HF. set_solver. }
      destruct (GET_BLOCK (_profile_blocks st) s') as [b|] eqn:Hb.
      + destruct (Hkeep s' b Hb Hne) as (b' & -> & Hd & _). simpl. by rewrite Hd.
      + rewrite HB6. destruct (Z.eqb_spec s' cur) as [->|]; [congruence|].
        destruct (Z.eqb_spec s' s); [done|]. rewrite Hb. by destruct (_ && _).
    - intros s' d Hs' Hout. exfalso. apply Hout. rewrite Ho in Hs'. simpl in *.
      unfold otree_open in *. simpl. fold cur. fold cur in Hs'. set_solver. }
  simpl. split; [done|]. split; [done|]. split; [done|]. split; [done|].
  split; [done|]. split; [done|].
  unfold payload. simpl. rewrite HB6. destruct (Z.eqb_spec s cur); [congruence|].
  rewrite Z.eqb_refl. simpl. unfold parent_id_of, payload. rewrite Hcur.
  destruct (Z.eqb_spec cur 0); [done|]. rewrite Hbc. done.
Qed.

(** profile_begin_block keeps the invariant, writes nothing, and, when it
    can allocate, makes the head of the free list the thread's current
    block. *)
Lemma begin_block_spec T e message len st G :
  Inv st G →
  ∃ st' G',
    profile_begin_block e message len st = Some st' ∧
    Inv st' G' ∧ fate T st G st' G' ∧
    _profile_enable st' = _profile_enable st ∧ io_thread st' = io_thread st ∧
    _profile_root st' = _profile_root st ∧ g_root G' = g_root G ∧
    (∀ t, t ≠ thread_id e → g_open G' t = g_open G t) ∧
    sink st' = sink st ∧
    length (_profile_blocks st') = length (_profile_blocks st) ∧
    begin_result e message len st G st' G'.
Proof.
  intros HI. unfold begin_result.
  destruct (decide (_profile_enable st = 0)) as [Hen|Hen].
  { destruct (begin_block_disabled T e message len st G HI)
      as (st' & H & HI' & Hfate & ? & ? & ? & ? & ? & ? & ?); [by left|].
    exists st', G. split; [done|]. split; [done|]. split; [done|].
    split_and!; try done; try congruence. by destruct (g_free G). }
  destruct (g_free G) as [|s F] eqn:HF.
  { destruct (begin_block_disabled T e message len st G HI)
      as (st' & H & HI' & Hfate & ? & ? & ? & ? & ? & ? & ?); [by right|].
    exists st', G. split; [done|]. split; [done|]. split; [done|].
    split_and!; try done; congruence. }
  destruct (decide (get_thread_profile_block st (thread_id e) = 0)) as [Hcur|Hcur].
  - destruct (begin_block_root T e message len st G s F HI Hen Hcur HF)
      as (st' & H & HI' & Hfate & ? & ? & ? & ? & ? & ? & ?).
    eexists st', _. split; [done|]. split; [exact HI'|]. split; [exact Hfate|].
    cbn [g_free g_root g_open].
    split_and!; try done.
    + intros t Ht. destruct (decide (t = thread_id e)); done.
    + intros _. rewrite (Inv_no_open _ _ _ HI Hcur).
      destruct (decide (thread_id e = thread_id e)); [|done].
      split_and!; try done. unfold parent_id_of. rewrite Hcur. done.
  - destruct (Inv_open _ _ _ HI Hcur) as (o & Ho & _).
    destruct (begin_block_child T e message len st G s F o HI Hen Ho HF)
      as (st' & H & HI' & Hfate & ? & ? & ? & ? & ? & ? & ?).
    eexists st', _. split; [done|]. split; [exact HI'|]. split; [exact Hfate|].
    cbn [g_free g_root g_open].
    split_and!; try done.
    + intros t Ht. destruct (decide (t = thread_id e)); done.
    + intros _. rewrite Ho.
      destruct (decide (thread_id e = thread_id e)); [|done]. done.
Qed.

(** ** profile_end_block *)

Lemma end_block_nested T e st G o p Sp rest :
  Inv st G → g_open G (thread_id e) = Some o → o_path o = (p, Sp) :: rest →
  T (i64 (time_current e - _profile_ground_time st)) →
  let f := λ b, with_data (with_end (i64 (time_current e - _profile_ground_time st))
                             (data b)) b in
  ∃ b, GET_BLOCK (_profile_blocks st) (o_cur o) = Some b ∧
    previous b ≠ 0 ∧
    let B1 := <[Z.to_nat (o_cur o) := f b]> (_profile_blocks st) in
    let st1 := set_thread_profile_block (thread_id e) p (set_blocks B1 st) in
    let G1 := {| g_free := g_free G; g_root := g_root G;
                 g_open := λ t, if decide (t = thread_id e)
                                then Some (otree_end o p Sp rest) else g_open G t |} in
    profile_end_block_walk e (o_cur o) (set_blocks B1 st) = Some (st1, p) ∧
    Inv st1 G1 ∧ fate T st G st1 G1 ∧
    GET_BLOCK B1 p = GET_BLOCK (_profile_blocks st) p ∧
    is_Some (GET_BLOCK (_profile_blocks st) p).
Proof.
  intros HI Ho Hpath HT f.
  pose proof (inv_open _ _ HI (thread_id e)) as Hopen. rewrite Ho in Hopen.
  destruct Hopen as [Hcur [Hup (bc & Hbc & HC)]].
  set (cur := o_cur o) in *.
  pose proof (inv_nodup _ _ HI (thread_id e)) as Hn. unfold local_slots in Hn.
  rewrite Ho in Hn. simpl in Hn. unfold otree_slots in Hn. fold cur in Hn.
  rewrite Hpath in Hn, Hup. simpl in Hn.
  destruct Hup as (Hcur0 & b & Hb & HS & Hprev & (bp & Hbp & Hch) & Hup).
  rewrite Hbc in Hb. injection Hb as <-.
  pose proof (open_up_cur_nonzero _ _ _ _ Hup) as Hp0.
  assert (p ≠ cur) as Hpc.
  { intros ->. apply NoDup_app in Hn as (_ & _ & Hn). apply NoDup_app in Hn as (_ & _ & Hn).
    apply NoDup_cons in Hn as [Hn _]. set_solver. }
  exists bc. split; [done|]. split; [congruence|]. intros B1 st1 G1.
  unfold st1, G1. clear st1 G1.
  assert (∀ j, GET_BLOCK B1 j = if j =? cur then Some (f bc) else GET_BLOCK (_profile_blocks st) j)
    as HB1 by (intros j; apply (GET_insert _ _ _ _ _ Hbc)).
  assert (GET_BLOCK B1 p = GET_BLOCK (_profile_blocks st) p) as Hp1.
  { rewrite HB1. destruct (Z.eqb_spec p cur); done. }
  assert (∀ j, links_eq (_profile_blocks st) B1 j) as Hlinks.
  { intros j b Hb. rewrite HB1. destruct (Z.eqb_spec j cur) as [->|]; [|eauto].
    rewrite Hbc in Hb. injection Hb as <-. eexists. split; [done|]. done. }
  split.
  { unfold profile_end_block_walk. cbn [_profile_blocks set_blocks].
    rewrite find_parent_S, HB1, Z.eqb_refl. simpl. rewrite Hprev, Hp1, Hbp. simpl.
    rewrite Hch, Z.eqb_refl. done. }
  match goal with |- Inv ?s ?g ∧ _ => assert (Inv s g) as HI1 end.
  { apply (Inv_update st G (thread_id e)); simpl; try done.
    - intros j Hj. rewrite HB1. destruct (Z.eqb_spec j cur) as [->|]; [|done].
      exfalso. apply Hj. unfold local_slots. rewrite Ho. simpl. unfold otree_slots.
      fold cur. set_solver.
    - intros t Ht. rewrite get_set_thread_profile_block.
      destruct (decide (t = thread_id e)); done.
    - destruct (inv_zero _ _ HI) as [b0 Hb0].
      destruct (Hlinks 0 b0 Hb0) as (b' & -> & _). done.
    - eapply lseg_agree; [|apply (inv_free _ _ HI)].
      intros j _. apply down_eq_child, links_eq_down, Hlinks.
    - eapply shaped_agree; [|apply (inv_root _ _ HI)].
      intros j _. apply links_eq_down, Hlinks.
    - rewrite get_set_thread_profile_block. destruct (decide _); [|done].
      split; [done|]. split; simpl.
      + eapply open_up_agree; [| |exact Hup].
        * intros b0 Hb0. destruct (Hlinks p b0 Hb0) as (b' & ? & ? & ? & ?). eauto.
        * intros j _. apply Hlinks.
      + exists bp. split; [by rewrite Hp1|]. rewrite Hch. fold cur.
        split; [done|]. split; [done|]. exists (f bc).
        rewrite HB1, Z.eqb_refl. split; [done|]. simpl.
        split; (eapply shaped_agree; [|done]); intros j _; apply links_eq_down, Hlinks.
    - unfold otree_slots. simpl. fold cur.
      eapply NoDup_Permutation_proper; [|exact Hn]. solve_Permutation.
    - unfold local_slots. rewrite Ho. simpl. unfold otree_slots. simpl. fold cur.
      rewrite Hpath. simpl. set_solver. }
  split; [exact HI1|]. split; [|split; [done|by rewrite Hbp]].
  apply (fate_quiet T st G (thread_id e)); try done.
  - intros s' Hs'. right. rewrite Ho in Hs'. simpl in *. unfold otree_slots in *.
    simpl. fold cur. fold cur in Hs'. rewrite Hpath in Hs'. simpl in Hs'. set_solver.
  - intros s' Hs'. left. rewrite Ho. simpl in *. unfold otree_open in *. simpl in Hs'.
    rewrite Hpath. simpl. set_solver.
  - intros s' Hlive Hs'. unfold payload. simpl. rewrite HB1.
    destruct (Z.eqb_spec s' cur) as [->|]; [|done]. exfalso.
    destruct Hs' as [Hs'|Hs'].
    + apply Hs'. rewrite Ho. simpl. unfold otree_open. fold cur. set_solver.
    + simpl in Hs'. unfold otree_open in Hs'. simpl in Hs'.
      apply elem_of_cons in Hs' as [Hs'|Hs']; [congruence|].
      apply path_open_slots in Hs'.
      apply NoDup_app in Hn as (_ & _ & Hn). apply NoDup_app in Hn as (_ & _ & Hn).
      apply NoDup_cons in Hn as [Hn _]. set_solver.
  - intros s' d Hs' Hout Hd. exists (i64 (time_current e - _profile_ground_time st)).
    split; [done|].
    assert (s' = cur) as ->.
    { rewrite Ho in Hs'. simpl in *. unfold otree_open in *. simpl in Hout.
      rewrite Hpath in Hs'. simpl in Hs'. fold cur in Hs'. set_solver. }
    unfold payload in *. simpl. rewrite HB1, Z.eqb_refl. rewrite Hbc in Hd.
    injection Hd as <-. done.
Qed.

Lemma Inv_root_bound st G : Inv st G → 0 ≤ _profile_root st < 65536.
Proof.
  intros HI. pose proof (inv_root _ _ HI) as HR.
  destruct (g_root G) as [|r c sb] eqn:HG; simpl in HR; [lia|].
  destruct HR as (Hr & _ & b & Hb & _). apply GET_BLOCK_range in Hb.
  split; [lia|]. apply (inv_bound _ _ HI 0). unfold local_slots. rewrite HG, Hr.
  simpl. set_solver.
Qed.

(** The end of a block that has no parent: it goes to the front of the
    root list with the tree of its children. *)
Lemma end_block_root T e st G o :
  Inv st G → g_open G (thread_id e) = Some o → o_path o = [] →
  T (i64 (time_current e - _profile_ground_time st)) →
  let f := λ b, with_data (with_end (i64 (time_current e - _profile_ground_time st))
                             (data b)) b in
  let G' := {| g_free := g_free G; g_root := Node (o_cur o) (o_children o) (g_root G);
               g_open := λ t, if decide (t = thread_id e) then None else g_open G t |} in
  ∃ b blocks', GET_BLOCK (_profile_blocks st) (o_cur o) = Some b ∧ previous b = 0 ∧
    _profile_put_root_block (o_cur o)
      (set_blocks (<[Z.to_nat (o_cur o) := f b]> (_profile_blocks st)) st)
      = Some (set_root (o_cur o) (set_blocks blocks' st)) ∧
    length blocks' = length (_profile_blocks st) ∧
    Inv (set_thread_profile_block (thread_id e) 0
           (set_root (o_cur o) (set_blocks blocks' st))) G' ∧
    fate T st G (set_thread_profile_block (thread_id e) 0
                   (set_root (o_cur o) (set_blocks blocks' st))) G'.
Proof.
  intros HI Ho Hpath HT f G'.
  pose proof (inv_open _ _ HI (thread_id e)) as Hopen. rewrite Ho in Hopen.
  destruct Hopen as [Hcur [Hup (bc & Hbc & HC)]].
  set (cur := o_cur o) in *.
  pose proof (inv_nodup _ _ HI (thread_id e)) as Hn. unfold local_slots in Hn.
  rewrite Ho in Hn. simpl in Hn. unfold otree_slots in Hn. fold cur in Hn.
  rewrite Hpath in Hn, Hup. simpl in Hn.
  destruct Hup as (Hcur0 & b & Hb & HS & Hprev & HSleaf).
  rewrite Hbc in Hb. injection Hb as <-.
  rewrite HSleaf in HS, Hn. simpl in HS, Hn. rewrite !app_nil_r in Hn.
  set (B1 := <[Z.to_nat cur := f bc]> (_profile_blocks st)).
  assert (∀ j, GET_BLOCK B1 j = if j =? cur then Some (f bc) else GET_BLOCK (_profile_blocks st) j)
    as HB1 by (intros j; apply (GET_insert _ _ _ _ _ Hbc)).
  assert (∀ j, links_eq (_profile_blocks st) B1 j) as Hlinks.
  { intros j b Hb. rewrite HB1. destruct (Z.eqb_spec j cur) as [->|]; [|eauto].
    rewrite Hbc in Hb. injection Hb as <-. eexists. split; [done|]. done. }
  apply NoDup_app in Hn as (HndF & HdF & Hn).
  pose proof Hn as HnRC.
  apply NoDup_app in Hn as (HndR & HdR & Hn).
  destruct (put_root_block_spec (set_blocks B1 st) cur
              (Node cur (o_children o) Leaf) (g_root G))
    as (blocks' & Hrun & Hshape & Hlen & Hdata & Hframe & Hchild & _).
  { cbn [_profile_blocks set_blocks]. split; [done|]. split; [done|].
    exists (f bc). rewrite HB1, Z.eqb_refl. split; [done|].
    split; [|exact HS].
    eapply shaped_agree; [|exact HC]. intros j _. apply links_eq_down, Hlinks. }
  { done. }
  { cbn [_profile_blocks set_blocks _profile_root].
    eapply shaped_agree; [|apply (inv_root _ _ HI)].
    intros j _. apply links_eq_down, Hlinks. }
  { simpl. rewrite app_nil_r.
    eapply NoDup_Permutation_proper; [|exact HnRC]. solve_Permutation. }
  { apply (Inv_root_bound st G HI). }
  cbn [_profile_blocks set_blocks _profile_root] in Hrun, Hshape, Hlen, Hdata, Hframe, Hchild.
  exists bc, blocks'. split; [done|]. split; [done|]. fold B1.
  split; [exact Hrun|]. split; [by rewrite Hlen; unfold B1; rewrite length_insert|].
  assert (∀ j, data <$> GET_BLOCK blocks' j =
               if j =? cur then Some (data (f bc))
               else data <$> GET_BLOCK (_profile_blocks st) j) as Hdata'.
  { intros j. rewrite Hdata, HB1. by destruct (Z.eqb_spec j cur). }
  match goal with |- Inv ?s ?g ∧ _ => assert (Inv s g) as HI1 end.
  { apply (Inv_update st G (thread_id e)); cbn [_profile_blocks set_thread_profile_block
      set_tls set_root set_blocks _profile_free _profile_root].
    - exact HI.
    - intros j Hj. rewrite Hframe.
      + rewrite HB1. destruct (Z.eqb_spec j cur) as [->|]; [|done].
        exfalso. apply Hj. unfold local_slots. rewrite Ho. simpl. unfold otree_slots.
        fold cur. set_solver.
      + intros Hin. apply Hj. unfold local_slots. rewrite Ho. simpl. unfold otree_slots.
        fold cur. simpl in Hin. rewrite app_nil_r in Hin. set_solver.
    - intros t Ht. rewrite get_set_thread_profile_block.
      destruct (decide (t = thread_id e)); done.
    - destruct (inv_zero _ _ HI) as [b0 Hb0].
      destruct (Hlinks 0 b0 Hb0) as (b1 & Hb1 & _).
      destruct (Hchild 0 b1 Hb1) as (b2 & -> & _). done.
    - eapply lseg_agree; [|apply (inv_free _ _ HI)].
      intros j _ b0 Hb0. destruct (Hlinks j b0 Hb0) as (b1 & Hb1 & _ & _ & Hc1).
      destruct (Hchild j b1 Hb1) as (b2 & Hb2 & Hc2). exists b2. split; [done|]. congruence.
    - exact Hshape.
    - rewrite get_set_thread_profile_block. by destruct (decide _).
    - simpl. rewrite app_nil_r. apply NoDup_app. split; [done|]. split.
      + intros j Hj Hin. apply (HdF j Hj). set_solver.
      + eapply NoDup_Permutation_proper; [|exact HnRC]. solve_Permutation.
    - unfold local_slots. rewrite Ho. simpl. unfold otree_slots. fold cur.
      intros j. rewrite app_nil_r. set_solver. }
  split; [exact HI1|].
  apply (fate_quiet T st G (thread_id e)); try done.
  - intros s' Hs'. simpl. set_solver.
  - intros s' Hs'. left. rewrite Ho in Hs'. simpl in *. unfold otree_slots in *.
    fold cur in Hs'. rewrite Hpath, HSleaf in Hs'. simpl in Hs'.
    rewrite !app_nil_r in Hs'. set_solver.
  - intros s' Hs'. by apply not_elem_of_nil in Hs'.
  - intros s' Hlive Hs'. unfold payload. cbn [_profile_blocks set_thread_profile_block
      set_tls set_root set_blocks]. rewrite Hdata'.
    destruct (Z.eqb_spec s' cur) as [->|]; [|done]. exfalso.
    destruct Hs' as [Hs'|Hs']; [|by apply not_elem_of_nil in Hs'].
    apply Hs'. rewrite Ho. simpl. unfold otree_open. fold cur. set_solver.
  - intros s' d Hs' _ Hd. exists (i64 (time_current e - _profile_ground_time st)).
    split; [done|].
    assert (s' = cur) as ->.
    { rewrite Ho in Hs'. simpl in Hs'. unfold otree_open in Hs'.
      rewrite Hpath in Hs'. simpl in Hs'. fold cur in Hs'. set_solver. }
    unfold payload in *. cbn [_profile_blocks set_thread_profile_block
      set_tls set_root set_blocks]. rewrite Hdata', Z.eqb_refl.
    rewrite Hbc in Hd. injection Hd as <-. done.
Qed.

Lemma quiet_refl tid st G : quiet tid st G st G.
Proof. done. Qed.

Lemma quiet_trans tid st G st1 G1 st2 G2 :
  quiet tid st G st1 G1 → quiet tid st1 G1 st2 G2 → quiet tid st G st2 G2.
Proof.
  intros (Ha & Hb & Hc & Hd & He) (Ha' & Hb' & Hc' & Hd' & He').
  split_and!; try congruence. intros t Ht. rewrite He', He; done.
Qed.

Lemma taken_refl tid G : taken tid G G.
Proof. split; auto. Qed.

Lemma taken_trans tid G G1 G2 : taken tid G G1 → taken tid G1 G2 → taken tid G G2.
Proof.
  intros [Hf1 Ho1] [Hf2 Ho2]. split; [auto|].
  intros s Hs. destruct (Ho2 s Hs) as [H|H]; [by apply Ho1|]. right. by apply Hf1.
Qed.

Lemma begin_block_quiet T e message len st G :
  Inv st G →
  ∃ st' G', profile_begin_block e message len st = Some st' ∧
    Inv st' G' ∧ fate T st G st' G' ∧ quiet (thread_id e) st G st' G' ∧
    (open_depth G' (thread_id e) ≤ S (open_depth G (thread_id e)))%nat ∧
    taken (thread_id e) G G'.
Proof.
  intros HI.
  destruct (decide (_profile_enable st = 0)) as [Hen|Hen].
  { destruct (begin_block_disabled T e message len st G HI)
      as (st' & H & HI' & Hfate & ? & ? & ? & ? & ? & Hb & ?); [by left|].
    exists st', G. split; [done|]. split; [done|]. split; [done|].
    split; [|split; [lia|apply taken_refl]]. split_and!; try done. by rewrite Hb. }
  destruct (begin_block_spec T e message len st G HI)
    as (st' & G' & H & HI' & Hfate & ? & ? & ? & ? & ? & ? & ? & Hres).
  exists st', G'. split; [done|]. split; [done|]. split; [done|].
  split; [done|]. unfold begin_result in Hres. unfold open_depth, taken.
  destruct (g_free G) as [|s F] eqn:HF.
  { subst G'. split; [lia|]. split; [intros s Hs; by rewrite HF in Hs|auto]. }
  destruct (Hres Hen) as (-> & -> & _).
  split.
  - destruct (g_open G (thread_id e)) as [o|];
      unfold open_blocks, otree_open, otree_begin; simpl; apply le_n.
  - split; [intros s' Hs'; set_solver|].
    intros s'. destruct (g_open G (thread_id e)) as [o|];
      unfold open_blocks, otree_open, otree_begin; cbn [o_cur o_path];
      rewrite ?fmap_cons; cbn [fst]; set_solver.
Qed.

Lemma Inv_open_depth st G tid :
  Inv st G → (open_depth G tid ≤ length (_profile_blocks st))%nat.
Proof.
  intros HI. unfold open_depth.
  pose proof (inv_open _ _ HI tid) as Ho. pose proof (inv_nodup _ _ HI tid) as Hn.
  unfold local_slots in Hn.
  destruct (g_open G tid) as [o|]; [|simpl; lia]. cbn [open_blocks].
  destruct Ho as [_ [Hup (b & Hb & HC)]].
  apply NoDup_app in Hn as (_ & _ & Hn). apply NoDup_app in Hn as (_ & _ & Hn).
  simpl in Hn.
  assert (NoDup (otree_open o)) as Hnd.
  { eapply (sublist_NoDup _ (otree_slots o)); [exact Hn|].
    unfold otree_open, otree_slots. apply sublist_skip.
    apply sublist_inserts_l. apply sublist_inserts_l.
    clear. induction (o_path o) as [|[p Sp] rest IH]; simpl; [done|].
    apply sublist_skip. by apply sublist_inserts_l. }
  apply NoDup_slots_length; [done|].
  intros j Hj. apply otree_open_slots in Hj. unfold otree_slots in Hj.
  apply elem_of_cons in Hj as [->|Hj].
  { apply GET_BLOCK_range in Hb. lia. }
  apply elem_of_app in Hj as [Hj|Hj].
  { pose proof (shaped_range _ _ _ HC j Hj). lia. }
  destruct (open_up_slots _ _ _ _ Hup j) as [_ [bj Hbj]]; [set_solver|].
  apply GET_BLOCK_range in Hbj. lia.
Qed.

(** profile_end_block keeps the invariant, writes nothing and leaves the
    thread with fewer open blocks. *)
Lemma end_block_rec_spec T e : ∀ fuel st G,
  Inv st G → T (i64 (time_current e - _profile_ground_time st)) →
  (open_depth G (thread_id e) < fuel)%nat →
  ∃ st' G', profile_end_block_rec fuel e st = Some st' ∧
    Inv st' G' ∧ fate T st G st' G' ∧ quiet (thread_id e) st G st' G' ∧
    (_profile_enable st ≠ 0 → g_open G (thread_id e) ≠ None →
       (open_depth G' (thread_id e) < open_depth G (thread_id e))%nat) ∧
    (_profile_enable st = 0 ∨ g_open G (thread_id e) = None → st' = st ∧ G' = G) ∧
    taken (thread_id e) G G' ∧
    (_profile_enable st ≠ 0 → ∀ o, g_open G (thread_id e) = Some o →
       o_cur o ∉ open_blocks (g_open G' (thread_id e))).
Proof.
  induction fuel as [|fuel IH]; intros st G HI HT Hfuel; [lia|].
  rewrite profile_end_block_rec_S. cbv zeta.
  destruct (Z.eqb_spec (_profile_enable st) 0) as [Hen|Hen].
  { exists st, G. split; [done|]. split; [done|]. split; [apply fate_refl|].
    split; [apply quiet_refl|]. split; [done|]. split; [done|].
    split; [apply taken_refl|done]. }
  cbn [orb].
  pose proof (inv_open _ _ HI (thread_id e)) as Hopen.
  destruct (g_open G (thread_id e)) as [o|] eqn:Ho; cycle 1.
  { rewrite Hopen. cbn [Z.eqb].
    exists st, G. split; [done|]. split; [done|]. split; [apply fate_refl|].
    split; [apply quiet_refl|]. split; [done|]. split; [done|].
    split; [apply taken_refl|]. intros _ o Hoo. done. }
  pose proof (inv_nodup _ _ HI (thread_id e)) as Hnodup. unfold local_slots in Hnodup.
  rewrite Ho in Hnodup. cbn [open_slots] in Hnodup.
  apply NoDup_app in Hnodup as (_ & _ & Hnodup).
  apply NoDup_app in Hnodup as (_ & _ & Hnodup). unfold otree_slots in Hnodup.
  apply NoDup_cons in Hnodup as [Hcur_fresh _].
  destruct Hopen as [Hcur [Hup _]].
  pose proof (open_up_cur_nonzero _ _ _ _ Hup) as Hcur0.
  rewrite Hcur. destruct (Z.eqb_spec (o_cur o) 0) as [|_]; [done|].
  destruct (o_path o) as [|[p Sp] rest] eqn:Hpath.
  - (* no parent: to the root list *)
    destruct (end_block_root T e st G o HI Ho Hpath HT)
      as (b & blocks' & Hb & Hprev & Hrun & Hlen & HI' & Hfate).
    rewrite (st_upd_Some _ _ _ _ Hb). cbn [mbind option_bind _profile_blocks set_blocks].
    rewrite (GET_insert _ _ _ _ _ Hb), Z.eqb_refl. cbn [mbind option_bind].
    change (previous (with_data _ b)) with (previous b). rewrite Hprev. cbn [Z.eqb negb].
    rewrite Hrun. cbn [mbind option_bind].
    eexists _, _. split; [done|]. split; [exact HI'|]. split; [exact Hfate|].
    split.
    { split_and!; try done. intros t Ht. cbn [g_open].
      by destruct (decide (t = thread_id e)). }
    split.
    { intros _ _. unfold open_depth. cbn [g_open]. rewrite Ho.
      destruct (decide (thread_id e = thread_id e)); [|done]. simpl. lia. }
    split; [by intros [?|?]|].
    split.
    { split; [done|]. cbn [g_open].
      destruct (decide (thread_id e = thread_id e)); [|done].
      intros s Hs. by apply not_elem_of_nil in Hs. }
    intros _ o' _. cbn [g_open].
    destruct (decide (thread_id e = thread_id e)); [|done]. apply not_elem_of_nil.
  - (* a parent: the block becomes the first of its closed children *)
    destruct (end_block_nested T e st G o p Sp rest HI Ho Hpath HT)
      as (b & Hb & Hprev & Hwalk & HI1 & Hfate1 & Hp1 & [bp Hbp]).
    rewrite (st_upd_Some _ _ _ _ Hb). cbn [mbind option_bind _profile_blocks set_blocks].
    rewrite (GET_insert _ _ _ _ _ Hb), Z.eqb_refl. cbn [mbind option_bind].
    change (previous (with_data _ b)) with (previous b).
    destruct (Z.eqb_spec (previous b) 0) as [|_]; [done|]. cbn [negb].
    rewrite Hwalk. cbn [mbind option_bind _profile_blocks set_thread_profile_block
                        set_tls set_blocks].
    rewrite Hp1, Hbp. cbn [mbind option_bind].
    set (st1 := set_thread_profile_block (thread_id e) p _) in *.
    set (G1 := Build_ghost _ _ _) in *.
    assert (quiet (thread_id e) st G st1 G1) as Hq1.
    { split_and!; try done.
      - unfold st1. cbn. by rewrite length_insert.
      - intros t Ht. unfold G1. cbn [g_open]. by destruct (decide (t = thread_id e)). }
    assert (open_depth G1 (thread_id e) = pred (open_depth G (thread_id e))) as Hd1.
    { unfold open_depth, G1. cbn [g_open]. rewrite Ho.
      destruct (decide (thread_id e = thread_id e)); [|done].
      simpl. unfold otree_open. rewrite Hpath. simpl. done. }
    assert (open_depth G (thread_id e) ≠ 0)%nat as Hd0.
    { unfold open_depth. rewrite Ho. simpl. lia. }
    assert (taken (thread_id e) G G1) as Ht1.
    { split; [done|]. unfold G1. cbn [g_open]. rewrite Ho.
      destruct (decide (thread_id e = thread_id e)); [|done].
      intros s Hs. left. cbn [open_blocks] in *. unfold otree_open, otree_end in *.
      cbn [o_cur o_path] in Hs. rewrite Hpath. rewrite fmap_cons. cbn [fst].
      apply elem_of_cons; by right. }
    assert (o_cur o ∉ open_blocks (g_open G1 (thread_id e))) as Hc1.
    { unfold G1. cbn [g_open].
      destruct (decide (thread_id e = thread_id e)); [|done].
      cbn [open_blocks]. unfold otree_open, otree_end. cbn [o_cur o_path].
      intros Hin. apply Hcur_fresh. cbn [path_slots].
      rewrite !elem_of_app. right. right.
      apply elem_of_cons in Hin as [->|Hin]; [by left|].
      apply elem_of_cons. right. rewrite elem_of_app. right.
      by apply path_open_slots. }
    assert (o_cur o ∉ g_free G) as Hcfree.
    { apply (live_not_free st G (o_cur o) HI). right. exists (thread_id e), o.
      split; [done|]. unfold otree_slots. by left. }
    destruct (negb (processor (data bp) =? u32 (thread_hardware e))).
    + (* the thread has migrated: the parent ends as well and is begun anew *)
      destruct (IH st1 G1 HI1) as (st2 & G2 & Hrun2 & HI2 & Hfate2 & Hq2 & Hd2 & _ & Ht2 & _).
      { unfold st1. cbn. exact HT. }
      { lia. }
      rewrite Hrun2. cbn [mbind option_bind].
      destruct (GET_BLOCK_in_range (_profile_blocks st2) p) as [bp2 Hbp2].
      { destruct Hq2 as (_ & _ & _ & Hlen2 & _). rewrite Hlen2.
        destruct Hq1 as (_ & _ & _ & Hlen1 & _). rewrite Hlen1.
        apply GET_BLOCK_range in Hbp. lia. }
      rewrite Hbp2. cbn [mbind option_bind].
      destruct (begin_block_quiet T e (name (data bp2)) (string_length (name (data bp2)))
                  st2 G2 HI2) as (st3 & G3 & Hrun3 & HI3 & Hfate3 & Hq3 & Hd3 & Ht3).
      rewrite Hrun3.
      exists st3, G3. split; [done|]. split; [done|].
      split; [eapply fate_trans; [exact Hfate1|]; eapply fate_trans; eauto|].
      split; [eapply quiet_trans; [exact Hq1|]; eapply quiet_trans; eauto|].
      split.
      { intros _ _.
        assert (open_depth G2 (thread_id e) < open_depth G1 (thread_id e))%nat.
        { apply Hd2.
          - unfold st1. cbn. done.
          - unfold G1. cbn [g_open]. by destruct (decide (thread_id e = thread_id e)). }
        lia. }
      split; [by intros [?|?]|].
      assert (taken (thread_id e) G G3) as Ht
        by (eapply taken_trans; [exact Ht1|]; eapply taken_trans; eauto).
      split; [exact Ht|].
      intros _ o' Ho'. injection Ho' as <-. intros Hin.
      assert (taken (thread_id e) G1 G3) as [Hf13 Ho13] by (eapply taken_trans; eauto).
      destruct (Ho13 _ Hin) as [H|H]; [done|]. apply Hcfree. by apply Ht1.
    + exists st1, G1. split; [done|]. split; [done|]. split; [done|]. split; [done|].
      split; [intros _ _; lia|]. split; [by intros [?|?]|]. split; [done|].
      intros _ o' Ho'. by injection Ho' as <-.
Qed.

Lemma end_block_spec T e st G :
  Inv st G → T (i64 (time_current e - _profile_ground_time st)) →
  ∃ st' G', profile_end_block e st = Some st' ∧
    Inv st' G' ∧ fate T st G st' G' ∧ quiet (thread_id e) st G st' G' ∧
    (_profile_enable st ≠ 0 → g_open G (thread_id e) ≠ None →
       (open_depth G' (thread_id e) < open_depth G (thread_id e))%nat) ∧
    (_profile_enable st = 0 ∨ g_open G (thread_id e) = None → st' = st ∧ G' = G) ∧
    taken (thread_id e) G G' ∧
    (_profile_enable st ≠ 0 → ∀ o, g_open G (thread_id e) = Some o →
       o_cur o ∉ open_blocks (g_open G' (thread_id e))).
Proof.
  intros HI HT. apply end_block_rec_spec; [done|done|].
  pose proof (Inv_open_depth st G (thread_id e) HI). lia.
Qed.

(** ** _profile_put_simple_block *)

Lemma slots_chain_tree L : slots (chain_tree L) = L.
Proof. induction L as [|s L IH]; simpl; [done|]. by rewrite app_nil_r, IH. Qed.

Lemma lseg_chain_tree blocks L : ∀ i,
  lseg blocks i L 0 →
  (∀ j, j ∈ L → ∃ b, GET_BLOCK blocks j = Some b ∧ sibling b = 0) →
  shaped blocks i (chain_tree L).
Proof.
  induction L as [|s L IH]; intros i Hl Hsib; [done|].
  destruct Hl as (-> & Hs0 & b & Hb & Hl). simpl.
  split; [done|]. split; [done|]. exists b. split; [done|]. split.
  - apply IH; [done|]. intros j Hj. apply Hsib. set_solver.
  - destruct (Hsib s) as (b' & Hb' & Hz); [set_solver|]. congruence.
Qed.

Lemma Inv_local_range st G tid j :
  Inv st G → j ∈ local_slots G tid →
  0 < j < 65536 ∧ is_Some (GET_BLOCK (_profile_blocks st) j).
Proof.
  intros HI Hj. pose proof (inv_bound _ _ HI tid j Hj) as Hb.
  assert (j ≠ 0 ∧ is_Some (GET_BLOCK (_profile_blocks st) j)) as [Hj0 [b Hbj]].
  { unfold local_slots in Hj. apply elem_of_app in Hj as [Hj|Hj].
    { by apply (lseg_elem_range _ _ _ _ (inv_free _ _ HI)). }
    apply elem_of_app in Hj as [Hj|Hj].
    { pose proof (shaped_range _ _ _ (inv_root _ _ HI) j Hj). split; [lia|].
      apply GET_BLOCK_in_range. lia. }
    pose proof (inv_open _ _ HI tid) as Ho.
    destruct (g_open G tid) as [o|]; [|by apply not_elem_of_nil in Hj].
    destruct Ho as [_ [Hup (b & Hb' & HC)]]. simpl in Hj. unfold otree_slots in Hj.
    apply elem_of_cons in Hj as [->|Hj].
    { split; [by eapply open_up_cur_nonzero|eauto]. }
    apply elem_of_app in Hj as [Hj|Hj].
    { pose proof (shaped_range _ _ _ HC j Hj). split; [lia|].
      apply GET_BLOCK_in_range. lia. }
    apply (open_up_slots _ _ _ _ Hup). set_solver. }
  split; [|eauto]. apply GET_BLOCK_range in Hbj. lia.
Qed.

Lemma held_head st L' F1 st1 m :
  held st (m :: L') F1 st1 →
  m ≠ 0 ∧ ∃ bm, GET_BLOCK (_profile_blocks st1) m = Some bm ∧ sibling bm = 0 ∧
    shaped (_profile_blocks st1) (child bm) (chain_tree L').
Proof.
  intros Hh. pose proof (held_chain _ _ _ _ Hh) as Hl. simpl in Hl.
  destruct Hl as (_ & Hm0 & bm & Hbm & Hl). split; [done|].
  exists bm. split; [done|].
  destruct (held_sibling _ _ _ _ Hh m) as (b' & Hb' & Hz); [set_solver|].
  split; [congruence|]. apply lseg_chain_tree; [done|].
  intros j Hj. apply (held_sibling _ _ _ _ Hh). set_solver.
Qed.

Lemma put_simple_block_root T e st G L' F1 st1 m :
  Inv st G → g_free G = (m :: L') ++ F1 → held st (m :: L') F1 st1 →
  g_open G (thread_id e) = None →
  ∃ st', _profile_put_simple_block e m st1 = Some st' ∧
    Inv st' (ghost_put (thread_id e) m L' F1 G) ∧
    fate T st G st' (ghost_put (thread_id e) m L' F1 G) ∧
    quiet (thread_id e) st G st' (ghost_put (thread_id e) m L' F1 G) ∧
    (∀ j, payload st' j = payload st1 j).
Proof.
  intros HI HF Hh Ho.
  pose proof (inv_open _ _ HI (thread_id e)) as Hcur. rewrite Ho in Hcur.
  pose proof (inv_nodup _ _ HI (thread_id e)) as Hn. unfold local_slots in Hn.
  rewrite HF, Ho in Hn. cbn [open_slots] in Hn. rewrite app_nil_r, <- app_assoc in Hn.
  destruct (held_head _ _ _ _ _ Hh) as (Hm0 & bm & Hbm & Hsibm & Hchain).
  pose proof Hn as Hn'. apply NoDup_app in Hn' as (HndL & HdL & HndFR).
  assert (∀ j, j ∈ m :: L' → j ∉ slots (g_root G)) as HLR.
  { intros j Hj Hin. apply (HdL j Hj). set_solver. }
  unfold _profile_put_simple_block, get_thread_profile_block.
  rewrite (held_tls _ _ _ _ Hh). fold (get_thread_profile_block st (thread_id e)).
  rewrite Hcur. cbn [Z.eqb].
  destruct (put_root_block_spec st1 m (chain_tree (m :: L')) (g_root G))
    as (blocks' & Hrun & Hshape & Hlen & Hdata & Hframe & Hchild & _).
  { simpl. split; [done|]. split; [done|]. exists bm. split; [done|].
    split; [done|]. by rewrite Hsibm. }
  { done. }
  { rewrite (held_root _ _ _ _ Hh). eapply shaped_frame; [|apply (inv_root _ _ HI)].
    intros j Hj. apply (held_frame _ _ _ _ Hh). intros Hin. by apply (HLR j). }
  { rewrite slots_chain_tree. apply NoDup_app. split; [done|]. split; [exact HLR|].
    by apply NoDup_app in HndFR as (_ & _ & ?). }
  { rewrite (held_root _ _ _ _ Hh). apply (Inv_root_bound st G HI). }
  rewrite Hrun. eexists. split; [done|].
  rewrite slots_chain_tree in Hframe.
  assert (ghost_put (thread_id e) m L' F1 G =
          {| g_free := F1; g_root := Node m (chain_tree L') (g_root G);
             g_open := λ t, if decide (t = thread_id e) then None else g_open G t |}) as ->.
  { unfold ghost_put. rewrite Ho. done. }
  assert (Inv (set_root m (set_blocks blocks' st1))
            {| g_free := F1; g_root := Node m (chain_tree L') (g_root G);
               g_open := λ t, if decide (t = thread_id e) then None else g_open G t |}) as HI'.
  { apply (Inv_update st G (thread_id e));
      cbn [_profile_blocks set_root set_blocks _profile_free _profile_root].
    - exact HI.
    - intros j Hj. rewrite Hframe.
      + apply (held_frame _ _ _ _ Hh). intros Hin. apply Hj. unfold local_slots.
        rewrite HF. set_solver.
      + intros Hin. apply Hj. unfold local_slots. rewrite HF. set_solver.
    - intros t Ht. unfold get_thread_profile_block. cbn. by rewrite (held_tls _ _ _ _ Hh).
    - destruct (inv_zero _ _ HI) as [b0 Hb0].
      rewrite <- (held_frame _ _ _ _ Hh) in Hb0.
      + destruct (Hchild 0 b0 Hb0) as (b2 & -> & _). done.
      + intros Hin. destruct (lseg_elem_range _ _ _ _ (held_chain _ _ _ _ Hh) 0 Hin). done.
    - eapply lseg_agree; [|apply (held_free _ _ _ _ Hh)]. intros j _. apply Hchild.
    - exact Hshape.
    - unfold get_thread_profile_block. cbn. rewrite (held_tls _ _ _ _ Hh). exact Hcur.
    - simpl. rewrite app_nil_r, slots_chain_tree.
      eapply NoDup_Permutation_proper; [|exact Hn]. solve_Permutation.
    - unfold local_slots. rewrite HF, Ho. simpl. intros j. rewrite !app_nil_r.
      rewrite slots_chain_tree. set_solver. }
  split; [exact HI'|].
  assert (∀ j, data <$> GET_BLOCK blocks' j = data <$> GET_BLOCK (_profile_blocks st1) j)
    as Hdata' by done.
  split.
  { apply (fate_quiet T st G (thread_id e)).
    - exact HI.
    - exact HI'.
    - cbn. apply (held_write _ _ _ _ Hh).
    - cbn. apply (held_ground _ _ _ _ Hh).
    - cbn. apply (held_sink _ _ _ _ Hh).
    - intros s' Hs'. simpl. set_solver.
    - intros s' Hs'. rewrite Ho in Hs'. by apply not_elem_of_nil in Hs'.
    - intros s' Hs'. by apply not_elem_of_nil in Hs'.
    - intros s' Hlive _. unfold payload. cbn [_profile_blocks set_root set_blocks].
      rewrite Hdata'. rewrite (held_frame _ _ _ _ Hh); [done|].
      intros Hin. apply (live_not_free st G s' HI Hlive). rewrite HF. set_solver.
    - intros s' d Hs'. rewrite Ho in Hs'. by apply not_elem_of_nil in Hs'. }
  split.
  { split_and!; cbn.
    - apply (held_enable _ _ _ _ Hh).
    - apply (held_io _ _ _ _ Hh).
    - apply (held_sink _ _ _ _ Hh).
    - rewrite Hlen. apply (held_length _ _ _ _ Hh).
    - intros t Ht. by destruct (decide (t = thread_id e)). }
  intros j. unfold payload. cbn [_profile_blocks set_root set_blocks]. apply Hdata'.
Qed.

Lemma put_simple_block_child T e st G L' F1 st1 m o :
  Inv st G → g_free G = (m :: L') ++ F1 → held st (m :: L') F1 st1 →
  g_open G (thread_id e) = Some o →
  ∃ st', _profile_put_simple_block e m st1 = Some st' ∧
    Inv st' (ghost_put (thread_id e) m L' F1 G) ∧
    fate T st G st' (ghost_put (thread_id e) m L' F1 G) ∧
    quiet (thread_id e) st G st' (ghost_put (thread_id e) m L' F1 G) ∧
    (∀ j, payload st' j = payload st1 j).
Proof.
  intros HI HF Hh Ho.
  pose proof (inv_open _ _ HI (thread_id e)) as Hopen. rewrite Ho in Hopen.
  destruct Hopen as [Hcur [Hup (bp & Hbp & HC)]].
  set (p := o_cur o) in *.
  pose proof (open_up_cur_nonzero _ _ _ _ Hup) as Hp0.
  pose proof (inv_nodup _ _ HI (thread_id e)) as Hn. unfold local_slots in Hn.
  rewrite HF, Ho in Hn. cbn [open_slots] in Hn. unfold otree_slots in Hn. fold p in Hn.
  rewrite <- app_assoc in Hn.
  destruct (held_head _ _ _ _ _ Hh) as (Hm0 & bm & Hbm & Hsibm & Hchain).
  assert (∀ j, j ∈ (m :: L') ++ F1 ++ slots (g_root G) ++ p :: slots (o_children o)
                 ++ slots (o_siblings o) ++ path_slots (o_path o) →
               0 < j < 65536 ∧ is_Some (GET_BLOCK (_profile_blocks st) j)) as Hrange.
  { intros j Hj. apply (Inv_local_range st G (thread_id e) j HI).
    unfold local_slots. rewrite HF, Ho. cbn [open_slots]. unfold otree_slots. fold p.
    by rewrite <- app_assoc. }
  (* the layout *)
  pose proof Hn as Hn'. apply NoDup_app in Hn' as (HndL & HdL & Hn').
  destruct (local_nodup _ _ _ _ _ _ Hn') as (HdF & HdR & (HpC & HpS & HpP) & HdC & HdS).
  assert (∀ j, j ∈ m :: L' → (j ∉ F1) ∧ (j ∉ slots (g_root G)) ∧ j ≠ p ∧
            (j ∉ slots (o_children o)) ∧ (j ∉ slots (o_siblings o)) ∧
            (j ∉ path_slots (o_path o))) as HL.
  { intros j Hj. specialize (HdL j Hj).
    rewrite !not_elem_of_app, not_elem_of_cons, !not_elem_of_app in HdL. tauto. }
  assert (p ∉ m :: L') as HpL by (intros Hin; by destruct (HL p Hin) as (_ & _ & ? & _)).
  assert (m ≠ p) as Hmp by (intros ->; apply HpL; set_solver).
  assert (m ∉ L') as HmL' by (by apply NoDup_cons in HndL as [? _]).
  assert (0 < m < 65536) as Hm16 by (apply Hrange; set_solver).
  assert (0 < p < 65536) as Hp16 by (apply Hrange; set_solver).
  set (next := child bp) in *.
  assert (next ≠ 0 → next ∈ slots (o_children o)) as Hnext_in
    by (intros ?; by eapply shaped_head).
  assert (next ≠ 0 → 0 < next < 65536 ∧ next ≠ p ∧ next ≠ m ∧ (next ∉ L') ∧
                     ∃ bn, GET_BLOCK (_profile_blocks st1) next = Some bn ∧
                           GET_BLOCK (_profile_blocks st) next = Some bn) as Hnext.
  { intros Hn0. pose proof (Hnext_in Hn0) as Hin.
    destruct (Hrange next) as [? [bn Hbn]]; [set_solver|].
    split; [done|]. split; [by intros Heq; rewrite Heq in Hin|].
    assert (next ∉ m :: L') as HnL.
    { intros HinL. by destruct (HL next HinL) as (_ & _ & _ & ? & _). }
    split; [intros ->; apply HnL; set_solver|]. split; [set_solver|].
    exists bn. split; [|done]. by rewrite (held_frame _ _ _ _ Hh). }
  assert (0 ≤ next < 65536) as Hn16.
  { destruct (decide (next = 0)) as [->|Hn0]; [lia|]. destruct (Hnext Hn0). lia. }
  assert (GET_BLOCK (_profile_blocks st1) p = Some bp) as Hbp1
    by (by rewrite (held_frame _ _ _ _ Hh)).
  (* the stores *)
  unfold _profile_put_simple_block, get_thread_profile_block.
  rewrite (held_tls _ _ _ _ Hh). fold (get_thread_profile_block st (thread_id e)).
  rewrite Hcur. destruct (Z.eqb_spec p 0) as [|_]; [done|].
  rewrite Hbp1. cbn [mbind option_bind]. fold next.
  rewrite (u16_small p), (u16_small next), (u16_small m) by lia.
  st_upd_step Hbm. cbn [mbind option_bind _profile_blocks set_blocks].
  set (B2 := <[Z.to_nat m := with_previous p bm]> (_profile_blocks st1)).
  assert (GET_BLOCK B2 m = Some (with_previous p bm)) as Hm2
    by (unfold B2; rewrite (GET_insert _ _ _ _ _ Hbm), Z.eqb_refl; done).
  st_upd_step Hm2. cbn [mbind option_bind _profile_blocks set_blocks].
  set (rec := with_sibling next (with_previous p bm)).
  set (B3 := <[Z.to_nat m := rec]> B2).
  assert (∀ j, GET_BLOCK B3 j = if j =? m then Some rec
                                else GET_BLOCK (_profile_blocks st1) j) as HB3.
  { intros j. unfold B3. rewrite (GET_insert _ _ _ _ _ Hm2).
    destruct (Z.eqb_spec j m); [done|]. unfold B2. rewrite (GET_insert _ _ _ _ _ Hbm).
    by destruct (Z.eqb_spec j m). }
  assert (∃ B4, (if next =? 0 then Some (set_blocks B3 st1)
                 else st_upd (with_previous m) next (set_blocks B3 st1))
                = Some (set_blocks B4 st1) ∧
           length B4 = length (_profile_blocks st1) ∧
           ∀ j, GET_BLOCK B4 j =
                  if j =? m then Some rec
                  else if (j =? next) && negb (next =? 0)
                       then with_previous m <$> GET_BLOCK (_profile_blocks st1) j
                       else GET_BLOCK (_profile_blocks st1) j) as (B4 & -> & Hlen4 & HB4).
  { destruct (Z.eqb_spec next 0) as [Hn0|Hn0].
    - exists B3. split; [done|]. split; [unfold B3, B2; by rewrite !length_insert|].
      intros j. rewrite HB3, andb_false_r. done.
    - destruct (Hnext Hn0) as (_ & Hnp & Hnm & _ & bn & Hbn1 & _).
      assert (GET_BLOCK B3 next = Some bn) as Hbn3.
      { rewrite HB3. by destruct (Z.eqb_spec next m). }
      st_upd_step Hbn3. cbn [_profile_blocks set_blocks].
      eexists. split; [done|]. split; [unfold B3, B2; by rewrite !length_insert|].
      intros j. rewrite (GET_insert _ _ _ _ _ Hbn3), HB3.
      destruct (Z.eqb_spec j next) as [->|]; cbn [andb negb].
      + destruct (Z.eqb_spec next m); [done|]. by rewrite Hbn1.
      + done. }
  cbn [mbind option_bind].
  assert (GET_BLOCK B4 p = Some bp) as Hbp4.
  { rewrite HB4. destruct (Z.eqb_spec p m); [congruence|].
    destruct (Z.eqb_spec p next) as [Heq|]; [|done].
    destruct (Z.eqb_spec next 0) as [|Hn0]; [done|].
    destruct (Hnext Hn0) as (_ & ? & _). congruence. }
  st_upd_step Hbp4. cbn [_profile_blocks set_blocks].
  set (B5 := <[Z.to_nat p := with_child m bp]> B4).
  assert (∀ j, GET_BLOCK B5 j =
               if j =? p then Some (with_child m bp)
               else if j =? m then Some rec
               else if (j =? next) && negb (next =? 0)
                    then with_previous m <$> GET_BLOCK (_profile_blocks st1) j
                    else GET_BLOCK (_profile_blocks st1) j) as HB5.
  { intros j. unfold B5. by rewrite (GET_insert _ _ _ _ _ Hbp4), HB4. }
  assert (length B5 = length (_profile_blocks st)) as Hlen5.
  { unfold B5. by rewrite length_insert, Hlen4, (held_length _ _ _ _ Hh). }
  clearbody B5. clear HB4 Hbp4 Hlen4 B4 HB3 Hm2.
  eexists. split; [done|].
  (* what the stores leave *)
  assert (∀ j, j ≠ p → j ≠ m → j ∉ slots (o_children o) →
               GET_BLOCK B5 j = GET_BLOCK (_profile_blocks st1) j) as Hrest.
  { intros j H1 H2 H3. rewrite HB5.
    destruct (Z.eqb_spec j p); [done|]. destruct (Z.eqb_spec j m); [done|].
    destruct (Z.eqb_spec j next) as [->|]; [|done].
    destruct (Z.eqb_spec next 0); [done|]. exfalso. by apply H3, Hnext_in. }
  assert (∀ j b, GET_BLOCK (_profile_blocks st1) j = Some b → j ≠ m →
            ∃ b', GET_BLOCK B5 j = Some b' ∧ data b' = data b ∧
                  sibling b' = sibling b ∧ (j ≠ p → child b' = child b) ∧
                  (j ∉ slots (o_children o) → previous b' = previous b)) as Hkeep.
  { intros j b Hb Hjm. rewrite HB5.
    destruct (Z.eqb_spec j p) as [->|].
    { rewrite Hbp1 in Hb. injection Hb as <-. eexists. split; [done|]. done. }
    destruct (Z.eqb_spec j m); [done|].
    destruct (Z.eqb_spec j next) as [->|]; cbn [andb].
    - destruct (Z.eqb_spec next 0) as [|Hn0]; cbn [negb].
      + exists b. done.
      + rewrite Hb. eexists. split; [done|]. split_and!; try done.
        intros Hnot. exfalso. by apply Hnot, Hnext_in.
    - exists b. done. }
  assert (ghost_put (thread_id e) m L' F1 G =
          {| g_free := F1; g_root := g_root G;
             g_open := λ t, if decide (t = thread_id e)
                            then Some (otree_put m (chain_tree L') o) else g_open G t |}) as ->.
  { unfold ghost_put. rewrite Ho. done. }
  match goal with |- Inv ?s ?g ∧ _ => assert (Inv s g) as HI' end.
  { apply (Inv_update st G (thread_id e));
      cbn [_profile_blocks set_blocks _profile_free _profile_root].
    - exact HI.
    - intros j Hj.
      assert (j ∉ (m :: L') ++ F1 ++ slots (g_root G) ++ p :: slots (o_children o)
                ++ slots (o_siblings o) ++ path_slots (o_path o)) as Hj'.
      { intros Hin. apply Hj. unfold local_slots. rewrite HF, Ho. cbn [open_slots].
        unfold otree_slots. fold p. by rewrite <- app_assoc. }
      rewrite !not_elem_of_app, !not_elem_of_cons, !not_elem_of_app in Hj'.
      destruct Hj' as ((? & ?) & ? & ? & ? & ? & ? & ?).
      rewrite Hrest by done. apply (held_frame _ _ _ _ Hh).
      rewrite not_elem_of_cons. done.
    - intros t Ht. unfold get_thread_profile_block. cbn. by rewrite (held_tls _ _ _ _ Hh).
    - destruct (inv_zero _ _ HI) as [b0 Hb0].
      rewrite <- (held_frame _ _ _ _ Hh) in Hb0.
      + destruct (Hkeep 0 b0 Hb0) as (b' & -> & _); [lia|done].
      + intros Hin. destruct (lseg_elem_range _ _ _ _ (held_chain _ _ _ _ Hh) 0 Hin). done.
    - eapply lseg_frame; [|apply (held_free _ _ _ _ Hh)]. intros j Hj.
      destruct (HdF j Hj) as (? & ? & ? & ? & ?).
      apply Hrest; [done| |done]. intros ->. destruct (HL m) as (? & _); [set_solver|done].
    - rewrite (held_root _ _ _ _ Hh).
      eapply shaped_frame; [|apply (inv_root _ _ HI)]. intros j Hj.
      destruct (HdR j Hj) as (? & ? & ? & ?).
      assert (j ∉ m :: L') as HjL.
      { intros Hin. by destruct (HL j Hin) as (_ & ? & _). }
      rewrite Hrest; [|done|intros ->; apply HjL; set_solver|done].
      by apply (held_frame _ _ _ _ Hh).
    - split.
      { unfold get_thread_profile_block. cbn. rewrite (held_tls _ _ _ _ Hh). exact Hcur. }
      split; cbn [otree_put o_cur o_siblings o_path o_children]; fold p.
      + eapply open_up_agree; [| |exact Hup].
        * fold p. intros b Hb. rewrite Hbp in Hb. injection Hb as <-.
          exists (with_child m bp). rewrite HB5, Z.eqb_refl. done.
        * intros j Hj. apply links_eq_same.
          assert (j ≠ p ∧ (j ∉ slots (o_children o)) ∧ (j ∉ m :: L')) as (? & ? & HjL).
          { apply elem_of_app in Hj as [Hj|Hj].
            - split; [by intros ->|]. split; [intros Hc; by destruct (HdC j Hc)|].
              intros Hin. by destruct (HL j Hin) as (_ & _ & _ & _ & ? & _).
            - split; [by intros ->|]. split; [intros Hc; by destruct (HdC j Hc)|].
              intros Hin. by destruct (HL j Hin) as (_ & _ & _ & _ & _ & ?). }
          rewrite Hrest; [|done|intros ->; apply HjL; set_solver|done].
          by apply (held_frame _ _ _ _ Hh).
      + exists (with_child m bp). rewrite HB5, Z.eqb_refl. split; [done|].
        change (child (with_child m bp)) with m.
        split; [done|]. split; [lia|]. exists rec. rewrite HB5.
        destruct (Z.eqb_spec m p); [done|]. rewrite Z.eqb_refl. split; [done|].
        change (child rec) with (child bm). change (sibling rec) with next. split.
        * eapply shaped_frame; [|exact Hchain]. intros j Hj. rewrite slots_chain_tree in Hj.
          destruct (HL j) as (_ & _ & ? & ? & _); [set_solver|].
          apply Hrest; [done| |done]. by intros ->.
        * eapply shaped_agree; [|exact HC]. intros j Hj b Hb.
          assert (j ∉ m :: L') as HjL.
          { intros Hin. by destruct (HL j Hin) as (_ & _ & _ & ? & _). }
          rewrite <- (held_frame _ _ _ _ Hh) in Hb by done.
          destruct (Hkeep j b Hb) as (b' & Hb' & _ & Hsib & Hch & _).
          { intros ->. apply HjL. set_solver. }
          exists b'. split; [done|]. split; [done|]. apply Hch. by intros ->.
    - cbn [open_slots otree_put]. unfold otree_slots.
      cbn [otree_put o_cur o_siblings o_path o_children slots]. fold p.
      rewrite slots_chain_tree.
      eapply NoDup_Permutation_proper; [|exact Hn]. solve_Permutation.
    - unfold local_slots. rewrite HF, Ho. cbn [open_slots otree_put]. unfold otree_slots.
      cbn [otree_put o_cur o_siblings o_path o_children slots]. fold p.
      rewrite slots_chain_tree. intros j.
      repeat (rewrite elem_of_app || rewrite elem_of_cons). tauto. }
  split; [exact HI'|].
  assert (∀ j, j ∉ m :: L' →
            data <$> GET_BLOCK B5 j = data <$> GET_BLOCK (_profile_blocks st) j) as Hdata.
  { intros j HjL. rewrite <- (held_frame _ _ _ _ Hh) by done.
    destruct (GET_BLOCK (_profile_blocks st1) j) as [b|] eqn:Hb.
    - destruct (Hkeep j b Hb) as (b' & -> & Hd & _); [intros ->; apply HjL; set_solver|].
      simpl. by rewrite Hd.
    - rewrite HB5. destruct (Z.eqb_spec j p) as [->|]; [congruence|].
      destruct (Z.eqb_spec j m) as [->|]; [exfalso; apply HjL; set_solver|].
      rewrite Hb. by destruct (_ && _). }
  split.
  { apply (fate_quiet T st G (thread_id e)).
    - exact HI.
    - exact HI'.
    - cbn. apply (held_write _ _ _ _ Hh).
    - cbn. apply (held_ground _ _ _ _ Hh).
    - cbn. apply (held_sink _ _ _ _ Hh).
    - done.
    - intros s' Hs'. right. rewrite Ho in Hs'. cbn [open_slots otree_put] in *.
      unfold otree_slots in *. cbn [otree_put o_cur o_siblings o_path o_children slots].
      fold p. fold p in Hs'. set_solver.
    - intros s' Hs'. left. rewrite Ho. exact Hs'.
    - intros s' Hlive _. unfold payload. cbn [_profile_blocks set_blocks].
      apply Hdata. intros Hin. apply (live_not_free st G s' HI Hlive). rewrite HF. set_solver.
    - intros s' d Hs' Hout. exfalso. apply Hout. rewrite Ho in Hs'. exact Hs'. }
  split.
  { split_and!; cbn.
    - apply (held_enable _ _ _ _ Hh).
    - apply (held_io _ _ _ _ Hh).
    - apply (held_sink _ _ _ _ Hh).
    - exact Hlen5.
    - intros t Ht. by destruct (decide (t = thread_id e)). }
  intros j. unfold payload. cbn [_profile_blocks set_blocks].
  destruct (GET_BLOCK (_profile_blocks st1) j) as [b|] eqn:Hb.
  - destruct (decide (j = m)) as [->|Hjm].
    + rewrite HB5. destruct (Z.eqb_spec m p); [done|]. rewrite Z.eqb_refl.
      rewrite Hbm in Hb. injection Hb as <-. done.
    + destruct (Hkeep j b Hb Hjm) as (b' & -> & Hd & _). simpl. by rewrite Hd.
  - rewrite HB5. destruct (Z.eqb_spec j p) as [->|]; [congruence|].
    destruct (Z.eqb_spec j m) as [->|]; [congruence|].
    rewrite Hb. by destruct (_ && _).
Qed.

(** ** Allocation under the invariant *)

Lemma allocate_held st G s F :
  Inv st G → g_free G = s :: F →
  ∃ st1, _profile_allocate_block st = Some (st1, Some s) ∧ held st [s] F st1 ∧
    GET_BLOCK (_profile_blocks st1) s = Some zero_block ∧
    _profile_counter st1 = _profile_counter st.
Proof.
  intros HI HF.
  pose proof (inv_free _ _ HI) as Hfree. rewrite HF in Hfree.
  pose proof (Inv_free_nodup _ _ HI) as Hnd. rewrite HF in Hnd.
  destruct (allocate_block_some st s F Hfree Hnd) as (f1 & l1 & Hrun & Hl' & Hs & Hframe).
  { intros j Hj. apply (Inv_free_bound st G); [done|]. rewrite HF. set_solver. }
  eexists. split; [exact Hrun|]. split; [|done].
  constructor; cbn [_profile_blocks set_blocks _profile_free set_free]; try done.
  - simpl. split; [done|]. split; [by destruct Hfree as (_ & ? & _)|].
    exists zero_block. done.
  - intros j Hj. apply list_elem_of_singleton in Hj as ->. exists zero_block. done.
  - intros j Hj. apply Hframe. intros ->. apply Hj. set_solver.
  - by rewrite length_insert.
Qed.

Lemma allocate_exhausted st G :
  Inv st G → g_free G = [] →
  ∃ st', _profile_allocate_block st = Some (st', None) ∧
    _profile_blocks st' = _profile_blocks st ∧ _profile_free st' = _profile_free st ∧
    _profile_root st' = _profile_root st ∧ profile_block_tls st' = profile_block_tls st ∧
    _profile_enable st' = _profile_enable st ∧ io_thread st' = io_thread st ∧
    sink st' = sink st ∧ _profile_write st' = _profile_write st ∧
    _profile_ground_time st' = _profile_ground_time st ∧
    _profile_counter st' = _profile_counter st.
Proof.
  intros HI HF.
  assert (Z.land (_profile_free st) 65535 = 0) as Hfree.
  { pose proof (inv_free _ _ HI) as Hl. rewrite HF in Hl. done. }
  destruct (allocate_block_none st (inv_zero _ _ HI) Hfree) as (l1 & w1 & m1 & Hrun).
  eexists. split; [exact Hrun|]. done.
Qed.

(** Stores that change no link of the pool keep the held records. *)
Lemma held_ext st L F st1 st2 :
  held st L F st1 →
  (∀ j, j ∉ L → GET_BLOCK (_profile_blocks st2) j = GET_BLOCK (_profile_blocks st1) j) →
  (∀ j, links_eq (_profile_blocks st1) (_profile_blocks st2) j) →
  length (_profile_blocks st2) = length (_profile_blocks st1) →
  _profile_free st2 = _profile_free st1 →
  profile_block_tls st2 = profile_block_tls st1 → _profile_root st2 = _profile_root st1 →
  _profile_enable st2 = _profile_enable st1 → io_thread st2 = io_thread st1 →
  sink st2 = sink st1 → _profile_write st2 = _profile_write st1 →
  _profile_ground_time st2 = _profile_ground_time st1 →
  held st L F st2.
Proof.
  intros [H1 H2 H3 H4 H5 H6 H7 H8 H9 H10 H11 H12] Hf Hlinks Hlen Hfree Htls Hroot Hen Hio
    Hsink Hw Hg.
  constructor; try congruence.
  - rewrite Hfree. eapply lseg_agree; [|exact H1].
    intros j _. apply down_eq_child, links_eq_down, Hlinks.
  - eapply lseg_agree; [|exact H2]. intros j _. apply down_eq_child, links_eq_down, Hlinks.
  - intros j Hj. destruct (H3 j Hj) as (b & Hb & Hz).
    destruct (Hlinks j b Hb) as (b' & Hb' & _ & Hs & _). exists b'. split; [done|]. congruence.
  - intros j Hj. rewrite Hf by done. by apply H4.
Qed.

(** ** profile_end_frame *)

Lemma end_frame_spec T e counter st G :
  Inv st G →
  ∃ st' G', profile_end_frame e counter st = Some st' ∧
    Inv st' G' ∧ fate T st G st' G' ∧ quiet (thread_id e) st G st' G' ∧
    (_profile_enable st ≠ 0 → ∀ s F, g_free G = s :: F →
       G' = ghost_put (thread_id e) s [] F G ∧
       payload st' s = Some (end_frame_data e (_profile_ground_time st) counter zero_data)) ∧
    (_profile_enable st = 0 ∨ g_free G = [] → G' = G ∧ _profile_blocks st' = _profile_blocks st).
Proof.
  intros HI. unfold profile_end_frame.
  destruct (Z.eqb_spec (_profile_enable st) 0) as [Hen|Hen].
  { exists st, G. split; [done|]. split; [done|]. split; [apply fate_refl|].
    split; [apply quiet_refl|]. split; [done|]. done. }
  destruct (g_free G) as [|s F] eqn:HF.
  { destruct (allocate_exhausted st G HI HF)
      as (st' & -> & Hb & Hf & Hr & Ht & He & Hi & Hs & Hw & Hg & Hc).
    cbn [mbind option_bind].
    exists st', G. split; [done|]. split; [by apply (Inv_ext st)|].
    split; [by apply fate_ext|]. split; [|split; [done|done]].
    split_and!; try done. by rewrite Hb. }
  destruct (allocate_held st G s F HI HF) as (st1 & -> & Hh & Hs1 & Hc1).
  cbn [mbind option_bind].
  rewrite (st_upd_Some _ _ _ _ Hs1). cbn [mbind option_bind].
  set (rec := with_data _ zero_block).
  set (st2 := set_blocks (<[Z.to_nat s := rec]> (_profile_blocks st1)) st1).
  assert (∀ j, GET_BLOCK (_profile_blocks st2) j =
               if j =? s then Some rec else GET_BLOCK (_profile_blocks st1) j) as HB2
    by (intros j; apply (GET_insert _ _ _ _ _ Hs1)).
  assert (held st [s] F st2) as Hh2.
  { apply (held_ext st [s] F st1); try done.
    - intros j Hj. rewrite HB2. destruct (Z.eqb_spec j s) as [->|]; [|done].
      exfalso. apply Hj. set_solver.
    - intros j b Hb. rewrite HB2. destruct (Z.eqb_spec j s) as [->|]; [|eauto].
      rewrite Hs1 in Hb. injection Hb as <-. eexists. split; [done|]. done.
    - unfold st2. cbn. by rewrite length_insert. }
  assert (0 < s < 65536) as Hs16.
  { apply (Inv_local_range st G (thread_id e) s HI). unfold local_slots. rewrite HF.
    set_solver. }
  rewrite (u16_small s) by lia.
  assert (∃ st', _profile_put_simple_block e s st2 = Some st' ∧
            Inv st' (ghost_put (thread_id e) s [] F G) ∧
            fate T st G st' (ghost_put (thread_id e) s [] F G) ∧
            quiet (thread_id e) st G st' (ghost_put (thread_id e) s [] F G) ∧
            (∀ j, payload st' j = payload st2 j)) as (st' & Hrun & HI' & Hfate & Hq & Hpay).
  { destruct (g_open G (thread_id e)) as [o|] eqn:Ho.
    - by apply (put_simple_block_child T e st G [] F st2 s o).
    - by apply (put_simple_block_root T e st G [] F st2 s). }
  exists st', (ghost_put (thread_id e) s [] F G).
  split; [exact Hrun|]. split; [done|]. split; [done|]. split; [done|].
  split; [|by intros [?|?]].
  intros _ s0 F0 [= <- <-]. split; [done|].
  rewrite Hpay. unfold payload. rewrite HB2, Z.eqb_refl. unfold rec. cbn.
  by rewrite (held_ground _ _ _ _ Hh).
Qed.

(** ** _profile_put_message_block *)

Lemma put_message_loop_S fuel id block subblock message length st :
  length > 0 →
  _profile_put_message_loop (S fuel) id block subblock message length st =
    ('(st, cblock) ← _profile_allocate_block st;
     match cblock with
     | None => Some (st, false)
     | Some cblock_index =>
         master ← GET_BLOCK (_profile_blocks st) block;
         sub ← GET_BLOCK (_profile_blocks st) subblock;
         let counter := next_counter st in
         let st := set_counter counter st in
         blocks ← upd_data (continuation_data id (data master) (data sub) counter
                              message length) (_profile_blocks st) cblock_index;
         sub ← GET_BLOCK blocks subblock;
         blocks ← upd_block (with_sibling (child sub)) blocks cblock_index;
         cb ← GET_BLOCK blocks cblock_index;
         blocks ← (if sibling cb =? 0 then Some blocks
                   else upd_block (with_previous cblock_index) blocks (sibling cb));
         blocks ← upd_block (with_child cblock_index) blocks subblock;
         blocks ← upd_block (with_previous (u16 subblock)) blocks cblock_index;
         _profile_put_message_loop fuel id block cblock_index
           (message_next message) (message_rest length) (set_blocks blocks st)
     end).
Proof. intros H. simpl. destruct (Z.gtb_spec length 0); [done|lia]. Qed.

Lemma put_message_loop_done fuel id block subblock message length st :
  length ≤ 0 →
  _profile_put_message_loop fuel id block subblock message length st = Some (st, true).
Proof. intros H. destruct fuel; simpl; destruct (Z.gtb_spec length 0); done || lia. Qed.

Lemma continuation_records_done fuel id master sub counter message length :
  length ≤ 0 → continuation_records fuel id master sub counter message length = [].
Proof. intros H. destruct fuel; simpl; destruct (Z.gtb_spec length 0); done || lia. Qed.

Lemma message_rest_le length : message_rest length ≤ Z.max 0 (length - 1).
Proof.
  unfold message_rest, MAX_MESSAGE_LENGTH. destruct (Z.gtb_spec length 25); lia.
Qed.

(** One pass of the loop: the head [c] of the free list becomes the child
    of the last segment [sub]. *)
Lemma put_message_step st id Lpre sub c F2 st1 bm bsub m msg len :
  held st (Lpre ++ [sub]) (c :: F2) st1 → head (Lpre ++ [sub]) = Some m →
  NoDup ((Lpre ++ [sub]) ++ c :: F2) →
  (∀ j, j ∈ (Lpre ++ [sub]) ++ c :: F2 → 0 < j < 65536) →
  GET_BLOCK (_profile_blocks st1) m = Some bm →
  GET_BLOCK (_profile_blocks st1) sub = Some bsub →
  let d := continuation_data id (data bm) (data bsub) (next_counter st1) msg len zero_data in
  ∃ st1' blocks' bm',
    _profile_allocate_block st1 = Some (st1', Some c) ∧
    _profile_counter st1' = _profile_counter st1 ∧
    GET_BLOCK (_profile_blocks st1') m = Some bm ∧
    GET_BLOCK (_profile_blocks st1') sub = Some bsub ∧
    (blocks ← upd_data (continuation_data id (data bm) (data bsub) (next_counter st1)
                          msg len) (_profile_blocks st1') c;
     sub' ← GET_BLOCK blocks sub;
     blocks ← upd_block (with_sibling (child sub')) blocks c;
     cb ← GET_BLOCK blocks c;
     blocks ← (if sibling cb =? 0 then Some blocks
               else upd_block (with_previous c) blocks (sibling cb));
     blocks ← upd_block (with_child c) blocks sub;
     upd_block (with_previous (u16 sub)) blocks c) = Some blocks' ∧
    held st ((Lpre ++ [sub]) ++ [c]) F2
      (set_blocks blocks' (set_counter (next_counter st1) st1')) ∧
    GET_BLOCK blocks' m = Some bm' ∧ data bm' = data bm ∧
    GET_BLOCK blocks' c = Some {| data := d; previous := sub; sibling := 0; child := 0 |} ∧
    (∀ j, j ∈ Lpre ++ [sub] →
       data <$> GET_BLOCK blocks' j = data <$> GET_BLOCK (_profile_blocks st1) j).
Proof.
  intros Hh Hhead Hnd Hb16 Hbm Hbsub d.
  set (L := Lpre ++ [sub]) in *.
  assert (sub ∈ L) as HsubL by (unfold L; set_solver).
  assert (m ∈ L) as HmL.
  { unfold L in *. destruct Lpre; simpl in Hhead; injection Hhead as <-; set_solver. }
  pose proof Hnd as Hnd'. apply NoDup_app in Hnd' as (HndL & HdL & HndF).
  assert (c ∉ L) as HcL by (intros Hin; apply (HdL c Hin); set_solver).
  assert (sub ≠ c) as Hsc by (by intros ->).
  assert (m ≠ c) as Hmc by (by intros ->).
  destruct (allocate_block_some st1 c F2 (held_free _ _ _ _ Hh) HndF)
    as (f1 & l1 & Hrun & Hl' & Hc1 & Hframe1).
  { intros j Hj. apply Hb16. set_solver. }
  set (B1 := <[Z.to_nat c := zero_block]> (_profile_blocks st1)) in *.
  assert (child bsub = 0) as Hchild_sub.
  { destruct (lseg_last_elem _ _ _ _ sub (held_chain _ _ _ _ Hh)) as (b & Hb & Hc).
    - unfold L. by rewrite last_snoc.
    - congruence. }
  assert (sibling bsub = 0) as Hsib_sub.
  { destruct (held_sibling _ _ _ _ Hh sub HsubL) as (b & Hb & Hz). congruence. }
  assert (0 < sub < 65536) as Hsub16 by (apply Hb16; set_solver).
  set (recc := {| data := d; previous := sub; sibling := 0; child := 0 |}).
  set (B5 := <[Z.to_nat c := recc]> (<[Z.to_nat sub := with_child c bsub]> B1)).
  assert (GET_BLOCK B1 sub = Some bsub) as Hsub1 by (by rewrite Hframe1).
  assert (∀ j, GET_BLOCK B5 j = if j =? c then Some recc
                                else if j =? sub then Some (with_child c bsub)
                                else GET_BLOCK (_profile_blocks st1) j) as HB5.
  { intros j. unfold B5.
    assert (GET_BLOCK (<[Z.to_nat sub := with_child c bsub]> B1) c = Some zero_block) as Hc'.
    { rewrite (GET_insert _ _ _ _ _ Hsub1). destruct (Z.eqb_spec c sub); [congruence|done]. }
    rewrite (GET_insert _ _ _ _ _ Hc'). destruct (Z.eqb_spec j c); [done|].
    rewrite (GET_insert _ _ _ _ _ Hsub1). destruct (Z.eqb_spec j sub); [done|].
    by apply Hframe1. }
  exists (set_blocks B1 (set_free f1 (set_loopid l1 st1))), B5.
  exists (if decide (m = sub) then with_child c bm else bm).
  split; [exact Hrun|]. split; [done|].
  cbn [_profile_blocks set_blocks]. fold B1.
  split; [by rewrite Hframe1|]. split; [done|].
  split.
  { (* the stores *)
    unfold upd_data. rewrite (upd_block_Some _ _ _ _ Hc1). cbn [mbind option_bind].
    change (with_data _ zero_block) with (with_data d zero_block).
    set (B2 := <[Z.to_nat c := with_data d zero_block]> B1).
    assert (GET_BLOCK B2 c = Some (with_data d zero_block)) as Hc2
      by (unfold B2; by rewrite (GET_insert _ _ _ _ _ Hc1), Z.eqb_refl).
    assert (GET_BLOCK B2 sub = Some bsub) as Hsub2.
    { unfold B2. rewrite (GET_insert _ _ _ _ _ Hc1).
      destruct (Z.eqb_spec sub c); [done|]. done. }
    rewrite Hsub2. cbn [mbind option_bind]. rewrite Hchild_sub.
    rewrite (upd_block_Some _ _ _ _ Hc2). cbn [mbind option_bind].
    set (B3 := <[Z.to_nat c := with_sibling 0 (with_data d zero_block)]> B2).
    assert (GET_BLOCK B3 c = Some (with_sibling 0 (with_data d zero_block))) as Hc3
      by (unfold B3; by rewrite (GET_insert _ _ _ _ _ Hc2), Z.eqb_refl).
    rewrite Hc3. cbn [mbind option_bind sibling with_sibling Z.eqb].
    assert (GET_BLOCK B3 sub = Some bsub) as Hsub3.
    { unfold B3. rewrite (GET_insert _ _ _ _ _ Hc2).
      destruct (Z.eqb_spec sub c); [done|]. done. }
    rewrite (upd_block_Some _ _ _ _ Hsub3). cbn [mbind option_bind].
    set (B4 := <[Z.to_nat sub := with_child c bsub]> B3).
    assert (GET_BLOCK B4 c = Some (with_sibling 0 (with_data d zero_block))) as Hc4.
    { unfold B4. rewrite (GET_insert _ _ _ _ _ Hsub3).
      destruct (Z.eqb_spec c sub); [congruence|]. done. }
    rewrite (upd_block_Some _ _ _ _ Hc4). rewrite (u16_small sub) by lia.
    f_equal. unfold B5, B4, B3, B2.
    apply list_eq. intros i.
    destruct (decide (i = Z.to_nat c)) as [->|Hic].
    - rewrite !list_lookup_insert_eq; [done|..]; rewrite ?length_insert;
        apply GET_BLOCK_range in Hc1; lia.
    - rewrite !(list_lookup_insert_ne _ (Z.to_nat c)) by done.
      destruct (decide (i = Z.to_nat sub)) as [->|His].
      + rewrite !list_lookup_insert_eq; [done|..]; rewrite ?length_insert;
          apply GET_BLOCK_range in Hsub1; lia.
      + rewrite !(list_lookup_insert_ne _ (Z.to_nat sub)) by done.
        by rewrite !(list_lookup_insert_ne _ (Z.to_nat c)) by done. }
  split.
  { (* the held records *)
    constructor; cbn [_profile_blocks set_blocks set_counter _profile_free set_free
                      profile_block_tls _profile_root _profile_enable io_thread sink
                      _profile_write _profile_ground_time set_loopid].
    - eapply lseg_frame; [|exact Hl']. intros j Hj. rewrite HB5.
      assert (j ≠ c) by (intros ->; by apply NoDup_cons in HndF as [? _]).
      assert (j ≠ sub) by (intros ->; apply (HdL sub HsubL); set_solver).
      destruct (Z.eqb_spec j c); [done|]. destruct (Z.eqb_spec j sub); [done|].
      symmetry. by apply Hframe1.
    - assert (default 0 (head (L ++ [c])) = m) as ->.
      { unfold L in *. destruct Lpre; simpl in *; by injection Hhead as <-. }
      assert (default 0 (head L) = m) as Hm by (by rewrite Hhead).
      pose proof (held_chain _ _ _ _ Hh) as Hch. rewrite Hm in Hch.
      assert (lseg (<[Z.to_nat sub := with_child c bsub]> (_profile_blocks st1)) m L c)
        as Hmid.
      { eapply (lseg_set_last _ _ _ _ sub c); [exact Hch| |exact HndL|].
        - unfold L. by rewrite last_snoc.
        - apply (upd_block_Some _ _ _ _ Hbsub). }
      eapply lseg_app; [|].
      + eapply lseg_frame; [|exact Hmid].
        intros j Hj. rewrite HB5. destruct (Z.eqb_spec j c) as [->|]; [done|].
        rewrite (GET_insert _ _ _ _ _ Hbsub). by destruct (Z.eqb_spec j sub).
      + simpl. split; [done|]. split; [|exists recc; by rewrite HB5, Z.eqb_refl].
        assert (0 < c < 65536) by (apply Hb16; set_solver). lia.
    - intros j Hj. rewrite HB5. destruct (Z.eqb_spec j c); [by eexists|].
      destruct (Z.eqb_spec j sub) as [->|]; [by eexists|].
      apply (held_sibling _ _ _ _ Hh). set_solver.
    - intros j Hj. rewrite not_elem_of_app in Hj. destruct Hj as [HjL Hjc].
      rewrite HB5. destruct (Z.eqb_spec j c) as [->|]; [exfalso; apply Hjc; set_solver|].
      destruct (Z.eqb_spec j sub) as [->|]; [done|]. by apply (held_frame _ _ _ _ Hh).
    - unfold B5, B1. rewrite !length_insert. apply (held_length _ _ _ _ Hh).
    - apply (held_tls _ _ _ _ Hh).
    - apply (held_root _ _ _ _ Hh).
    - apply (held_enable _ _ _ _ Hh).
    - apply (held_io _ _ _ _ Hh).
    - apply (held_sink _ _ _ _ Hh).
    - apply (held_write _ _ _ _ Hh).
    - apply (held_ground _ _ _ _ Hh). }
  split.
  { rewrite HB5. destruct (Z.eqb_spec m c); [done|].
    destruct (decide (m = sub)) as [->|Hms].
    - rewrite Z.eqb_refl. congruence.
    - destruct (Z.eqb_spec m sub); [done|]. done. }
  split; [by destruct (decide (m = sub))|].
  split; [by rewrite HB5, Z.eqb_refl|].
  intros j Hj. rewrite HB5. destruct (Z.eqb_spec j c) as [->|]; [done|].
  destruct (Z.eqb_spec j sub) as [->|]; [by rewrite Hbsub|done].
Qed.

Lemma put_message_loop_spec st id m : ∀ fuel msg len st1 Lpre sub F1 bm bsub,
  held st (Lpre ++ [sub]) F1 st1 → head (Lpre ++ [sub]) = Some m →
  NoDup ((Lpre ++ [sub]) ++ F1) →
  (∀ j, j ∈ (Lpre ++ [sub]) ++ F1 → 0 < j < 65536) →
  is_Some (GET_BLOCK (_profile_blocks st) 0) →
  GET_BLOCK (_profile_blocks st1) m = Some bm →
  GET_BLOCK (_profile_blocks st1) sub = Some bsub →
  len ≤ Z.of_nat fuel →
  ∃ st2 completed L2 F2,
    _profile_put_message_loop fuel id m sub msg len st1 = Some (st2, completed) ∧
    F1 = L2 ++ F2 ∧ held st ((Lpre ++ [sub]) ++ L2) F2 st2 ∧
    (∀ j, j ∈ Lpre ++ [sub] → payload st2 j = payload st1 j) ∧
    Forall2 (λ j d, payload st2 j = Some d) L2
      (take (length L2) (continuation_records fuel id (data bm) (data bsub)
                           (_profile_counter st1) msg len)) ∧
    (completed = true →
       length L2 = length (continuation_records fuel id (data bm) (data bsub)
                             (_profile_counter st1) msg len)) ∧
    (completed = false →
       F2 = [] ∧
       (length L2 < length (continuation_records fuel id (data bm) (data bsub)
                              (_profile_counter st1) msg len))%nat).
Proof.
  induction fuel as [|fuel IH]; intros msg len st1 Lpre sub F1 bm bsub
    Hh Hhead Hnd Hb16 H0 Hbm Hbsub Hlen.
  { rewrite put_message_loop_done by lia.
    exists st1, true, [], F1. rewrite app_nil_r. split; [done|]. split; [done|].
    split; [done|]. split; [done|]. rewrite continuation_records_done by lia.
    split; [constructor|]. done. }
  destruct (Z.le_gt_cases len 0) as [Hle|Hgt].
  { rewrite put_message_loop_done by lia.
    exists st1, true, [], F1. rewrite app_nil_r. split; [done|]. split; [done|].
    split; [done|]. split; [done|]. rewrite continuation_records_done by lia.
    split; [constructor|]. done. }
  rewrite put_message_loop_S by lia.
  assert (0 ∉ Lpre ++ [sub]) as H0L.
  { intros Hin. assert (0 < 0); [|lia]. apply Hb16. set_solver. }
  destruct F1 as [|c F2].
  - (* the pool is exhausted *)
    pose proof (held_free _ _ _ _ Hh) as Hfree. simpl in Hfree.
    destruct (allocate_block_none st1) as (l1 & w1 & m1 & Hrun); [|done|].
    { by rewrite (held_frame _ _ _ _ Hh). }
    rewrite Hrun. cbn [mbind option_bind].
    eexists _, false, [], []. rewrite !app_nil_r. split; [done|]. split; [done|].
    split.
    { apply (held_ext st _ [] st1 _ Hh); [done|intros j; by apply links_eq_same|done..]. }
    split; [done|]. split; [constructor|]. split; [done|]. intros _. split; [done|].
    cbn [continuation_records]. destruct (Z.gtb_spec len 0); [|lia]. simpl. lia.
  - destruct (put_message_step st id Lpre sub c F2 st1 bm bsub m msg len
                Hh Hhead Hnd Hb16 Hbm Hbsub)
      as (st1' & blocks' & bm' & Hrun & Hcnt & Hbm1 & Hbsub1 & Hstores & Hh2 & Hbm2 & Hdm
          & Hc2 & Hdata).
    rewrite Hrun. cbn [mbind option_bind]. rewrite Hbm1, Hbsub1. cbn [mbind option_bind].
    cbv zeta. cbn [_profile_blocks set_counter].
    assert (next_counter st1' = next_counter st1) as Hnc
      by (unfold next_counter; by rewrite Hcnt).
    rewrite Hnc.
    assert (∀ k : list profile_block → option (profile_state * bool),
              ((blocks ← upd_data (continuation_data id (data bm) (data bsub)
                                     (next_counter st1) msg len) (_profile_blocks st1') c;
                sub' ← GET_BLOCK blocks sub;
                blocks ← upd_block (with_sibling (child sub')) blocks c;
                cb ← GET_BLOCK blocks c;
                blocks ← (if sibling cb =? 0 then Some blocks
                          else upd_block (with_previous c) blocks (sibling cb));
                blocks ← upd_block (with_child c) blocks sub;
                blocks ← upd_block (with_previous (u16 sub)) blocks c;
                k blocks) = k blocks')) as Hk.
    { intros k. revert Hstores.
      destruct (upd_data _ _ c) as [x1|]; cbn [mbind option_bind]; [|done].
      destruct (GET_BLOCK x1 sub) as [x2|]; cbn [mbind option_bind]; [|done].
      destruct (upd_block _ x1 c) as [x3|]; cbn [mbind option_bind]; [|done].
      destruct (GET_BLOCK x3 c) as [x4|]; cbn [mbind option_bind]; [|done].
      destruct (if sibling x4 =? 0 then Some x3 else _) as [x5|];
        cbn [mbind option_bind]; [|done].
      destruct (upd_block _ x5 sub) as [x6|]; cbn [mbind option_bind]; [|done].
      by intros ->. }
    rewrite Hk. clear Hk Hstores.
    set (st2 := set_blocks blocks' (set_counter (next_counter st1) st1')) in *.
    set (d := continuation_data id (data bm) (data bsub) (next_counter st1) msg len
                zero_data) in *.
    destruct (IH (message_next msg) (message_rest len) st2 (Lpre ++ [sub]) c F2 bm'
                {| data := d; previous := sub; sibling := 0; child := 0 |})
      as (st3 & completed & L2 & F3 & Hrun3 & HF & Hh3 & Hpay3 & Hrec3 & Hdone & Hleak).
    + exact Hh2.
    + destruct Lpre; simpl in *; done.
    + rewrite <- app_assoc. exact Hnd.
    + intros j Hj. apply Hb16. rewrite <- app_assoc in Hj. exact Hj.
    + exact H0.
    + exact Hbm2.
    + exact Hc2.
    + pose proof (message_rest_le len). lia.
    + rewrite Hrun3.
      exists st3, completed, (c :: L2), F3. split; [done|]. split; [by rewrite HF|].
      split; [by rewrite <- app_assoc in Hh3|].
      assert (∀ j, j ∈ (Lpre ++ [sub]) ++ [c] → payload st3 j = payload st2 j) as Hpay3'
        by exact Hpay3.
      split.
      { intros j Hj. rewrite Hpay3' by set_solver. unfold payload, st2.
        cbn [_profile_blocks set_blocks]. by apply Hdata. }
      change (continuation_records (S fuel) id (data bm) (data bsub)
                (_profile_counter st1) msg len)
        with (if len >? 0 then d :: continuation_records fuel id (data bm) d
                                      (next_counter st1) (message_next msg)
                                      (message_rest len) else []).
      destruct (Z.gtb_spec len 0); [|lia].
      rewrite Hdm in Hrec3, Hdone, Hleak. cbn [data] in Hrec3, Hdone, Hleak.
      change (_profile_counter st2) with (next_counter st1) in Hrec3, Hdone, Hleak.
      split.
      { cbn [length take]. constructor; [|exact Hrec3].
        rewrite Hpay3' by set_solver. unfold payload, st2.
        cbn [_profile_blocks set_blocks]. by rewrite Hc2. }
      split.
      { intros Hc. cbn [length]. by rewrite (Hdone Hc). }
      intros Hc. destruct (Hleak Hc) as [-> Hlt]. split; [done|]. cbn [length]. lia.
Qed.

(** Records that are dropped leave the invariant in place. *)
Lemma held_leak T tid st G L st1 :
  Inv st G → g_free G = L → held st L [] st1 →
  Inv st1 (ghost_leak tid G) ∧ fate T st G st1 (ghost_leak tid G) ∧
  quiet tid st G st1 (ghost_leak tid G).
Proof.
  intros HI HF Hh.
  pose proof (inv_nodup _ _ HI tid) as Hn. unfold local_slots in Hn. rewrite HF in Hn.
  apply NoDup_app in Hn as (_ & HdL & Hn).
  assert (Inv st1 (ghost_leak tid G)) as HI'.
  { apply (Inv_update st G tid).
    - exact HI.
    - intros j Hj. apply (held_frame _ _ _ _ Hh). intros Hin. apply Hj.
      unfold local_slots. rewrite HF. set_solver.
    - intros t Ht. unfold get_thread_profile_block. by rewrite (held_tls _ _ _ _ Hh).
    - destruct (decide (0 ∈ L)) as [Hin|Hout].
      + destruct (lseg_elem_range _ _ _ _ (held_chain _ _ _ _ Hh) 0 Hin). done.
      + rewrite (held_frame _ _ _ _ Hh) by done. apply (inv_zero _ _ HI).
    - apply (held_free _ _ _ _ Hh).
    - rewrite (held_root _ _ _ _ Hh). eapply shaped_frame; [|apply (inv_root _ _ HI)].
      intros j Hj. apply (held_frame _ _ _ _ Hh). intros Hin. apply (HdL j Hin). set_solver.
    - pose proof (inv_open _ _ HI tid) as Ho. unfold get_thread_profile_block in *.
      rewrite (held_tls _ _ _ _ Hh).
      destruct (g_open G tid) as [o|] eqn:Hgo; [|done].
      destruct Ho as [Hc Hot]. split; [done|].
      eapply open_tree_frame; [|exact Hot]. intros j Hj.
      apply (held_frame _ _ _ _ Hh). intros Hin. apply (HdL j Hin). set_solver.
    - exact Hn.
    - intros j Hj. unfold local_slots. set_solver. }
  split; [exact HI'|]. split.
  - apply (fate_quiet T st G tid).
    + exact HI.
    + exact HI'.
    + apply (held_write _ _ _ _ Hh).
    + apply (held_ground _ _ _ _ Hh).
    + apply (held_sink _ _ _ _ Hh).
    + done.
    + intros s Hs. by right.
    + intros s Hs. by left.
    + intros s Hlive _. unfold payload. rewrite (held_frame _ _ _ _ Hh); [done|].
      intros Hin. apply (live_not_free st G s HI Hlive). by rewrite HF.
    + intros s d Hs Hout. done.
  - split_and!.
    + apply (held_enable _ _ _ _ Hh).
    + apply (held_io _ _ _ _ Hh).
    + apply (held_sink _ _ _ _ Hh).
    + apply (held_length _ _ _ _ Hh).
    + intros t Ht. cbn. by destruct (decide (t = tid)).
Qed.

Lemma put_message_block_spec T e id msg len st G :
  Inv st G →
  let recs := message_records id e (_profile_ground_time st) (_profile_counter st) msg len in
  ∃ st' G', _profile_put_message_block e id msg len st = Some st' ∧
    Inv st' G' ∧ fate T st G st' G' ∧ quiet (thread_id e) st G st' G' ∧
    ((length recs ≤ length (g_free G))%nat →
       ∃ m L' F2, g_free G = (m :: L') ++ F2 ∧
         G' = ghost_put (thread_id e) m L' F2 G ∧
         Forall2 (λ j d, payload st' j = Some d) (m :: L') recs) ∧
    ((length (g_free G) < length recs)%nat →
       G' = ghost_leak (thread_id e) G ∧
       _profile_root st' = _profile_root st ∧
       profile_block_tls st' = profile_block_tls st).
Proof.
  intros HI recs. unfold _profile_put_message_block.
  destruct (g_free G) as [|m F] eqn:HF.
  { destruct (allocate_exhausted st G HI HF)
      as (st' & -> & Hb & Hf & Hr & Ht & He & Hi & Hs & Hw & Hg & Hc).
    cbn [mbind option_bind].
    destruct (held_leak T (thread_id e) st G [] st' HI HF) as (HI' & Hfate & Hq).
    { constructor; try done.
      - rewrite Hb, Hf. pose proof (inv_free _ _ HI) as Hl. by rewrite HF in Hl.
      - intros j Hj. by apply not_elem_of_nil in Hj.
      - intros j _. by rewrite Hb.
      - by rewrite Hb. }
    eexists st', _. split; [done|]. split; [exact HI'|]. split; [exact Hfate|].
    split; [exact Hq|]. split.
    - unfold recs, message_records. simpl. lia.
    - intros _. done. }
  destruct (allocate_held st G m F HI HF) as (st1 & -> & Hh & Hm1 & Hc1).
  cbn [mbind option_bind]. cbv zeta. cbn [_profile_blocks set_counter _profile_ground_time].
  unfold upd_data. rewrite (upd_block_Some _ _ _ _ Hm1). cbn [mbind option_bind].
  assert (next_counter st1 = next_counter st) as Hnc by (unfold next_counter; by rewrite Hc1).
  rewrite Hnc, (held_ground _ _ _ _ Hh).
  set (d := message_data id e (_profile_ground_time st) (next_counter st) msg len zero_data).
  change (with_data _ zero_block) with (with_data d zero_block).
  set (st2 := set_blocks (<[Z.to_nat m := with_data d zero_block]> (_profile_blocks st1))
                (set_counter (next_counter st) st1)).
  assert (∀ j, GET_BLOCK (_profile_blocks st2) j =
               if j =? m then Some (with_data d zero_block)
               else GET_BLOCK (_profile_blocks st1) j) as HB2
    by (intros j; apply (GET_insert _ _ _ _ _ Hm1)).
  assert (held st [m] F st2) as Hh2.
  { apply (held_ext st [m] F st1 _ Hh); try done.
    - intros j Hj. rewrite HB2. destruct (Z.eqb_spec j m) as [->|]; [|done].
      exfalso. apply Hj. set_solver.
    - intros j b Hb. rewrite HB2. destruct (Z.eqb_spec j m) as [->|]; [|eauto].
      rewrite Hm1 in Hb. injection Hb as <-. eexists. split; [done|]. done.
    - unfold st2. cbn. by rewrite length_insert. }
  assert (∀ j, j ∈ m :: F → 0 < j < 65536) as Hb16.
  { intros j Hj. apply (Inv_local_range st G (thread_id e) j HI). unfold local_slots.
    rewrite HF. set_solver. }
  pose proof (Inv_free_nodup _ _ HI) as Hnd. rewrite HF in Hnd.
  destruct (put_message_loop_spec st id m (Z.to_nat len) (message_next msg)
              (message_rest len) st2 [] m F (with_data d zero_block)
              (with_data d zero_block))
    as (st3 & completed & L2 & F2 & Hrun & HF2 & Hh3 & Hpay3 & Hrec3 & Hdone & Hleak).
  { exact Hh2. }
  { done. }
  { exact Hnd. }
  { exact Hb16. }
  { apply (inv_zero _ _ HI). }
  { by rewrite HB2, Z.eqb_refl. }
  { by rewrite HB2, Z.eqb_refl. }
  { pose proof (message_rest_le len). lia. }
  fold st2. rewrite Hrun. cbn [mbind option_bind].
  cbn [app data with_data] in Hh3, Hrec3, Hdone, Hleak, Hpay3.
  change (_profile_counter st2) with (next_counter st) in Hrec3, Hdone, Hleak.
  set (conts := continuation_records (Z.to_nat len) id d d (next_counter st)
                  (message_next msg) (message_rest len)) in *.
  assert (recs = d :: conts) as Hrecs by done.
  assert (payload st3 m = Some d) as Hpm.
  { rewrite Hpay3 by set_solver. unfold payload. by rewrite HB2, Z.eqb_refl. }
  destruct completed.
  - (* every segment has its record: the chain is published *)
    assert (0 < m < 65536) as Hm16 by (apply Hb16, elem_of_cons; by left).
    rewrite (u16_small m) by lia.
    assert (∃ st', _profile_put_simple_block e m st3 = Some st' ∧
              Inv st' (ghost_put (thread_id e) m L2 F2 G) ∧
              fate T st G st' (ghost_put (thread_id e) m L2 F2 G) ∧
              quiet (thread_id e) st G st' (ghost_put (thread_id e) m L2 F2 G) ∧
              (∀ j, payload st' j = payload st3 j))
      as (st' & Hrun' & HI' & Hfate & Hq & Hpay).
    { destruct (g_open G (thread_id e)) as [o|] eqn:Ho.
      - apply (put_simple_block_child T e st G L2 F2 st3 m o); try done.
        by rewrite HF, HF2.
      - apply (put_simple_block_root T e st G L2 F2 st3 m); try done.
        by rewrite HF, HF2. }
    exists st', (ghost_put (thread_id e) m L2 F2 G).
    split; [exact Hrun'|]. split; [done|]. split; [done|]. split; [done|].
    rewrite Hrecs. rewrite HF2. cbn [length]. rewrite length_app.
    specialize (Hdone eq_refl). split.
    + intros _. exists m, L2, F2. split; [done|]. split; [done|].
      constructor; [by rewrite Hpay|].
      rewrite Hdone, firstn_all in Hrec3.
      eapply Forall2_impl; [exact Hrec3|]. intros j dj Hj. by rewrite Hpay.
    + intros Hlt. lia.
  - (* the pool is exhausted: the records taken so far are dropped *)
    destruct (Hleak eq_refl) as [-> Hlt]. rewrite app_nil_r in HF2. subst F.
    destruct (held_leak T (thread_id e) st G (m :: L2) st3 HI HF Hh3) as (HI' & Hfate & Hq).
    exists st3, (ghost_leak (thread_id e) G).
    split; [done|]. split; [done|]. split; [done|]. split; [done|].
    rewrite Hrecs. cbn [length]. split; [intros Hle; lia|].
    intros _. split; [done|]. split; [apply (held_root _ _ _ _ Hh3)|].
    apply (held_tls _ _ _ _ Hh3).
Qed.

Lemma profile_message_spec T e id msg len st G :
  Inv st G →
  ∃ st' G', profile_message id e msg len st = Some st' ∧
    Inv st' G' ∧ fate T st G st' G' ∧ quiet (thread_id e) st G st' G'.
Proof.
  intros HI. unfold profile_message.
  destruct (Z.eqb_spec (_profile_enable st) 0) as [Hen|Hen].
  { exists st, G. split; [done|]. split; [done|]. split; [apply fate_refl|].
    apply quiet_refl. }
  destruct (put_message_block_spec T e id msg len st G HI)
    as (st' & G' & ? & ? & ? & ? & _).
  by exists st', G'.
Qed.

(** ** profile_update_block *)

Lemma update_block_spec T e st G :
  Inv st G → T (i64 (time_current e - _profile_ground_time st)) →
  ∃ st' G', profile_update_block e st = Some st' ∧
    Inv st' G' ∧ fate T st G st' G' ∧ quiet (thread_id e) st G st' G'.
Proof.
  intros HI HT. unfold profile_update_block.
  destruct ((_profile_enable st =? 0) || (get_thread_profile_block st (thread_id e) =? 0))
    eqn:Hskip.
  { exists st, G. split; [done|]. split; [done|]. split; [apply fate_refl|].
    apply quiet_refl. }
  apply orb_false_iff in Hskip as [Hen Hcur].
  apply Z.eqb_neq in Hen, Hcur.
  destruct (Inv_open _ _ _ HI Hcur) as (o & Ho & Hoc & [Hup (b & Hb & _)]).
  rewrite <- Hoc, Hb. cbn [mbind option_bind].
  destruct (processor (data b) =? u32 (thread_hardware e)).
  { exists st, G. split; [done|]. split; [done|]. split; [apply fate_refl|].
    apply quiet_refl. }
  destruct (end_block_spec T e st G HI HT) as (st1 & G1 & -> & HI1 & Hfate1 & Hq1 & _).
  cbn [mbind option_bind].
  destruct (GET_BLOCK_in_range (_profile_blocks st1) (o_cur o)) as [b1 Hb1].
  { destruct Hq1 as (_ & _ & _ & Hlen & _). rewrite Hlen.
    apply GET_BLOCK_range in Hb. lia. }
  rewrite Hb1. cbn [mbind option_bind].
  destruct (begin_block_quiet T e (name (data b1)) (string_length (name (data b1)))
              st1 G1 HI1) as (st2 & G2 & -> & HI2 & Hfate2 & Hq2 & _).
  exists st2, G2. split; [done|]. split; [done|].
  split; [by eapply fate_trans|]. by eapply quiet_trans.
Qed.

(** ** Ghosts that agree *)

Lemma Inv_ghost_ext st G G' :
  g_free G' = g_free G → g_root G' = g_root G → (∀ t, g_open G' t = g_open G t) →
  Inv st G → Inv st G'.
Proof.
  intros Hf Hr Ho [H1 H2 H3 H4 H5 H6 H7].
  constructor; unfold local_slots in *; rewrite ?Hf, ?Hr; try done.
  - intros tid. rewrite Ho. apply H4.
  - intros tid. rewrite Ho. apply H5.
  - intros t1 t2 Ht. rewrite !Ho. by apply H6.
  - intros tid s. rewrite Ho. apply H7.
Qed.

Lemma is_open_ext G G' s :
  (∀ t, g_open G' t = g_open G t) → is_open G s ↔ is_open G' s.
Proof.
  intros Ho. split; intros (tid & o & Hgo & Hs); exists tid, o.
  - by rewrite Ho.
  - by rewrite <- Ho.
Qed.

Lemma is_live_ext G G' s :
  g_root G' = g_root G → (∀ t, g_open G' t = g_open G t) → is_live G s ↔ is_live G' s.
Proof.
  intros Hr Ho. unfold is_live. rewrite Hr. split; intros [?|(tid & o & Hgo & Hs)]; auto;
    right; exists tid, o.
  - by rewrite Ho.
  - by rewrite <- Ho.
Qed.

Lemma is_closed_ext G G' s :
  g_root G' = g_root G → (∀ t, g_open G' t = g_open G t) → is_closed G s ↔ is_closed G' s.
Proof.
  intros Hr Ho. unfold is_closed.
  by rewrite (is_live_ext G G' s Hr Ho), (is_open_ext G G' s Ho).
Qed.

Lemma fate_ghost_ext T st G st' G1 G2 :
  g_root G2 = g_root G1 → (∀ t, g_open G2 t = g_open G1 t) →
  fate T st G st' G1 → fate T st G st' G2.
Proof.
  intros Hr Ho [Hw Hg (out & Hsink & Hc & Hop)].
  constructor; [done|done|]. exists out. split; [done|]. split.
  - intros s d Hs Hd. destruct (Hc s d Hs Hd) as [(? & ? & ?)|?]; [left|by right].
    split; [|done]. by apply (is_closed_ext G1 G2).
  - intros s d Hs Hd. destruct (Hop s d Hs Hd) as [(? & ? & ?)|(v & Hv & Hcase)].
    + left. split; [|done]. by apply (is_open_ext G1 G2).
    + right. exists v. split; [done|]. destruct Hcase as [(? & ? & ?)|?]; [left|by right].
      split; [|done]. by apply (is_closed_ext G1 G2).
Qed.

(** ** Draining under the invariant *)

Lemma emitted_payloads_slots blocks l out :
  emitted_payloads true blocks l out → written_slots out = Some <$> l.
Proof.
  simpl. intros H. induction H as [|s w l out [Hw _] _ IH]; [done|].
  unfold written_slots in *. rewrite !fmap_cons. by f_equal.
Qed.

Lemma emitted_payloads_first blocks l out s d :
  emitted_payloads true blocks l out → s ∈ l →
  data <$> GET_BLOCK blocks s = Some d → first_written s d out.
Proof.
  simpl. intros H. induction H as [|s' w l out [Hw Hd] Hrest IH]; intros Hs Hdata.
  { by apply not_elem_of_nil in Hs. }
  destruct (decide (s = s')) as [->|Hne].
  - exists [], w.2, out. split; [by destruct w as [w1 w2]; simpl in *; subst|].
    split; [congruence|]. unfold written_slots. simpl. apply not_elem_of_nil.
  - apply elem_of_cons in Hs as [?|Hs]; [done|].
    apply (first_written_later s d [w] out).
    + unfold written_slots. simpl. rewrite Hw. intros Hin.
      apply list_elem_of_singleton in Hin. congruence.
    + by apply IH.
Qed.

Lemma Inv_root_free_nodup st G :
  Inv st G → NoDup (slots (g_root G) ++ g_free G) ∧
  (∀ j, j ∈ slots (g_root G) → j < 65536).
Proof.
  intros HI. pose proof (inv_nodup _ _ HI 0) as Hn. unfold local_slots in Hn.
  rewrite app_assoc in Hn. apply NoDup_app in Hn as (Hn & _).
  split.
  - eapply NoDup_Permutation_proper; [|exact Hn]. apply Permutation_app_comm.
  - intros j Hj. apply (inv_bound _ _ HI 0). unfold local_slots. set_solver.
Qed.

Lemma drain_Inv T st G :
  Inv st G →
  ∃ st' out, (if _profile_root st =? 0 then Some st
              else _profile_process_root_block st) = Some st' ∧
    Inv st' (ghost_drain G) ∧
    (_profile_write st = true → fate T st G st' (ghost_drain G)) ∧
    sink st' = sink st ++ out ∧
    emitted_payloads (_profile_write st) (_profile_blocks st) (slots (g_root G)) out ∧
    _profile_root st' = 0 ∧
    length (_profile_blocks st') = length (_profile_blocks st) ∧
    st' = set_sink (sink st') (set_root 0 (set_free (_profile_free st')
            (set_blocks (_profile_blocks st')
               (set_loopid (_profile_loopid st') st)))).
Proof.
  intros HI.
  destruct (Inv_root_free_nodup st G HI) as [Hnd Hb16].
  destruct (drain_spec st (g_root G) (g_free G) (inv_root _ _ HI) (inv_free _ _ HI) Hnd Hb16)
    as (st' & out & Hrun & Hroot & Hsink & Hem & Hl & Hsib & Hframe & Hlen & Hst).
  exists st', out. split; [exact Hrun|].
  assert (∀ t : Z, profile_block_tls st' = profile_block_tls st) as Htls
    by (intros _; by rewrite Hst).
  assert (Inv st' (ghost_drain G)) as HI'.
  { apply (Inv_ghost_ext st'
             {| g_free := drain_chain (g_root G) ++ g_free G; g_root := Leaf;
                g_open := λ t, if decide (t = 0) then g_open G 0 else g_open G t |}).
    { done. } { done. }
    { intros t. cbn. by destruct (decide (t = 0)) as [->|]. }
    apply (Inv_update st G 0).
    - exact HI.
    - intros j Hj. apply Hframe. intros Hin. apply Hj. unfold local_slots. set_solver.
    - intros t Ht. unfold get_thread_profile_block. by rewrite (Htls 0).
    - rewrite Hframe; [apply (inv_zero _ _ HI)|].
      intros Hin. pose proof (shaped_range _ _ _ (inv_root _ _ HI) 0 Hin). lia.
    - exact Hl.
    - by rewrite Hroot.
    - pose proof (inv_open _ _ HI 0) as Ho. unfold get_thread_profile_block in *.
      rewrite (Htls 0). destruct (g_open G 0) as [o|] eqn:Hgo; [|done].
      destruct Ho as [Hc Hot]. split; [done|].
      eapply open_tree_frame; [|exact Hot]. intros j Hj. apply Hframe.
      intros Hin. apply (root_not_open st G 0 j HI Hin). by rewrite Hgo.
    - simpl. pose proof (inv_nodup _ _ HI 0) as Hn. unfold local_slots in Hn.
      eapply NoDup_Permutation_proper; [|exact Hn].
      rewrite drain_chain_slots. solve_Permutation.
    - intros j. unfold local_slots. simpl. rewrite !elem_of_app.
      rewrite drain_chain_slots. tauto. }
  split; [exact HI'|]. split.
  { intros Hw. rewrite Hw in Hem.
    constructor; [by rewrite Hst|by rewrite Hst|].
    exists out. split; [done|].
    assert (∀ s, s ∉ slots (g_root G) → Some s ∉ written_slots out) as Hnot.
    { intros s Hs. rewrite (emitted_payloads_slots _ _ _ Hem).
      intros (s' & [= <-] & Hin)%list_elem_of_fmap. done. }
    split.
    - intros s d [Hlive Hnopen] Hd.
      destruct (decide (s ∈ slots (g_root G))) as [Hin|Hout].
      + right. by eapply emitted_payloads_first.
      + left. split; [|split].
        * split.
          -- destruct Hlive as [?|Hlive]; [done|]. by right.
          -- exact Hnopen.
        * unfold payload. by rewrite Hframe.
        * by apply Hnot.
    - intros s d Hopen Hd. left.
      assert (s ∉ slots (g_root G)) as Hout.
      { intros Hin. destruct Hopen as (tid & o & Hgo & Hs).
        apply (root_not_open st G tid s HI Hin). rewrite Hgo. simpl.
        by apply otree_open_slots. }
      split; [exact Hopen|]. split; [|by apply Hnot].
      unfold payload. by rewrite Hframe. }
  done.
Qed.

(** ** Steps *)

Lemma step_ok_refl T st G : Inv st G → step_ok T st G st G.
Proof. intros HI. split; [done|]. split; [done|]. split; [done|]. intros _. apply fate_refl. Qed.

Lemma step_ok_trans T st G st1 G1 st2 G2 :
  step_ok T st G st1 G1 → step_ok T st1 G1 st2 G2 → step_ok T st G st2 G2.
Proof.
  intros (_ & Hw1 & Hg1 & Hf1) (HI2 & Hw2 & Hg2 & Hf2).
  split; [done|]. split; [congruence|]. split; [congruence|].
  intros Hw. eapply fate_trans; [by apply Hf1|]. apply Hf2. congruence.
Qed.

Lemma step_ok_quiet T st G st' G' :
  Inv st' G' → fate T st G st' G' → step_ok T st G st' G'.
Proof.
  intros HI Hf. split; [done|]. split; [apply (fate_write _ _ _ _ _ Hf)|].
  split; [apply (fate_ground _ _ _ _ _ Hf)|]. done.
Qed.

(** Records of the I/O thread's own go to the writer beside the pool. *)
Lemma fate_beside T st st' G out :
  _profile_blocks st' = _profile_blocks st →
  _profile_write st' = _profile_write st →
  _profile_ground_time st' = _profile_ground_time st →
  sink st' = sink st ++ out → (∀ w : written, w ∈ out → w.1 = None) →
  fate T st G st' G.
Proof.
  intros Hb Hw Hg Hs Hout. constructor; [done|done|].
  exists out. split; [done|].
  assert (∀ s, Some s ∉ written_slots out) as Hnot.
  { intros s (w & Hw1 & Hin)%list_elem_of_fmap. rewrite (Hout w Hin) in Hw1. done. }
  unfold payload. rewrite Hb.
  split; intros s d H Hd; left; (split; [done|]); (split; [done|]); apply Hnot.
Qed.

Lemma system_info_step_ok T io st G :
  Inv st G → step_ok T st G (system_info_step io st) G ∧
  _profile_enable (system_info_step io st) = _profile_enable st.
Proof.
  intros HI. unfold system_info_step, write_record.
  destruct (system_info_counter io >? 10), (_profile_write st) eqn:Hw;
    (split; [|done]); (split; [by apply (Inv_ext st)|]);
    (split; [done|]); (split; [done|]); intros _.
  - apply (fate_beside T st _ G [(None, system_info io)]); try done.
    intros w Hin. by apply list_elem_of_singleton in Hin as ->.
  - by apply fate_ext.
  - by apply fate_ext.
  - by apply fate_ext.
Qed.

Lemma drain_ok T st G :
  Inv st G →
  ∃ st', (if _profile_root st =? 0 then Some st
          else _profile_process_root_block st) = Some st' ∧
    step_ok T st G st' (ghost_drain G) ∧
    _profile_enable st' = _profile_enable st ∧ io_thread st' = io_thread st ∧
    _profile_root st' = 0 ∧ profile_block_tls st' = profile_block_tls st ∧
    messages st' = messages st ∧ _profile_num_blocks st' = _profile_num_blocks st.
Proof.
  intros HI.
  destruct (drain_Inv T st G HI)
    as (st' & out & Hrun & HI' & Hfate & _ & _ & Hroot & _ & Hst).
  exists st'. split; [exact Hrun|].
  split; [|by rewrite Hst].
  split; [done|]. split; [by rewrite Hst|]. split; [by rewrite Hst|]. done.
Qed.

Lemma process_root_block_ok T st G :
  Inv st G →
  ∃ st', _profile_process_root_block st = Some st' ∧
    step_ok T st G st' (ghost_drain G) ∧
    _profile_enable st' = _profile_enable st ∧ io_thread st' = io_thread st.
Proof.
  intros HI.
  destruct (Z.eqb_spec (_profile_root st) 0) as [H0|H0].
  - (* an empty list: the loop is not entered *)
    unfold _profile_process_root_block. rewrite H0, process_root_loop_0.
    exists (set_root 0 st). split; [done|].
    pose proof (inv_root _ _ HI) as HR. rewrite H0 in HR.
    apply shaped_root_zero in HR.
    assert (Inv (set_root 0 st) (ghost_drain G)) as HI'.
    { apply (Inv_ghost_ext _ G); unfold ghost_drain; cbn; rewrite ?HR; try done.
      apply (Inv_ext st); try done. }
    split; [|done]. split; [done|]. split; [done|]. split; [done|].
    intros _. apply (fate_ghost_ext T st G _ G); cbn; rewrite ?HR; try done.
    by apply fate_ext.
  - destruct (drain_ok T st G HI) as (st' & Hrun & Hok & He & Hi & _).
    destruct (Z.eqb_spec (_profile_root st) 0); [done|].
    by exists st'.
Qed.

(** ** One pass of the I/O thread *)

Lemma io_iteration_spec T e st G :
  Inv st G → T (i64 (time_current e - _profile_ground_time st)) →
  ∃ st' G', _profile_io_iteration e st = Some st' ∧ step_ok T st G st' G' ∧
    _profile_enable st' = _profile_enable st.
Proof.
  intros HI HT. unfold _profile_io_iteration.
  destruct (io_thread st) as [io|]; [|by exists st, G; split; [|split; [apply step_ok_refl|]]].
  destruct (_profile_root st =? 0);
    [by exists st, G; split; [|split; [apply step_ok_refl|]]|].
  destruct (begin_block_quiet T e bytes_profile_io 10 st G HI)
    as (st1 & G1 & -> & HI1 & Hf1 & Hq1 & _).
  cbn [mbind option_bind].
  pose proof (step_ok_quiet T _ _ _ _ HI1 Hf1) as Hok1.
  assert (∃ st2 G2,
            (if _profile_root st1 =? 0 then Some st1
             else st ← profile_begin_block e bytes_process 7 st1;
                  st ← _profile_process_root_block st;
                  profile_end_block e st) = Some st2 ∧
            step_ok T st1 G1 st2 G2 ∧ _profile_enable st2 = _profile_enable st1)
    as (st2 & G2 & -> & Hok2 & Hen2).
  { destruct (_profile_root st1 =? 0).
    { exists st1, G1. split; [done|]. split; [by apply step_ok_refl|done]. }
    destruct (begin_block_quiet T e bytes_process 7 st1 G1 HI1)
      as (sta & Ga & -> & HIa & Hfa & Hqa & _).
    cbn [mbind option_bind].
    destruct (process_root_block_ok T sta Ga HIa) as (stb & -> & Hokb & Heb & _).
    cbn [mbind option_bind].
    destruct (end_block_spec T e stb (ghost_drain Ga)) as (stc & Gc & -> & HIc & Hfc & Hqc & _).
    { apply Hokb. }
    { destruct Hokb as (_ & _ & Hg & _). rewrite Hg, (fate_ground _ _ _ _ _ Hfa),
        (fate_ground _ _ _ _ _ Hf1). exact HT. }
    exists stc, Gc. split; [done|]. split.
    - eapply step_ok_trans; [exact (step_ok_quiet T _ _ _ _ HIa Hfa)|].
      eapply step_ok_trans; [exact Hokb|]. exact (step_ok_quiet T _ _ _ _ HIc Hfc).
    - destruct Hqc as (-> & _). rewrite Heb. by destruct Hqa as (-> & _). }
  cbn [mbind option_bind].
  assert (Inv st2 G2) as HI2 by apply Hok2.
  destruct (system_info_step_ok T io st2 G2 HI2) as [Hok3 Hen3].
  destruct (end_block_spec T e (system_info_step io st2) G2)
    as (st4 & G4 & -> & HI4 & Hf4 & Hq4 & _).
  { apply Hok3. }
  { destruct Hok3 as (_ & _ & -> & _). destruct Hok2 as (_ & _ & -> & _).
    by rewrite (fate_ground _ _ _ _ _ Hf1). }
  exists st4, G4. split; [done|]. split.
  - eapply step_ok_trans; [exact Hok1|]. eapply step_ok_trans; [exact Hok2|].
    eapply step_ok_trans; [exact Hok3|]. exact (step_ok_quiet T _ _ _ _ HI4 Hf4).
  - destruct Hq4 as (-> & _). rewrite Hen3, Hen2. by destruct Hq1 as (-> & _).
Qed.

(** ** Stopping and starting *)

Lemma io_exit_ok T st G :
  Inv st G →
  ∃ st', _profile_io_exit st = Some st' ∧ step_ok T st G st' (ghost_drain G) ∧
    _profile_enable st' = _profile_enable st ∧ io_thread st' = None ∧
    _profile_root st' = 0 ∧ profile_block_tls st' = profile_block_tls st.
Proof.
  intros HI. unfold _profile_io_exit.
  destruct (drain_ok T st G HI) as (st1 & -> & Hok & Hen & Hio & Hroot & Htls & _).
  cbn [mbind option_bind]. eexists. split; [done|].
  assert (step_ok T st1 (ghost_drain G)
            (set_io_thread None (write_record (None, terminate_block) st1))
            (ghost_drain G)) as Hok2.
  { assert (Inv st1 (ghost_drain G)) as HI1 by apply Hok.
    unfold write_record. destruct (_profile_write st1) eqn:Hw.
    - split; [by apply (Inv_ext st1)|]. split; [done|]. split; [done|]. intros _.
      apply (fate_beside T st1 _ _ [(None, terminate_block)]); try done.
      intros w Hin. by apply list_elem_of_singleton in Hin as ->.
    - split; [by apply (Inv_ext st1)|]. split; [done|]. split; [done|]. intros _.
      by apply fate_ext. }
  split; [by eapply step_ok_trans|].
  unfold write_record. by destruct (_profile_write st1).
Qed.

Lemma enable_ok T enable ticks st G :
  Inv st G →
  ∃ st' G', profile_enable enable ticks st = Some st' ∧ step_ok T st G st' G' ∧
    profile_block_tls st' = profile_block_tls st.
Proof.
  intros HI. unfold profile_enable.
  destruct (enable && negb (_profile_enable st >? 0)).
  { eexists _, G. split; [done|]. split; [|done].
    split; [by apply (Inv_ext st)|]. split; [done|]. split; [done|].
    intros _. by apply fate_ext. }
  destruct (negb enable && (_profile_enable st >? 0)).
  - destruct (io_exit_ok T st G HI) as (st1 & -> & Hok & _ & _ & _ & Htls).
    cbn [mbind option_bind]. eexists _, (ghost_drain G). split; [done|].
    split; [|done].
    eapply step_ok_trans; [exact Hok|].
    assert (Inv st1 (ghost_drain G)) as HI1 by apply Hok.
    split; [by apply (Inv_ext st1)|]. split; [done|]. split; [done|].
    intros _. by apply fate_ext.
  - exists st, G. split; [done|]. split; [by apply step_ok_refl|done].
Qed.

(** ** _profile_thread_finalize *)

Lemma thread_finalize_loop_S fuel e last_block st :
  get_thread_profile_block st (thread_id e) ≠ 0 →
  _profile_thread_finalize_loop (S fuel) e last_block st =
    let block_index := get_thread_profile_block st (thread_id e) in
    let st := log_message (LogThreadCleanup block_index) st in
    if last_block =? block_index then Some (log_message (LogSelfReference block_index) st)
    else
      st ← profile_end_block e st;
      _profile_thread_finalize_loop fuel e block_index st.
Proof.
  intros H. cbn [_profile_thread_finalize_loop].
  by destruct (Z.eqb_spec (get_thread_profile_block st (thread_id e)) 0).
Qed.

Lemma thread_finalize_loop_0 fuel e last_block st :
  get_thread_profile_block st (thread_id e) = 0 →
  _profile_thread_finalize_loop fuel e last_block st = Some st.
Proof. intros H. destruct fuel; cbn [_profile_thread_finalize_loop]; by rewrite H. Qed.

Lemma log_message_ok T m st G : Inv st G → step_ok T st G (log_message m st) G.
Proof.
  intros HI. split; [by apply (Inv_ext st)|]. split; [done|]. split; [done|].
  intros _. by apply fate_ext.
Qed.

Lemma thread_finalize_loop_spec T e : ∀ fuel st G last_block,
  Inv st G → T (i64 (time_current e - _profile_ground_time st)) →
  (open_depth G (thread_id e) + 1 < fuel)%nat →
  ∃ st' G', _profile_thread_finalize_loop fuel e last_block st = Some st' ∧
    step_ok T st G st' G' ∧ _profile_enable st' = _profile_enable st ∧
    (_profile_enable st ≠ 0 →
       (∀ o, g_open G (thread_id e) = Some o → last_block ≠ o_cur o) →
       get_thread_profile_block st' (thread_id e) = 0).
Proof.
  induction fuel as [|fuel IH]; intros st G last_block HI HT Hfuel; [lia|].
  destruct (decide (get_thread_profile_block st (thread_id e) = 0)) as [Hcur|Hcur].
  { rewrite thread_finalize_loop_0 by done. exists st, G.
    split; [done|]. split; [by apply step_ok_refl|]. done. }
  rewrite thread_finalize_loop_S by done. cbv zeta.
  set (b := get_thread_profile_block st (thread_id e)) in *.
  set (st0 := log_message (LogThreadCleanup b) st).
  pose proof (log_message_ok T (LogThreadCleanup b) st G HI) as Hok0. fold st0 in Hok0.
  assert (Inv st0 G) as HI0 by apply Hok0.
  destruct (Inv_open _ _ _ HI Hcur) as (o & Ho & Hoc & _). fold b in Hoc.
  destruct (Z.eqb_spec last_block b) as [Hlast|Hlast].
  { eexists _, G. split; [done|]. split.
    - eapply step_ok_trans; [exact Hok0|]. by apply log_message_ok.
    - split; [done|]. intros _ Hne. exfalso. apply (Hne o Ho). congruence. }
  destruct (end_block_spec T e st0 G HI0 HT)
    as (st1 & G1 & -> & HI1 & Hf1 & Hq1 & Hd1 & Hsame & Ht1 & Hc1).
  cbn [mbind option_bind].
  destruct (decide (_profile_enable st = 0)) as [Hen|Hen].
  - (* disabled: nothing has ended, and the same block is met again *)
    destruct (Hsame (or_introl Hen)) as [-> ->].
    destruct fuel as [|fuel]; [unfold open_depth in Hfuel; rewrite Ho in Hfuel;
                                simpl in Hfuel; lia|].
    rewrite thread_finalize_loop_S by done. cbv zeta.
    change (get_thread_profile_block st0 (thread_id e)) with b.
    rewrite Z.eqb_refl.
    eexists _, G. split; [done|]. split.
    + eapply step_ok_trans; [exact Hok0|].
      eapply step_ok_trans; [by apply log_message_ok|]. apply log_message_ok.
      by apply (Inv_ext st0).
    + split; [done|]. done.
  - assert (open_depth G1 (thread_id e) < open_depth G (thread_id e))%nat as Hlt.
    { apply Hd1; [done|]. by rewrite Ho. }
    destruct (IH st1 G1 b HI1) as (st2 & G2 & Hrun & Hok2 & Hen2 & Hclosed).
    { by rewrite (fate_ground _ _ _ _ _ Hf1). }
    { lia. }
    rewrite Hrun. exists st2, G2. split; [done|]. split.
    + eapply step_ok_trans; [exact Hok0|].
      eapply step_ok_trans; [exact (step_ok_quiet T _ _ _ _ HI1 Hf1)|]. exact Hok2.
    + destruct Hq1 as (Hen1 & _). split; [by rewrite Hen2, Hen1|].
      intros _ _. apply Hclosed; [by rewrite Hen1|].
      intros o1 Ho1 Heq. apply (Hc1 Hen o Ho). rewrite Ho1. cbn [open_blocks].
      unfold otree_open. rewrite Hoc, Heq. by left.
Qed.

Lemma thread_finalize_spec T e st G :
  Inv st G → T (i64 (time_current e - _profile_ground_time st)) →
  ∃ st' G', _profile_thread_finalize e st = Some st' ∧
    step_ok T st G st' G' ∧ _profile_enable st' = _profile_enable st ∧
    (_profile_enable st ≠ 0 → get_thread_profile_block st' (thread_id e) = 0).
Proof.
  intros HI HT. unfold _profile_thread_finalize.
  destruct (thread_finalize_loop_spec T e (S (S (length (_profile_blocks st)))) st G 0 HI HT)
    as (st' & G' & Hrun & Hok & Hen & Hclosed).
  { pose proof (Inv_open_depth st G (thread_id e) HI). lia. }
  exists st', G'. split; [done|]. split; [done|]. split; [done|].
  intros Hne. apply Hclosed; [done|]. intros o Ho Heq.
  pose proof (inv_open _ _ HI (thread_id e)) as Hopen. rewrite Ho in Hopen.
  destruct Hopen as [_ [Hup _]]. apply open_up_cur_nonzero in Hup. congruence.
Qed.

(** ** profile_finalize *)

Lemma finalize_count_total F : ∀ fuel blocks i n st,
  lseg blocks i F 0 → (length F ≤ fuel)%nat →
  ∃ n' msgs, finalize_count fuel blocks i n st = Some (n', set_messages msgs st).
Proof.
  induction F as [|s F IH]; intros fuel blocks i n st Hl Hfuel.
  - simpl in Hl. subst i. exists n, (messages st). destruct fuel; simpl; by destruct st.
  - destruct Hl as (-> & Hs0 & b & Hb & Hl).
    destruct fuel as [|fuel]; [simpl in Hfuel; lia|]. simpl in Hfuel.
    cbn [finalize_count]. destruct (Z.eqb_spec s 0); [done|].
    rewrite Hb. cbn [mbind option_bind].
    destruct (IH fuel blocks (child b) (u64 (n + 1))
                (if sibling b =? 0 then st else log_message (LogBlockHasSibling s) st) Hl)
      as (n' & msgs & Hrun); [lia|].
    rewrite Hrun. exists n', msgs. by destruct (sibling b =? 0).
Qed.

Lemma Inv_reset st G st' :
  Inv st G → _profile_blocks st' = _profile_blocks st →
  profile_block_tls st' = profile_block_tls st →
  Z.land (_profile_free st') 65535 = 0 → _profile_root st' = 0 →
  Inv st' (ghost_reset G).
Proof.
  intros [H1 H2 H3 H4 H5 H6 H7] Hb Ht Hf Hr.
  constructor; unfold local_slots in *; cbn [ghost_reset g_free g_root g_open slots app];
    rewrite ?Hb; try done.
  - intros tid. specialize (H4 tid). unfold get_thread_profile_block in *. by rewrite Ht.
  - intros tid. specialize (H5 tid). apply NoDup_app in H5 as (_ & _ & H5).
    by apply NoDup_app in H5 as (_ & _ & ?).
  - intros tid s Hs. apply (H7 tid). rewrite !elem_of_app. auto.
Qed.

Lemma finalize_ok T e st G :
  Inv st G → T (i64 (time_current e - _profile_ground_time st)) →
  ∃ st' G', profile_finalize e st = Some st' ∧ step_ok T st G st' G' ∧
    _profile_root st' = 0 ∧ _profile_free st' = 0 ∧ _profile_num_blocks st' = 0.
Proof.
  intros HI HT. unfold profile_finalize.
  destruct (enable_ok T false 0 st G HI) as (st1 & G1 & -> & Hok1 & _).
  cbn [mbind option_bind].
  assert (Inv st1 G1) as HI1 by apply Hok1.
  assert (∃ st2 G2, (if io_thread st1 is Some _ then _profile_io_exit st1 else Some st1)
                      = Some st2 ∧ step_ok T st1 G1 st2 G2) as (st2 & G2 & -> & Hok2).
  { destruct (io_thread st1).
    - destruct (io_exit_ok T st1 G1 HI1) as (st2 & Hrun & Hok & _). eauto.
    - exists st1, G1. split; [done|]. by apply step_ok_refl. }
  cbn [mbind option_bind].
  assert (Inv st2 G2) as HI2 by apply Hok2.
  destruct (thread_finalize_spec T e st2 G2 HI2) as (st3 & G3 & -> & Hok3 & _).
  { destruct Hok2 as (_ & _ & -> & _). by destruct Hok1 as (_ & _ & -> & _). }
  cbn [mbind option_bind].
  assert (Inv st3 G3) as HI3 by apply Hok3.
  destruct (drain_ok T st3 G3 HI3) as (st4 & -> & Hok4 & _ & _ & Hroot4 & _).
  cbn [mbind option_bind]. cbv zeta. rewrite Hroot4. cbn [Z.eqb].
  assert (Inv st4 (ghost_drain G3)) as HI4 by apply Hok4.
  destruct (finalize_count_total (g_free (ghost_drain G3)) (S (length (_profile_blocks st4)))
              (_profile_blocks st4) (Z.land (_profile_free st4) 65535) 0 st4)
    as (n' & msgs & ->).
  { apply (inv_free _ _ HI4). }
  { etrans; [|apply Nat.le_succ_diag_r]. apply NoDup_slots_length.
    - apply (Inv_free_nodup _ _ HI4).
    - intros j Hj. destruct (lseg_elem_range _ _ _ _ (inv_free _ _ HI4) j Hj) as [? [b Hb]].
      apply GET_BLOCK_range in Hb. lia. }
  cbn [mbind option_bind].
  eexists _, (ghost_reset (ghost_drain G3)). split; [done|].
  split; [|done].
  eapply step_ok_trans; [exact Hok1|]. eapply step_ok_trans; [exact Hok2|].
  eapply step_ok_trans; [exact Hok3|]. eapply step_ok_trans; [exact Hok4|].
  split.
  { apply (Inv_reset st4); try done.
    - by repeat case_match.
    - by repeat case_match. }
  split; [by repeat case_match|]. split; [by repeat case_match|].
  intros _. apply (fate_ghost_ext T st4 _ _ (ghost_drain G3)); [done|done|].
  apply fate_ext; by repeat case_match.
Qed.

(** ** Runs *)

Lemma step_spec T o st G :
  Inv st G → (∀ t, op_time o = Some t → T (i64 (t - _profile_ground_time st))) →
  ∃ st' G', step o st = Some st' ∧ step_ok T st G st' G'.
Proof.
  intros HI HT. destruct o as [enable ticks|e msg|e|e|e counter|k e msg|e|e]; cbn [step].
  - destruct (enable_ok T enable ticks st G HI) as (st' & G' & ? & ? & _). eauto.
  - destruct (begin_block_quiet T e msg (Z.of_nat (length msg)) st G HI)
      as (st' & G' & ? & HI' & Hf & _).
    exists st', G'. split; [done|]. by apply step_ok_quiet.
  - destruct (update_block_spec T e st G HI) as (st' & G' & ? & HI' & Hf & _).
    { by apply HT. }
    exists st', G'. split; [done|]. by apply step_ok_quiet.
  - destruct (end_block_spec T e st G HI) as (st' & G' & ? & HI' & Hf & _).
    { by apply HT. }
    exists st', G'. split; [done|]. by apply step_ok_quiet.
  - destruct (end_frame_spec T e counter st G HI) as (st' & G' & ? & HI' & Hf & _).
    exists st', G'. split; [done|]. by apply step_ok_quiet.
  - destruct (profile_message_spec T e (message_id k) msg (Z.of_nat (length msg)) st G HI)
      as (st' & G' & ? & HI' & Hf & _).
    exists st', G'. split; [done|]. by apply step_ok_quiet.
  - destruct (io_iteration_spec T e st G HI) as (st' & G' & ? & ? & _).
    { by apply HT. }
    eauto.
  - destruct (finalize_ok T e st G HI) as (st' & G' & ? & ? & _).
    { by apply HT. }
    eauto.
Qed.

Lemma run_spec T ops : ∀ st G,
  Inv st G → end_values T (_profile_ground_time st) ops →
  ∃ st' G', run ops st = Some st' ∧ step_ok T st G st' G'.
Proof.
  induction ops as [|o ops IH]; intros st G HI HT.
  { exists st, G. split; [done|]. by apply step_ok_refl. }
  apply Forall_cons in HT as [HTo HT].
  destruct (step_spec T o st G HI HTo) as (st1 & G1 & Hrun1 & Hok1).
  cbn [run]. rewrite Hrun1. cbn [mbind option_bind].
  destruct (IH st1 G1) as (st2 & G2 & Hrun2 & Hok2).
  { apply Hok1. }
  { destruct Hok1 as (_ & _ & -> & _). exact HT. }
  exists st2, G2. split; [done|]. by eapply step_ok_trans.
Qed.

(** ** The operations on small pools *)

Lemma Inv_fresh st F :
  is_Some (GET_BLOCK (_profile_blocks st) 0) →
  lseg (_profile_blocks st) (Z.land (_profile_free st) 65535) F 0 →
  NoDup F → (∀ j, j ∈ F → j < 65536) →
  _profile_root st = 0 → profile_block_tls st = ∅ →
  Inv st {| g_free := F; g_root := Leaf; g_open := λ _, None |}.
Proof.
  intros H0 Hl Hnd Hb Hr Ht.
  constructor; cbn [g_free g_root g_open].
  - done.
  - done.
  - rewrite Hr. done.
  - intros tid. unfold get_thread_profile_block. by rewrite Ht, lookup_empty.
  - intros tid. unfold local_slots. cbn. by rewrite app_nil_r.
  - intros t1 t2 _. cbn. set_solver.
  - intros tid s. unfold local_slots. cbn. rewrite app_nil_r. apply Hb.
Qed.

Lemma Inv_idle st F R :
  is_Some (GET_BLOCK (_profile_blocks st) 0) →
  lseg (_profile_blocks st) (Z.land (_profile_free st) 65535) F 0 →
  shaped (_profile_blocks st) (_profile_root st) R →
  NoDup (F ++ slots R) → (∀ j, j ∈ F ++ slots R → j < 65536) →
  profile_block_tls st = ∅ →
  Inv st {| g_free := F; g_root := R; g_open := λ _, None |}.
Proof.
  intros H0 Hl Hs Hnd Hb Ht.
  constructor; cbn [g_free g_root g_open].
  - done.
  - done.
  - done.
  - intros tid. unfold get_thread_profile_block. by rewrite Ht, lookup_empty.
  - intros tid. unfold local_slots. cbn. by rewrite app_nil_r.
  - intros t1 t2 _. cbn. set_solver.
  - intros tid s. unfold local_slots. cbn. rewrite app_nil_r. apply Hb.
Qed.

Lemma Inv_state_free3e : Inv state_free3e ghost_free3.
Proof.
  apply Inv_fresh.
  - by eexists.
  - repeat (simpl; first [done | split | eexists]).
  - compute_done.
  - intros j Hj. set_unfold. lia.
  - reflexivity.
  - reflexivity.
Qed.

Lemma Inv_state_open1 : Inv state_open1 ghost_open1.
Proof.
  destruct (begin_block_root (λ _, True) env1 (bytes_A 3) 3 state_free3e ghost_free3 1 [2; 3]
              Inv_state_free3e) as (st' & Hrun & HI & _); [done..|].
  unfold state_open1. rewrite Hrun. exact HI.
Qed.

(** What a quiet step does to the payloads: with nothing written, a closed
    record stays closed with its payload, and an open record stays open
    with its payload or has been closed with an end value of [T]. *)
Lemma fate_nothing_written T st G st' G' :
  fate T st G st' G' → sink st' = sink st →
  (∀ s d, is_closed G s → payload st s = Some d →
          is_closed G' s ∧ payload st' s = Some d) ∧
  (∀ s d, is_open G s → payload st s = Some d →
          (is_open G' s ∧ payload st' s = Some d) ∨
          ∃ v, T v ∧ is_closed G' s ∧ payload st' s = Some (with_end v d)).
Proof.
  intros [_ _ (out & Hsink & Hc & Ho)] Hsame.
  assert (out = []) as ->.
  { rewrite Hsame in Hsink. rewrite <- (app_nil_r (sink st)) in Hsink at 1.
    by apply app_inv_head in Hsink. }
  assert (∀ s d, ¬ first_written s d []) as Hnone.
  { intros s d (o1 & b & o2 & Heq & _). by destruct o1. }
  split.
  - intros s d Hs Hd. destruct (Hc s d Hs Hd) as [(? & ? & _)|Hw]; [done|].
    by apply Hnone in Hw.
  - intros s d Hs Hd. destruct (Ho s d Hs Hd) as [(? & ? & _)|(v & Hv & Hcase)]; [by left|].
    right. exists v. split; [done|].
    destruct Hcase as [(? & ? & _)|Hw]; [done|]. by apply Hnone in Hw.
Qed.

(** X11.  [profile_begin_block] with profiling enabled and a free record:
    the head [s] of the free list becomes the calling thread's current
    block, under the block that was current (as its first child, with that
    block's id as parentid) or as an outermost block with parentid 0.  Its
    payload is the next value of the counter as id, the CPU, the thread,
    the start tick relative to the ground time, and the name copied from
    the message.  The shape invariant is kept, nothing is written, the root
    list is untouched, and every record that was closed or open keeps its
    state and its payload. *)
Theorem X11_begin_block e message len st G s F :
  Inv st G → _profile_enable st ≠ 0 → g_free G = s :: F →
  ∃ st',
    profile_begin_block e message len st = Some st' ∧
    Inv st' {| g_free := F; g_root := g_root G;
               g_open := λ t, if decide (t = thread_id e)
                              then Some (otree_begin s (g_open G (thread_id e)))
                              else g_open G t |} ∧
    get_thread_profile_block st' (thread_id e) = s ∧
    payload st' s = Some (begin_data (next_counter st) (parent_id_of st (thread_id e)) e
                            (_profile_ground_time st) message len zero_data) ∧
    _profile_counter st' = next_counter st ∧
    sink st' = sink st ∧ _profile_root st' = _profile_root st ∧
    (∀ j d, is_closed G j → payload st j = Some d → payload st' j = Some d) ∧
    (∀ j d, is_open G j → payload st j = Some d → payload st' j = Some d).
Proof.
  intros HI Hen HF.
  destruct (begin_block_spec (λ _, False) e message len st G HI)
    as (st' & G' & Hrun & HI' & Hfate & _ & _ & Hroot & Hgr & Hother & Hsink & _ & Hres).
  unfold begin_result in Hres. rewrite HF in Hres.
  destruct (Hres Hen) as (HF' & Ho' & Hcnt & Hpay).
  assert (Inv st' {| g_free := F; g_root := g_root G;
                     g_open := λ t, if decide (t = thread_id e)
                                    then Some (otree_begin s (g_open G (thread_id e)))
                                    else g_open G t |}) as HI''.
  { apply (Inv_ghost_ext st' G'); cbn [g_free g_root g_open]; [done|done| |done].
    intros t. destruct (decide (t = thread_id e)) as [->|Ht]; [done|].
    symmetry. by apply Hother. }
  exists st'. split; [done|]. split; [done|].
  split.
  { pose proof (inv_open _ _ HI' (thread_id e)) as Hopen. rewrite Ho' in Hopen.
    destruct Hopen as [-> _]. by destruct (g_open G (thread_id e)). }
  split; [done|]. split; [done|]. split; [done|]. split; [done|].
  destruct (fate_nothing_written _ _ _ _ _ Hfate Hsink) as [Hc Ho].
  split.
  - intros j d Hj Hd. by destruct (Hc j d Hj Hd).
  - intros j d Hj Hd. destruct (Ho j d Hj Hd) as [[_ ?]|(v & [] & _)]. done.
Qed.

Lemma X11_begin_block_witness :
  ∃ st', profile_begin_block env1 (bytes_A 3) 3 state_free3e = Some st' ∧
    get_thread_profile_block st' 7 = 1 ∧
    payload st' 1 = Some (begin_data 1 0 env1 0 (bytes_A 3) 3 zero_data).
Proof.
  destruct (X11_begin_block env1 (bytes_A 3) 3 state_free3e ghost_free3 1 [2; 3])
    as (st' & Hrun & _ & Hcur & Hpay & _).
  - exact Inv_state_free3e.
  - vm_compute. discriminate.
  - reflexivity.
  - exists st'. split; [exact Hrun|]. split; [exact Hcur|exact Hpay].
Defined.

(** X12.  [profile_begin_block] drops the span when profiling is disabled
    or the pool is exhausted: no record, head, thread-local or counter
    changes and nothing is written; at most the one-time exhaustion
    diagnostic is logged. *)
Theorem X12_begin_block_dropped e message len st G :
  Inv st G → _profile_enable st = 0 ∨ g_free G = [] →
  ∃ st', profile_begin_block e message len st = Some st' ∧ Inv st' G ∧
    _profile_blocks st' = _profile_blocks st ∧
    profile_block_tls st' = profile_block_tls st ∧
    _profile_root st' = _profile_root st ∧
    _profile_counter st' = _profile_counter st ∧
    sink st' = sink st ∧
    (_profile_enable st = 0 → st' = st).
Proof.
  intros HI Hcase.
  destruct (begin_block_disabled (λ _, True) e message len st G HI Hcase)
    as (st' & Hrun & HI' & _ & _ & _ & Hr & Hc & Ht & Hb & Hs).
  exists st'. split; [done|]. split; [done|]. split; [done|]. split; [done|].
  split; [done|]. split; [done|]. split; [done|].
  intros Hen. unfold profile_begin_block in Hrun.
  rewrite Hen in Hrun. cbn [Z.eqb] in Hrun. congruence.
Qed.

Lemma X12_begin_block_dropped_witness :
  profile_begin_block env1 (bytes_A 3) 3 state_free3 = Some state_free3.
Proof.
  destruct (X12_begin_block_dropped env1 (bytes_A 3) 3 state_free3 ghost_free3)
    as (st' & Hrun & _ & _ & _ & _ & _ & _ & Hsame).
  - apply (Inv_ext state_free3e); try reflexivity. exact Inv_state_free3e.
  - left. reflexivity.
  - rewrite Hrun. f_equal. by apply Hsame.
Defined.

(** X13.  [profile_end_block] with profiling enabled and an open block: the
    call returns, the thread has fewer open blocks than before, and the
    block that was current is closed with the end tick of the call
    (relative to the ground time) stored in its payload.  Nothing is
    written, the other threads' open blocks are untouched, and closed
    records stay closed with their payload. *)
Theorem X13_end_block e st G o :
  Inv st G → _profile_enable st ≠ 0 → g_open G (thread_id e) = Some o →
  ∃ st' G', profile_end_block e st = Some st' ∧ Inv st' G' ∧
    sink st' = sink st ∧
    (open_depth G' (thread_id e) < open_depth G (thread_id e))%nat ∧
    (∀ t, t ≠ thread_id e → g_open G' t = g_open G t) ∧
    (∀ d, payload st (o_cur o) = Some d →
       is_closed G' (o_cur o) ∧
       payload st' (o_cur o) =
         Some (with_end (i64 (time_current e - _profile_ground_time st)) d)) ∧
    (∀ j d, is_closed G j → payload st j = Some d →
       is_closed G' j ∧ payload st' j = Some d).
Proof.
  intros HI Hen Ho.
  destruct (end_block_spec (λ v, v = i64 (time_current e - _profile_ground_time st))
              e st G HI eq_refl)
    as (st' & G' & Hrun & HI' & Hfate & Hq & Hdepth & _ & _ & Hgone).
  destruct Hq as (_ & _ & Hsink & _ & Hother).
  exists st', G'. split; [done|]. split; [done|]. split; [done|].
  split; [apply Hdepth; [done|by rewrite Ho]|]. split; [done|].
  destruct (fate_nothing_written _ _ _ _ _ Hfate Hsink) as [Hc Hop].
  split; [|done].
  intros d Hd.
  assert (is_open G (o_cur o)) as Hopen.
  { exists (thread_id e), o. split; [done|]. unfold otree_open. apply elem_of_cons. by left. }
  destruct (Hop _ _ Hopen Hd) as [[Hstill _]|(v & -> & Hcl & Hp)]; [|done].
  exfalso. destruct Hstill as (t & o' & Ho' & Hin).
  destruct (decide (t = thread_id e)) as [->|Hne].
  - apply (Hgone Hen o Ho). by rewrite Ho'.
  - rewrite (Hother t Hne) in Ho'. apply Hne.
    apply (open_in_one_tree st G t (thread_id e) (o_cur o) HI).
    + rewrite Ho'. simpl. by apply otree_open_slots.
    + rewrite Ho. simpl. apply otree_open_slots. unfold otree_open.
      apply elem_of_cons. by left.
Qed.

Lemma X13_end_block_witness :
  ∃ st', profile_end_block (env_at 7 0 70) state_open1 = Some st' ∧
    payload st' 1 = Some (with_end 70 (begin_data 1 0 env1 0 (bytes_A 3) 3 zero_data)).
Proof.
  destruct (X13_end_block (env_at 7 0 70) state_open1 ghost_open1 (otree_begin 1 None))
    as (st' & G' & Hrun & _ & _ & _ & _ & Hcur & _).
  - exact Inv_state_open1.
  - vm_compute. discriminate.
  - reflexivity.
  - exists st'. split; [exact Hrun|].
    destruct (Hcur (begin_data 1 0 env1 0 (bytes_A 3) 3 zero_data)) as [_ Hp].
    + reflexivity.
    + exact Hp.
Defined.



(** X15.  [profile_end_frame] with profiling enabled and a free record: the
    head [s] of the free list gets the payload of the event (id
    PROFILE_ID_ENDFRAME, the CPU, the thread, the tick relative to the
    ground time, the frame counter in the end field) and is published as a
    closed record: the first child of the calling thread's current block,
    or the first record of the root list when the thread has no open block.
    The thread's current block does not change and nothing is written. *)
Theorem X15_end_frame e counter st G s F :
  Inv st G → _profile_enable st ≠ 0 → g_free G = s :: F →
  ∃ st', profile_end_frame e counter st = Some st' ∧
    Inv st' (ghost_put (thread_id e) s [] F G) ∧
    payload st' s = Some (end_frame_data e (_profile_ground_time st) counter zero_data) ∧
    get_thread_profile_block st' (thread_id e) = get_thread_profile_block st (thread_id e) ∧
    sink st' = sink st.
Proof.
  intros HI Hen HF.
  destruct (end_frame_spec (λ _, False) e counter st G HI)
    as (st' & G' & Hrun & HI' & _ & Hq & Hput & _).
  destruct (Hput Hen s F HF) as [-> Hpay].
  exists st'. split; [done|]. split; [done|]. split; [done|].
  split; [|apply Hq].
  pose proof (inv_open _ _ HI (thread_id e)) as H1.
  pose proof (inv_open _ _ HI' (thread_id e)) as H2.
  unfold ghost_put in H2. cbn [g_open] in H2.
  destruct (decide (thread_id e = thread_id e)); [|done].
  destruct (g_open G (thread_id e)) as [o|]; simpl in H2.
  - destruct H1 as [-> _]. by destruct H2 as [-> _].
  - congruence.
Qed.

Lemma X15_end_frame_witness :
  ∃ st', profile_end_frame env1 42 state_free3e = Some st' ∧
    payload st' 1 = Some (end_frame_data env1 0 42 zero_data).
Proof.
  destruct (X15_end_frame env1 42 state_free3e ghost_free3 1 [2; 3])
    as (st' & Hrun & _ & Hpay & _).
  - exact Inv_state_free3e.
  - vm_compute. discriminate.
  - reflexivity.
  - exists st'. split; [exact Hrun|exact Hpay].
Defined.

(** ** The records of a message *)










(** X17.  A message operation with profiling enabled and enough free
    records for all its segments: the records are taken from the front of
    the free list in order, hold the payloads of the segments in order, and
    are published as one closed record, the master, with the continuation
    records chained below it through their child links: the first child of
    the calling thread's current block, or the first record of the root
    list when the thread has no open block.  Nothing is written. *)
Theorem X17_message_published e kind message len st G :
  Inv st G → _profile_enable st ≠ 0 →
  (length (message_records kind e (_profile_ground_time st) (_profile_counter st)
             message len) ≤ length (g_free G))%nat →
  ∃ st' m L' F2,
    profile_message kind e message len st = Some st' ∧
    g_free G = (m :: L') ++ F2 ∧
    Inv st' (ghost_put (thread_id e) m L' F2 G) ∧
    Forall2 (λ j d, payload st' j = Some d) (m :: L')
      (message_records kind e (_profile_ground_time st) (_profile_counter st) message len) ∧
    sink st' = sink st.
Proof.
  intros HI Hen Hroom. unfold profile_message.
  destruct (Z.eqb_spec (_profile_enable st) 0); [done|].
  destruct (put_message_block_spec (λ _, False) e kind message len st G HI)
    as (st' & G' & Hrun & HI' & _ & Hq & Hpub & _).
  destruct (Hpub Hroom) as (m & L' & F2 & HF & -> & Hrecs).
  exists st', m, L', F2. split; [done|]. split; [done|]. split; [done|].
  split; [done|]. apply Hq.
Qed.

Lemma X17_message_published_witness :
  ∃ st' m L' F2,
    profile_message PROFILE_ID_LOGMESSAGE env1 (bytes_A 30) 30 state_free3e = Some st' ∧
    [1; 2; 3] = (m :: L') ++ F2 ∧
    Forall2 (λ j d, payload st' j = Some d) (m :: L')
      (message_records PROFILE_ID_LOGMESSAGE env1 0 0 (bytes_A 30) 30).
Proof.
  destruct (X17_message_published env1 PROFILE_ID_LOGMESSAGE (bytes_A 30) 30
              state_free3e ghost_free3)
    as (st' & m & L' & F2 & Hrun & HF & _ & Hrecs & _).
  - exact Inv_state_free3e.
  - vm_compute. discriminate.
  - vm_compute. lia.
  - exists st', m, L', F2. split; [exact Hrun|]. split; [exact HF|exact Hrecs].
Defined.

(** X18.  A message operation with profiling enabled and fewer free records
    than the message has segments: nothing is published.  The root list,
    every thread's current block and the sink are as before and every
    closed or open record keeps its payload, but the free list is left
    empty: the records taken for the first segments are not given back. *)
Theorem X18_message_exhausted e kind message len st G :
  Inv st G → _profile_enable st ≠ 0 →
  (length (g_free G) <
   length (message_records kind e (_profile_ground_time st) (_profile_counter st)
             message len))%nat →
  ∃ st',
    profile_message kind e message len st = Some st' ∧
    Inv st' (ghost_leak (thread_id e) G) ∧
    Z.land (_profile_free st') 65535 = 0 ∧
    _profile_root st' = _profile_root st ∧
    profile_block_tls st' = profile_block_tls st ∧
    sink st' = sink st ∧
    (∀ j d, is_closed G j → payload st j = Some d → payload st' j = Some d) ∧
    (∀ j d, is_open G j → payload st j = Some d → payload st' j = Some d).
Proof.
  intros HI Hen Hshort. unfold profile_message.
  destruct (Z.eqb_spec (_profile_enable st) 0); [done|].
  destruct (put_message_block_spec (λ _, False) e kind message len st G HI)
    as (st' & G' & Hrun & HI' & Hfate & Hq & _ & Hleak).
  destruct (Hleak Hshort) as (-> & Hroot & Htls).
  assert (sink st' = sink st) as Hsink by apply Hq.
  exists st'. split; [done|]. split; [done|].
  split; [exact (inv_free _ _ HI')|].
  split; [done|]. split; [done|]. split; [done|].
  destruct (fate_nothing_written _ _ _ _ _ Hfate Hsink) as [Hc Ho].
  split.
  - intros j d Hj Hd. by destruct (Hc j d Hj Hd).
  - intros j d Hj Hd. destruct (Ho j d Hj Hd) as [[_ ?]|(v & [] & _)]. done.
Qed.

Lemma X18_message_exhausted_witness :
  ∃ st',
    profile_message PROFILE_ID_LOGMESSAGE env1 (bytes_A 80) 80 state_free3e = Some st' ∧
    Z.land (_profile_free st') 65535 = 0 ∧ _profile_root st' = 0.
Proof.
  destruct (X18_message_exhausted env1 PROFILE_ID_LOGMESSAGE (bytes_A 80) 80
              state_free3e ghost_free3)
    as (st' & Hrun & _ & Hfree & Hroot & _).
  - exact Inv_state_free3e.
  - vm_compute. discriminate.
  - vm_compute. lia.
  - exists st'. split; [exact Hrun|]. split; [exact Hfree|exact Hroot].
Defined.

(** ** One pass of the I/O thread, in full *)

Lemma root_payload_kept st G st' G' j :
  Inv st G → fate (λ _, False) st G st' G' → sink st' = sink st →
  j ∈ slots (g_root G) →
  data <$> GET_BLOCK (_profile_blocks st') j = data <$> GET_BLOCK (_profile_blocks st) j.
Proof.
  intros HI Hfate Hsink Hj.
  destruct (Inv_local_range st G 0 j HI) as [_ [b Hb]].
  { unfold local_slots. rewrite !elem_of_app. by right; left. }
  destruct (fate_nothing_written _ _ _ _ _ Hfate Hsink) as [Hc _].
  assert (is_closed G j) as Hcl.
  { split; [by left|]. intros (t & o & Ho & Hin).
    apply (root_not_open st G t j HI Hj). rewrite Ho. simpl. by apply otree_open_slots. }
  destruct (Hc j (data b) Hcl) as [_ Hp].
  { unfold payload. by rewrite Hb. }
  unfold payload in Hp. by rewrite Hp, Hb.
Qed.

Lemma begin_block_io e message len st G :
  Inv st G →
  ∃ st' G', profile_begin_block e message len st = Some st' ∧ Inv st' G' ∧
    _profile_root st' = _profile_root st ∧ g_root G' = g_root G ∧
    sink st' = sink st ∧ io_thread st' = io_thread st ∧
    _profile_write st' = _profile_write st ∧
    (∀ j, j ∈ slots (g_root G) →
       data <$> GET_BLOCK (_profile_blocks st') j = data <$> GET_BLOCK (_profile_blocks st) j).
Proof.
  intros HI.
  destruct (begin_block_spec (λ _, False) e message len st G HI)
    as (st' & G' & Hrun & HI' & Hfate & _ & Hio & Hroot & Hgr & _ & Hsink & _).
  exists st', G'. split; [done|]. split; [done|]. split; [done|]. split; [done|].
  split; [done|]. split; [done|].
  split; [apply (fate_write _ _ _ _ _ Hfate)|].
  intros j Hj. by apply (root_payload_kept st G st' G').
Qed.

Lemma end_block_io e st G :
  Inv st G →
  ∃ st' G', profile_end_block e st = Some st' ∧ Inv st' G' ∧
    sink st' = sink st ∧ io_thread st' = io_thread st ∧
    _profile_write st' = _profile_write st.
Proof.
  intros HI.
  destruct (end_block_spec (λ _, True) e st G HI I)
    as (st' & G' & Hrun & HI' & Hfate & (_ & Hio & Hsink & _) & _).
  exists st', G'. split; [done|]. split; [done|]. split; [done|]. split; [done|].
  apply (fate_write _ _ _ _ _ Hfate).
Qed.

(** X19.  One pass of the loop of [_profile_io] over a root list that is
    not empty: the writer receives one record for every slot of the root
    list, the tree of each top record in turn, each with the payload the
    slot had before the pass, and after them the system-info record when
    the pass counter was above 10; nothing when the writer is unset.  The
    pass counter goes back to 0 when it was above 10 and is incremented
    otherwise.  The blocks the pass itself begins and ends write nothing. *)
Theorem X19_io_pass e io st G :
  Inv st G → io_thread st = Some io → _profile_root st ≠ 0 →
  ∃ st' G' out,
    _profile_io_iteration e st = Some st' ∧ Inv st' G' ∧
    emitted_payloads (_profile_write st) (_profile_blocks st) (slots (g_root G)) out ∧
    sink st' = sink st ++ out ++
      (if (system_info_counter io >? 10) && _profile_write st
       then [(None, system_info io)] else []) ∧
    io_thread st' =
      Some {| system_info_counter :=
                if system_info_counter io >? 10 then 0
                else u32 (system_info_counter io + 1);
              system_info := system_info io |}.
Proof.
  intros HI Hio Hroot. unfold _profile_io_iteration. rewrite Hio.
  destruct (Z.eqb_spec (_profile_root st) 0) as [|_]; [done|].
  destruct (begin_block_io e bytes_profile_io 10 st G HI)
    as (st1 & G1 & -> & HI1 & Hr1 & Hg1 & Hs1 & Hi1 & Hw1 & Hp1).
  cbn [mbind option_bind].
  destruct (Z.eqb_spec (_profile_root st1) 0) as [|_]; [congruence|].
  destruct (begin_block_io e bytes_process 7 st1 G1 HI1)
    as (sta & Ga & -> & HIa & Hra & Hga & Hsa & Hia & Hwa & Hpa).
  cbn [mbind option_bind].
  destruct (drain_Inv (λ _, True) sta Ga HIa)
    as (stb & out & Hrun & HIb & _ & Hsb & Hem & _ & _ & Hstb).
  destruct (Z.eqb_spec (_profile_root sta) 0) as [|_]; [congruence|].
  rewrite Hrun. cbn [mbind option_bind].
  destruct (end_block_io e stb (ghost_drain Ga) HIb)
    as (stc & Gc & -> & HIc & Hsc & Hic & Hwc).
  cbn [mbind option_bind].
  assert (Inv (system_info_step io stc) Gc) as HId.
  { apply (system_info_step_ok (λ _, True) io stc Gc HIc). }
  destruct (end_block_io e (system_info_step io stc) Gc HId)
    as (st4 & G4 & -> & HI4 & Hs4 & Hi4 & Hw4).
  assert (_profile_write stb = _profile_write sta) as Hwb by (by rewrite Hstb).
  assert (io_thread stb = io_thread sta) as Hib by (by rewrite Hstb).
  exists st4, G4, out. split; [done|]. split; [done|].
  split.
  { rewrite Hwa, Hw1, Hga, Hg1 in Hem.
    apply (emitted_payloads_ext _ _ (_profile_blocks sta)); [done|].
    intros j Hj. rewrite Hpa by (by rewrite Hg1). by apply Hp1. }
  rewrite Hs4, Hi4. unfold system_info_step, write_record.
  rewrite Hwc, Hwb, Hwa, Hw1.
  destruct (system_info_counter io >? 10), (_profile_write st);
    cbn [andb sink io_thread set_io_thread set_sink];
    rewrite ?Hsc, ?Hsb, ?Hsa, ?Hs1, ?app_nil_r, <- ?app_assoc; done.
Qed.

Lemma X19_io_pass_witness :
  ∃ st' out,
    _profile_io_iteration io_env state_io_pass = Some st' ∧
    emitted_payloads true (_profile_blocks state_io_pass) [1; 2] out ∧
    sink st' = sink state_io_pass ++ out ++ [(None, system_info_block 1000)].
Proof.
  destruct (X19_io_pass io_env
              {| system_info_counter := 11; system_info := system_info_block 1000 |}
              state_io_pass
              {| g_free := []; g_root := Node 1 (Node 2 Leaf Leaf) Leaf;
                 g_open := λ _, None |})
    as (st' & G' & out & Hrun & _ & Hem & Hsink & _).
  - apply Inv_idle.
    + by eexists.
    + reflexivity.
    + repeat (simpl; first [done | split | eexists]).
    + compute_done.
    + intros j Hj. set_unfold. lia.
    + reflexivity.
  - reflexivity.
  - vm_compute. discriminate.
  - exists st', out. split; [exact Hrun|]. split; [exact Hem|exact Hsink].
Defined.

(** ** Runs *)

Lemma profile_initialize_statics e identifier buffer size st st' :
  profile_initialize e identifier buffer size st = Some st' →
  profile_block_tls st' = <[thread_id e := 0]> (profile_block_tls st) ∧
  _profile_ground_time st' = time_current e ∧
  _profile_write st' = _profile_write st ∧
  _profile_enable st' = _profile_enable st ∧
  sink st' = sink st.
Proof.
  unfold profile_initialize. intros H.
  apply bind_Some in H as (b1 & _ & H).
  apply bind_Some in H as (b2 & _ & H).
  apply bind_Some in H as (b3 & _ & H).
  apply bind_Some in H as (b4 & _ & H).
  injection H as <-. done.
Qed.

Lemma initialize_Inv e identifier buffer size st :
  let N := Z.min (u32 (size / 64)) 65535 in
  2 ≤ N → N ≤ Z.of_nat (length buffer) →
  (∀ t, get_thread_profile_block st t = 0) →
  ∃ st', profile_initialize e identifier buffer size st = Some st' ∧
    Inv st' {| g_free := seqZ 1 (N - 1); g_root := Leaf; g_open := λ _, None |}.
Proof.
  intros N HN Hlen Htls.
  destruct (profile_initialize_blocks e identifier buffer size st)
    as (st' & Hinit & _ & Hfree & Hroot & _ & _ & Hget); [fold N; lia..|].
  fold N in Hget.
  destruct (profile_initialize_statics _ _ _ _ _ _ Hinit) as (Ht & _).
  exists st'. split; [done|].
  constructor; cbn [g_free g_root g_open].
  - destruct (Hget 0) as (b & Hb & _); [lia|]. by exists b.
  - rewrite Hfree. change (Z.land 1 65535) with 1.
    pose proof (lseg_seqZ (_profile_blocks st') N) as Hl.
    specialize (Hl ltac:(intros j Hj; destruct (Hget j) as (b & Hb & _ & Hc); [lia|];
                         exists b; split; [done|]; rewrite Hc;
                         destruct (Z.eqb_spec j 0); [lia|done])).
    specialize (Hl (Z.to_nat (N - 1)) 1 ltac:(lia) ltac:(lia)).
    destruct (Z.eqb_spec 1 N); [lia|].
    by rewrite Z2Nat.id in Hl by lia.
  - by rewrite Hroot.
  - intros tid. unfold get_thread_profile_block. rewrite Ht.
    destruct (decide (tid = thread_id e)) as [->|Hne].
    + by rewrite lookup_insert_eq.
    + rewrite lookup_insert_ne by done. apply Htls.
  - intros tid. unfold local_slots. cbn. rewrite app_nil_r. apply NoDup_seqZ.
  - intros t1 t2 _. cbn. set_solver.
  - intros tid s. unfold local_slots. cbn. rewrite app_nil_r.
    intros Hs%elem_of_seqZ. lia.
Qed.

Lemma end_values_True ground ops : end_values (λ _, True) ground ops.
Proof. by apply Forall_forall. Qed.


(** X20.  Once [profile_initialize] has set up a pool of at least two
    records, every sequence of operations of the interface (enabling and
    disabling, the producer operations of any threads in any interleaving
    of whole operations, passes of the I/O thread, [profile_finalize])
    returns: no operation reads or writes outside the pool and no walk over
    the links fails to end.  The shape invariant holds after the run: the
    free list, the root list and the threads' open trees are chains and
    trees over disjoint records. *)
Theorem X20_run_safe e identifier buffer size st ops :
  2 ≤ Z.min (u32 (size / 64)) 65535 →
  Z.min (u32 (size / 64)) 65535 ≤ Z.of_nat (length buffer) →
  (∀ t, get_thread_profile_block st t = 0) →
  ∃ st0 st' G',
    profile_initialize e identifier buffer size st = Some st0 ∧
    run ops st0 = Some st' ∧ Inv st' G'.
Proof.
  intros HN Hlen Htls.
  destruct (initialize_Inv e identifier buffer size st HN Hlen Htls) as (st0 & Hinit & HI).
  destruct (run_spec (λ _, True) ops st0 _ HI (end_values_True _ _))
    as (st' & G' & Hrun & HI' & _).
  by exists st0, st', G'.
Qed.

Lemma X20_run_safe_witness :
  ∃ st0 st' G',
    profile_initialize env0 [] (replicate 3 zero_block) 192 initial_state = Some st0 ∧
    run [Enable true 1000; BeginBlock env1 (bytes_A 3); Message KLog env1 (bytes_A 60);
         EndBlock (env_at 7 1 70); IoPass io_env; Finalize env0] st0 = Some st' ∧
    Inv st' G'.
Proof.
  apply (X20_run_safe env0 [] (replicate 3 zero_block) 192 initial_state).
  - vm_compute. discriminate.
  - vm_compute. discriminate.
  - intros t. reflexivity.
Defined.



(** X22.  While profiling is disabled the producer interface does nothing:
    any sequence of begin, update, end, end-of-frame and message operations
    leaves the whole state, pool and thread-locals included, as it was. *)
Theorem X22_disabled_producers_idle ops st :
  _profile_enable st = 0 → forallb producer ops = true → run ops st = Some st.
Proof.
  intros Hen. induction ops as [|o ops IH]; intros Hops; [done|].
  cbn [forallb] in Hops. apply andb_true_iff in Hops as [Ho Hops].
  assert (step o st = Some st) as Hstep.
  { destruct o; try done; cbn [step].
    - unfold profile_begin_block. by rewrite Hen.
    - unfold profile_update_block. by rewrite Hen.
    - unfold profile_end_block. cbn [profile_end_block_rec]. by rewrite Hen.
    - unfold profile_end_frame. by rewrite Hen.
    - unfold profile_message. by rewrite Hen. }
  cbn [run]. rewrite Hstep. cbn [mbind option_bind]. by apply IH.
Qed.

Lemma X22_disabled_producers_idle_witness :
  run [BeginBlock env1 (bytes_A 3); Message KLog env1 (bytes_A 60); EndFrame env1 1;
       UpdateBlock env1; EndBlock env1] state_root1 = Some state_root1.
Proof.
  apply (X22_disabled_producers_idle _ state_root1); reflexivity.
Defined.

(** ** profile_update_block after a migration *)

Lemma end_block_closes e st G o :
  Inv st G → _profile_enable st ≠ 0 → g_open G (thread_id e) = Some o →
  ∃ st' G', profile_end_block e st = Some st' ∧ Inv st' G' ∧
    quiet (thread_id e) st G st' G' ∧
    (∀ d, payload st (o_cur o) = Some d →
       is_closed G' (o_cur o) ∧
       payload st' (o_cur o) =
         Some (with_end (i64 (time_current e - _profile_ground_time st)) d)) ∧
    (∀ j d, is_closed G j → payload st j = Some d →
       is_closed G' j ∧ payload st' j = Some d).
Proof.
  intros HI Hen Ho.
  destruct (end_block_spec (λ v, v = i64 (time_current e - _profile_ground_time st))
              e st G HI eq_refl)
    as (st' & G' & Hrun & HI' & Hfate & Hq & _ & _ & _ & Hgone).
  exists st', G'. split; [done|]. split; [done|]. split; [done|].
  destruct Hq as (_ & _ & Hsink & _ & Hother).
  destruct (fate_nothing_written _ _ _ _ _ Hfate Hsink) as [Hc Hop].
  split; [|done].
  intros d Hd.
  assert (o_cur o ∈ otree_open o) as Hin0 by (unfold otree_open; apply elem_of_cons; by left).
  destruct (Hop (o_cur o) d) as [[Hstill _]|(v & -> & Hcl & Hp)]; [by exists (thread_id e), o|done| |done].
  exfalso. destruct Hstill as (t & o' & Ho' & Hin).
  destruct (decide (t = thread_id e)) as [->|Hne].
  - apply (Hgone Hen o Ho). by rewrite Ho'.
  - rewrite (Hother t Hne) in Ho'. apply Hne.
    apply (open_in_one_tree st G t (thread_id e) (o_cur o) HI).
    + rewrite Ho'. simpl. by apply otree_open_slots.
    + rewrite Ho. simpl. by apply otree_open_slots.
Qed.

(** X23.  [profile_update_block] with profiling enabled, when the current
    block of the calling thread was begun on another CPU: the block is
    closed, its end field set to the tick of the call relative to the
    ground time and its payload otherwise unchanged, before the
    continuation is begun.  The call returns, nothing is written, the open
    blocks of other threads are untouched, and closed records stay closed
    with their payload. *)
Theorem X23_update_block_migrated e st G o b :
  Inv st G → _profile_enable st ≠ 0 → g_open G (thread_id e) = Some o →
  GET_BLOCK (_profile_blocks st) (o_cur o) = Some b →
  processor (data b) ≠ u32 (thread_hardware e) →
  ∃ st' G', profile_update_block e st = Some st' ∧ Inv st' G' ∧
    sink st' = sink st ∧
    (∀ t, t ≠ thread_id e → g_open G' t = g_open G t) ∧
    is_closed G' (o_cur o) ∧
    payload st' (o_cur o) =
      Some (with_end (i64 (time_current e - _profile_ground_time st)) (data b)) ∧
    (∀ j d, is_closed G j → payload st j = Some d →
       is_closed G' j ∧ payload st' j = Some d).
Proof.
  intros HI Hen Ho Hb Hcpu. unfold profile_update_block.
  pose proof (inv_open _ _ HI (thread_id e)) as Hopen. rewrite Ho in Hopen.
  destruct Hopen as [Hcur [Hup _]]. apply open_up_cur_nonzero in Hup.
  rewrite Hcur.
  destruct (Z.eqb_spec (_profile_enable st) 0) as [|_]; [done|].
  destruct (Z.eqb_spec (o_cur o) 0) as [|_]; [done|].
  cbn [orb]. rewrite Hb. cbn [mbind option_bind].
  destruct (Z.eqb_spec (processor (data b)) (u32 (thread_hardware e))) as [|_]; [done|].
  destruct (end_block_closes e st G o HI Hen Ho)
    as (st1 & G1 & -> & HI1 & Hq1 & Hcur1 & Hcl1).
  cbn [mbind option_bind].
  destruct (Hcur1 (data b)) as [Hc1 Hp1]; [unfold payload; by rewrite Hb|].
  assert (∃ b1, GET_BLOCK (_profile_blocks st1) (o_cur o) = Some b1) as [b1 Hb1].
  { unfold payload in Hp1. destruct (GET_BLOCK (_profile_blocks st1) (o_cur o)); [eauto|done]. }
  rewrite Hb1. cbn [mbind option_bind].
  destruct (begin_block_quiet (λ _, False) e (name (data b1))
              (string_length (name (data b1))) st1 G1 HI1)
    as (st2 & G2 & Hrun & HI2 & Hfate & Hq2 & _).
  exists st2, G2. split; [done|]. split; [done|].
  destruct Hq1 as (_ & _ & Hs1 & _ & Ho1). destruct Hq2 as (_ & _ & Hs2 & _ & Ho2).
  split; [congruence|].
  split; [intros t Ht; rewrite Ho2, Ho1; done|].
  destruct (fate_nothing_written _ _ _ _ _ Hfate Hs2) as [Hc2 _].
  destruct (Hc2 _ _ Hc1 Hp1) as [Hc Hp].
  split; [done|]. split; [done|].
  intros j d Hj Hd. destruct (Hcl1 j d Hj Hd) as [Hj1 Hd1]. by apply Hc2.
Qed.

Lemma X23_update_block_migrated_witness :
  ∃ st', profile_update_block (env_at 7 1 70) state_open1 = Some st' ∧
    payload st' 1 = Some (with_end 70 (begin_data 1 0 env1 0 (bytes_A 3) 3 zero_data)).
Proof.
  destruct (X23_update_block_migrated (env_at 7 1 70) state_open1 ghost_open1
              (otree_begin 1 None)
              (with_data (begin_data 1 0 env1 0 (bytes_A 3) 3 zero_data) zero_block))
    as (st' & G' & Hrun & _ & _ & _ & _ & Hp & _).
  - exact Inv_state_open1.
  - vm_compute. discriminate.
  - reflexivity.
  - reflexivity.
  - vm_compute. discriminate.
  - exists st'. split; [exact Hrun|exact Hp].
Defined.
